(* ===== verification/_CoqProject ===== *)
-Q . S2P
Prelude.v
Effects.v
Models.v
Pipeline.v
Store.v
Crypto.v
HexUtil.v
Gsm0348.v
SmsFrame.v
GlobalPlatform.v
Decimal.v
Redis.v
RedisProps.v
ShardedCache.v
Executor.v
KeyRegistry.v
ProbeSMSC.v
Scenario.v
ExecutorLogic.v
ExecutorProps.v
ActivateProps.v
Gateway.v
StateWriter.v
StateWriterProps.v
ProbeProps.v
WebSocketHub.v
Sql.v
QueryStore.v
CampaignControl.v
ControlScenario.v
QueryStoreProps.v
Planner.v
PlannerLiveness.v
CampaignProps.v
StartProps.v
Recovery.v
Completion.v
EndToEnd.v
BatchPreload.v
CardKeyStore.v
MessageHistory.v
MessageHistoryProps.v
Api.v
Search.v
Cards.v
CardGroups.v
Profiles.v
Assets.v
ApiScenario.v
Router.v
Lists.v
Views.v
Dashboard.v
Monitoring.v
Debug.v
Integrity.v
ListProps.v
ProfileRequests.v
ProfileProps.v
CapProps.v
Requests.v
ApiProps.v
ImportProps.v
ViewProps.v
