(* ===== verification/Prelude.v ===== *)
(** * OTA platform: a verification development

    The OTA platform sends over-the-air commands to SIM cards.  A campaign is a
    list of commands (scripts for an application of the card) for many cards.
    One process runs all parts, connected by Go channels:

    - the planner (internal/planner) claims shards of activation events from the
      database and publishes them;
    - the card worker (internal/executor) turns an activation into a GSM 03.48
      secured packet (pkg/gsm0348), cuts it into SMS parts (pkg/smsframe) and
      publishes the message; delivery reports and answers of the card
      decide whether the card retries, waits, advances, completes or fails;
    - the gateway (internal/transport) submits the parts through an SMPP pool
      and turns receipts and mobile-originated messages into events;
    - writers (internal/pgstore) drain state changes and log actions into
      Postgres; the stores beside them hold the hot state of the cards, the OTA
      counters, correlations and caches in memory;
    - the control plane (internal/controlplane) serves the HTTP API: it creates
      campaigns and cards, starts, pauses, resumes and aborts campaigns; at start-up
      recovery restarts the cards of running campaigns, and a checker closes
      campaigns whose cards are done; a websocket hub tells browsers what happens;
    - pkg/globalplatform and pkg/hexutil build card-management commands.

    Beside the process stand a Redis client (internal/redis) that can take the place of the
    in-memory stores, and a controllable SMSC for integration tests (cmd/smpp-probe-smsc).

    ** Files

    - [Prelude]: Go results ([res]: value, error, panic), errors and their text,
      machine integers, slices with their bounds checks, chunks of a list.
    - [Effects]: the state-and-error monad [M] with its notation, and the
      [preserves] calculus for relations every step keeps.
    - [Models]: records of redis/state.go, db/models.go, keystore/keystore.go; the
      tables ([Database]) and the environment [Sys].
    - [Pipeline] (internal/pipeline): message types, the bus, the producers.  What
      a component sends is appended to its trace of [effect]s.
    - [Store] (internal/pgstore: coordination.go, counter_store.go,
      gateway_coordination.go, msisdn_resolver.go): the interfaces of
      executor/service.go as classes with the laws the worker relies on, and the
      process-local implementations that discharge them.
    - [Crypto]: DES, triple DES, AES, CBC and the block laws (the part of Go's
      standard library that gsm0348 uses).
    - [HexUtil] (pkg/hexutil), [Gsm0348] (pkg/gsm0348), [SmsFrame]
      (pkg/smsframe), [GlobalPlatform] (pkg/globalplatform).
    - [Decimal]: numerals as strconv prints and reads them.
    - [Redis] and [RedisProps] (redis/client.go, state.go): the client over a server given by the
      documented effects of its commands.
    - [ShardedCache] (the key cache of executor/worker.go).
    - [Executor] (executor/worker.go, helpers.go, keystore/software.go): state
      [World], every handler.  [Scenario]: a concrete campaign.  [ExecutorLogic]:
      a weakest-precondition calculus for the handlers.  [ExecutorProps] and
      [ActivateProps]: their theorems.  [KeyRegistry] (keystore/registry.go, scylla.go).
    - [ProbeSMSC] and [ProbeProps] (cmd/smpp-probe-smsc/main.go).
    - [Gateway] (transport/inprocess_gateway.go).
    - [StateWriter] and [StateWriterProps] (pgstore/card_state_writer.go).
    - [WebSocketHub] (controlplane/websocket.go): hub, pumps and broadcasts as interleaved steps.
    - [Sql]: order of UUIDs, DISTINCT ON, INSERT, gorm's transactions as a class
      [Transactional] with its laws, the table of shards.
    - [QueryStore] and [QueryStoreProps] (pgstore/query_store.go,
      execution_store.go): the state history and the campaign counters.
    - [CampaignControl], [CampaignProps], [StartProps] (controlplane/campaign.go,
      config/env.go): state [Control], the life of a campaign.  [ControlScenario]: a
      concrete campaign.
    - [Planner] and [PlannerLiveness] (planner/service.go): one cycle, many cycles.
    - [Recovery] (pgstore/recovery.go), [Completion] (the checker of
      cmd/ota-engine/main.go).  [EndToEnd]: planner, worker, gateway, writer and checker
      composed on one campaign.
    - [BatchPreload] (pgstore/batch_preload.go) fills the worker's caches and
      discharges the preloader interface of the planner; [CardKeyStore]
      (pgstore/card_key_store.go).
    - [MessageHistory] and [MessageHistoryProps] (pgstore/message_writer.go and the
      message queries of query_store.go).
    - [Api], [Cards], [CardGroups], [Profiles], [Assets] (controlplane/api.go, api_campaigns.go,
      api_cards.go, api_profiles.go, api_scripts.go, api_caps.go, db/bulk_import.go): state [Api], the
      handlers that change it.  [ApiScenario]: concrete requests.  [Router]: the routes and their keys.
      [Search], [Lists]: LIKE patterns, listings and exports.
      [Integrity], [ProfileRequests] and [Requests]: the invariant of the tables and that every request keeps
      it.  [ApiProps], [ImportProps], [ProfileProps], [CapProps], [ListProps]: what single handlers do.
    - [Views], [Dashboard], [Monitoring], [Debug], [ViewProps] (api_dashboard.go, api_monitoring.go, api_debug.go
      and the reading handlers of cards and campaigns): state [Views], with the cache of the dashboard.

    ** Correspondence

    A Go method of a stateful component is a function in [M] over a record that
    holds the component's fields (a [sync.Map] or map is a [gmap]) and the
    environment.  Names are those of the source.  Everything the program does not
    determine -- the clock, UUIDs, random numbers, failures of statements, the
    choice of a select, the rate limiter -- is an oracle of [Sys] indexed by the
    number of questions asked, so that a theorem about all [Sys] covers all
    behaviours of the environment.  Long functions are cut at their numbered steps
    (handleActivate into prepareActivate, throttleActivate, publishActivate) and
    composed as in the source.  A goroutine is a separate step ([fireRetry],
    [sweepCaches], [cleanupCorrelations]); a loop over a channel is a function
    of the sequence of cases its select takes ([RunCardStateWriter]).
    Third-party code is a parameter: the crypto provider, the SMPP pool and
    receipt parser, the codec of SMPP, the shard preloader, [uuid.Parse], gin's choice of a route, the Redis
    server; what is relied on of it is a class of laws or a hypothesis with its witness.

    ** Theorems

    - Packets and frames: what is built is unwrapped by the card side, exact
      conditions of success, totality of the parsers, reassembly in any order.
    - Worker: an activation end to end; delivery reports and answers refine a
      decision table; order of state and SMS under all faults; terminal states;
      throttling; paused campaigns.
    - Gateway: one message, one verdict, for accepted and refused parts.
    - Stores: counters never repeat, eviction is exact, multipart tracking.
    - Writer: append-only history, counters independent of batching, read back
      after a restart.
    - Planner: a cycle publishes the claimed shards once and in order; enough
      cycles publish everything.
    - Control plane: every sequence of requests keeps the integrity of the tables;
      creating a campaign is all or nothing; the operations of a campaign refine
      its state machine and aborting is final; starting creates one shard per batch of
      targets; keyset pagination visits each target once; an import accounts for each row.
    - Database: counters agree with the history; completion is sound and prompt;
      recovery restarts exactly the live cards; message rows do not depend on
      batching and pages partition a listing; written keys are read back.
    - Preloader: it keeps the planner's contract, and counters stay fresh while
      the allocation suffices.
    - Reading: every reading request is answered and changes nothing, whatever fails; the dashboard is at most two
      seconds old and its figures add up; a finished campaign is not reported as stuck; queues and the
      error summary are exact; no handler runs without the API key.
    - Profiles and assets: creating a profile is all or nothing, deleting respects its cards and campaigns, an
      uploaded CAP file is previewed as the commands that load it; searches are literal.
    - Websocket hub: no schedule makes it panic, connected clients miss nothing, leaving clients are closed.
    - Redis: the client refines a typed store, its throttle keeps the limit of a second, and it agrees with the
      process-local gateway store.
    - Probe SMSC: bodies are read back, a stream is served PDU by PDU, captures are listed once, a receipt
      reaches a client.
    - Composition: a campaign runs from its start to completion through all parts.
    - Defects: delivery reports without a step, 255 parts, repeated transition
      numbers, shards stranded by a broken one, campaigns that cannot be
      restarted or never complete, a backlog that blocks the planner, counters reused
      by retries, delivery statuses lost by a merge, a page number that panics.

    ** Bounds and fuel

    The loops of the source are structural here but these: the trimming of
    [HexUtil], the header loop of [SmsFrame] and the block loop of [GlobalPlatform]
    have the length of their input as fuel, which each round consumes; the loop over
    target pages of [CampaignControl] has the number of targets plus one, and is proved
    equal to the loop over all pages; the loop over a connection of [ProbeSMSC] has the length of the
    stream plus one, of which a PDU takes sixteen at least; the byte-wide loops of the reassembler run with
    [loopFuel] = 256 rounds, enough for every count below 255, and for 255 it is
    proved that no fuel suffices.  [int] values are plain [Z] (lengths and small
    counts); bytes, [uint32] and [int64] wrap where the source computes with them.

    ** Not modelled

    Telemetry and logging, process wiring and connections (the main function of the engine but for its checker,
    bootstrap, observability), database migrations, the load generators and the seeding tool, and cmd/mock-smsc, which
    configures a server of a third-party library: they hold no logic of their own beyond calls into code that is not
    part of the repository.  A statement is its effect on the tables, not its text; isolation levels are not
    modelled, and transactions do not overlap.  Columns that no modelled code decides on (creation times of cards
    and groups, descriptions of campaigns) are left out of the tables; an ORDER BY on such a column is a parameter.
    Quotients in [float64] are exact ratios.
    Handlers are sequential: interleavings of two handlers on the same card, and
    the window between an accepted submit and its correlation, are not covered. *)

From stdpp Require Export base decidable gmap strings list numbers pretty sorting.

#[global] Open Scope Z_scope.

(** ** Results of Go code

    A Go function that returns [(T, error)] and may panic is modelled by a
    function into [res T]: [Ok] is a nil error, [Err] a non-nil error built
    with [fmt.Errorf], [Panic] a run-time panic (an index or slice out of
    range, an explicit [panic]). *)

Inductive goerr :=
| Errorf (fmt : string) (args : list errarg)
with errarg :=
| ArgInt (z : Z)
| ArgStr (s : string)
| ArgErr (e : goerr).

(** The text of an error: the verbs of the format replaced by the arguments in
    order. The formats of this program use %d, %s, %w, %v, %T and %q only, and the
    quotes of %q are left out. *)
Fixpoint sprintf (fmt : string) (args : list string) : string :=
  match fmt with
  | EmptyString => EmptyString
  | String p tail =>
      if (Ascii.N_of_ascii p =? 37)%N then
        match tail, args with
        | String v rest, a :: args => a +:+ sprintf rest args
        | _, _ => String p tail
        end
      else String p (sprintf tail args)
  end.

Fixpoint Error (e : goerr) : string :=
  match e with
  | Errorf fmt args =>
      sprintf fmt ((fix texts (l : list errarg) : list string :=
        match l with
        | [] => []
        | ArgInt z :: l => pretty z :: texts l
        | ArgStr s :: l => s :: texts l
        | ArgErr e :: l => Error e :: texts l
        end) args)
  end.

Inductive res (A : Type) :=
| Ok (a : A)
| Err (e : goerr)
| Panic (msg : string).
Arguments Ok {A} _.
Arguments Err {A} _.
Arguments Panic {A} _.

Definition rbind {A B} (m : res A) (k : A -> res B) : res B :=
  match m with
  | Ok a => k a
  | Err e => Err e
  | Panic s => Panic s
  end.

(** [if err != nil { return nil, fmt.Errorf("...: %w", err) }] *)
Definition rwrap {A} (fmt : string) (m : res A) : res A :=
  match m with
  | Err e => Err (Errorf fmt [ArgErr e])
  | r => r
  end.

Definition is_ok {A} (m : res A) : bool :=
  match m with Ok _ => true | _ => false end.

Definition no_panic {A} (m : res A) : Prop :=
  match m with Panic _ => False | _ => True end.

Declare Scope go_scope.
Delimit Scope go_scope with go.
#[global] Open Scope go_scope.

Notation "'let!' x := m 'in' k" := (rbind m (fun x => k))
  (at level 10, x pattern, m at level 100, k at level 200,
   format "'[v' 'let!'  x  :=  m  'in' '//' k ']'") : go_scope.

Lemma rbind_ok_inv {A B} (m : res A) (k : A -> res B) b :
  rbind m k = Ok b -> exists a, m = Ok a /\ k a = Ok b.
Proof. destruct m; simpl; intros; try discriminate; eauto. Qed.

Lemma rwrap_ok_inv {A} s (m : res A) a : rwrap s m = Ok a -> m = Ok a.
Proof. destruct m; simpl; congruence. Qed.

Lemma no_panic_bind {A B} (m : res A) (k : A -> res B) :
  no_panic m -> (forall a, m = Ok a -> no_panic (k a)) -> no_panic (rbind m k).
Proof. destruct m; simpl; intros Hm Hk; auto. Qed.

Lemma no_panic_wrap {A} s (m : res A) : no_panic m -> no_panic (rwrap s m).
Proof. destruct m; simpl; auto. Qed.

(** [outcome m ok Q]: [m] does not panic, succeeds exactly when the boolean
    [ok] holds, and its result then satisfies [Q]. *)
Definition outcome {A} (m : res A) (ok : bool) (Q : A -> Prop) : Prop :=
  match m with
  | Ok a => ok = true /\ Q a
  | Err _ => ok = false
  | Panic _ => False
  end.

Lemma outcome_bind {A B} (m : res A) (k : A -> res B) ok1 ok2 Q R :
  outcome m ok1 Q -> (forall a, m = Ok a -> Q a -> outcome (k a) ok2 R) ->
  outcome (rbind m k) (ok1 && ok2) R.
Proof. destruct m; simpl; intros H Hk; [destruct H; subst; auto | by rewrite H | done]. Qed.

Lemma outcome_wrap {A} s (m : res A) ok Q : outcome m ok Q -> outcome (rwrap s m) ok Q.
Proof. destruct m; auto. Qed.

Lemma outcome_impl {A} (m : res A) ok ok' (Q Q' : A -> Prop) :
  outcome m ok Q -> ok = ok' -> (forall a, Q a -> Q' a) -> outcome m ok' Q'.
Proof. intros H <- HQ. destruct m; simpl in *; intuition. Qed.

Lemma outcome_ok {A} (m : res A) Q : outcome m true Q -> exists a, m = Ok a /\ Q a.
Proof. destruct m; simpl; intros H; [destruct H; eauto | done | done]. Qed.

Lemma outcome_is_ok {A} (m : res A) ok Q : outcome m ok Q -> is_ok m = ok.
Proof. destruct m; simpl; [by intros [-> _] | by intros -> | done]. Qed.

Lemma outcome_no_panic {A} (m : res A) ok Q : outcome m ok Q -> no_panic m.
Proof. by destruct m. Qed.

(** ** Machine integers

    A Go [byte] is a [Z] in [0, 256); conversions and arithmetic on narrow
    types wrap explicitly with these functions. [int] is 64 bits wide; the
    [int] values of this program are lengths, offsets and small counts, kept
    as plain [Z]. *)

Definition u8 (z : Z) : Z := z mod 256.
Definition u32 (z : Z) : Z := z mod 2 ^ 32.
Definition i64 (z : Z) : Z := (z + 2 ^ 63) mod 2 ^ 64 - 2 ^ 63.
Definition i16 (z : Z) : Z := (z + 2 ^ 15) mod 2 ^ 16 - 2 ^ 15.

Definition is_byte (z : Z) : Prop := 0 <= z < 256.
Definition bytes_ok (l : list Z) : Prop := Forall is_byte l.

#[global] Instance is_byte_dec z : Decision (is_byte z).
Proof. unfold is_byte. apply _. Defined.
#[global] Instance bytes_ok_dec l : Decision (bytes_ok l).
Proof. unfold bytes_ok. apply _. Defined.

Lemma u8_range z : 0 <= u8 z < 256.
Proof. apply Z.mod_pos_bound. lia. Qed.

Lemma u8_is_byte z : is_byte (u8 z).
Proof. apply u8_range. Qed.

Lemma u8_small z : 0 <= z < 256 -> u8 z = z.
Proof. apply Z.mod_small. Qed.

Lemma u32_small z : 0 <= z < 2 ^ 32 -> u32 z = z.
Proof. apply Z.mod_small. Qed.

Lemma i64_range z : - 2 ^ 63 <= i64 z < 2 ^ 63.
Proof. unfold i64. pose proof (Z.mod_pos_bound (z + 2 ^ 63) (2 ^ 64) ltac:(lia)). lia. Qed.

Lemma i64_small z : - 2 ^ 63 <= z < 2 ^ 63 -> i64 z = z.
Proof. intros. unfold i64. rewrite Z.mod_small; lia. Qed.

Lemma bytes_ok_app l1 l2 : bytes_ok (l1 ++ l2) <-> bytes_ok l1 /\ bytes_ok l2.
Proof. apply Forall_app. Qed.

Lemma bytes_ok_take n l : bytes_ok l -> bytes_ok (take n l).
Proof. apply Forall_take. Qed.

Lemma bytes_ok_drop n l : bytes_ok l -> bytes_ok (drop n l).
Proof. apply Forall_drop. Qed.

Lemma bytes_ok_replicate n b : is_byte b -> bytes_ok (replicate n b).
Proof. intros. by apply Forall_replicate. Qed.

(** Case analysis on a bounded integer, by computation. *)
Lemma bounded_cases (n : nat) (P : Z -> Prop) :
  Forall P (Z.of_nat <$> seq 0 n) -> forall x, 0 <= x < Z.of_nat n -> P x.
Proof.
  intros H x Hx. rewrite Forall_forall in H. apply H.
  apply list_elem_of_fmap. exists (Z.to_nat x). rewrite elem_of_seq. lia.
Qed.

Create HintDb go discriminated.
#[export] Hint Resolve u8_is_byte u8_range bytes_ok_take bytes_ok_drop
  bytes_ok_replicate no_panic_wrap : go.

(** ** Slices

    [zlen s] is [len(s)]; [slice s lo hi] is [s[lo:hi]] of a slice whose
    capacity is its length, [index s i] is [s[i]]. *)

Definition zlen {A} (l : list A) : Z := Z.of_nat (length l).

Definition slice {A} (l : list A) (lo hi : Z) : res (list A) :=
  if (0 <=? lo) && (lo <=? hi) && (hi <=? zlen l)
  then Ok (take (Z.to_nat (hi - lo)) (drop (Z.to_nat lo) l))
  else Panic "slice bounds out of range".

Definition index {A} (l : list A) (i : Z) : res A :=
  if (0 <=? i) then
    match l !! Z.to_nat i with
    | Some a => Ok a
    | None => Panic "index out of range"
    end
  else Panic "index out of range".

(** [make([]byte, n)] *)
Definition make_bytes (n : Z) : list Z := replicate (Z.to_nat n) 0.

(** [copy(dst, src)]: the first [min(len dst, len src)] elements of [dst]
    are replaced. *)
Definition copy {A} (dst src : list A) : list A :=
  take (length dst) src ++ drop (length src) dst.

(** An array value [[n]byte] filled by [copy(arr[:], src)]. *)
Definition to_array (n : nat) (src : list Z) : list Z := copy (replicate n 0) src.

Lemma zlen_app {A} (l1 l2 : list A) : zlen (l1 ++ l2) = zlen l1 + zlen l2.
Proof. unfold zlen. rewrite length_app. lia. Qed.

Lemma zlen_nonneg {A} (l : list A) : 0 <= zlen l.
Proof. unfold zlen. lia. Qed.

Lemma zlen_cons {A} (a : A) l : zlen (a :: l) = 1 + zlen l.
Proof. unfold zlen. simpl. lia. Qed.

Lemma zlen_nil {A} : zlen (@nil A) = 0.
Proof. done. Qed.

Create Rewrite HintDb zlen.
#[export] Hint Rewrite @zlen_app @zlen_cons @zlen_nil : zlen.

Lemma slice_ok {A} (l : list A) lo hi :
  0 <= lo <= hi -> hi <= zlen l ->
  slice l lo hi = Ok (take (Z.to_nat (hi - lo)) (drop (Z.to_nat lo) l)).
Proof. intros. unfold slice. by repeat case_bool_decide || rewrite (proj2 (Z.leb_le _ _)) by lia. Qed.

Lemma slice_no_panic {A} (l : list A) lo hi :
  0 <= lo <= hi -> hi <= zlen l -> no_panic (slice l lo hi).
Proof. intros. by rewrite slice_ok. Qed.

Lemma slice_len {A} (l : list A) lo hi s : slice l lo hi = Ok s -> zlen s = hi - lo.
Proof.
  unfold slice, zlen. intros H. destruct (_ && _) eqn:E; simplify_eq.
  rewrite length_take, length_drop. lia.
Qed.

Lemma index_ok {A} (l : list A) i a :
  l !! Z.to_nat i = Some a -> 0 <= i -> index l i = Ok a.
Proof. intros H ?. unfold index. rewrite (proj2 (Z.leb_le _ _)) by lia. by rewrite H. Qed.

Lemma index_no_panic {A} (l : list A) i : 0 <= i < zlen l -> no_panic (index l i).
Proof.
  intros. unfold index. rewrite (proj2 (Z.leb_le _ _)) by lia.
  destruct (lookup_lt_is_Some_2 l (Z.to_nat i)) as [x ->]; [unfold zlen in *; lia | done].
Qed.

Lemma length_copy {A} (dst src : list A) : length (copy dst src) = length dst.
Proof. unfold copy. rewrite length_app, length_take, length_drop. lia. Qed.

Lemma copy_all {A} (dst src : list A) : length dst = length src -> copy dst src = src.
Proof.
  intros H. unfold copy. rewrite take_ge, drop_ge by lia. apply app_nil_r.
Qed.

Lemma length_to_array n src : length (to_array n src) = n.
Proof. unfold to_array. rewrite length_copy. apply length_replicate. Qed.

Lemma to_array_id n src : length src = n -> to_array n src = src.
Proof. intros. apply copy_all. by rewrite length_replicate. Qed.

Lemma bytes_ok_copy dst src : bytes_ok dst -> bytes_ok src -> bytes_ok (copy dst src).
Proof. intros. unfold copy. rewrite bytes_ok_app. auto with go. Qed.

Lemma bytes_ok_to_array n src : bytes_ok src -> bytes_ok (to_array n src).
Proof.
  intros. apply bytes_ok_copy; [| done]. apply bytes_ok_replicate. split; lia.
Qed.
#[export] Hint Resolve bytes_ok_copy bytes_ok_to_array : go.

(** The pages of a list, one after the other, are the list. *)
Lemma pages_concat {A} (n : nat) (k : nat) (l : list A) :
  (0 < n)%nat -> (length l <= k * n)%nat ->
  concat ((fun p => take n (drop (p * n) l)) <$> seq 0 k) = l.
Proof.
  intros Hn. revert l. induction k as [|k IH]; intros l Hl; [by destruct l; [|cbn in Hl; lia]|].
  cbn [seq fmap list_fmap concat]. rewrite drop_0, <- fmap_S_seq, <- list_fmap_compose.
  transitivity (take n l ++ drop n l); [|apply take_drop]. f_equal.
  transitivity (concat ((fun p => take n (drop (p * n) (drop n l))) <$> seq 0 k)); [|apply IH; rewrite length_drop; lia].
  f_equal. apply list_fmap_ext. intros _ p _. cbn. by rewrite drop_drop.
Qed.

(** ** Keys *)

(** A list with a unique key is determined by it. *)
Lemma NoDup_key_inj {A K} (key : A -> K) (l : list A) a b :
  NoDup (key <$> l) -> a ∈ l -> b ∈ l -> key a = key b -> a = b.
Proof.
  intros Hnd Ha Hb He. apply list_elem_of_lookup in Ha as [i Hi], Hb as [j Hj].
  assert (i = j) as ->; [|congruence].
  eapply (NoDup_lookup _ i j (key a) Hnd); rewrite list_lookup_fmap; [by rewrite Hi | by rewrite Hj, He].
Qed.

Lemma seqZ_sorted m n : StronglySorted Z.lt (seqZ m n).
Proof.
  destruct (decide (0 <= n)) as [Hn|Hn]; [|rewrite seqZ_nil by lia; constructor].
  revert m. apply (natlike_ind (fun n => forall m, StronglySorted Z.lt (seqZ m n))); [constructor | | done].
  intros k Hk IH m. rewrite seqZ_cons by lia. replace (Z.pred (Z.succ k)) with k by lia. constructor; [apply IH|].
  rewrite Forall_forall. intros x Hx%elem_of_seqZ. lia.
Qed.

Lemma filter_partition {A} (P : A -> Prop) `{!forall x, Decision (P x)} (l : list A) :
  l ≡ₚ filter P l ++ filter (fun x => ~ P x) l.
Proof.
  induction l as [|a l IH]; [done|]. destruct (decide (P a)) as [Ha|Ha].
  - rewrite (filter_cons_True P) by done. rewrite (filter_cons_False (fun x => ~ P x)) by tauto. by rewrite <- app_comm_cons, <- IH.
  - rewrite (filter_cons_False P) by done. rewrite (filter_cons_True (fun x => ~ P x)) by done.
    by rewrite <- Permutation_middle, <- IH.
Qed.

#[global] Instance concat_Permutation {A} : Proper ((≡ₚ) ==> (≡ₚ)) (@concat A).
Proof.
  intros l l' H. induction H as [|x l l' _ IH|x y l|l1 l2 l3 _ IH1 _ IH2]; cbn [concat]; [done | by rewrite IH | | by etrans].
  by rewrite !app_assoc, (Permutation_app_comm y x).
Qed.

Lemma filter_all {A} (P : A -> Prop) `{!forall x, Decision (P x)} (l : list A) : (forall x, x ∈ l -> P x) -> filter P l = l.
Proof.
  induction l as [|x l IH]; intros Hp; [done|]. rewrite filter_cons_True by (apply Hp; by left). f_equal. apply IH. intros y Hy. apply Hp. by right.
Qed.

Lemma filter_ext_in {A} (P Q : A -> Prop) `{!forall x, Decision (P x)} `{!forall x, Decision (Q x)} (l : list A) :
  (forall x, x ∈ l -> P x <-> Q x) -> filter P l = filter Q l.
Proof.
  induction l as [|a l IH]; intros Hpq; [done|]. rewrite !filter_cons.
  rewrite IH by (intros x Hx; apply Hpq; by right). pose proof (Hpq a ltac:(by left)).
  destruct (decide (P a)), (decide (Q a)); tauto || done.
Qed.

(** ** Strings *)

Lemma list_ascii_app s t : String.list_ascii_of_string (s +:+ t) = String.list_ascii_of_string s ++ String.list_ascii_of_string t.
Proof. induction s as [|c s IH]; [done|]. change (String c s +:+ t) with (String c (s +:+ t)). cbn. by rewrite IH. Qed.

Lemma string_length_app (s t : string) :
  String.length (s +:+ t) = (String.length s + String.length t)%nat.
Proof.
  induction s as [|a s IH]; [done|]. change (String a s +:+ t) with (String a (s +:+ t)).
  cbn [String.length]. rewrite IH. lia.
Qed.

Lemma string_app_inj_length (s1 s2 t1 t2 : string) :
  String.length t1 = String.length t2 -> s1 +:+ t1 = s2 +:+ t2 -> s1 = s2 /\ t1 = t2.
Proof.
  intros Hl. revert s2. induction s1 as [|a s1 IH]; intros [|b s2] H;
    change (String ?x ?u +:+ ?v) with (String x (u +:+ v)) in H; change (EmptyString +:+ ?v) with v in H.
  - done.
  - apply (f_equal String.length) in H. cbn [String.length] in H. rewrite string_length_app in H. lia.
  - apply (f_equal String.length) in H. cbn [String.length] in H. rewrite string_length_app in H. lia.
  - injection H as -> H. by destruct (IH _ H) as [-> ->].
Qed.

(** ** Chunking

    [chunks n l] cuts [l] into consecutive pieces of [n] elements, the last
    one possibly shorter: the reference for the offset loops that split a
    packet into SMS parts, a load file into blocks or events into shards. *)

Fixpoint chunks_fuel {A} (fuel n : nat) (l : list A) : list (list A) :=
  match fuel with
  | O => []
  | S fuel => match l with
              | [] => []
              | _ => take n l :: chunks_fuel fuel n (drop n l)
              end
  end.

Definition chunks {A} (n : nat) (l : list A) : list (list A) :=
  chunks_fuel (length l) n l.

Lemma chunks_fuel_enough {A} n (l : list A) f :
  (0 < n)%nat -> (length l <= f)%nat -> chunks_fuel f n l = chunks n l.
Proof.
  intros Hn. unfold chunks.
  enough (forall f g l, (length l <= f)%nat -> (length l <= g)%nat ->
            chunks_fuel f n l = chunks_fuel g n (l : list A)) by eauto.
  clear f l. induction f as [|f IH]; intros g l Hf Hg.
  - destruct l; [by destruct g | simpl in Hf; lia].
  - destruct g as [|g]; [destruct l; [done | simpl in Hg; lia]|].
    destruct l as [|a l]; [done|]. cbn [chunks_fuel]. f_equal.
    apply IH; rewrite length_drop; simpl in *; lia.
Qed.

Lemma chunks_cons {A} n (l : list A) :
  (0 < n)%nat -> l <> [] -> chunks n l = take n l :: chunks n (drop n l).
Proof.
  intros Hn Hl. unfold chunks at 1. destruct l as [|a l]; [done|].
  cbn [length chunks_fuel]. f_equal.
  apply chunks_fuel_enough; [done|]. rewrite length_drop. simpl. lia.
Qed.

Lemma chunks_nil {A} n : chunks n (@nil A) = [].
Proof. done. Qed.

(** Induction along the chunks of a list. *)
Lemma list_drop_ind {A} n (P : list A -> Prop) :
  (0 < n)%nat -> P [] -> (forall l, l <> [] -> P (drop n l) -> P l) -> forall l, P l.
Proof.
  intros Hn H0 Hs l. remember (length l) as m eqn:Hm. revert l Hm.
  induction (lt_wf m) as [m _ IH]. intros l ->.
  destruct l as [|a l]; [done|]. apply Hs; [done|].
  eapply IH; [|done]. rewrite length_drop. simpl. lia.
Qed.

Ltac drop_induction n l :=
  induction l as [|l ? IH]
    using (fun P H0 Hs => list_drop_ind n P ltac:(lia) H0 Hs).

Lemma concat_chunks {A} n (l : list A) : (0 < n)%nat -> concat (chunks n l) = l.
Proof.
  intros Hn. drop_induction n l; [done|].
  rewrite chunks_cons by done. cbn [concat]. rewrite IH. apply take_drop.
Qed.

Lemma chunks_length_le {A} n (l : list A) :
  (0 < n)%nat -> Forall (fun c => 0 < length c <= n)%nat (chunks n l).
Proof.
  intros Hn. drop_induction n l; [constructor|].
  rewrite chunks_cons by done. constructor; [|done].
  rewrite length_take. destruct l; [done | simpl; lia].
Qed.

(** Number of chunks: the ceiling division of the Go loops. *)
Lemma length_chunks {A} n (l : list A) :
  (0 < n)%nat -> Z.of_nat (length (chunks n l)) = (zlen l + Z.of_nat n - 1) / Z.of_nat n.
Proof.
  intros Hn. drop_induction n l.
  - rewrite chunks_nil. unfold zlen. cbn [length]. rewrite Z.div_small by lia. done.
  - rewrite chunks_cons by done. cbn [length]. rewrite Nat2Z.inj_succ, IH.
    unfold zlen. rewrite length_drop. destruct l as [|a l]; [done|].
    destruct (decide (n <= length (a :: l))%nat).
    + replace (Z.of_nat (length (a :: l)) + Z.of_nat n - 1)
        with (Z.of_nat (length (a :: l) - n) + Z.of_nat n - 1 + 1 * Z.of_nat n) by lia.
      rewrite Z.div_add by lia. lia.
    + replace (length (a :: l) - n)%nat with 0%nat by lia.
      rewrite (Z.div_small (Z.of_nat 0 + _ - 1)) by lia.
      apply (Z.div_unique _ _ _ (Z.of_nat (length (a :: l)) - 1)); simpl in *; lia.
Qed.

Lemma chunks_app {A} n (c l : list A) :
  (0 < n)%nat -> length c = n -> chunks n (c ++ l) = c :: chunks n l.
Proof.
  intros Hn Hc. rewrite chunks_cons; [|lia|].
  - by rewrite take_app_length', drop_app_length' by lia.
  - destruct c; simpl in *; [lia | done].
Qed.

Lemma chunks_small {A} n (l : list A) :
  l <> [] -> (length l <= n)%nat -> chunks n l = [l].
Proof.
  intros Hl Hn. rewrite chunks_cons; [|destruct l; simpl in *; [done | lia]|done].
  by rewrite take_ge, drop_ge, chunks_nil by lia.
Qed.

(** Every chunk is full when the length is a multiple of [n]. *)
Lemma chunks_full {A} n (l : list A) :
  (0 < n)%nat -> zlen l mod Z.of_nat n = 0 -> Forall (fun c => length c = n) (chunks n l).
Proof.
  intros Hn. drop_induction n l; [constructor|].
  intros Hm. assert (n <= length l)%nat.
  { destruct (decide (n <= length l)%nat); [done|]. unfold zlen in Hm.
    rewrite Z.mod_small in Hm by lia. destruct l; simpl in *; [done | lia]. }
  rewrite chunks_cons by done. constructor; [rewrite length_take; lia|].
  apply IH. unfold zlen in *. rewrite length_drop, Nat2Z.inj_sub by lia.
  rewrite <- Zminus_mod_idemp_r, Z_mod_same_full, Z.sub_0_r. done.
Qed.
