(* ===== verification/Effects.v ===== *)
(** * Effects of the services

    Handlers of the services are functions in the state-and-error monad [M]:
    they read and change a state, and return a Go result.  An error keeps the
    changes made so far, as a Go handler that returns early does.

    [Sys] is what every component shares: the tables of the database and the
    outcomes of everything the program cannot determine itself -- the clock,
    fresh UUIDs, random numbers, database faults, the choice of a [select],
    rate limiter decisions.  Each such outcome is a function of the number of
    questions asked so far ([tick]), so a theorem about all [Sys] covers every
    behaviour of the environment. *)

From S2P Require Import Prelude.

Definition M (S A : Type) : Type := S -> res A * S.

Definition ret {S A} (a : A) : M S A := fun s => (Ok a, s).
Definition merr {S A} (e : goerr) : M S A := fun s => (Err e, s).
Definition mres {S A} (r : res A) : M S A := fun s => (r, s).
Definition mget {S} : M S S := fun s => (Ok s, s).
Definition mput {S} (s : S) : M S unit := fun _ => (Ok tt, s).
Definition modify {S} (f : S -> S) : M S unit := fun s => (Ok tt, f s).
Definition gets {S A} (f : S -> A) : M S A := fun s => (Ok (f s), s).

Definition bindM {S A B} (m : M S A) (k : A -> M S B) : M S B :=
  fun s => match m s with
           | (Ok a, s) => k a s
           | (Err e, s) => (Err e, s)
           | (Panic p, s) => (Panic p, s)
           end.

Notation "'do!' x <- m ; k" := (bindM m (fun x => k))
  (at level 20, x pattern, m at level 100, k at level 200, right associativity) : go_scope.

(** [if err != nil { return fmt.Errorf("...: %w", err) }] *)
Definition mwrap {S A} (fmt : string) (m : M S A) : M S A :=
  fun s => let '(r, s) := m s in (rwrap fmt r, s).

(** A call whose error the caller inspects: [v, err := m]. *)
Definition try {S A} (m : M S A) : M S (res A) :=
  fun s => match m s with
           | (Panic p, s) => (Panic p, s)
           | (r, s) => (Ok r, s)
           end.

(** A call whose error is logged or dropped: [_ = m]. *)
Definition ignore {S A} (m : M S A) : M S unit := do! _ <- try m; ret tt.

Definition mwhen {S} (b : bool) (m : M S unit) : M S unit := if b then m else ret tt.

(** ** Laws of the monad used to run handlers *)

Lemma run_bind {S A B} (m : M S A) (k : A -> M S B) s a s' :
  m s = (Ok a, s') -> bindM m k s = k a s'.
Proof. intros H. unfold bindM. by rewrite H. Qed.

Lemma run_bind_err {S A B} (m : M S A) (k : A -> M S B) s e s' :
  m s = (Err e, s') -> bindM m k s = (Err e, s').
Proof. intros H. unfold bindM. by rewrite H. Qed.

Lemma run_wrap {S A} fmt (m : M S A) s a s' : m s = (Ok a, s') -> mwrap fmt m s = (Ok a, s').
Proof. intros H. unfold mwrap. by rewrite H. Qed.

Lemma run_ignore {S A} (m : M S A) s r s' :
  m s = (r, s') -> no_panic r -> ignore m s = (Ok tt, s').
Proof. intros H Hn. unfold ignore, bindM, try. rewrite H. by destruct r. Qed.

(** A computation that returned normally ran its parts normally. *)
Lemma bind_inv {S A B} (m : M S A) (k : A -> M S B) s b s' :
  bindM m k s = (Ok b, s') -> exists a s1, m s = (Ok a, s1) /\ k a s1 = (Ok b, s').
Proof. unfold bindM. destruct (m s) as [[a| |] s1]; [|done..]. eauto. Qed.

Lemma wrap_inv {S A} fmt (m : M S A) s a s' : mwrap fmt m s = (Ok a, s') -> m s = (Ok a, s').
Proof. unfold mwrap. destruct (m s) as [[a0| |] s1]; cbn; congruence. Qed.

(** ** Preservation

    [preserves P m]: whatever [m] returns, the state it leaves satisfies the
    reflexive and transitive relation [P] with the state it started from. *)
Definition preserves {S A} (P : S -> S -> Prop) (m : M S A) : Prop := forall s, P s (snd (m s)).

Section Preserves.
Context {S : Type} (P : S -> S -> Prop) `{!PreOrder P}.

Lemma preserves_ret {A} (a : A) : preserves P (ret a).
Proof. intros s. simpl. reflexivity. Qed.

Lemma preserves_err {A} e : preserves P (merr e : M S A).
Proof. intros s. simpl. reflexivity. Qed.

Lemma preserves_res {A} (r : res A) : preserves P (mres r).
Proof. intros s. simpl. reflexivity. Qed.

Lemma preserves_gets {A} (f : S -> A) : preserves P (gets f).
Proof. intros s. simpl. reflexivity. Qed.

Lemma preserves_bind {A B} (m : M S A) (k : A -> M S B) :
  preserves P m -> (forall a, preserves P (k a)) -> preserves P (bindM m k).
Proof.
  intros Hm Hk s. unfold bindM. specialize (Hm s). destruct (m s) as [[a|e|p] s']; simpl in *; [|done|done].
  etrans; [exact Hm | apply Hk].
Qed.

Lemma preserves_wrap {A} fmt (m : M S A) : preserves P m -> preserves P (mwrap fmt m).
Proof. intros Hm s. unfold mwrap. specialize (Hm s). by destruct (m s). Qed.

Lemma preserves_try {A} (m : M S A) : preserves P m -> preserves P (try m).
Proof. intros Hm s. unfold try. specialize (Hm s). by destruct (m s) as [[] ]. Qed.

Lemma preserves_ignore {A} (m : M S A) : preserves P m -> preserves P (ignore m).
Proof. intros Hm. apply preserves_bind; [by apply preserves_try | intros; apply preserves_ret]. Qed.

Lemma preserves_when b (m : M S unit) : preserves P m -> preserves P (mwhen b m).
Proof. intros Hm. destruct b; [done | apply preserves_ret]. Qed.

Lemma preserves_if {A} (b : bool) (m n : M S A) :
  preserves P m -> preserves P n -> preserves P (if b then m else n).
Proof. by destruct b. Qed.

Lemma preserves_modify f : (forall s, P s (f s)) -> preserves P (modify f).
Proof. intros H s. apply H. Qed.

End Preserves.

(** ** Absence of panics *)

Definition calm {S A} (m : M S A) : Prop := forall s, no_panic (fst (m s)).

Lemma calm_ret {S A} (a : A) : calm (ret a : M S A).
Proof. done. Qed.
Lemma calm_err {S A} e : calm (merr e : M S A).
Proof. done. Qed.
Lemma calm_gets {S A} (f : S -> A) : calm (gets f).
Proof. done. Qed.
Lemma calm_modify {S} (f : S -> S) : calm (modify f).
Proof. done. Qed.
Lemma calm_bind {S A B} (m : M S A) (k : A -> M S B) : calm m -> (forall a, calm (k a)) -> calm (bindM m k).
Proof.
  intros Hm Hk s. unfold bindM. specialize (Hm s). destruct (m s) as [[a|e|p] s']; [apply Hk | done | done].
Qed.
Lemma calm_wrap {S A} fmt (m : M S A) : calm m -> calm (mwrap fmt m).
Proof. intros Hm s. unfold mwrap. specialize (Hm s). by destruct (m s) as [[] ]. Qed.
Lemma calm_try {S A} (m : M S A) : calm m -> calm (try m).
Proof. intros Hm s. unfold try. specialize (Hm s). by destruct (m s) as [[] ]. Qed.
Lemma calm_if {S A} (b : bool) (m n : M S A) : calm m -> calm n -> calm (if b then m else n).
Proof. by destruct b. Qed.
Lemma calm_when {S} b (m : M S unit) : calm m -> calm (mwhen b m).
Proof. by destruct b. Qed.

Create HintDb calm.
#[export] Hint Resolve calm_ret calm_err calm_gets calm_modify calm_bind calm_wrap calm_try calm_if calm_when : calm.

(** A calm call whose error is dropped returns. *)
Lemma calm_ignore {S A} (m : M S A) s : calm m -> exists s', ignore m s = (Ok tt, s').
Proof.
  intros Hm. specialize (Hm s). unfold ignore, bindM, try. destruct (m s) as [[a|e|p] s']; [by eexists | by eexists | done].
Qed.
