(* ===== verification/Models.v ===== *)
(** * Data shared by the services

    The records of internal/redis/state.go, internal/db/models.go and
    internal/keystore/keystore.go that the modelled code reads or writes, the
    tables of the database, and the environment [Sys].  UUIDs are their string
    forms.  Fields that no modelled code touches (gorm associations, display
    names) are left out. *)

From S2P Require Import Prelude Effects.

(** ** internal/redis/state.go *)

Module CardState.
Record t := mk {
  CampaignID : string;
  CurrentStep : Z;
  Status : string;
  RetryCount : Z;
  LastMsgID : string;
  LastEventID : string;
  TransitionSeq : Z
}.
End CardState.

Module CampaignCommandCache.
Record t := mk {
  Sequence : Z;
  ApplicationID : string;
  Script : list Z;
  ExpectResponse : bool;
  TAR : list Z;
  KIcAlgo : string;
  KIcMode : string;
  KIcKeysetID : Z;
  KIdAlgo : string;
  KIdMode : string;
  KIdKeysetID : Z;
  CertMode : string;
  Ciphered : bool;
  CounterMode : string;
  PORMode : string;
  PORProtocol : string;
  PORCiphered : bool;
  PORCertMode : string
}.
End CampaignCommandCache.

Module CampaignParams.
Record t := mk {
  MaxConcatOverride : option Z;
  ThrottleSMSPerSec : option Z;
  MaxRetries : Z
}.
End CampaignParams.

Module SMPPMapping.
Record t := mk { MsgID : string; CampaignID : string; CardID : string; MSISDN : string }.
End SMPPMapping.

(** ** internal/keystore/keystore.go *)

Module CardKeyMaterial.
Record t := mk {
  EncKey : list Z;
  AuthKey : list Z;
  KEK : list Z;
  ProfileID : string;
  MSISDN : string
}.
End CardKeyMaterial.

(** ** internal/db/models.go *)

Module Profile.
Record t := mk {
  ID : string;
  Name : string;
  MaxConcatSMS : Z;
  BufferSize : Z;
  PID : Z;
  DCS : Z;
  SecurityBytesType : string
}.
End Profile.

Module Application.
Record t := mk {
  ID : string;
  ProfileID : string;
  Name : string;
  TAR : list Z;
  KIcAlgo : string;
  KIcMode : string;
  KIcKeysetID : Z;
  KIdAlgo : string;
  KIdMode : string;
  KIdKeysetID : Z;
  CertificationMode : string;
  Ciphered : bool;
  CounterMode : string;
  PORMode : string;
  PORProtocol : string;
  PORCiphered : bool;
  PORCertMode : string
}.
#[global] Instance eq_dec : EqDecision t.
Proof. solve_decision. Defined.
End Application.

Module Card.
Record t := mk {
  ID : string;
  ICCID : string;
  IMSI : string;
  MSISDN : string;
  ProfileID : string;
  EncKey : list Z;
  AuthKey : list Z;
  KEK : list Z;
  Status : string
}.
End Card.

Module Campaign.
Record t := mk {
  ID : string;
  Status : string;
  MaxRetries : Z;
  ThrottleSMSPerSec : option Z;
  MaxConcatOverride : option Z;
  StartedAt : option Z;
  CompletedAt : option Z;
  CAPFileID : option string;
  ScriptID : option string;
  Name : string
}.
Definition set_Status (s : string) (c : t) : t :=
  mk (ID c) s (MaxRetries c) (ThrottleSMSPerSec c) (MaxConcatOverride c) (StartedAt c) (CompletedAt c) (CAPFileID c) (ScriptID c) (Name c).
End Campaign.

Module Script.
Record t := mk {
  ID : string;
  Name : string;
  Description : option string;
  TargetTAR : string;
  Commands : string;
  CommandCount : Z
}.
End Script.

(** [Sections] is the JSON object of the section sizes. *)
Module CAPFile.
Record t := mk {
  ID : string;
  Filename : string;
  AID : string;
  FileData : list Z;
  FileSize : Z;
  SHA256Hash : string;
  LoadFileHex : string;
  Sections : gmap string Z
}.
End CAPFile.

Module CampaignCommand.
Record t := mk {
  CampaignID : string;
  Sequence : Z;
  ApplicationID : string;
  Script : list Z;
  ExpectResponse : bool;
  Application : Application.t
}.
End CampaignCommand.

Module CardExecutionState.
Record t := mk {
  CardID : string;
  CampaignID : string;
  Status : string;
  CurrentStep : Z;
  RetryCount : Z;
  LastMsgID : option string;
  LastSMPPID : string;
  LastError : string;
  TransitionSeq : Z;
  UpdatedAt : Z
}.
End CardExecutionState.

Module CampaignStatsRow.
Record t := mk {
  Total : Z;
  Pending : Z;
  InProgress : Z;
  Completed : Z;
  Failed : Z;
  Skipped : Z
}.
End CampaignStatsRow.

(** ** Tables and environment *)

Record Database := {
  campaigns : gmap string Campaign.t;
  profiles_tbl : gmap string Profile.t;
  campaign_commands : list CampaignCommand.t;
  cards : gmap string Card.t;
  card_execution_states : list CardExecutionState.t;
  campaign_stats : gmap string CampaignStatsRow.t
}.

Definition set_campaigns f (d : Database) : Database :=
  {| campaigns := f (campaigns d); profiles_tbl := profiles_tbl d;
     campaign_commands := campaign_commands d; cards := cards d;
     card_execution_states := card_execution_states d; campaign_stats := campaign_stats d |}.
Definition set_card_execution_states f (d : Database) : Database :=
  {| campaigns := campaigns d; profiles_tbl := profiles_tbl d;
     campaign_commands := campaign_commands d; cards := cards d;
     card_execution_states := f (card_execution_states d); campaign_stats := campaign_stats d |}.
Definition set_campaign_stats f (d : Database) : Database :=
  {| campaigns := campaigns d; profiles_tbl := profiles_tbl d;
     campaign_commands := campaign_commands d; cards := cards d;
     card_execution_states := card_execution_states d; campaign_stats := f (campaign_stats d) |}.

Definition set_cards f (d : Database) : Database :=
  {| campaigns := campaigns d; profiles_tbl := profiles_tbl d;
     campaign_commands := campaign_commands d; cards := f (cards d);
     card_execution_states := card_execution_states d; campaign_stats := campaign_stats d |}.

Definition set_profiles_tbl f (d : Database) : Database :=
  {| campaigns := campaigns d; profiles_tbl := f (profiles_tbl d);
     campaign_commands := campaign_commands d; cards := cards d;
     card_execution_states := card_execution_states d; campaign_stats := campaign_stats d |}.

Record Sys := {
  sys_now : nat -> Z;                (** [time.Now()], nanoseconds *)
  sys_uuid : nat -> string;          (** [uuid.New().String()] *)
  sys_rand : nat -> Z;               (** [rand.Intn(256)] *)
  sys_fault : nat -> option goerr;   (** the error of a database statement *)
  sys_ctx : nat -> option goerr;     (** [ctx.Err()] when a select takes [<-ctx.Done()] *)
  sys_full : nat -> bool;            (** a non-blocking select finds the channel full *)
  sys_allow : nat -> bool;           (** [rate.Limiter.Allow()] *)
  tick : nat;
  db : Database
}.

Definition set_tick n (s : Sys) : Sys :=
  {| sys_now := sys_now s; sys_uuid := sys_uuid s; sys_rand := sys_rand s; sys_fault := sys_fault s;
     sys_ctx := sys_ctx s; sys_full := sys_full s; sys_allow := sys_allow s; tick := n; db := db s |}.
Definition set_db d (s : Sys) : Sys :=
  {| sys_now := sys_now s; sys_uuid := sys_uuid s; sys_rand := sys_rand s; sys_fault := sys_fault s;
     sys_ctx := sys_ctx s; sys_full := sys_full s; sys_allow := sys_allow s; tick := tick s; db := d |}.

(** Components whose state contains the environment. *)
Class HasSys (S : Type) := { sys : S -> Sys; set_sys : Sys -> S -> S }.

#[global] Instance HasSys_Sys : HasSys Sys := {| sys := fun s => s; set_sys := fun s _ => s |}.
#[global] Instance HasSys_pair {S} : HasSys (Sys * S) :=
  {| sys := fst; set_sys := fun s p => (s, snd p) |}.

Section Ask.
Context {S : Type} `{!HasSys S}.

Definition ask {A} (f : Sys -> nat -> A) : M S A :=
  fun s => let y := sys s in (Ok (f y (tick y)), set_sys (set_tick (Datatypes.S (tick y)) y) s).

Definition now : M S Z := ask sys_now.
Definition newUUID : M S string := ask sys_uuid.

(** A read of the database, which may fail. *)
Definition query {A} (f : Database -> A) : M S A :=
  do! fault <- ask sys_fault;
  match fault with
  | Some e => merr e
  | None => gets (fun s => f (db (sys s)))
  end.

(** A statement that changes tables, which may fail without a change. *)
Definition exec (f : Database -> Database) : M S unit :=
  do! fault <- ask sys_fault;
  match fault with
  | Some e => merr e
  | None => modify (fun s => set_sys (set_db (f (db (sys s))) (sys s)) s)
  end.
End Ask.

Definition ErrRecordNotFound : goerr := Errorf "record not found" [].

#[global] Instance goerr_is_not_found e : Decision (e = ErrRecordNotFound).
Proof.
  destruct e as [f args]. unfold ErrRecordNotFound.
  destruct (decide (f = "record not found")) as [->|]; [|right; congruence].
  destruct args; [left; done | right; congruence].
Defined.

(** gorm's [First]: no row is an error. *)
Definition first {S A} (o : option A) : M S A :=
  match o with Some a => ret a | None => merr ErrRecordNotFound end.

(** A quiet environment: time stands still, nothing fails, nothing is full. *)
Definition empty_db : Database :=
  {| campaigns := ∅; profiles_tbl := ∅; campaign_commands := []; cards := ∅;
     card_execution_states := []; campaign_stats := ∅ |}.
Definition quiet_sys (d : Database) : Sys :=
  {| sys_now := fun _ => 1000; sys_uuid := fun n => "uuid-" +:+ pretty n; sys_rand := fun _ => 7;
     sys_fault := fun _ => None; sys_ctx := fun _ => None; sys_full := fun _ => false;
     sys_allow := fun _ => true; tick := 0; db := d |}.
