(* ===== verification/Pipeline.v ===== *)
(** * internal/pipeline: messages, channels and producers

    The message types of types.go and the producers that put them on the Go
    channels of the bus.  A component's state carries the history of what it
    sent ([effect]), in order; whether a blocking [select] sends or takes the
    cancelled context, and whether a non-blocking one finds the channel full,
    is an outcome of the environment. *)

From S2P Require Import Prelude Effects Models.

(** ** types.go *)

Module SMSPart.
Record t := mk { Sequence : Z; Total : Z; RefNum : Z; Payload : list Z }.
End SMSPart.

Module SendSMSMessage.
Record t := mk {
  MsgID : string;
  CampaignID : string;
  CardID : string;
  MSISDN : string;
  TON : Z;
  NPI : Z;
  DataCoding : Z;
  ProtocolID : Z;
  ESMClass : Z;
  Parts : list SMSPart.t
}.
End SendSMSMessage.

Module CardEvent.
Record t := mk {
  Type_ : string;
  EventID : string;
  CardID : string;
  CampaignID : string;
  Step : Z;
  RetryCount : Z;
  MsgID : string;
  SMPPMessageID : string;
  DLRStatus : string;
  ErrorCode : string;
  SourceMSISDN : string;
  PayloadHex : string;
  Timestamp : Z
}.
Definition set_CampaignID (c : string) (e : t) : t :=
  mk (Type_ e) (EventID e) (CardID e) c (Step e) (RetryCount e) (MsgID e) (SMPPMessageID e)
     (DLRStatus e) (ErrorCode e) (SourceMSISDN e) (PayloadHex e) (Timestamp e).
(** The composite literals of the code leave the other fields zero. *)
Definition activate (eventID cardID campaignID : string) (step retryCount timestamp : Z) : t :=
  mk "card.activate" eventID cardID campaignID step retryCount "" "" "" "" "" "" timestamp.
End CardEvent.

Module CardStateChange.
Record t := mk {
  CampaignID : string;
  CardID : string;
  Status : string;
  CurrentStep : Z;
  RetryCount : Z;
  LastMsgID : string;
  LastSMPPID : string;
  LastError : string;
  LastErrCode : string;
  Timestamp : Z;
  TransitionSeq : Z;
  StatsFrom : string;
  StatsTo : string
}.
End CardStateChange.

Module MessageLogEntry.
Record t := mk {
  ID : string;
  CampaignID : string;
  CardID : string;
  Direction : string;
  CreatedAt : Z;
  UpdatedAt : Z;
  RawPayload : list Z;
  SecuredPayload : list Z;
  CounterHex : string;
  Status : string;
  SMPPMessageID : string
}.
Definition set_Status (s : string) (e : t) : t :=
  mk (ID e) (CampaignID e) (CardID e) (Direction e) (CreatedAt e) (UpdatedAt e) (RawPayload e)
     (SecuredPayload e) (CounterHex e) s (SMPPMessageID e).
End MessageLogEntry.

(** The values of a [map[string]interface{}] of updates. *)
Inductive value :=
| VStr (s : string)
| VInt (z : Z)
| VBytes (b : list Z).

Module MessageLogAction.
Record t := mk {
  Action : string;
  Log : option MessageLogEntry.t;
  ID : string;
  Updates : list (string * value)
}.
Definition create (e : MessageLogEntry.t) : t := mk "create" (Some e) "" [].
Definition update (id : string) (u : list (string * value)) : t := mk "update" None id u.
End MessageLogAction.

Module WSEvent.
Record t := mk { Type_ : string; CampaignID : string; CardID : string; Data : list (string * value) }.
End WSEvent.

(** The messages a producer may be handed as an [interface{}]. *)
Inductive message :=
| MSendSMS (m : SendSMSMessage.t)
| MLog (m : MessageLogAction.t)
| MEvent (m : CardEvent.t)
| MState (m : CardStateChange.t).

(** What a component does to the others, in the order it does it. *)
Inductive effect :=
| ESendSMS (m : SendSMSMessage.t)
| ELog (m : MessageLogAction.t)
| EEvent (m : CardEvent.t)
| EDLR (m : CardEvent.t)
| EMO (m : CardEvent.t)
| EState (m : CardStateChange.t)
| EBroadcast (campaignID : string) (e : WSEvent.t)
| ESetCardState (cardID : string) (st : CardState.t)
| EEvict (cardID : string).

(** ** PublishFuture *)

(** A pending publish: the error its channel will deliver; [None] is a nil
    future. *)
Definition PublishFuture : Type := option (option goerr).

Definition ResolvedFuture (err : option goerr) : PublishFuture := Some err.

(** [Await] with the outcome of the context, if the select takes it. *)
Definition Await (f : PublishFuture) (ctxDone : option goerr) : option goerr :=
  match f with
  | None => None
  | Some err => match ctxDone with Some e => Some e | None => err end
  end.

(** ** producer.go *)

Module LogProducer.
Record t := mk { dropped : Z; disabled : bool }.
End LogProducer.

Class HasBus (S : Type) := {
  bus_sys :: HasSys S;
  trace : S -> list effect;
  emit : effect -> S -> S;
  logp : S -> LogProducer.t;
  set_logp : LogProducer.t -> S -> S
}.

Section Producers.
Context {S : Type} `{!HasBus S}.

(** [select { case ch <- msg: ...; case <-ctx.Done(): return ctx.Err() }] *)
Definition select_send (e : effect) : M S PublishFuture :=
  do! done <- ask sys_ctx;
  match done with
  | Some err => merr err
  | None => do! _ <- modify (emit e); ret (ResolvedFuture None)
  end.

Definition SMSProducer_Publish (m : message) : M S PublishFuture :=
  match m with
  | MSendSMS msg => select_send (ESendSMS msg)
  | _ => merr (Errorf "SMSProducer: expected SendSMSMessage, got %T" [])
  end.

Definition LogProducer_Publish (m : message) : M S PublishFuture :=
  do! p <- gets logp;
  if LogProducer.disabled p then ret (ResolvedFuture None)
  else match m with
       | MLog msg =>
           do! full <- ask sys_full;
           if full then
             do! _ <- modify (fun s => set_logp (LogProducer.mk (i64 (LogProducer.dropped (logp s) + 1))
                                                   (LogProducer.disabled (logp s))) s);
             ret (ResolvedFuture None)
           else do! _ <- modify (emit (ELog msg)); ret (ResolvedFuture None)
       | _ => merr (Errorf "LogProducer: expected MessageLogAction, got %T" [])
       end.

Definition Dropped (s : S) : Z := LogProducer.dropped (logp s).

Definition EventProducer_Publish (ch : CardEvent.t -> effect) (m : message) : M S PublishFuture :=
  match m with
  | MEvent msg => select_send (ch msg)
  | _ => merr (Errorf "EventProducer: expected CardEvent, got %T" [])
  end.

(** state_writer.go *)
Definition WriteCardState (ev : CardStateChange.t) : M S PublishFuture := select_send (EState ev).

(** planner_publisher.go *)
Definition PlannerPublisher_Publish (m : message) : M S PublishFuture :=
  match m with
  | MEvent msg => select_send (EEvent msg)
  | _ => merr (Errorf "PlannerPublisher: expected CardEvent, got %T" [])
  end.

Fixpoint PublishBatch (items : list message) : M S unit :=
  match items with
  | [] => ret tt
  | item :: items =>
      match item with
      | MEvent msg => do! _ <- select_send (EEvent msg); PublishBatch items
      | _ => merr (Errorf "PlannerPublisher.PublishBatch: expected CardEvent, got %T" [])
      end
  end.
End Producers.

(** ** bus.go *)

Definition digit_of (a : Ascii.ascii) : option Z :=
  let n := Z.of_N (Ascii.N_of_ascii a) in
  if (48 <=? n) && (n <=? 57) then Some (n - 48) else None.

(** Digits of a non-empty decimal numeral. *)
Fixpoint digits_val (s : list Ascii.ascii) (acc : Z) : option Z :=
  match s with
  | [] => Some acc
  | a :: s => match digit_of a with Some d => digits_val s (10 * acc + d) | None => None end
  end.

(** The value of a decimal numeral with an optional sign, of any size. *)
Definition numeral (s : string) : option Z :=
  let unsigned l := match l with [] => None | _ => digits_val l 0 end in
  match String.list_ascii_of_string s with
  | [] => None
  | a :: l =>
      if (Ascii.N_of_ascii a =? 45)%N then Z.opp <$> unsigned l        (* '-' *)
      else if (Ascii.N_of_ascii a =? 43)%N then unsigned l             (* '+' *)
      else unsigned (a :: l)
  end.

(** [strconv.Atoi]: an optional sign, at least one digit, 64-bit range. *)
Definition Atoi (s : string) : option Z :=
  match numeral s with
  | Some n => if (- 2 ^ 63 <=? n) && (n <? 2 ^ 63) then Some n else None
  | None => None
  end.

(** [getenv] is [os.Getenv]: the empty string when unset. *)
Definition envInt (getenv : string -> string) (key : string) (fallback : Z) : Z :=
  let v := getenv key in
  if negb (bool_decide (v = "")) then
    match Atoi v with
    | Some n => if 0 <? n then n else fallback
    | None => fallback
    end
  else fallback.

(** The buffer sizes of the six channels. *)
Record Bus := {
  ActivateCh : Z; SendSMSCh : Z; DLRCh : Z; MOCh : Z; MessageLogCh : Z; CardStateCh : Z
}.

Definition NewBus (getenv : string -> string) : Bus :=
  let plannerBatch := envInt getenv "PLANNER_CLAIM_BATCH_SIZE" 5000 in
  let bufSize := envInt getenv "ENGINE_CHANNEL_BUFFER" (plannerBatch * 5) in
  let msgLogBuf := envInt getenv "ENGINE_MSG_LOG_BUFFER" 100000 in
  let cardStateBuf := envInt getenv "ENGINE_CARD_STATE_BUFFER" 50000 in
  {| ActivateCh := bufSize; SendSMSCh := bufSize; DLRCh := bufSize; MOCh := bufSize;
     MessageLogCh := msgLogBuf; CardStateCh := cardStateBuf |}.

(** ** Properties of the producers *)

(** A state whose environment, history and log producer are independent. *)
Class BusLaws (S : Type) `{!HasBus S} : Prop := {
  sys_set_sys y (s : S) : sys (set_sys y s) = y;
  sys_emit e (s : S) : sys (emit e s) = sys s;
  sys_set_logp p (s : S) : sys (set_logp p s) = sys s;
  trace_set_sys y (s : S) : trace (set_sys y s) = trace s;
  trace_emit e (s : S) : trace (emit e s) = trace s ++ [e];
  trace_set_logp p (s : S) : trace (set_logp p s) = trace s;
  logp_set_sys y (s : S) : logp (set_sys y s) = logp s;
  logp_emit e (s : S) : logp (emit e s) = logp s;
  logp_set_logp p (s : S) : logp (set_logp p s) = p
}.

Create Rewrite HintDb bus.
#[export] Hint Rewrite @sys_set_sys @sys_emit @sys_set_logp @trace_set_sys @trace_emit @trace_set_logp
  @logp_set_sys @logp_emit @logp_set_logp using (typeclasses eauto) : bus.

(** The least state with a bus. *)
Record BusState := { bs_sys : Sys; bs_trace : list effect; bs_logp : LogProducer.t }.

#[global] Instance BusState_bus : HasBus BusState := {|
  bus_sys := {| sys := bs_sys; set_sys y s := {| bs_sys := y; bs_trace := bs_trace s; bs_logp := bs_logp s |} |};
  trace := bs_trace;
  emit e s := {| bs_sys := bs_sys s; bs_trace := bs_trace s ++ [e]; bs_logp := bs_logp s |};
  logp := bs_logp;
  set_logp p s := {| bs_sys := bs_sys s; bs_trace := bs_trace s; bs_logp := p |}
|}.

#[global] Instance BusState_laws : BusLaws BusState.
Proof. split; done. Qed.

Section ProducerLaws.
Context {S : Type} `{!HasBus S, !BusLaws S}.

Lemma select_send_spec e (s : S) :
  exists r s', select_send e s = (r, s') /\ logp s' = logp s /\
    match r with
    | Ok f => f = ResolvedFuture None /\ trace s' = trace s ++ [e]
    | Err err => sys_ctx (sys s) (tick (sys s)) = Some err /\ trace s' = trace s
    | Panic _ => False
    end.
Proof.
  unfold select_send, bindM, ask. destruct (sys_ctx (sys s) (tick (sys s))) as [err|] eqn:E.
  - eexists _, _. split; [done|]. by autorewrite with bus.
  - eexists _, _. split; [done|]. cbn. by autorewrite with bus.
Qed.

Fixpoint publish_logs (l : list MessageLogAction.t) : M S unit :=
  match l with
  | [] => ret tt
  | a :: l => do! _ <- LogProducer_Publish (MLog a); publish_logs l
  end.

Lemma log_publish_one a (s : S) :
  LogProducer.disabled (logp s) = false ->
  exists s', LogProducer_Publish (MLog a) s = (Ok (ResolvedFuture None), s') /\
    ((trace s' = trace s ++ [ELog a] /\ logp s' = logp s) \/
     (trace s' = trace s /\ logp s' = LogProducer.mk (i64 (Dropped s + 1)) false)).
Proof.
  intros Hd. unfold LogProducer_Publish, bindM, gets, ask. rewrite Hd.
  destruct (sys_full (sys s) (tick (sys s))); eexists; (split; [done|]); cbn;
    autorewrite with bus; rewrite ?Hd; auto.
Qed.

(** The log producer accounts for every action.  Publishing message log actions never
    blocks and never fails; every action is either put on the channel, in order, or counted
    as dropped, and nothing else is sent. *)
Theorem log_publish_accounting (l : list MessageLogAction.t) (s : S) :
  LogProducer.disabled (logp s) = false ->
  0 <= Dropped s -> Dropped s + zlen l < 2 ^ 63 ->
  exists s' sent, publish_logs l s = (Ok tt, s') /\
    trace s' = trace s ++ (ELog <$> sent) /\ sent `sublist_of` l /\
    zlen sent + (Dropped s' - Dropped s) = zlen l.
Proof.
  revert s. induction l as [|a l IH]; intros s Hd H0 Hmax.
  - exists s, []. rewrite app_nil_r, zlen_nil. split_and!; [done | done | constructor | lia].
  - rewrite zlen_cons in Hmax. pose proof (zlen_nonneg l).
    destruct (log_publish_one a s Hd) as (s1 & Hrun & Hcase). cbn [publish_logs].
    rewrite (run_bind _ _ _ _ _ Hrun).
    assert (Hd1 : LogProducer.disabled (logp s1) = false) by (destruct Hcase as [[_ ->] | [_ ->]]; done).
    destruct Hcase as [[Ht Hl] | [Ht Hl]].
    + assert (HD : Dropped s1 = Dropped s) by (unfold Dropped; by rewrite Hl).
      destruct (IH s1 Hd1) as (s2 & sent & Hr & Htr & Hsub & Hcnt); [lia | lia |].
      exists s2, (a :: sent). rewrite Hr, Htr, Ht, <- app_assoc, !zlen_cons.
      split_and!; [done | done | by constructor | lia].
    + assert (HD : Dropped s1 = Dropped s + 1).
      { unfold Dropped. rewrite Hl. cbn. fold (Dropped s). apply i64_small. lia. }
      destruct (IH s1 Hd1) as (s2 & sent & Hr & Htr & Hsub & Hcnt); [lia | lia |].
      exists s2, sent. rewrite Hr, Htr, Ht, !zlen_cons.
      split_and!; [done | done | by constructor | lia].
Qed.

(** Batch publishing sends a prefix.  [PublishBatch] puts the events on the activate channel
    in order; it returns nil only when all were sent, and when the context is cancelled in between
    what was sent is exactly a proper prefix of the batch. *)
Lemma publish_batch_prefix (evs : list CardEvent.t) (s : S) :
  exists sent rest, evs = sent ++ rest /\
    trace (snd (PublishBatch (MEvent <$> evs) s)) = trace s ++ (EEvent <$> sent) /\
    match fst (PublishBatch (MEvent <$> evs) s) with
    | Ok _ => rest = []
    | Err _ => rest <> []
    | Panic _ => False
    end.
Proof.
  revert s. induction evs as [|e evs IH]; intros s.
  - exists [], []. cbn. by rewrite app_nil_r.
  - rewrite fmap_cons. cbn [PublishBatch]. unfold bindM.
    destruct (select_send_spec (EEvent e) s) as (r & s1 & Hr & _ & Hcase). rewrite Hr.
    destruct r as [f|err|p]; [|by exists [], (e :: evs); cbn; rewrite app_nil_r; destruct Hcase|done].
    destruct Hcase as [_ Ht]. destruct (IH s1) as (sent & rest & -> & Htr & Hm).
    exists (e :: sent), rest. rewrite Htr, Ht, <- app_assoc. done.
Qed.

End ProducerLaws.

(** ** Witnesses *)

Definition wit_bus : BusState :=
  {| bs_sys := quiet_sys empty_db; bs_trace := []; bs_logp := LogProducer.mk 0 false |}.
Definition wit_log : MessageLogAction.t := MessageLogAction.update "m1" [("status", VStr "sent")].
Definition wit_event : CardEvent.t := CardEvent.activate "e1" "card-1" "camp-1" 1 0 1000.

Lemma log_publish_accounting_witness :
  exists s' sent, publish_logs [wit_log; wit_log] wit_bus = (Ok tt, s') /\
    trace s' = ELog <$> sent /\ zlen sent + Dropped s' = 2.
Proof.
  destruct (log_publish_accounting [wit_log; wit_log] wit_bus) as (s' & sent & H1 & H2 & _ & H4);
    [reflexivity | vm_compute; congruence | vm_compute; reflexivity |].
  exists s', sent. split; [exact H1|]. split; [exact H2|].
  change (Dropped wit_bus) with 0 in H4. change (zlen [wit_log; wit_log]) with 2 in H4. lia.
Defined.

