(* ===== verification/Store.v ===== *)
(** * Process-local stores of internal/pgstore

    [CoordinationStore] (coordination.go) holds the executor's hot state,
    [CounterStore] (counter_store.go) the OTA counters, and
    [GatewayCoordinationStore] (gateway_coordination.go) the gateway's
    correlations; [MSISDNResolver] (msisdn_resolver.go) maps numbers to cards.
    A [sync.Map] is a [gmap]; pointers stored in it are values, since every
    holder writes the mutated object back before it returns.

    The executor is written against the interfaces of executor/service.go.
    They are the classes [CoordinationStore] and [CounterStore]; what the
    executor relies on are their laws, which the implementations here
    discharge. *)

From S2P Require Import Prelude Effects Models.

(** ** The executor's interfaces *)

Definition redis_Nil : goerr := Errorf "redis: nil" [].

#[global] Instance is_redis_Nil e : Decision (e = redis_Nil).
Proof.
  destruct e as [f args]. unfold redis_Nil.
  destruct (decide (f = "redis: nil")) as [->|]; [|right; congruence].
  destruct args; [left; done | right; congruence].
Defined.

Class CoordinationStore (S : Type) := {
  CheckAndSetDedupe : string -> M (Sys * S) bool;
  GetCampaignStatus : string -> M (Sys * S) string;
  SetCampaignStatus : string -> string -> M (Sys * S) unit;
  AcquireThrottle : string -> Z -> M (Sys * S) bool;
  SetCardState : string -> CardState.t -> M (Sys * S) unit;
  GetCardState : string -> M (Sys * S) (option CardState.t);
  GetCachedProfile : string -> M (Sys * S) Profile.t;
  CacheProfile : string -> Profile.t -> M (Sys * S) unit;
  GetCachedCampaignParams : string -> M (Sys * S) (option CampaignParams.t);
  CacheCampaignParams : string -> CampaignParams.t -> M (Sys * S) unit;
  GetCampaignCommands : string -> M (Sys * S) (option (list CampaignCommandCache.t));
  CacheCampaignCommands : string -> list CampaignCommandCache.t -> M (Sys * S) unit;
  EvictCardState : string -> M (Sys * S) unit
}.

Class CounterStore (C : Type) := {
  IncrCounter : string -> string -> M C Z;
  GetCounter : string -> string -> M C Z;
  IncrCounterAsync : string -> string -> M C unit;
  EvictCard : string -> M C unit
}.

(** The environment is unchanged up to the number of questions asked. *)
Definition sys_le (y y' : Sys) : Prop := exists n, y' = set_tick n y.

#[global] Instance sys_le_preorder : PreOrder sys_le.
Proof.
  split.
  - intros []. by eexists.
  - intros ? ? ? [n ->] [m ->]. by exists m.
Qed.

(** What the executor relies on: the hot card states behave like a map. *)
Class CoordinationLaws (S : Type) `{!CoordinationStore S} := {
  hot : S -> gmap string CardState.t;
  set_card_state c st y s : exists y' s',
    SetCardState c st (y, s) = (Ok tt, (y', s')) /\ sys_le y y' /\ hot s' = <[c := st]> (hot s);
  get_card_state_hit c st y s : hot s !! c = Some st ->
    exists y' s', GetCardState c (y, s) = (Ok (Some st), (y', s')) /\ sys_le y y' /\ hot s' = hot s;
  evict_card_state c y s : exists y' s',
    EvictCardState c (y, s) = (Ok tt, (y', s')) /\ sys_le y y' /\ hot s' = delete c (hot s);
  dedupe_hot id y s : exists r y' s',
    CheckAndSetDedupe id (y, s) = (r, (y', s')) /\ no_panic r /\ sys_le y y' /\ hot s' = hot s;
  throttle_hot c n y s : exists r y' s',
    AcquireThrottle c n (y, s) = (r, (y', s')) /\ no_panic r /\ sys_le y y' /\ hot s' = hot s;
  profile_of : S -> string -> option Profile.t;
  profile_hit p pr y s : profile_of s p = Some pr -> GetCachedProfile p (y, s) = (Ok pr, (y, s))
}.

(** What it relies on for counters: a counter is read back until the card is
    evicted, and an increment adds one. *)
Class CounterLaws (C : Type) `{!CounterStore C} := {
  counter_of : C -> string -> string -> Z;
  get_counter c a s : GetCounter c a s = (Ok (counter_of s c a), s);
  incr_counter c a s : exists s',
    IncrCounterAsync c a s = (Ok tt, s') /\ counter_of s' c a = i64 (counter_of s c a + 1);
  evict_counter c s : exists s', EvictCard c s = (Ok tt, s')
}.

(** ** coordination.go *)

Module Coordination.

Record statusEntry := { status : string; cachedAt : Z }.

Definition statusCacheTTL : Z := 30 * 1000000000.

Record t := mk {
  profiles : gmap string Profile.t;
  commands : gmap string (list CampaignCommandCache.t);
  params : gmap string CampaignParams.t;
  statusCache : gmap string statusEntry;
  cardStates : gmap string CardState.t;
  throttles : gmap string Z
}.

Definition NewCoordinationStore : t := mk ∅ ∅ ∅ ∅ ∅ ∅.

Definition upd (f : t -> t) : M (Sys * t) unit := modify (fun p => (fst p, f (snd p))).

Definition CheckAndSetDedupe (_ : string) : M (Sys * t) bool := ret true.

(** A [rate.Limiter] is known by its limit; its decisions are the environment's. *)
Definition AcquireThrottle (campaignID : string) (ratePerSec : Z) : M (Sys * t) bool :=
  do! lim <- gets (fun p => throttles (snd p) !! campaignID);
  do! _ <- mwhen (negb (bool_decide (lim = Some ratePerSec)))
    (upd (fun s => mk (profiles s) (commands s) (params s) (statusCache s) (cardStates s)
                      (<[campaignID := ratePerSec]> (throttles s))));
  ask sys_allow.

Definition GetCachedProfile (profileID : string) : M (Sys * t) Profile.t :=
  do! v <- gets (fun p => profiles (snd p) !! profileID);
  match v with None => merr redis_Nil | Some raw => ret raw end.

Definition CacheProfile (profileID : string) (profile : Profile.t) : M (Sys * t) unit :=
  upd (fun s => mk (<[profileID := profile]> (profiles s)) (commands s) (params s) (statusCache s)
                   (cardStates s) (throttles s)).

Definition GetCachedCampaignParams (campaignID : string) : M (Sys * t) (option CampaignParams.t) :=
  gets (fun p => params (snd p) !! campaignID).

Definition CacheCampaignParams (campaignID : string) (ps : CampaignParams.t) : M (Sys * t) unit :=
  upd (fun s => mk (profiles s) (commands s) (<[campaignID := ps]> (params s)) (statusCache s)
                   (cardStates s) (throttles s)).

Definition GetCampaignCommands (campaignID : string)
    : M (Sys * t) (option (list CampaignCommandCache.t)) :=
  gets (fun p => commands (snd p) !! campaignID).

Definition CacheCampaignCommands (campaignID : string) (cmds : list CampaignCommandCache.t)
    : M (Sys * t) unit :=
  upd (fun s => mk (profiles s) (<[campaignID := cmds]> (commands s)) (params s) (statusCache s)
                   (cardStates s) (throttles s)).

Definition storeStatus (campaignID status_ : string) : M (Sys * t) unit :=
  do! at_ <- now;
  upd (fun s => mk (profiles s) (commands s) (params s)
                   (<[campaignID := {| status := status_; cachedAt := at_ |}]> (statusCache s))
                   (cardStates s) (throttles s)).

Definition GetCampaignStatus (campaignID : string) : M (Sys * t) string :=
  do! v <- gets (fun p => statusCache (snd p) !! campaignID);
  do! fresh <- (match v with
                | Some entry => do! n <- now;
                                ret (if n - cachedAt entry <? statusCacheTTL then Some (status entry) else None)
                | None => ret None
                end);
  match fresh with
  | Some s => ret s
  | None =>
      do! row <- try (do! o <- query (fun d => campaigns d !! campaignID); first o);
      match row with
      | Err e => if bool_decide (e = ErrRecordNotFound) then ret ""
                 else merr (Errorf "get campaign status: %w" [ArgErr e])
      | Panic p => mres (Panic p)
      | Ok campaign =>
          do! _ <- storeStatus campaignID (Campaign.Status campaign);
          ret (Campaign.Status campaign)
      end
  end.

Definition SetCampaignStatus (campaignID status_ : string) : M (Sys * t) unit :=
  do! _ <- mwrap "set campaign status: %w"
    (exec (set_campaigns (alter (Campaign.set_Status status_) campaignID)));
  storeStatus campaignID status_.

Definition storeCardState (cardID : string) (st : CardState.t) : M (Sys * t) unit :=
  upd (fun s => mk (profiles s) (commands s) (params s) (statusCache s)
                   (<[cardID := st]> (cardStates s)) (throttles s)).

Definition SetCardState (cardID : string) (st : CardState.t) : M (Sys * t) unit :=
  storeCardState cardID st.

Definition EvictCardState (cardID : string) : M (Sys * t) unit :=
  upd (fun s => mk (profiles s) (commands s) (params s) (statusCache s)
                   (delete cardID (cardStates s)) (throttles s)).

(** [Where("card_id = ?").Order("transition_seq DESC").First]: a row of the
    card with the greatest sequence number (the first one of those the table
    lists, where the code leaves the choice to the database). *)
Fixpoint latestRow (cardID : string) (rows : list CardExecutionState.t) : option CardExecutionState.t :=
  match rows with
  | [] => None
  | r :: rows =>
      let best := latestRow cardID rows in
      if bool_decide (CardExecutionState.CardID r = cardID) then
        match best with
        | Some b => if CardExecutionState.TransitionSeq r <? CardExecutionState.TransitionSeq b
                    then Some b else Some r
        | None => Some r
        end
      else best
  end.

Definition rowState (row : CardExecutionState.t) : CardState.t :=
  {| CardState.CampaignID := CardExecutionState.CampaignID row;
     CardState.CurrentStep := CardExecutionState.CurrentStep row;
     CardState.Status := CardExecutionState.Status row;
     CardState.RetryCount := CardExecutionState.RetryCount row;
     CardState.LastMsgID := default "" (CardExecutionState.LastMsgID row);
     CardState.LastEventID := "";
     CardState.TransitionSeq := CardExecutionState.TransitionSeq row |}.

Definition loadCardRow {S} `{!HasSys S} (cardID : string) : M S (option CardState.t) :=
  do! row <- try (do! o <- query (fun d => latestRow cardID (card_execution_states d)); first o);
  match row with
  | Err e => if bool_decide (e = ErrRecordNotFound) then ret None
             else merr (Errorf "get card state: %w" [ArgErr e])
  | Panic p => mres (Panic p)
  | Ok row => ret (Some (rowState row))
  end.

Definition GetCardState (cardID : string) : M (Sys * t) (option CardState.t) :=
  do! v <- gets (fun p => cardStates (snd p) !! cardID);
  match v with
  | Some st => ret (Some st)
  | None =>
      do! row <- loadCardRow cardID;
      match row with
      | None => ret None
      | Some st => do! _ <- storeCardState cardID st; ret (Some st)
      end
  end.

End Coordination.

#[global] Instance pg_coordination : CoordinationStore Coordination.t := {|
  CheckAndSetDedupe := Coordination.CheckAndSetDedupe;
  GetCampaignStatus := Coordination.GetCampaignStatus;
  SetCampaignStatus := Coordination.SetCampaignStatus;
  AcquireThrottle := Coordination.AcquireThrottle;
  SetCardState := Coordination.SetCardState;
  GetCardState := Coordination.GetCardState;
  GetCachedProfile := Coordination.GetCachedProfile;
  CacheProfile := Coordination.CacheProfile;
  GetCachedCampaignParams := Coordination.GetCachedCampaignParams;
  CacheCampaignParams := Coordination.CacheCampaignParams;
  GetCampaignCommands := Coordination.GetCampaignCommands;
  CacheCampaignCommands := Coordination.CacheCampaignCommands;
  EvictCardState := Coordination.EvictCardState
|}.

#[global] Instance pg_coordination_laws : CoordinationLaws Coordination.t.
Proof.
  refine {| hot := Coordination.cardStates; profile_of s p := Coordination.profiles s !! p |}.
  - intros. eexists _, _. split; [reflexivity|]. split; [reflexivity | done].
  - intros c st y s H. eexists _, _. split; [|split; [reflexivity | reflexivity]].
    cbn. unfold Coordination.GetCardState, bindM, gets. cbn. by rewrite H.
  - intros. eexists _, _. split; [reflexivity|]. split; [reflexivity | done].
  - intros. eexists _, _, _. split; [reflexivity|]. split; [done|]. split; [reflexivity | done].
  - intros c n y s. cbn. unfold Coordination.AcquireThrottle, bindM, gets, mwhen, Coordination.upd, modify. cbn.
    destruct (bool_decide _); cbn; (eexists _, _, _; split; [reflexivity|]; split; [done|]; split; [by eexists | done]).
  - intros p pr y s H. cbn. unfold Coordination.GetCachedProfile, bindM, gets. cbn. by rewrite H.
Defined.

(** ** counter_store.go *)

Module Counters.

Record t := mk {
  counters : gmap string Z;
  cardApps : gmap string (list string)
}.

Definition NewCounterStore : t := mk ∅ ∅.

Definition counterKey (cardID applicationID : string) : string := cardID +:+ ":" +:+ applicationID.

Definition GetCounter (cardID applicationID : string) : M t Z :=
  gets (fun s => default 0 (counters s !! counterKey cardID applicationID)).

Definition addApp (cardID appID : string) (m : gmap string (list string)) : gmap string (list string) :=
  <[cardID := default [] (m !! cardID) ++ [appID]]> m.

Definition IncrCounter (cardID applicationID : string) : M t Z :=
  let key := counterKey cardID applicationID in
  do! _ <- modify (fun s => match counters s !! key with
                            | Some _ => s
                            | None => mk (counters s) (addApp cardID applicationID (cardApps s))
                            end);
  do! _ <- modify (fun s => mk (<[key := i64 (default 0 (counters s !! key) + 1)]> (counters s)) (cardApps s));
  gets (fun s => default 0 (counters s !! key)).

Definition IncrCounterAsync (cardID applicationID : string) : M t unit :=
  do! _ <- IncrCounter cardID applicationID; ret tt.

Definition evictKeys (cardID : string) (apps : list string) (m : gmap string Z) : gmap string Z :=
  foldl (fun m appID => delete (counterKey cardID appID) m) m apps.

Definition EvictCard (cardID : string) : M t unit :=
  modify (fun s => mk (evictKeys cardID (default [] (cardApps s !! cardID)) (counters s))
                      (delete cardID (cardApps s))).

(** [strings.IndexByte(k, ':')] and the two halves. *)
Fixpoint splitColon (k : string) : option (string * string) :=
  match k with
  | EmptyString => None
  | String a rest =>
      if (Ascii.N_of_ascii a =? 58)%N then Some (EmptyString, rest)
      else match splitColon rest with
           | Some (c, p) => Some (String a c, p)
           | None => None
           end
  end.

Definition preloadOne (kv : string * Z) (s : t) : t :=
  let '(k, v) := kv in
  mk (<[k := v]> (counters s))
     (match splitColon k with
      | Some (cardID, appID) => addApp cardID appID (cardApps s)
      | None => cardApps s
      end).

(** [values] in the order the map is visited. *)
Definition PreloadCounters (values : list (string * Z)) : M t unit :=
  modify (fun s => foldl (fun s kv => preloadOne kv s) s values).

End Counters.

#[global] Instance pg_counters : CounterStore Counters.t := {|
  IncrCounter := Counters.IncrCounter;
  GetCounter := Counters.GetCounter;
  IncrCounterAsync := Counters.IncrCounterAsync;
  EvictCard := Counters.EvictCard
|}.

#[global] Instance pg_counters_laws : CounterLaws Counters.t.
Proof.
  refine {| counter_of s c a := default 0 (Counters.counters s !! Counters.counterKey c a) |}.
  - done.
  - intros c a s. eexists. split; [reflexivity|]. cbn.
    destruct (Counters.counters s !! Counters.counterKey c a) eqn:E; cbn; rewrite lookup_insert_eq, E; done.
  - intros. by eexists.
Defined.

(** ** gateway_coordination.go *)

Module GatewayStore.

Record multipartState := { total : Z; delivered : Z; failed : Z }.

Record t := mk {
  correlations : gmap string SMPPMapping.t;
  multiparts : gmap string multipartState
}.

Definition NewGatewayCoordinationStore : t := mk ∅ ∅.

Definition ErrNoMultipartTracking : goerr := Errorf "no multipart tracking" [].

Definition StoreSMPPCorrelation (smppMsgID : string) (mapping : SMPPMapping.t) : M t unit :=
  modify (fun s => mk (<[smppMsgID := mapping]> (correlations s)) (multiparts s)).

(** One-shot: [LoadAndDelete]. *)
Definition LoadSMPPCorrelation (smppMsgID : string) : M t (option SMPPMapping.t) :=
  do! v <- gets (fun s => correlations s !! smppMsgID);
  do! _ <- modify (fun s => mk (delete smppMsgID (correlations s)) (multiparts s));
  ret v.

(** The executor's store when the gateway shares it, the table otherwise. *)
Definition GetCardState {S} (cardStateCache : option (string -> M (Sys * S) (option CardState.t)))
    (cardID : string) : M (Sys * S) (option CardState.t) :=
  match cardStateCache with
  | Some get => get cardID
  | None => Coordination.loadCardRow cardID
  end.

Definition InitMultipartTracking (msgID : string) (totalParts : Z) : M t unit :=
  modify (fun s => mk (correlations s)
                      (<[msgID := {| total := totalParts; delivered := 0; failed := 0 |}]> (multiparts s))).

Definition RecordPartDLR (msgID : string) (ok : bool) : M t (bool * bool) :=
  do! v <- gets (fun s => multiparts s !! msgID);
  match v with
  | None => merr ErrNoMultipartTracking
  | Some state =>
      let state := if ok
                   then {| total := total state; delivered := delivered state + 1; failed := failed state |}
                   else {| total := total state; delivered := delivered state; failed := failed state + 1 |} in
      let resolved := total state <=? delivered state + failed state in
      let hasFailed := 0 <? failed state in
      do! _ <- modify (fun s => mk (correlations s)
                 (if resolved then delete msgID (multiparts s) else <[msgID := state]> (multiparts s)));
      ret (resolved, hasFailed)
  end.

End GatewayStore.

(** ** msisdn_resolver.go *)

Module MSISDNResolver.

Definition t := gmap string string.

(** [Where("msisdn IS NOT NULL AND msisdn != ''")], rows in table order. *)
Definition preloadAll : M (Sys * t) unit :=
  do! rows <- try (query (fun d => filter (fun r => Card.MSISDN r <> "") (map_to_list (cards d)).*2));
  match rows with
  | Ok rows => modify (fun p => (fst p, foldl (fun m r => <[Card.MSISDN r := Card.ID r]> m) (snd p) rows))
  | _ => ret tt
  end.

Definition PreloadMSISDNs (mappings : gmap string string) : M (Sys * t) unit :=
  modify (fun p => (fst p, mappings ∪ snd p)).

Definition LookupCardByMSISDN (msisdn : string) : M (Sys * t) string :=
  do! v <- gets (fun p => snd p !! msisdn);
  match v with
  | Some c => ret c
  | None =>
      do! row <- try (do! o <- query (fun d => head (filter (fun r => Card.MSISDN r = msisdn) (map_to_list (cards d)).*2)); first o);
      match row with
      | Err e => if bool_decide (e = ErrRecordNotFound) then ret ""
                 else merr (Errorf "lookup card by msisdn: %w" [ArgErr e])
      | Panic p => mres (Panic p)
      | Ok card =>
          do! _ <- modify (fun p => (fst p, <[msisdn := Card.ID card]> (snd p)));
          ret (Card.ID card)
      end
  end.

End MSISDNResolver.

(** ** Properties of the counter store *)

Section CounterIndex.
Import Counters.

Definition colon_free (s : string) : Prop := splitColon s = None.

Lemma splitColon_key c a : colon_free c -> splitColon (counterKey c a) = Some (c, a).
Proof.
  unfold colon_free, counterKey. induction c as [|x c IH]; [done|].
  change (String x c +:+ ":" +:+ a) with (String x (c +:+ ":" +:+ a)). cbn [splitColon].
  destruct (Ascii.N_of_ascii x =? 58)%N; [done|]. destruct (splitColon c) as [[]|]; [done|].
  intros _. by rewrite IH.
Qed.

Lemma splitColon_inv k c a : splitColon k = Some (c, a) -> k = counterKey c a /\ colon_free c.
Proof.
  unfold colon_free. revert c. induction k as [|x k IH]; intros c H; [done|]. cbn [splitColon] in H.
  destruct (Ascii.N_of_ascii x =? 58)%N eqn:E.
  - injection H as <- <-. split; [|done]. apply N.eqb_eq in E.
    assert (x = Ascii.ascii_of_N 58) as -> by (by rewrite <- E, Ascii.ascii_N_embedding). done.
  - destruct (splitColon k) as [[c' a']|]; [|done]. injection H as <- <-.
    destruct (IH c' eq_refl) as [-> Hc]. split; [done|]. cbn [splitColon]. by rewrite E, Hc.
Qed.

(** Every stored counter is found through the index of its card. *)
Definition index_ok (s : t) : Prop :=
  forall k v, counters s !! k = Some v ->
    exists c a, k = counterKey c a /\ colon_free c /\ a ∈ default [] (cardApps s !! c).

Lemma evictKeys_lookup c apps m k v :
  evictKeys c apps m !! k = Some v <-> m !! k = Some v /\ forall a, a ∈ apps -> k <> counterKey c a.
Proof.
  unfold evictKeys. revert m. induction apps as [|a apps IH]; intros m; cbn [foldl].
  - split; [intros H; split; [done | set_solver] | by intros [? _]].
  - rewrite IH, lookup_delete_Some. set_solver.
Qed.

Lemma addApp_elem c a m c' a' : a' ∈ default [] (m !! c') \/ (c' = c /\ a' = a) ->
  a' ∈ default [] (addApp c a m !! c').
Proof.
  unfold addApp. intros H. destruct (decide (c' = c)) as [->|].
  - rewrite lookup_insert_eq. cbn. set_solver.
  - rewrite lookup_insert_ne by done. naive_solver.
Qed.

Lemma index_incr c a s : colon_free c -> index_ok s -> index_ok (snd (IncrCounter c a s)).
Proof.
  intros Hc Hs. unfold IncrCounter, bindM, modify, gets. cbn [snd fst].
  destruct (counters s !! counterKey c a) as [v0|] eqn:E; cbn [counters cardApps]; intros k v Hk;
    cbn [counters cardApps] in *.
  - destruct (decide (k = counterKey c a)) as [->|].
    + apply (Hs _ _ E).
    + rewrite lookup_insert_ne in Hk by done. apply (Hs _ _ Hk).
  - destruct (decide (k = counterKey c a)) as [->|].
    + exists c, a. split; [done|]. split; [done|]. apply addApp_elem. by right.
    + rewrite lookup_insert_ne in Hk by done. destruct (Hs _ _ Hk) as (c' & a' & -> & Hc' & Hin).
      exists c', a'. split; [done|]. split; [done|]. apply addApp_elem. by left.
Qed.

Lemma index_preload kv s : is_Some (splitColon (fst kv)) -> index_ok s -> index_ok (preloadOne kv s).
Proof.
  destruct kv as [k0 v0]. cbn [fst]. intros [[c a] Hsp] Hs. unfold preloadOne. rewrite Hsp.
  destruct (splitColon_inv _ _ _ Hsp) as [-> Hc]. intros k v Hk. cbn [counters cardApps] in *.
  destruct (decide (k = counterKey c a)) as [->|].
  - exists c, a. split; [done|]. split; [done|]. apply addApp_elem. by right.
  - rewrite lookup_insert_ne in Hk by done. destruct (Hs _ _ Hk) as (c' & a' & -> & Hc' & Hin).
    exists c', a'. split; [done|]. split; [done|]. apply addApp_elem. by left.
Qed.

Lemma index_evict c s : index_ok s -> index_ok (snd (EvictCard c s)).
Proof.
  intros Hs k v. cbn. rewrite evictKeys_lookup. intros [Hk Hne].
  destruct (Hs _ _ Hk) as (c' & a' & -> & Hc' & Hin). exists c', a'. split; [done|]. split; [done|].
  destruct (decide (c' = c)) as [->|]; [|by rewrite lookup_delete_ne].
  by destruct (Hne a' Hin).
Qed.

(** The operations of the store, as steps. *)
Inductive counter_step : t -> t -> Prop :=
| step_incr c a s : colon_free c -> counter_step s (snd (IncrCounter c a s))
| step_evict c s : counter_step s (snd (EvictCard c s))
| step_preload kvs s : Forall (fun kv => is_Some (splitColon (fst kv))) kvs ->
    counter_step s (snd (PreloadCounters kvs s)).

Lemma index_reachable s : rtc counter_step NewCounterStore s -> index_ok s.
Proof.
  intros H. assert (Hinit : index_ok NewCounterStore).
  { intros k v Hk. cbn in Hk. by rewrite lookup_empty in Hk. }
  revert Hinit. induction H as [|s1 s2 s3 Hstep _ IH]; intros Hok; [done|]. apply IH.
  destruct Hstep as [c a s Hc | c s | kvs s Hkvs].
  - by apply index_incr.
  - by apply index_evict.
  - cbn. clear -Hkvs Hok. revert s Hok. induction Hkvs as [|kv kvs Hkv _ IHk]; intros s Hok; [done|].
    cbn [foldl]. by apply IHk, index_preload.
Qed.

(** Eviction forgets exactly one card.  In every state the counter store reaches by preloading,
    incrementing and evicting, [EvictCard] removes all counters of the card, whatever applications
    they belong to, and leaves the counters of every other card as they are: the
    secondary index [cardApps] never misses a counter. *)
Theorem evict_card_exact s c c' a :
  rtc counter_step NewCounterStore s -> colon_free c -> colon_free c' ->
  let s' := snd (EvictCard c s) in
  counter_of s' c a = 0 /\ (c' <> c -> counter_of s' c' a = counter_of s c' a).
Proof.
  intros Hr Hc Hc' s'. pose proof (index_reachable s Hr) as Hok. cbn [counter_of pg_counters_laws]. split.
  - destruct (counters s' !! counterKey c a) as [v|] eqn:E; [|done].
    unfold s' in E. cbn in E. rewrite evictKeys_lookup in E. destruct E as [Hk Hne].
    destruct (Hok _ _ Hk) as (c1 & a1 & Heq & Hc1 & Hin).
    pose proof (splitColon_key c a Hc) as H1. rewrite Heq, splitColon_key in H1 by done.
    injection H1 as -> ->. by destruct (Hne a Hin).
  - intros Hne. f_equal. unfold s'. cbn.
    assert (Hdiff : forall a', counterKey c' a <> counterKey c a').
    { intros a' Heq. pose proof (splitColon_key c' a Hc') as H1. rewrite Heq, splitColon_key in H1 by done.
      congruence. }
    destruct (counters s !! counterKey c' a) as [v|] eqn:E.
    + apply evictKeys_lookup. split; [done|]. intros. apply Hdiff.
    + destruct (evictKeys _ _ _ !! _) as [v|] eqn:E2; [|done].
      apply evictKeys_lookup in E2 as [E2 _]. congruence.
Qed.

End CounterIndex.

(** Counters are strictly increasing.  In every implementation of the counter interface, the
    counter the executor puts in a packet (read, then increment) grows by exactly one per
    activation of a card and application, so no two of its packets carry the same counter until
    the card is evicted. *)
Theorem counter_monotone {C} `{!CounterStore C, !CounterLaws C} (s : C) c a n :
  0 <= counter_of s c a -> counter_of s c a + Z.of_nat n < 2 ^ 63 ->
  let run := Nat.iter n (fun s => snd (IncrCounterAsync c a s)) s in
  GetCounter c a run = (Ok (counter_of s c a + Z.of_nat n), run).
Proof.
  intros H0 Hmax run.
  assert (H : counter_of run c a = counter_of s c a + Z.of_nat n); [|rewrite <- H; apply get_counter].
  unfold run. clear run. induction n as [|n IH]; [simpl; lia|]. cbn [Nat.iter nat_rect].
  set (r := nat_rect _ _ _ _). change r with (Nat.iter n (fun s => snd (IncrCounterAsync c a s)) s).
  destruct (incr_counter c a (Nat.iter n (fun s => snd (IncrCounterAsync c a s)) s)) as (s' & Hrun & Hs').
  rewrite Hrun. cbn [snd]. rewrite Hs', IH by lia. rewrite i64_small by lia. lia.
Qed.

(** ** Properties of the gateway store *)

Section Multipart.
Import GatewayStore.

(** Evaluates a filter on a cons whose head is a known boolean. *)
Ltac filter_bool :=
  rewrite !filter_cons; repeat first [rewrite decide_True by done | rewrite decide_False by done];
  rewrite ?zlen_cons.

Fixpoint record_all (msgID : string) (ds : list bool) : M t (list (bool * bool)) :=
  match ds with
  | [] => ret []
  | d :: ds => do! r <- RecordPartDLR msgID d;
               do! rs <- record_all msgID ds;
               ret (r :: rs)
  end.

Lemma record_partial msgID ds s m :
  multiparts s !! msgID = Some m -> delivered m + failed m + zlen ds < total m ->
  exists s' outs, record_all msgID ds s = (Ok outs, s') /\ Forall (fun o => fst o = false) outs /\
    multiparts s' !! msgID
      = Some {| total := total m; delivered := delivered m + zlen (filter (fun b => b = true) ds);
                failed := failed m + zlen (filter (fun b => b = false) ds) |}.
Proof.
  revert s m. induction ds as [|d ds IH]; intros s m Hm Hlt.
  - exists s, []. split; [done|]. split; [done|]. rewrite Hm. destruct m. unfold zlen. cbn.
    by rewrite !Z.add_0_r.
  - rewrite zlen_cons in Hlt. pose proof (zlen_nonneg ds). cbn [record_all].
    set (m1 := if d then {| total := total m; delivered := delivered m + 1; failed := failed m |}
               else {| total := total m; delivered := delivered m; failed := failed m + 1 |}).
    set (s1 := mk (correlations s) (<[msgID := m1]> (multiparts s))).
    assert (Hsum : delivered m1 + failed m1 = delivered m + failed m + 1 /\ total m1 = total m)
      by (unfold m1; destruct d; cbn; lia).
    assert (Hrun : RecordPartDLR msgID d s = (Ok (false, 0 <? failed m1), s1)).
    { unfold RecordPartDLR, bindM, gets. rewrite Hm. fold m1. cbn [modify].
      rewrite (proj2 (Z.leb_gt (total m1) _)) by lia. done. }
    destruct (IH s1 m1) as (s' & outs & Hr & Hall & Hs'); [apply lookup_insert_eq | lia |].
    exists s', ((false, 0 <? failed m1) :: outs).
    rewrite (run_bind _ _ _ _ _ Hrun), (run_bind _ _ _ _ _ Hr). split; [done|]. split; [by constructor|].
    rewrite Hs'. f_equal. unfold m1. destruct d; cbn [total delivered failed]; filter_bool; f_equal; lia.
Qed.

(** Multipart delivery reports.  After tracking of [n] parts starts, the reports of the first
    [n - 1] parts are answered "not resolved"; the last one is answered "resolved", with the
    failed flag set exactly when some part failed, and the tracking entry is removed,
    so a further report is refused with ErrNoMultipartTracking. *)
Theorem multipart_resolution msgID ds d s0 :
  let s := snd (InitMultipartTracking msgID (zlen ds + 1) s0) in
  exists s1 outs s2,
    record_all msgID ds s = (Ok outs, s1) /\ Forall (fun o => fst o = false) outs /\
    RecordPartDLR msgID d s1 = (Ok (true, bool_decide (false ∈ ds ++ [d])), s2) /\
    fst (RecordPartDLR msgID true s2) = Err ErrNoMultipartTracking.
Proof.
  intros s. set (m := {| total := zlen ds + 1; delivered := 0; failed := 0 |}).
  destruct (record_partial msgID ds s m) as (s1 & outs & Hr & Hall & Hs1);
    [apply lookup_insert_eq | cbn; lia |].
  assert (Hcount : zlen (filter (fun b => b = true) ds) + zlen (filter (fun b => b = false) ds) = zlen ds).
  { clear. induction ds as [|[] ds IH]; [done|..]; filter_bool; lia. }
  assert (Hfail : 0 < zlen (filter (fun b => b = false) ds) <-> false ∈ ds).
  { clear. induction ds as [|[] ds IH]; [|filter_bool; rewrite elem_of_cons..].
    - rewrite elem_of_nil. change (zlen (filter _ _)) with 0. lia.
    - rewrite IH. naive_solver.
    - pose proof (zlen_nonneg (filter (fun b => b = false) ds)). split; [by left | lia]. }
  exists s1, outs, (mk (correlations s1) (delete msgID (multiparts s1))).
  split; [done|]. split; [done|]. split.
  - unfold RecordPartDLR, bindM, gets. rewrite Hs1. cbn [total delivered failed m].
    assert (Hd : (bool_decide (false ∈ ds ++ [d])) = (0 <? zlen (filter (fun b => b = false) ds) + (if d then 0 else 1))).
    { pose proof (zlen_nonneg (filter (fun b => b = false) ds)).
      destruct (_ <? _) eqn:E.
      - apply bool_decide_true. rewrite elem_of_app. destruct d; [left; apply Hfail; lia | right; set_solver].
      - apply bool_decide_false. rewrite elem_of_app. destruct d; [|lia].
        intros [Hin%Hfail | Hin]; [lia | set_solver]. }
    rewrite Hd. destruct d; cbn [total delivered failed modify ret];
      rewrite (proj2 (Z.leb_le _ _)) by lia; cbn [modify ret]; by rewrite ?Z.add_0_l, ?Z.add_0_r.
  - unfold RecordPartDLR, bindM, gets. cbn [multiparts]. by rewrite lookup_delete_eq.
Qed.

(** Correlations are one-shot.  The first load of an SMPP message id returns the mapping stored
    for it, every further load returns nothing: a repeated delivery report cannot act on a card
    twice; correlations of other ids are untouched. *)
Lemma smpp_correlation_one_shot s id mapping id' :
  let s1 := snd (StoreSMPPCorrelation id mapping s) in
  let s2 := snd (LoadSMPPCorrelation id s1) in
  fst (LoadSMPPCorrelation id s1) = Ok (Some mapping) /\
  fst (LoadSMPPCorrelation id s2) = Ok None /\
  (id' <> id -> fst (LoadSMPPCorrelation id' s2) = fst (LoadSMPPCorrelation id' s)).
Proof.
  cbn. rewrite lookup_insert_eq, lookup_delete_eq. split_and!; [done | done |].
  intros Hne. by rewrite lookup_delete_ne, lookup_insert_ne.
Qed.

End Multipart.

(** ** Witnesses *)

Definition wit_counters : Counters.t :=
  snd (Counters.IncrCounter "card-2" "app" (snd (Counters.PreloadCounters [("card-1:app", 41)] Counters.NewCounterStore))).

Lemma wit_counters_reachable : rtc counter_step Counters.NewCounterStore wit_counters.
Proof.
  eapply rtc_l; [apply step_preload with (kvs := [("card-1:app", 41)])|].
  - constructor; [by eexists | constructor].
  - eapply rtc_l; [by apply step_incr with (c := "card-2") (a := "app") | apply rtc_refl].
Qed.

Lemma evict_card_exact_witness :
  counter_of (snd (EvictCard "card-1" wit_counters)) "card-1" "app" = 0 /\
  counter_of (snd (EvictCard "card-1" wit_counters)) "card-2" "app" = 1.
Proof.
  destruct (evict_card_exact wit_counters "card-1" "card-2" "app" wit_counters_reachable eq_refl eq_refl)
    as [H1 H2].
  split; [exact H1|]. etrans; [apply H2; discriminate | reflexivity].
Defined.

Lemma counter_monotone_witness :
  GetCounter "card-1" "app" (Nat.iter 3 (fun s => snd (IncrCounterAsync "card-1" "app" s)) wit_counters)
  = (Ok 44, Nat.iter 3 (fun s => snd (IncrCounterAsync "card-1" "app" s)) wit_counters).
Proof.
  assert (H : counter_of wit_counters "card-1" "app" = 41) by (vm_compute; reflexivity).
  pose proof (counter_monotone wit_counters "card-1" "app" 3) as HM. cbv zeta in HM. rewrite H in HM.
  apply HM; lia.
Defined.
