(* ===== verification/Crypto.v ===== *)
(** * Block ciphers and CBC mode

    The parts of Go's standard library the packet code calls:
    [crypto/des] (single and triple DES), [crypto/aes] and the CBC modes of
    [crypto/cipher].  The block interface [cipher.Block] is the record
    [block]; what CBC relies on is stated by the classes [BlockEncLaws] and
    [BlockLaws], which the DES and triple DES blocks implement (decryption
    inverts encryption, proved from the Feistel structure) and of which AES
    provides the encryption half. *)

From S2P Require Import Prelude.

(** [cipher.Block] *)
Record block := mk_block {
  BlockSize : nat;
  Encrypt : list Z -> list Z;
  Decrypt : list Z -> list Z
}.

(** ** Bit strings *)

Definition byte_bits (z : Z) : list bool :=
  [Z.testbit z 7; Z.testbit z 6; Z.testbit z 5; Z.testbit z 4;
   Z.testbit z 3; Z.testbit z 2; Z.testbit z 1; Z.testbit z 0].

Definition bits_val (l : list bool) : Z :=
  fold_left (fun acc (b : bool) => 2 * acc + (if b then 1 else 0)) l 0.

Definition bits_of_bytes (l : list Z) : list bool := concat (byte_bits <$> l).

Fixpoint bytes_of_bits (l : list bool) : list Z :=
  match l with
  | a :: b :: c :: d :: e :: f :: g :: h :: l => bits_val [a; b; c; d; e; f; g; h] :: bytes_of_bits l
  | _ => []
  end.

Definition permute (tbl : list nat) (l : list bool) : list bool :=
  (fun i => nth (i - 1) l false) <$> tbl.

Definition xor_bits (l1 l2 : list bool) : list bool := zip_with xorb l1 l2.

(** [dst[i] ^= src[i]] over the common length. *)
Definition xor_list (l1 l2 : list Z) : list Z := zip_with Z.lxor l1 l2.

(** ** Block ciphers of Go's crypto/des and crypto/aes *)

Module Des.

Definition IP : list nat :=
  [ 58; 50; 42; 34; 26; 18; 10; 2; 60; 52; 44; 36; 28; 20; 12; 4;
   62; 54; 46; 38; 30; 22; 14; 6; 64; 56; 48; 40; 32; 24; 16; 8;
   57; 49; 41; 33; 25; 17; 9; 1; 59; 51; 43; 35; 27; 19; 11; 3;
   61; 53; 45; 37; 29; 21; 13; 5; 63; 55; 47; 39; 31; 23; 15; 7 ]%nat.
Definition FP : list nat :=
  [ 40; 8; 48; 16; 56; 24; 64; 32; 39; 7; 47; 15; 55; 23; 63; 31;
   38; 6; 46; 14; 54; 22; 62; 30; 37; 5; 45; 13; 53; 21; 61; 29;
   36; 4; 44; 12; 52; 20; 60; 28; 35; 3; 43; 11; 51; 19; 59; 27;
   34; 2; 42; 10; 50; 18; 58; 26; 33; 1; 41; 9; 49; 17; 57; 25 ]%nat.
Definition E : list nat :=
  [ 32; 1; 2; 3; 4; 5; 4; 5; 6; 7; 8; 9;
   8; 9; 10; 11; 12; 13; 12; 13; 14; 15; 16; 17;
   16; 17; 18; 19; 20; 21; 20; 21; 22; 23; 24; 25;
   24; 25; 26; 27; 28; 29; 28; 29; 30; 31; 32; 1 ]%nat.
Definition P : list nat :=
  [ 16; 7; 20; 21; 29; 12; 28; 17; 1; 15; 23; 26; 5; 18; 31; 10;
   2; 8; 24; 14; 32; 27; 3; 9; 19; 13; 30; 6; 22; 11; 4; 25 ]%nat.
Definition PC1 : list nat :=
  [ 57; 49; 41; 33; 25; 17; 9; 1; 58; 50; 42; 34; 26; 18;
   10; 2; 59; 51; 43; 35; 27; 19; 11; 3; 60; 52; 44; 36;
   63; 55; 47; 39; 31; 23; 15; 7; 62; 54; 46; 38; 30; 22;
   14; 6; 61; 53; 45; 37; 29; 21; 13; 5; 28; 20; 12; 4 ]%nat.
Definition PC2 : list nat :=
  [ 14; 17; 11; 24; 1; 5; 3; 28; 15; 6; 21; 10;
   23; 19; 12; 4; 26; 8; 16; 7; 27; 20; 13; 2;
   41; 52; 31; 37; 47; 55; 30; 40; 51; 45; 33; 48;
   44; 49; 39; 56; 34; 53; 46; 42; 50; 36; 29; 32 ]%nat.
Definition shifts : list nat := [1; 1; 2; 2; 2; 2; 2; 2; 1; 2; 2; 2; 2; 2; 2; 1]%nat.
Definition sboxes : list (list nat) :=
  [ [ 14; 4; 13; 1; 2; 15; 11; 8; 3; 10; 6; 12; 5; 9; 0; 7;
   0; 15; 7; 4; 14; 2; 13; 1; 10; 6; 12; 11; 9; 5; 3; 8;
   4; 1; 14; 8; 13; 6; 2; 11; 15; 12; 9; 7; 3; 10; 5; 0;
   15; 12; 8; 2; 4; 9; 1; 7; 5; 11; 3; 14; 10; 0; 6; 13 ];
    [ 15; 1; 8; 14; 6; 11; 3; 4; 9; 7; 2; 13; 12; 0; 5; 10;
   3; 13; 4; 7; 15; 2; 8; 14; 12; 0; 1; 10; 6; 9; 11; 5;
   0; 14; 7; 11; 10; 4; 13; 1; 5; 8; 12; 6; 9; 3; 2; 15;
   13; 8; 10; 1; 3; 15; 4; 2; 11; 6; 7; 12; 0; 5; 14; 9 ];
    [ 10; 0; 9; 14; 6; 3; 15; 5; 1; 13; 12; 7; 11; 4; 2; 8;
   13; 7; 0; 9; 3; 4; 6; 10; 2; 8; 5; 14; 12; 11; 15; 1;
   13; 6; 4; 9; 8; 15; 3; 0; 11; 1; 2; 12; 5; 10; 14; 7;
   1; 10; 13; 0; 6; 9; 8; 7; 4; 15; 14; 3; 11; 5; 2; 12 ];
    [ 7; 13; 14; 3; 0; 6; 9; 10; 1; 2; 8; 5; 11; 12; 4; 15;
   13; 8; 11; 5; 6; 15; 0; 3; 4; 7; 2; 12; 1; 10; 14; 9;
   10; 6; 9; 0; 12; 11; 7; 13; 15; 1; 3; 14; 5; 2; 8; 4;
   3; 15; 0; 6; 10; 1; 13; 8; 9; 4; 5; 11; 12; 7; 2; 14 ];
    [ 2; 12; 4; 1; 7; 10; 11; 6; 8; 5; 3; 15; 13; 0; 14; 9;
   14; 11; 2; 12; 4; 7; 13; 1; 5; 0; 15; 10; 3; 9; 8; 6;
   4; 2; 1; 11; 10; 13; 7; 8; 15; 9; 12; 5; 6; 3; 0; 14;
   11; 8; 12; 7; 1; 14; 2; 13; 6; 15; 0; 9; 10; 4; 5; 3 ];
    [ 12; 1; 10; 15; 9; 2; 6; 8; 0; 13; 3; 4; 14; 7; 5; 11;
   10; 15; 4; 2; 7; 12; 9; 5; 6; 1; 13; 14; 0; 11; 3; 8;
   9; 14; 15; 5; 2; 8; 12; 3; 7; 0; 4; 10; 1; 13; 11; 6;
   4; 3; 2; 12; 9; 5; 15; 10; 11; 14; 1; 7; 6; 0; 8; 13 ];
    [ 4; 11; 2; 14; 15; 0; 8; 13; 3; 12; 9; 7; 5; 10; 6; 1;
   13; 0; 11; 7; 4; 9; 1; 10; 14; 3; 5; 12; 2; 15; 8; 6;
   1; 4; 11; 13; 12; 3; 7; 14; 10; 15; 6; 8; 0; 5; 9; 2;
   6; 11; 13; 8; 1; 4; 10; 7; 9; 5; 0; 15; 14; 2; 3; 12 ];
    [ 13; 2; 8; 4; 6; 15; 11; 1; 10; 9; 3; 14; 5; 0; 12; 7;
   1; 15; 13; 8; 10; 3; 7; 4; 12; 5; 6; 11; 0; 14; 9; 2;
   7; 11; 4; 1; 9; 12; 14; 2; 0; 6; 10; 13; 15; 3; 5; 8;
   2; 1; 14; 7; 4; 10; 8; 13; 15; 12; 9; 0; 3; 5; 6; 11 ] ]%nat.

Definition rotl {A} (n : nat) (l : list A) : list A := drop n l ++ take n l.

Fixpoint key_rounds (sh : list nat) (c d : list bool) : list (list bool) :=
  match sh with
  | [] => []
  | n :: sh =>
      let c := rotl n c in
      let d := rotl n d in
      permute PC2 (c ++ d) :: key_rounds sh c d
  end.

Definition key_schedule (key : list Z) : list (list bool) :=
  let k := permute PC1 (bits_of_bytes key) in
  key_rounds shifts (take 28 k) (drop 28 k).

Definition nibble (n : nat) : list bool :=
  let z := Z.of_nat n in [Z.testbit z 3; Z.testbit z 2; Z.testbit z 1; Z.testbit z 0].

Definition sub_box (tbl : list nat) (b : list bool) : list bool :=
  match b with
  | [b1; b2; b3; b4; b5; b6] =>
      let row := Z.to_nat (bits_val [b1; b6]) in
      let col := Z.to_nat (bits_val [b2; b3; b4; b5]) in
      nibble (nth (16 * row + col) tbl 0)
  | _ => []
  end%nat.

Fixpoint sub_boxes (tbls : list (list nat)) (b : list bool) : list bool :=
  match tbls with
  | [] => []
  | t :: tbls => sub_box t (take 6 b) ++ sub_boxes tbls (drop 6 b)
  end.

(** The cipher function f(R, K). *)
Definition feistel (r k : list bool) : list bool :=
  permute P (sub_boxes sboxes (xor_bits (permute E r) k)).

Definition round (lr : list bool * list bool) (k : list bool) : list bool * list bool :=
  (snd lr, xor_bits (fst lr) (feistel (snd lr) k)).

Definition crypt (ks : list (list bool)) (b : list Z) : list Z :=
  let p := permute IP (bits_of_bytes b) in
  let lr := fold_left round ks (take 32 p, drop 32 p) in
  bytes_of_bits (permute FP (snd lr ++ fst lr)).

Definition encrypt_block (key b : list Z) : list Z := crypt (key_schedule key) b.
Definition decrypt_block (key b : list Z) : list Z := crypt (rev (key_schedule key)) b.

(** [des.NewCipher]: the key must have 8 bytes. *)
Definition NewCipher (key : list Z) : res block :=
  if zlen key =? 8 then Ok (mk_block 8 (encrypt_block key) (decrypt_block key))
  else Err (Errorf "crypto/des: invalid key size %d" [ArgInt (zlen key)]).

(** [des.NewTripleDESCipher]: three 8-byte keys, encrypt-decrypt-encrypt. *)
Definition NewTripleDESCipher (key : list Z) : res block :=
  if zlen key =? 24 then
    let k1 := take 8 key in
    let k2 := take 8 (drop 8 key) in
    let k3 := drop 16 key in
    Ok (mk_block 8
          (fun b => encrypt_block k3 (decrypt_block k2 (encrypt_block k1 b)))
          (fun b => decrypt_block k1 (encrypt_block k2 (decrypt_block k3 b))))
  else Err (Errorf "crypto/des: invalid key size %d" [ArgInt (zlen key)]).

End Des.

Module Aes.

Definition sbox : list Z :=
  [ 99; 124; 119; 123; 242; 107; 111; 197; 48; 1; 103; 43; 254; 215; 171; 118;
   202; 130; 201; 125; 250; 89; 71; 240; 173; 212; 162; 175; 156; 164; 114; 192;
   183; 253; 147; 38; 54; 63; 247; 204; 52; 165; 229; 241; 113; 216; 49; 21;
   4; 199; 35; 195; 24; 150; 5; 154; 7; 18; 128; 226; 235; 39; 178; 117;
   9; 131; 44; 26; 27; 110; 90; 160; 82; 59; 214; 179; 41; 227; 47; 132;
   83; 209; 0; 237; 32; 252; 177; 91; 106; 203; 190; 57; 74; 76; 88; 207;
   208; 239; 170; 251; 67; 77; 51; 133; 69; 249; 2; 127; 80; 60; 159; 168;
   81; 163; 64; 143; 146; 157; 56; 245; 188; 182; 218; 33; 16; 255; 243; 210;
   205; 12; 19; 236; 95; 151; 68; 23; 196; 167; 126; 61; 100; 93; 25; 115;
   96; 129; 79; 220; 34; 42; 144; 136; 70; 238; 184; 20; 222; 94; 11; 219;
   224; 50; 58; 10; 73; 6; 36; 92; 194; 211; 172; 98; 145; 149; 228; 121;
   231; 200; 55; 109; 141; 213; 78; 169; 108; 86; 244; 234; 101; 122; 174; 8;
   186; 120; 37; 46; 28; 166; 180; 198; 232; 221; 116; 31; 75; 189; 139; 138;
   112; 62; 181; 102; 72; 3; 246; 14; 97; 53; 87; 185; 134; 193; 29; 158;
   225; 248; 152; 17; 105; 217; 142; 148; 155; 30; 135; 233; 206; 85; 40; 223;
   140; 161; 137; 13; 191; 230; 66; 104; 65; 153; 45; 15; 176; 84; 187; 22 ].
Definition inv_sbox : list Z :=
  [ 82; 9; 106; 213; 48; 54; 165; 56; 191; 64; 163; 158; 129; 243; 215; 251;
   124; 227; 57; 130; 155; 47; 255; 135; 52; 142; 67; 68; 196; 222; 233; 203;
   84; 123; 148; 50; 166; 194; 35; 61; 238; 76; 149; 11; 66; 250; 195; 78;
   8; 46; 161; 102; 40; 217; 36; 178; 118; 91; 162; 73; 109; 139; 209; 37;
   114; 248; 246; 100; 134; 104; 152; 22; 212; 164; 92; 204; 93; 101; 182; 146;
   108; 112; 72; 80; 253; 237; 185; 218; 94; 21; 70; 87; 167; 141; 157; 132;
   144; 216; 171; 0; 140; 188; 211; 10; 247; 228; 88; 5; 184; 179; 69; 6;
   208; 44; 30; 143; 202; 63; 15; 2; 193; 175; 189; 3; 1; 19; 138; 107;
   58; 145; 17; 65; 79; 103; 220; 234; 151; 242; 207; 206; 240; 180; 230; 115;
   150; 172; 116; 34; 231; 173; 53; 133; 226; 249; 55; 232; 28; 117; 223; 110;
   71; 241; 26; 113; 29; 41; 197; 137; 111; 183; 98; 14; 170; 24; 190; 27;
   252; 86; 62; 75; 198; 210; 121; 32; 154; 219; 192; 254; 120; 205; 90; 244;
   31; 221; 168; 51; 136; 7; 199; 49; 177; 18; 16; 89; 39; 128; 236; 95;
   96; 81; 127; 169; 25; 181; 74; 13; 45; 229; 122; 159; 147; 201; 156; 239;
   160; 224; 59; 77; 174; 42; 245; 176; 200; 235; 187; 60; 131; 83; 153; 97;
   23; 43; 4; 126; 186; 119; 214; 38; 225; 105; 20; 99; 85; 33; 12; 125 ].

Definition xtime (b : Z) : Z :=
  let s := Z.shiftl b 1 in
  if 256 <=? s then Z.lxor (Z.land s 255) 27 else s.

(** Multiplication in GF(2^8) by a constant of at most four bits. *)
Definition gmul (c b : Z) : Z :=
  let t (i : Z) (v : Z) := if Z.testbit c i then v else 0 in
  let b1 := xtime b in
  let b2 := xtime b1 in
  let b3 := xtime b2 in
  Z.lxor (Z.lxor (t 0 b) (t 1 b1)) (Z.lxor (t 2 b2) (t 3 b3)).

Definition lookup_tbl (tbl : list Z) (b : Z) : Z := nth (Z.to_nat b) tbl 0.

Definition sub_word (w : list Z) : list Z := lookup_tbl sbox <$> w.

Definition rot_word (w : list Z) : list Z := drop 1 w ++ take 1 w.

(** One expanded word from the previous [nk] words (oldest first). *)
Definition next_word (nk i : nat) (rcon : Z) (prev : list (list Z)) : list Z :=
  let temp := nth (nk - 1) prev [] in
  let temp :=
    if (i mod nk =? 0)%nat then xor_list (sub_word (rot_word temp)) [rcon; 0; 0; 0]
    else if (6 <? nk)%nat && (i mod nk =? 4)%nat then sub_word temp
    else temp in
  xor_list (nth 0 prev []) temp.

Fixpoint expand (todo nk i : nat) (rcon : Z) (prev : list (list Z)) : list (list Z) :=
  match todo with
  | O => []
  | S todo =>
      let w := next_word nk i rcon prev in
      let rcon := if (i mod nk =? 0)%nat then xtime rcon else rcon in
      w :: expand todo nk (S i) rcon (drop 1 prev ++ [w])
  end.

(** The round keys, 16 bytes each. *)
Definition key_expansion (key : list Z) : list (list Z) :=
  let ws := chunks 4 key in
  let nk := length ws in
  let total := (4 * (nk + 7))%nat in
  chunks 16 (concat (ws ++ expand (total - nk) nk nk 1 ws)).

(** The state is the 16 bytes of the block, column by column. *)
Definition shift_rows_tbl : list nat := [0; 5; 10; 15; 4; 9; 14; 3; 8; 13; 2; 7; 12; 1; 6; 11]%nat.
Definition inv_shift_rows_tbl : list nat := [0; 13; 10; 7; 4; 1; 14; 11; 8; 5; 2; 15; 12; 9; 6; 3]%nat.

Definition move (tbl : list nat) (s : list Z) : list Z := (fun i => nth i s 0) <$> tbl.

Definition mix_column (m0 m1 m2 m3 : Z) (c : list Z) : list Z :=
  match c with
  | [a; b; c; d] =>
      let f x y z w := Z.lxor (Z.lxor (gmul m0 x) (gmul m1 y)) (Z.lxor (gmul m2 z) (gmul m3 w)) in
      [f a b c d; f b c d a; f c d a b; f d a b c]
  | _ => c
  end.

Definition mix_columns (m0 m1 m2 m3 : Z) (s : list Z) : list Z :=
  concat (mix_column m0 m1 m2 m3 <$> chunks 4 s).

Fixpoint enc_rounds (ks : list (list Z)) (s : list Z) : list Z :=
  match ks with
  | [] => s
  | [k] => xor_list (move shift_rows_tbl (lookup_tbl sbox <$> s)) k
  | k :: ks => enc_rounds ks (xor_list (mix_columns 2 3 1 1 (move shift_rows_tbl (lookup_tbl sbox <$> s))) k)
  end.

Definition encrypt_block (key b : list Z) : list Z :=
  match key_expansion key with
  | [] => b
  | k :: ks => enc_rounds ks (xor_list b k)
  end.

Fixpoint dec_rounds (ks : list (list Z)) (s : list Z) : list Z :=
  match ks with
  | [] => s
  | [k] => xor_list (lookup_tbl inv_sbox <$> move inv_shift_rows_tbl s) k
  | k :: ks => dec_rounds ks (mix_columns 14 11 13 9 (xor_list (lookup_tbl inv_sbox <$> move inv_shift_rows_tbl s) k))
  end.

Definition decrypt_block (key b : list Z) : list Z :=
  match rev (key_expansion key) with
  | [] => b
  | k :: ks => dec_rounds ks (xor_list b k)
  end.

(** [aes.NewCipher]: the key must have 16, 24 or 32 bytes. *)
Definition NewCipher (key : list Z) : res block :=
  if (zlen key =? 16) || (zlen key =? 24) || (zlen key =? 32)
  then Ok (mk_block 16 (encrypt_block key) (decrypt_block key))
  else Err (Errorf "crypto/aes: invalid key size %d" [ArgInt (zlen key)]).

End Aes.

(** ** CBC ([cipher.NewCBCEncrypter], [cipher.NewCBCDecrypter] and
    [CryptBlocks]) *)

Module Cbc.

Fixpoint enc_chunks (blk : block) (prev : list Z) (cs : list (list Z)) : list Z :=
  match cs with
  | [] => []
  | c :: cs => let e := Encrypt blk (xor_list c prev) in e ++ enc_chunks blk e cs
  end.

Fixpoint dec_chunks (blk : block) (prev : list Z) (cs : list (list Z)) : list Z :=
  match cs with
  | [] => []
  | c :: cs => xor_list (Decrypt blk c) prev ++ dec_chunks blk c cs
  end.

Definition CryptBlocks_enc (blk : block) (iv data : list Z) : list Z :=
  enc_chunks blk iv (chunks (BlockSize blk) data).

Definition CryptBlocks_dec (blk : block) (iv data : list Z) : list Z :=
  dec_chunks blk iv (chunks (BlockSize blk) data).

End Cbc.

(** ** What CBC relies on *)

Class BlockEncLaws (blk : block) : Prop := {
  block_size_pos : (0 < BlockSize blk)%nat;
  encrypt_props x : length x = BlockSize blk -> bytes_ok x ->
    length (Encrypt blk x) = BlockSize blk /\ bytes_ok (Encrypt blk x)
}.

Class BlockLaws (blk : block) : Prop := {
  block_enc_laws :: BlockEncLaws blk;
  decrypt_encrypt x : length x = BlockSize blk -> bytes_ok x -> Decrypt blk (Encrypt blk x) = x
}.

(** *** Bytes and bits *)

Lemma lxor_is_byte a b : is_byte a -> is_byte b -> is_byte (Z.lxor a b).
Proof.
  unfold is_byte. intros Ha Hb. split; [apply Z.lxor_nonneg; lia|].
  destruct (decide (Z.lxor a b = 0)) as [->|]; [lia|].
  apply (Z.log2_lt_cancel _ 256). change (Z.log2 256) with 8.
  eapply Z.le_lt_trans; [apply Z.log2_lxor; lia|].
  assert (Hlog : forall c, 0 <= c < 256 -> Z.log2 c < 8).
  { intros c [? ?]. destruct (decide (c = 0)) as [->|]; [done|].
    apply Z.log2_lt_pow2; lia. }
  apply Z.max_lub_lt; auto.
Qed.

Lemma xor_list_ok l1 l2 : bytes_ok l1 -> bytes_ok l2 -> bytes_ok (xor_list l1 l2).
Proof.
  intros H1 H2. unfold xor_list, bytes_ok.
  revert l2 H2. induction H1 as [|a l1 Ha H1 IH]; intros [|b l2] H2; try constructor.
  - inversion H2; subst. by apply lxor_is_byte.
  - inversion H2; subst. by apply IH.
Qed.

Lemma length_xor_list l1 l2 : length (xor_list l1 l2) = Nat.min (length l1) (length l2).
Proof. apply length_zip_with. Qed.

Lemma xor_list_cancel l1 l2 : length l1 = length l2 -> xor_list (xor_list l1 l2) l2 = l1.
Proof.
  unfold xor_list. revert l2. induction l1 as [|a l1 IH]; intros [|b l2] H; try done.
  simpl in *. rewrite IH by lia. f_equal.
  by rewrite Z.lxor_assoc, Z.lxor_nilpotent, Z.lxor_0_r.
Qed.
#[export] Hint Resolve lxor_is_byte xor_list_ok : go.

Lemma byte_bits_val z : is_byte z -> bits_val (byte_bits z) = z.
Proof.
  intros Hz. assert (H : Forall (fun n => bits_val (byte_bits (Z.of_nat n)) = Z.of_nat n) (seq 0 256)).
  { apply (bool_decide_unpack _). vm_compute. exact I. }
  rewrite Forall_forall in H. specialize (H (Z.to_nat z)).
  rewrite Z2Nat.id in H by (unfold is_byte in *; lia). apply H.
  apply elem_of_seq. unfold is_byte in *. lia.
Qed.

Lemma bits_val_byte a b c d e f g h :
  let v := bits_val [a; b; c; d; e; f; g; h] in
  is_byte v /\ byte_bits v = [a; b; c; d; e; f; g; h].
Proof. destruct a, b, c, d, e, f, g, h; (split; [split; vm_compute; congruence | reflexivity]). Qed.

Lemma bytes_of_bits_bytes l : bytes_ok l -> bytes_of_bits (bits_of_bytes l) = l.
Proof.
  induction 1 as [|z l Hz Hl IH]; [done|].
  change (bits_of_bytes (z :: l)) with (byte_bits z ++ bits_of_bytes l).
  unfold byte_bits at 1. cbn [app bytes_of_bits]. rewrite IH. f_equal. by apply byte_bits_val.
Qed.

Lemma length_bits_of_bytes l : length (bits_of_bytes l) = (8 * length l)%nat.
Proof.
  induction l as [|z l IH]; [done|].
  change (bits_of_bytes (z :: l)) with (byte_bits z ++ bits_of_bytes l).
  rewrite length_app, IH. simpl. lia.
Qed.

(** Destructs a list of known length into its elements. *)
Ltac explode_list l :=
  repeat match goal with
         | H : length l = S _ |- _ => destruct l as [|? l]; [discriminate H|]; cbn [length] in H;
                                      apply Nat.succ_inj in H
         end;
  match goal with H : length l = 0%nat |- _ => apply nil_length_inv in H; subst l end.

Lemma bits_of_bytes_of_bits n (l : list bool) :
  length l = (8 * n)%nat ->
  bits_of_bytes (bytes_of_bits l) = l /\ bytes_ok (bytes_of_bits l) /\ length (bytes_of_bits l) = n.
Proof.
  revert l. induction n as [|n IH]; intros l Hl.
  - apply nil_length_inv in Hl. subst. repeat split. constructor.
  - do 8 (destruct l as [|? l]; [simpl in Hl; lia|]). cbn [bytes_of_bits].
    destruct (IH l) as (H1 & H2 & H3); [simpl in Hl; lia|].
    destruct (bits_val_byte b b0 b1 b2 b3 b4 b5 b6) as [Hb Hv].
    split; [|split; [by constructor | simpl; lia]].
    change (bits_of_bytes (?z :: ?t)) with (byte_bits z ++ bits_of_bytes t).
    cbn zeta in Hv. rewrite Hv, H1. done.
Qed.

(** *** DES: decryption inverts encryption *)

Section DesInverse.
Import Des.

Lemma length_permute tbl l : length (permute tbl l) = length tbl.
Proof. apply length_fmap. Qed.

Lemma permute_IP_FP l : length l = 64%nat -> permute IP (permute FP l) = l.
Proof. intros H. explode_list l. reflexivity. Qed.

Lemma permute_FP_IP l : length l = 64%nat -> permute FP (permute IP l) = l.
Proof. intros H. explode_list l. reflexivity. Qed.

Lemma length_feistel r k : length (feistel r k) = 32%nat.
Proof. apply length_permute. Qed.

Lemma xor_bits_cancel l1 l2 : length l1 = length l2 -> xor_bits (xor_bits l1 l2) l2 = l1.
Proof.
  unfold xor_bits. revert l2. induction l1 as [|a l1 IH]; intros [|b l2] H; try done.
  simpl in *. rewrite IH by lia. f_equal. by destruct a, b.
Qed.

Definition halves_ok (lr : list bool * list bool) : Prop :=
  length (fst lr) = 32%nat /\ length (snd lr) = 32%nat.

Definition swap (lr : list bool * list bool) := (snd lr, fst lr).

Lemma round_ok lr k : halves_ok lr -> halves_ok (round lr k).
Proof.
  intros [H1 H2]. split; [done|]. unfold round, xor_bits. cbn [fst snd].
  rewrite length_zip_with, length_feistel. lia.
Qed.

Lemma rounds_ok ks lr : halves_ok lr -> halves_ok (fold_left round ks lr).
Proof. revert lr. induction ks as [|k ks IH]; intros lr H; [done|]. simpl. by apply IH, round_ok. Qed.

Lemma round_inverse lr k : halves_ok lr -> round (swap (round lr k)) k = swap lr.
Proof.
  intros [H1 H2]. destruct lr as [l r]. unfold round, swap. cbn [fst snd] in *.
  f_equal. rewrite xor_bits_cancel; [done|]. by rewrite length_feistel.
Qed.

Lemma rounds_inverse ks lr :
  halves_ok lr -> fold_left round (rev ks) (swap (fold_left round ks lr)) = swap lr.
Proof.
  revert lr. induction ks as [|k ks IH]; intros lr H; [done|].
  cbn [rev fold_left]. rewrite fold_left_app. cbn [fold_left].
  rewrite IH by (by apply round_ok). by apply round_inverse.
Qed.

Lemma crypt_props ks b :
  length b = 8%nat -> length (crypt ks b) = 8%nat /\ bytes_ok (crypt ks b).
Proof.
  intros Hb. unfold crypt.
  match goal with |- context [bytes_of_bits ?l] =>
    destruct (bits_of_bytes_of_bits 8 l) as (_ & ? & ?); [by rewrite length_permute | done] end.
Qed.

Lemma crypt_inverse ks b :
  length b = 8%nat -> bytes_ok b -> crypt (rev ks) (crypt ks b) = b.
Proof.
  intros Hb Hok. unfold crypt at 2. unfold crypt.
  set (p := permute IP (bits_of_bytes b)).
  assert (Hp : length p = 64%nat) by apply length_permute.
  set (lr0 := (take 32 p, drop 32 p)).
  assert (H0 : halves_ok lr0) by (split; cbn [fst snd lr0]; rewrite ?length_take, ?length_drop; lia).
  pose proof (rounds_ok ks lr0 H0) as [H1 H2].
  set (lr1 := fold_left round ks lr0) in *.
  assert (Hl : length (snd lr1 ++ fst lr1) = 64%nat) by (rewrite length_app; lia).
  destruct (bits_of_bytes_of_bits 8 (permute FP (snd lr1 ++ fst lr1))) as (-> & _ & _);
    [by rewrite length_permute|].
  rewrite permute_IP_FP by done.
  rewrite take_app_length', drop_app_length' by lia.
  change (snd lr1, fst lr1) with (swap lr1). unfold lr1.
  rewrite rounds_inverse by done. cbn [swap fst snd lr0].
  rewrite take_drop. unfold p. rewrite permute_FP_IP by (rewrite length_bits_of_bytes; lia).
  by apply bytes_of_bits_bytes.
Qed.

Lemma decrypt_encrypt_block key b :
  length b = 8%nat -> bytes_ok b -> decrypt_block key (encrypt_block key b) = b.
Proof. apply crypt_inverse. Qed.

Lemma encrypt_decrypt_block key b :
  length b = 8%nat -> bytes_ok b -> encrypt_block key (decrypt_block key b) = b.
Proof.
  intros. unfold encrypt_block, decrypt_block.
  rewrite <- (rev_involutive (key_schedule key)) at 1. by apply crypt_inverse.
Qed.

Lemma des_block_laws key blk : NewCipher key = Ok blk -> BlockLaws blk.
Proof.
  unfold NewCipher. case_match; intros; simplify_eq.
  split; [split|]; cbn [BlockSize Encrypt Decrypt]; intros.
  - lia.
  - by apply crypt_props.
  - by apply decrypt_encrypt_block.
Qed.

Lemma encrypt_block_props key b :
  length b = 8%nat -> length (encrypt_block key b) = 8%nat /\ bytes_ok (encrypt_block key b).
Proof. apply crypt_props. Qed.

Lemma decrypt_block_props key b :
  length b = 8%nat -> length (decrypt_block key b) = 8%nat /\ bytes_ok (decrypt_block key b).
Proof. apply crypt_props. Qed.

Lemma encrypt_then_decrypt_three k1 k2 k3 b :
  length b = 8%nat -> bytes_ok b ->
  decrypt_block k1 (encrypt_block k2 (decrypt_block k3
    (encrypt_block k3 (decrypt_block k2 (encrypt_block k1 b))))) = b.
Proof.
  intros Hb Hok.
  destruct (encrypt_block_props k1 b Hb) as [He Heok].
  destruct (decrypt_block_props k2 _ He) as [Hd Hdok].
  rewrite (decrypt_encrypt_block k3), encrypt_decrypt_block by done.
  by apply decrypt_encrypt_block.
Qed.

Lemma triple_des_block_laws key blk : NewTripleDESCipher key = Ok blk -> BlockLaws blk.
Proof.
  unfold NewTripleDESCipher. case_match; intros; simplify_eq.
  split; [split|]; cbn [BlockSize Encrypt Decrypt]; intros.
  - lia.
  - by apply encrypt_block_props, decrypt_block_props, encrypt_block_props.
  - by apply encrypt_then_decrypt_three.
Qed.

End DesInverse.

(** *** AES: encryption keeps the block length and the byte range *)

Section AesEnc.
Import Aes.

Definition word_ok (n : nat) (w : list Z) : Prop := length w = n /\ bytes_ok w.

Lemma sbox_is_byte b : is_byte (lookup_tbl sbox b).
Proof.
  unfold lookup_tbl. assert (H : Forall is_byte sbox) by (apply (bool_decide_unpack _); vm_compute; exact I).
  rewrite Forall_forall in H. destruct (nth_in_or_default (Z.to_nat b) sbox 0) as [Hin | ->].
  - by apply H, list_elem_of_In.
  - split; lia.
Qed.

Lemma xtime_is_byte b : is_byte b -> is_byte (xtime b).
Proof.
  unfold xtime, is_byte. intros Hb. rewrite Z.shiftl_mul_pow2 by lia. case_match eqn:E.
  - apply lxor_is_byte; [|split; lia]. change 255 with (Z.ones 8). rewrite Z.land_ones by lia. apply u8_range.
  - lia.
Qed.

Lemma gmul_is_byte c b : is_byte b -> is_byte (gmul c b).
Proof.
  intros Hb. unfold gmul.
  assert (forall x : bool, forall y, is_byte y -> is_byte (if x then y else 0)) by (intros [] ? ?; [done | split; lia]).
  auto 20 using lxor_is_byte, xtime_is_byte.
Qed.

Lemma sub_bytes_ok n w : length w = n -> word_ok n (lookup_tbl sbox <$> w).
Proof.
  intros. split; [by rewrite length_fmap|]. apply Forall_fmap, Forall_true. intros. apply sbox_is_byte.
Qed.

Lemma xor_word_ok n a b : word_ok n a -> word_ok n b -> word_ok n (xor_list a b).
Proof. intros [? ?] [? ?]. split; [rewrite length_xor_list; lia | auto with go]. Qed.

Lemma nth_word_ok n i (ws : list (list Z)) :
  Forall (word_ok n) ws -> (i < length ws)%nat -> word_ok n (nth i ws []).
Proof. intros H Hi. rewrite Forall_forall in H. apply H, list_elem_of_In, nth_In, Hi. Qed.

Lemma next_word_ok nk i rcon prev :
  Forall (word_ok 4) prev -> length prev = nk -> (0 < nk)%nat -> is_byte rcon ->
  word_ok 4 (next_word nk i rcon prev).
Proof.
  intros Hp Hl Hn Hr. unfold next_word. cbv zeta.
  assert (Ht : word_ok 4 (nth (nk - 1) prev [])) by (apply nth_word_ok; [done | lia]).
  apply xor_word_ok; [apply nth_word_ok; [done | lia]|].
  destruct (_ =? 0)%nat; [|destruct (_ && _)].
  - apply xor_word_ok; [apply sub_bytes_ok | split; [done|]].
    + unfold rot_word. rewrite length_app, length_drop, length_take. destruct Ht. lia.
    + repeat constructor; unfold is_byte in *; lia.
  - apply sub_bytes_ok, Ht.
  - done.
Qed.

Lemma expand_ok todo nk i rcon prev :
  Forall (word_ok 4) prev -> length prev = nk -> (0 < nk)%nat -> is_byte rcon ->
  Forall (word_ok 4) (expand todo nk i rcon prev) /\ length (expand todo nk i rcon prev) = todo.
Proof.
  revert i rcon prev. induction todo as [|todo IH]; intros i rcon prev Hp Hl Hn Hr; [done|].
  cbn [expand length]. pose proof (next_word_ok nk i rcon prev Hp Hl Hn Hr) as Hw.
  destruct (IH (S i) (if (i mod nk =? 0)%nat then xtime rcon else rcon)
              (drop 1 prev ++ [next_word nk i rcon prev])) as [H1 H2]; auto.
  - apply Forall_app. split; [by apply Forall_drop | by constructor].
  - rewrite length_app, length_drop. simpl. lia.
  - case_match; [by apply xtime_is_byte | done].
Qed.

Lemma concat_words n (ws : list (list Z)) :
  Forall (word_ok n) ws -> length (concat ws) = (n * length ws)%nat /\ bytes_ok (concat ws).
Proof.
  induction 1 as [|w ws [Hl Ho] _ [IH1 IH2]]; cbn [concat length]; [split; [lia | constructor]|].
  split; [rewrite length_app; lia | by apply bytes_ok_app].
Qed.

Lemma chunks_words n (l : list Z) :
  (0 < n)%nat -> zlen l mod Z.of_nat n = 0 -> bytes_ok l -> Forall (word_ok n) (chunks n l).
Proof.
  intros Hn Hm Hok. pose proof (chunks_full n l Hn Hm) as Hf.
  rewrite <- (concat_chunks n l Hn) in Hok.
  induction Hf as [|c cs Hc Hf IH]; [constructor|].
  cbn [concat] in Hok. apply bytes_ok_app in Hok as [? ?]. constructor; [by split | auto].
Qed.

Lemma key_expansion_ok key :
  bytes_ok key -> zlen key mod 4 = 0 -> 0 < zlen key -> Forall (word_ok 16) (key_expansion key).
Proof.
  intros Hk Hm Hpos. unfold key_expansion. cbv zeta.
  pose proof (chunks_words 4 key ltac:(lia) Hm Hk) as Hw.
  assert (Hne : (0 < length (chunks 4 key))%nat).
  { rewrite chunks_cons; [simpl; lia | lia | destruct key; [done | done]]. }
  destruct (expand_ok (4 * (length (chunks 4 key) + 7) - length (chunks 4 key))
              (length (chunks 4 key)) (length (chunks 4 key)) 1 (chunks 4 key)) as [He Hel];
    [done | done | done | split; lia |].
  destruct (concat_words 4 _ (Forall_app_2 _ _ _ Hw He)) as [Hcl Hco].
  apply chunks_words; [lia | | done].
  unfold zlen. rewrite Hcl, length_app, Hel.
  replace (4 * (length (chunks 4 key) + (4 * (length (chunks 4 key) + 7) - length (chunks 4 key))))%nat
    with ((length (chunks 4 key) + 7) * 16)%nat by lia.
  rewrite Nat2Z.inj_mul. apply Z.mod_mul. lia.
Qed.

Lemma mix_column_ok w : word_ok 4 w -> word_ok 4 (mix_column 2 3 1 1 w).
Proof.
  intros [Hl Ho]. do 4 (destruct w as [|? w]; [done|]). destruct w; [|done].
  apply Forall_cons in Ho as [? Ho]. apply Forall_cons in Ho as [? Ho].
  apply Forall_cons in Ho as [? Ho]. apply Forall_cons in Ho as [? _].
  split; [done|]. cbn [mix_column]. unfold bytes_ok. rewrite !Forall_cons, Forall_nil.
  split_and!; auto 10 using lxor_is_byte, gmul_is_byte.
Qed.

Lemma mix_columns_ok s : word_ok 16 s -> word_ok 16 (mix_columns 2 3 1 1 s).
Proof.
  intros [Hl Ho]. unfold mix_columns.
  assert (Hz : zlen s mod 4 = 0) by (unfold zlen; by rewrite Hl).
  pose proof (chunks_words 4 s ltac:(lia) Hz Ho) as Hc.
  assert (Hc' : Forall (word_ok 4) (mix_column 2 3 1 1 <$> chunks 4 s)).
  { apply Forall_fmap. eapply Forall_impl; [exact Hc|]. apply mix_column_ok. }
  destruct (concat_words 4 _ Hc') as [H1 H2]. split; [|exact H2].
  rewrite H1, length_fmap.
  pose proof (length_chunks 4 s ltac:(lia)) as Hlen. unfold zlen in Hlen. rewrite Hl in Hlen.
  change ((Z.of_nat 16 + Z.of_nat 4 - 1) / Z.of_nat 4) with 4 in Hlen. lia.
Qed.

Lemma move_sub_ok s : word_ok 16 (move shift_rows_tbl (lookup_tbl sbox <$> s)).
Proof.
  split; [done|]. unfold move. apply Forall_fmap, Forall_true. intros i. cbn.
  destruct (nth_in_or_default i (lookup_tbl sbox <$> s) 0) as [Hin | ->]; [|split; lia].
  apply list_elem_of_In, list_elem_of_fmap in Hin as (b & -> & _). apply sbox_is_byte.
Qed.

Lemma enc_rounds_ok ks s : Forall (word_ok 16) ks -> word_ok 16 s -> word_ok 16 (enc_rounds ks s).
Proof.
  revert s. induction ks as [|k ks IH]; intros s Hks Hs; [done|].
  apply Forall_cons in Hks as [Hk Hks]. cbn [enc_rounds]. destruct ks as [|k' ks].
  - apply xor_word_ok; [apply move_sub_ok | done].
  - apply IH; [done|]. apply xor_word_ok; [apply mix_columns_ok, move_sub_ok | done].
Qed.

Lemma aes_block_laws key blk :
  bytes_ok key -> NewCipher key = Ok blk -> BlockEncLaws blk /\ BlockSize blk = 16%nat.
Proof.
  intros Hk. unfold NewCipher. case_match eqn:E; intros; simplify_eq.
  assert (Hke : Forall (word_ok 16) (key_expansion key)).
  { rewrite !orb_true_iff, !Z.eqb_eq in E.
    destruct E as [[E|E]|E]; apply key_expansion_ok; rewrite ?E; done. }
  split; [|done]. split; cbn [BlockSize Encrypt]; [lia|]. intros x Hx Hxo.
  change (word_ok 16 (encrypt_block key x)). unfold encrypt_block.
  destruct (key_expansion key) as [|k ks]; [done|]. apply Forall_cons in Hke as [? ?].
  apply enc_rounds_ok; [done|]. by apply xor_word_ok.
Qed.

End AesEnc.

(** *** CBC: decryption inverts encryption *)

Section CbcInverse.
Import Cbc.
Context (blk : block).

Lemma enc_chunks_props `{!BlockEncLaws blk} prev cs :
  word_ok (BlockSize blk) prev -> Forall (word_ok (BlockSize blk)) cs ->
  length (enc_chunks blk prev cs) = (BlockSize blk * length cs)%nat /\
  bytes_ok (enc_chunks blk prev cs).
Proof.
  intros Hp Hcs. revert prev Hp. induction Hcs as [|c cs Hc _ IH]; intros prev Hp.
  - simpl. split; [lia | constructor].
  - cbn [enc_chunks length]. destruct (xor_word_ok _ _ _ Hc Hp) as [Hl Ho].
    pose proof (encrypt_props _ Hl Ho) as [He Heo].
    destruct (IH (Encrypt blk (xor_list c prev))) as [IH1 IH2]; [by split|].
    rewrite length_app, He, IH1. split; [lia | by apply bytes_ok_app].
Qed.

Lemma cbc_encrypt_length `{!BlockEncLaws blk} iv data :
  word_ok (BlockSize blk) iv -> bytes_ok data -> zlen data mod Z.of_nat (BlockSize blk) = 0 ->
  length (CryptBlocks_enc blk iv data) = length data /\ bytes_ok (CryptBlocks_enc blk iv data).
Proof.
  intros Hiv Hd Hm. pose proof block_size_pos as Hpos.
  pose proof (chunks_words _ data Hpos Hm Hd) as Hc.
  destruct (enc_chunks_props iv _ Hiv Hc) as [H1 H2]. split; [|exact H2].
  unfold CryptBlocks_enc. rewrite H1. rewrite <- (concat_chunks (BlockSize blk) data) at 2 by done.
  symmetry. apply concat_words. exact Hc.
Qed.

Lemma dec_enc_chunks `{!BlockLaws blk} prev cs :
  word_ok (BlockSize blk) prev -> Forall (word_ok (BlockSize blk)) cs ->
  dec_chunks blk prev (chunks (BlockSize blk) (enc_chunks blk prev cs)) = concat cs.
Proof.
  intros Hp Hcs. pose proof block_size_pos as Hpos.
  revert prev Hp. induction Hcs as [|c cs Hc _ IH]; intros prev Hp; [done|].
  cbn [enc_chunks concat]. destruct (xor_word_ok _ _ _ Hc Hp) as [Hl Ho].
  pose proof (encrypt_props _ Hl Ho) as [He Heo].
  rewrite chunks_app by done. cbn [dec_chunks].
  rewrite decrypt_encrypt by done. rewrite IH by (by split).
  rewrite xor_list_cancel; [done|]. destruct Hc, Hp. congruence.
Qed.

Lemma cbc_roundtrip `{!BlockLaws blk} iv data :
  word_ok (BlockSize blk) iv -> bytes_ok data -> zlen data mod Z.of_nat (BlockSize blk) = 0 ->
  CryptBlocks_dec blk iv (CryptBlocks_enc blk iv data) = data.
Proof.
  intros Hiv Hd Hm. pose proof block_size_pos as Hpos.
  unfold CryptBlocks_dec, CryptBlocks_enc. rewrite dec_enc_chunks; [by apply concat_chunks | done |].
  by apply chunks_words.
Qed.

End CbcInverse.

(** *** Published test vectors *)

Example des_known_answer :
  Des.encrypt_block [0x13; 0x34; 0x57; 0x79; 0x9B; 0xBC; 0xDF; 0xF1]
                    [0x01; 0x23; 0x45; 0x67; 0x89; 0xAB; 0xCD; 0xEF]
  = [0x85; 0xE8; 0x13; 0x54; 0x0F; 0x0A; 0xB4; 0x05].
Proof. vm_compute. reflexivity. Qed.

Example aes128_known_answer :
  Aes.encrypt_block (Z.of_nat <$> seq 0 16)
    [0x00; 0x11; 0x22; 0x33; 0x44; 0x55; 0x66; 0x77; 0x88; 0x99; 0xAA; 0xBB; 0xCC; 0xDD; 0xEE; 0xFF]
  = [0x69; 0xC4; 0xE0; 0xD8; 0x6A; 0x7B; 0x04; 0x30; 0xD8; 0xCD; 0xB7; 0x80; 0x70; 0xB4; 0xC5; 0x5A].
Proof. vm_compute. reflexivity. Qed.
