(* ===== verification/HexUtil.v ===== *)
(** * pkg/hexutil: hexadecimal strings and BER lengths

    [Encode]/[Decode] over Go strings (sequences of bytes, here [string]),
    with the functions of [encoding/hex] and [strings] they call:
    [EncodeToString], [DecodeString], [ToUpper] on hexadecimal digits and
    [TrimSpace] with the full set of Unicode white space in UTF-8. *)

From S2P Require Import Prelude.

(** ** Go strings as bytes *)

Fixpoint string_bytes (s : string) : list Z :=
  match s with
  | EmptyString => []
  | String c s => Z.of_nat (Ascii.nat_of_ascii c) :: string_bytes s
  end.

Fixpoint bytes_string (l : list Z) : string :=
  match l with
  | [] => EmptyString
  | b :: l => String (Ascii.ascii_of_nat (Z.to_nat b)) (bytes_string l)
  end.

(** ** encoding/hex *)

(** The i-th character of ["0123456789abcdef"]. *)
Definition hex_digit (n : Z) : Z := if n <? 10 then 48 + n else 87 + n.

Definition from_hex_char (c : Z) : option Z :=
  if (48 <=? c) && (c <=? 57) then Some (c - 48)
  else if (97 <=? c) && (c <=? 102) then Some (c - 87)
  else if (65 <=? c) && (c <=? 70) then Some (c - 55)
  else None.

Fixpoint hex_encode (data : list Z) : list Z :=
  match data with
  | [] => []
  | b :: data => hex_digit (Z.shiftr b 4) :: hex_digit (Z.land b 15) :: hex_encode data
  end.

(** [hex.EncodeToString] *)
Definition EncodeToString (data : list Z) : string := bytes_string (hex_encode data).

Fixpoint hex_decode (s : list Z) : res (list Z) :=
  match s with
  | [] => Ok []
  | [c] =>
      match from_hex_char c with
      | None => Err (Errorf "encoding/hex: invalid byte: %#U" [ArgInt c])
      | Some _ => Err (Errorf "encoding/hex: odd length hex string" [])
      end
  | c1 :: c2 :: s =>
      match from_hex_char c1, from_hex_char c2 with
      | Some a, Some b =>
          let! rest := hex_decode s in
          Ok (Z.lor (Z.shiftl a 4) b :: rest)
      | None, _ => Err (Errorf "encoding/hex: invalid byte: %#U" [ArgInt c1])
      | _, None => Err (Errorf "encoding/hex: invalid byte: %#U" [ArgInt c2])
      end
  end.

(** [hex.DecodeString] *)
Definition DecodeString (s : string) : res (list Z) := hex_decode (string_bytes s).

(** ** strings.TrimSpace and strings.ToUpper *)

(** The UTF-8 encodings of the code points with the White_Space property. *)
Definition space_seqs : list (list Z) :=
  [[9]; [10]; [11]; [12]; [13]; [32]; [0xC2; 0x85]; [0xC2; 0xA0]; [0xE1; 0x9A; 0x80];
   [0xE2; 0x80; 0x80]; [0xE2; 0x80; 0x81]; [0xE2; 0x80; 0x82]; [0xE2; 0x80; 0x83];
   [0xE2; 0x80; 0x84]; [0xE2; 0x80; 0x85]; [0xE2; 0x80; 0x86]; [0xE2; 0x80; 0x87];
   [0xE2; 0x80; 0x88]; [0xE2; 0x80; 0x89]; [0xE2; 0x80; 0x8A]; [0xE2; 0x80; 0xA8];
   [0xE2; 0x80; 0xA9]; [0xE2; 0x80; 0xAF]; [0xE2; 0x81; 0x9F]; [0xE3; 0x80; 0x80]].

Definition is_prefix (p l : list Z) : bool := bool_decide (take (length p) l = p).

(** Strips leading occurrences of the sequences; each pass removes at least
    one byte, so the length of the string is enough fuel. *)
Fixpoint trim_left_fuel (seqs : list (list Z)) (fuel : nat) (l : list Z) : list Z :=
  match fuel with
  | O => l
  | S fuel =>
      match List.find (fun p => is_prefix p l) seqs with
      | Some p => trim_left_fuel seqs fuel (drop (length p) l)
      | None => l
      end
  end.

Definition trim_left (seqs : list (list Z)) (l : list Z) : list Z :=
  trim_left_fuel seqs (length l) l.

Definition TrimSpace (s : string) : string :=
  let l := trim_left space_seqs (string_bytes s) in
  bytes_string (reverse (trim_left (reverse <$> space_seqs) (reverse l))).

(** [strings.ToUpper] on ASCII letters. *)
Definition upper_char (c : Z) : Z := if (97 <=? c) && (c <=? 122) then c - 32 else c.
Definition ToUpper (s : string) : string := bytes_string (upper_char <$> string_bytes s).

(** ** The package *)

Definition Encode (data : list Z) : string := ToUpper (EncodeToString data).

Definition Decode (s : string) : res (list Z) :=
  let s := TrimSpace s in
  if negb (Z.of_nat (String.length s) mod 2 =? 0) then
    Err (Errorf "hexutil: odd-length hex string: %q" [ArgStr s])
  else DecodeString s.

Definition MustDecode (s : string) : res (list Z) :=
  match Decode s with
  | Ok b => Ok b
  | Err _ => Panic "hexutil.MustDecode"
  | Panic m => Panic m
  end.

Definition BERLength (length : Z) : list Z :=
  if length <? 0x80 then [u8 length]
  else if length <? 0x100 then [0x81; u8 length]
  else [0x82; u8 (Z.shiftr length 8); u8 (Z.land length 0xFF)].

(** ** Specification of BER-TLV lengths (X.690, 8.1.3): the length and the
    bytes that follow it. *)
Definition ber_decode (l : list Z) : option (Z * list Z) :=
  match l with
  | a :: rest =>
      if a <? 0x80 then Some (a, rest)
      else match a, rest with
           | 0x81, b :: rest => Some (b, rest)
           | 0x82, b :: c :: rest => Some (256 * b + c, rest)
           | _, _ => None
           end
  | [] => None
  end.

(** ** Lemmas *)

Lemma string_bytes_of_bytes l : bytes_ok l -> string_bytes (bytes_string l) = l.
Proof.
  induction 1 as [|b l Hb _ IH]; [done|]. cbn [bytes_string string_bytes].
  rewrite IH, Ascii.nat_ascii_embedding; [f_equal|]; unfold is_byte in *; lia.
Qed.

Lemma length_bytes_string l : String.length (bytes_string l) = length l.
Proof. induction l; simpl; auto. Qed.

Definition is_hex_char (c : Z) : Prop := is_Some (from_hex_char c).

Lemma from_hex_digit n : 0 <= n < 16 -> from_hex_char (hex_digit n) = Some n.
Proof. revert n. apply (bounded_cases 16). repeat constructor. Qed.

Lemma from_hex_upper_digit n : 0 <= n < 16 -> from_hex_char (upper_char (hex_digit n)) = Some n.
Proof. revert n. apply (bounded_cases 16). repeat constructor. Qed.

Lemma byte_nibbles b :
  is_byte b -> 0 <= Z.shiftr b 4 < 16 /\ 0 <= Z.land b 15 < 16 /\
               Z.lor (Z.shiftl (Z.shiftr b 4) 4) (Z.land b 15) = b.
Proof.
  unfold is_byte. intros Hb. change 15 with (Z.ones 4).
  rewrite Z.shiftr_div_pow2, Z.land_ones by lia. change (2 ^ 4) with 16.
  split; [split; [apply Z.div_pos; lia | apply Z.div_lt_upper_bound; lia]|].
  split; [apply Z.mod_pos_bound; lia|].
  assert (Hz : Z.land (Z.shiftl (b / 16) 4) (b mod 16) = 0).
  { change 16 with (2 ^ 4) at 2. rewrite <- Z.land_ones by lia. apply Z.bits_inj'. intros i Hi.
    rewrite !Z.land_spec, Z.bits_0, Z.testbit_ones_nonneg by lia.
    destruct (Z.ltb_spec i 4); [|by rewrite !andb_false_r].
    by rewrite Z.shiftl_spec_low by lia. }
  pose proof (Z.add_lor_land (Z.shiftl (b / 16) 4) (b mod 16)) as Ha. rewrite Hz in Ha.
  rewrite Z.shiftl_mul_pow2 in * by lia. pose proof (Z.div_mod b 16). lia.
Qed.

(** [f] keeps the value of hexadecimal digits ([id] or [upper_char]). *)
Lemma hex_decode_encode (f : Z -> Z) data :
  (forall n, 0 <= n < 16 -> from_hex_char (f (hex_digit n)) = Some n) ->
  bytes_ok data -> hex_decode (f <$> hex_encode data) = Ok data.
Proof.
  intros Hf. induction 1 as [|b data Hb _ IH]; [done|].
  destruct (byte_nibbles b Hb) as (Hh & Hl & Hv).
  cbn [hex_encode]. rewrite !fmap_cons. cbn [hex_decode]. rewrite !Hf by done.
  rewrite IH. cbn [rbind]. by rewrite Hv.
Qed.

Lemma hex_encode_chars (f : Z -> Z) data :
  (forall n, 0 <= n < 16 -> from_hex_char (f (hex_digit n)) = Some n) ->
  bytes_ok data -> Forall is_hex_char (f <$> hex_encode data).
Proof.
  intros Hf. induction 1 as [|b data Hb _ IH]; [constructor|].
  destruct (byte_nibbles b Hb) as (Hh & Hl & _).
  cbn [hex_encode]. rewrite !fmap_cons. unfold is_hex_char in *. rewrite !Forall_cons.
  rewrite !Hf by done. eauto.
Qed.

Lemma length_hex_encode data : length (hex_encode data) = (2 * length data)%nat.
Proof. induction data; simpl; lia. Qed.

Lemma hex_char_is_byte c : is_hex_char c -> is_byte c.
Proof. unfold is_hex_char, from_hex_char, is_byte. intros [v Hv]. repeat case_match; lia || done. Qed.

(** No white-space sequence starts or ends with a hexadecimal digit. *)
Lemma trim_left_hex seqs l :
  Forall (fun p => exists a q, p = a :: q /\ from_hex_char a = None) seqs ->
  Forall is_hex_char l -> trim_left seqs l = l.
Proof.
  intros Hs Hl. unfold trim_left. destruct l as [|c l]; [done|]. cbn [length trim_left_fuel].
  destruct (List.find _ _) as [p|] eqn:E; [|done].
  apply find_some in E as [Hin Hp]. rewrite Forall_forall in Hs.
  destruct (Hs p) as (a & q & -> & Ha); [by apply list_elem_of_In|].
  unfold is_prefix in Hp. apply bool_decide_eq_true in Hp. cbn in Hp. simplify_eq.
  apply Forall_cons in Hl as [[? Hc] _]. congruence.
Qed.

Lemma trim_space_hex l : Forall is_hex_char l -> TrimSpace (bytes_string l) = bytes_string l.
Proof.
  intros Hl. unfold TrimSpace. cbv zeta. rewrite string_bytes_of_bytes.
  2:{ eapply Forall_impl; [exact Hl|]. apply hex_char_is_byte. }
  rewrite (trim_left_hex space_seqs) by (try done; repeat constructor; eauto).
  rewrite trim_left_hex; [by rewrite reverse_involutive| |by apply Forall_reverse].
  repeat constructor; do 2 eexists; (split; [reflexivity | reflexivity]).
Qed.

Lemma decode_hex_string (f : Z -> Z) data :
  (forall n, 0 <= n < 16 -> from_hex_char (f (hex_digit n)) = Some n) ->
  bytes_ok data -> Decode (bytes_string (f <$> hex_encode data)) = Ok data.
Proof.
  intros Hf Hd. pose proof (hex_encode_chars f data Hf Hd) as Hc.
  unfold Decode. rewrite trim_space_hex by done.
  rewrite length_bytes_string, length_fmap, length_hex_encode, Nat2Z.inj_mul.
  rewrite Z.mul_comm, Z.mod_mul by lia. cbn [Z.eqb negb].
  unfold DecodeString. rewrite string_bytes_of_bytes.
  - by apply hex_decode_encode.
  - eapply Forall_impl; [exact Hc|]. apply hex_char_is_byte.
Qed.

Lemma decode_Encode data : bytes_ok data -> Decode (Encode data) = Ok data.
Proof.
  intros Hd. unfold Encode, ToUpper, EncodeToString.
  rewrite string_bytes_of_bytes; [apply decode_hex_string; [apply from_hex_upper_digit | done]|].
  rewrite <- (list_fmap_id (hex_encode data)).
  eapply Forall_impl; [apply (hex_encode_chars id); [apply from_hex_digit | done]|].
  apply hex_char_is_byte.
Qed.

(** ** Properties *)

(** Hexadecimal decoding inverts encoding.  For every byte string, the
    decoder of the package accepts what its own [Encode] (upper case) and what
    [hex.EncodeToString] (lower case, used by the gateway for MO payloads)
    produce, and returns the original bytes; [MustDecode] does not panic on
    them. *)
Theorem hex_decode_inverts_encode (data : list Z) (Hd : bytes_ok data) :
  Decode (Encode data) = Ok data /\ Decode (EncodeToString data) = Ok data /\
  MustDecode (Encode data) = Ok data.
Proof.
  pose proof (decode_Encode data Hd) as H1.
  split; [done|]. split; [|unfold MustDecode; by rewrite H1].
  unfold EncodeToString. rewrite <- (list_fmap_id (hex_encode data)).
  apply (decode_hex_string id); [apply from_hex_digit | done].
Qed.

Lemma hex_decode_inverts_encode_witness :
  Encode [0x0A; 0xFF] = "0AFF"%string /\ Decode (Encode [0x0A; 0xFF]) = Ok [0x0A; 0xFF].
Proof.
  split; [reflexivity|].
  apply (hex_decode_inverts_encode [0x0A; 0xFF]). apply (bool_decide_unpack _). vm_compute. exact I.
Defined.

(** BER lengths.  For every length below 65536 the encoded field is read
    back as the same length by the X.690 rules, whatever bytes follow, and it
    is the shortest of the three forms. *)
Lemma ber_length_roundtrip (n : Z) (rest : list Z) (Hn : 0 <= n < 65536) :
  ber_decode (BERLength n ++ rest) = Some (n, rest) /\
  zlen (BERLength n) = (if n <? 128 then 1 else if n <? 256 then 2 else 3).
Proof.
  unfold BERLength. destruct (Z.ltb_spec n 128); [|destruct (Z.ltb_spec n 256)].
  - cbn [app ber_decode]. rewrite u8_small by lia.
    rewrite (proj2 (Z.ltb_lt n 128)) by lia. done.
  - cbn. rewrite u8_small by lia. done.
  - cbn. change 255 with (Z.ones 8). rewrite Z.land_ones, Z.shiftr_div_pow2 by lia.
    change (2 ^ 8) with 256. unfold u8.
    rewrite (Z.mod_small (n / 256)) by (split; [apply Z.div_pos; lia | apply Z.div_lt_upper_bound; lia]).
    rewrite Zmod_mod. pose proof (Z.div_mod n 256). split; [|done]. do 2 f_equal. lia.
Qed.

