(* ===== verification/Gsm0348.v ===== *)
(** * pkg/gsm0348: GSM 03.48 secured packets

    Command packets are built by [BuildCommandPacket] and response packets
    parsed by [ParseResponsePacket].  Bytes are [Z] in [0, 256), slices are
    lists, [(T, error)] is [res T].  The ciphers of the Go standard library
    come from [Crypto]; a [CryptoProvider] (an HSM) is a value of the input,
    as in the source. *)

From S2P Require Import Prelude Crypto.

(** ** types.go *)

Definition CertNone : Z := 0x00.
Definition CertRC : Z := 0x01.
Definition CertCC : Z := 0x02.
Definition CertDS : Z := 0x03.

Definition CounterNone : Z := 0x00.
Definition CounterNoReplay : Z := 0x01.
Definition CounterReplayCheck : Z := 0x02.

Definition PoRNone : Z := 0x00.
Definition PoRAlways : Z := 0x01.
Definition PoROnError : Z := 0x02.

Definition CipherDES_CBC : Z := 0x00.
Definition Cipher3DES_CBC_2Keys : Z := 0x01.
Definition Cipher3DES_CBC_3Keys : Z := 0x02.
Definition CipherAES_CBC : Z := 0x03.

Definition RespOK : Z := 0x00.
Definition RespRCCCDSFailed : Z := 0x01.
Definition RespCNTRLow : Z := 0x02.
Definition RespCNTRHighNoUpdate : Z := 0x03.
Definition RespCNTRHighUpdated : Z := 0x04.
Definition RespCNTRBlocked : Z := 0x05.
Definition RespCryptError : Z := 0x06.
Definition RespInsNotSupported : Z := 0x07.
Definition RespCNTRIncreaseNotAllowed : Z := 0x08.
Definition RespTARUnknown : Z := 0x09.
Definition RespInsufficientMemory : Z := 0x0A.

(** The modes are Go byte types, so any byte value may occur and the
    [default] branches of the switches are reachable. *)
Record SecurityProfile := {
  CertMode : Z;
  Ciphered : bool;
  CounterMode : Z;
  PoRMode : Z;
  PoRCertMode : Z;
  PoRCiphered : bool;
  PoRProtocol : Z;
  KIcAlgo : Z;
  KIcMode : Z;
  KIcKeysetID : Z;
  KIDAlgo : Z;
  KIDMode : Z;
  KIDKeysetID : Z;
  SecurityBytesWithLengthsAndUDHL : bool
}.

(** The [CryptoProvider] interface: methods of a backend outside this
    repository, so functions carried by the value. Arguments: card ID,
    algorithm name, mode name, data. *)
Record CryptoProvider := {
  ComputeMAC : string -> string -> string -> list Z -> res (list Z);
  ProviderEncrypt : string -> string -> string -> list Z -> res (list Z)
}.

Record CommandPacketInput := {
  TAR : list Z;
  Counter : list Z;
  CipheringKey : list Z;
  SigningKey : list Z;
  UserData : list Z;
  Provider : option CryptoProvider;
  CardID : string
}.

Record ResponsePacket := {
  resp_TAR : list Z;
  resp_Counter : list Z;
  resp_PCNTR : Z;
  resp_StatusCode : Z;
  resp_Signature : list Z;
  resp_Data : list Z
}.

(** ** builder.go: header bytes *)

Definition encodeSPI1 (sp : SecurityProfile) : Z :=
  let b := 0 in
  let b := Z.lor b (Z.land (u8 (CertMode sp)) 0x03) in
  let b := if Ciphered sp then Z.lor b 0x04 else b in
  Z.lor b (u8 (Z.shiftl (Z.land (u8 (CounterMode sp)) 0x03) 3)).

Definition encodeSPI2 (sp : SecurityProfile) : Z :=
  let b := 0 in
  let b := Z.lor b (Z.land (u8 (PoRMode sp)) 0x03) in
  let b := Z.lor b (u8 (Z.shiftl (Z.land (u8 (PoRCertMode sp)) 0x03) 2)) in
  let b := if PoRCiphered sp then Z.lor b 0x10 else b in
  Z.lor b (u8 (Z.shiftl (Z.land (PoRProtocol sp) 0x03) 5)).

Definition encodeKIc (sp : SecurityProfile) : Z :=
  let b := 0 in
  let b := Z.lor b (Z.land (KIcAlgo sp) 0x03) in
  let b := Z.lor b (u8 (Z.shiftl (Z.land (u8 (KIcMode sp)) 0x03) 2)) in
  Z.lor b (u8 (Z.shiftl (Z.land (KIcKeysetID sp) 0x07) 4)).

Definition encodeKID (sp : SecurityProfile) : Z :=
  let b := 0 in
  let b := Z.lor b (Z.land (KIDAlgo sp) 0x03) in
  let b := Z.lor b (u8 (Z.shiftl (Z.land (u8 (KIDMode sp)) 0x03) 2)) in
  Z.lor b (u8 (Z.shiftl (Z.land (KIDKeysetID sp) 0x07) 4)).

Definition signatureLength (sp : SecurityProfile) : Z :=
  if CertMode sp =? CertNone then 0
  else if CertMode sp =? CertRC then 4
  else if CertMode sp =? CertCC then 8
  else if CertMode sp =? CertDS then 0
  else 0.

Definition cipherBlockSize (sp : SecurityProfile) : Z :=
  if KIcMode sp =? CipherAES_CBC then 16 else 8.

(** ** builder.go: padding, checksums, ciphering *)

Definition padData (data : list Z) (blockSize : Z) : list Z * Z :=
  if zlen data =? 0 then (make_bytes blockSize, u8 blockSize)
  else
    let remainder := zlen data mod blockSize in
    if remainder =? 0 then (data, 0)
    else
      let padLen := blockSize - remainder in
      (copy (make_bytes (zlen data + padLen)) data, u8 padLen).

(** [dst[i] ^= src[i]] while both have an element. *)
Definition xorBytes (dst src : list Z) : list Z :=
  zip_with Z.lxor dst src ++ drop (length src) dst.

(** The loop [for i := 0; i < len(data); i += 8 { xorBytes(mac, data[i:i+8]);
    block.Encrypt(mac, mac) }]: a last piece shorter than 8 bytes is a slice
    out of range. *)
Fixpoint macLoop (blk : block) (mac : list Z) (pieces : list (list Z)) : res (list Z) :=
  match pieces with
  | [] => Ok mac
  | d :: pieces =>
      if zlen d =? 8 then macLoop blk (Encrypt blk (xorBytes mac d)) pieces
      else Panic "slice bounds out of range"
  end.

Definition computeRetailMACDES (key data : list Z) : res (list Z) :=
  if zlen key <? 8 then
    Err (Errorf "gsm0348: DES key must be at least 8 bytes, got %d" [ArgInt (zlen key)])
  else
    let! k := slice key 0 8 in
    let! blk := Des.NewCipher k in
    macLoop blk (make_bytes 8) (chunks 8 data).

Definition computeRetailMAC3DES2Keys (key data : list Z) : res (list Z) :=
  if zlen key <? 16 then
    Err (Errorf "gsm0348: 3DES-2-key MAC requires 16-byte key, got %d" [ArgInt (zlen key)])
  else
    let! k1 := slice key 0 8 in
    let! k2 := slice key 8 16 in
    let! block1 := Des.NewCipher k1 in
    let! mac := macLoop block1 (make_bytes 8) (chunks 8 data) in
    let! block2 := Des.NewCipher k2 in
    let mac := Decrypt block2 mac in
    Ok (Encrypt block1 mac).

Definition computeRetailMAC3DES3Keys (key data : list Z) : res (list Z) :=
  if zlen key <? 24 then
    Err (Errorf "gsm0348: 3DES-3-key MAC requires 24-byte key, got %d" [ArgInt (zlen key)])
  else
    let! k1 := slice key 0 8 in
    let! k2 := slice key 8 16 in
    let! k3 := slice key 16 24 in
    let! block1 := Des.NewCipher k1 in
    let! mac := macLoop block1 (make_bytes 8) (chunks 8 data) in
    let! block2 := Des.NewCipher k2 in
    let mac := Decrypt block2 mac in
    let! block3 := Des.NewCipher k3 in
    Ok (Encrypt block3 mac).

Definition computeMAC (mode : Z) (key header data : list Z) : res (list Z) :=
  let totalLen := zlen header + zlen data in
  let rem := totalLen mod 8 in
  let totalLen := if negb (rem =? 0) then totalLen + (8 - rem) else totalLen in
  let macInput := copy (make_bytes totalLen) (header ++ data) in
  if mode =? CipherDES_CBC then computeRetailMACDES key macInput
  else if mode =? Cipher3DES_CBC_2Keys then computeRetailMAC3DES2Keys key macInput
  else if mode =? Cipher3DES_CBC_3Keys then computeRetailMAC3DES3Keys key macInput
  else Err (Errorf "gsm0348: unsupported MAC cipher mode: %d" [ArgInt mode]).

(** The key expansion K1|K2|K1 of two-key triple DES. *)
Definition expandKey (key : list Z) : list Z := take 16 key ++ take 8 key.

(** The choice of the block in [encryptData]. *)
Definition encryptBlock (mode : Z) (key : list Z) : res block :=
  if mode =? CipherAES_CBC then
    if 32 <=? zlen key then let! k := slice key 0 32 in Aes.NewCipher k
    else if 24 <=? zlen key then let! k := slice key 0 24 in Aes.NewCipher k
    else if 16 <=? zlen key then let! k := slice key 0 16 in Aes.NewCipher k
    else Err (Errorf "gsm0348: AES key must be at least 16 bytes, got %d" [ArgInt (zlen key)])
  else if mode =? CipherDES_CBC then
    if zlen key <? 8 then Err (Errorf "gsm0348: DES key must be at least 8 bytes" [])
    else let! k := slice key 0 8 in Des.NewCipher k
  else if mode =? Cipher3DES_CBC_2Keys then
    if zlen key <? 16 then
      Err (Errorf "gsm0348: 3DES-2-key requires 16-byte key, got %d" [ArgInt (zlen key)])
    else Des.NewTripleDESCipher (expandKey key)
  else if mode =? Cipher3DES_CBC_3Keys then
    if zlen key <? 24 then
      Err (Errorf "gsm0348: 3DES-3-key requires 24-byte key, got %d" [ArgInt (zlen key)])
    else let! k := slice key 0 24 in Des.NewTripleDESCipher k
  else Err (Errorf "gsm0348: unsupported encryption cipher mode: %d" [ArgInt mode]).

(** [counter] is a parameter of the source that its body does not read. *)
Definition encryptData (mode : Z) (key counter data : list Z) : res (list Z) :=
  let! blk := encryptBlock mode key in
  let blockSize := Z.of_nat (BlockSize blk) in
  if negb (zlen data mod blockSize =? 0) then
    Err (Errorf "gsm0348: data length %d is not a multiple of block size %d"
           [ArgInt (zlen data); ArgInt blockSize])
  else
    let! iv := slice (make_bytes 16) 0 blockSize in
    Ok (Cbc.CryptBlocks_enc blk iv data).

(** [crc[(offset+i)%length] ^= b] for the elements of [l]. *)
Fixpoint crcLoop (len : nat) (offset : nat) (crc l : list Z) : list Z :=
  match l with
  | [] => crc
  | b :: l => crcLoop len (S offset) (alter (fun c => Z.lxor c b) (offset mod len)%nat crc) l
  end.

Definition computeCRC (header data : list Z) (length : Z) : res (list Z) :=
  if length =? 0 then
    (* the remainder of a division by zero, if anything is to be summed *)
    if (zlen header =? 0) && (zlen data =? 0) then Ok [] else Panic "integer divide by zero"
  else
    let len := Z.to_nat length in
    let crc := crcLoop len 0 (make_bytes length) header in
    Ok (crcLoop len (List.length header) crc data).

Definition algoName (algo : Z) : string := if algo =? 0x02 then "AES" else "DES".

Definition cipherModeName (mode : Z) : string :=
  if mode =? CipherDES_CBC then "DES_CBC"
  else if mode =? Cipher3DES_CBC_2Keys then "TRIPLE_DES_CBC_2_KEYS"
  else if mode =? Cipher3DES_CBC_3Keys then "TRIPLE_DES_CBC_3_KEYS"
  else if mode =? CipherAES_CBC then "AES_CBC"
  else "DES_CBC".

(** ** builder.go: BuildCommandPacket *)

(** The padded user data and PCNTR. *)
Definition buildPadding (sp : SecurityProfile) (input : CommandPacketInput) : list Z * Z :=
  if Ciphered sp then padData (UserData input) (cipherBlockSize sp)
  else (UserData input, 0).

(** SPI(2) KIc(1) KID(1) TAR(3) CNTR(5) PCNTR(1). *)
Definition buildHeader (sp : SecurityProfile) (input : CommandPacketInput) (pcntr : Z) : list Z :=
  [encodeSPI1 sp; encodeSPI2 sp] ++ [encodeKIc sp] ++ [encodeKID sp] ++
  TAR input ++ Counter input ++ [pcntr].

(** The signature field: RC, CC or none; DS is refused. *)
Definition buildSignature (sp : SecurityProfile) (input : CommandPacketInput)
    (header paddedData : list Z) : res (list Z) :=
  let sigLen := signatureLength sp in
  let signature := make_bytes sigLen in
  if CertMode sp =? CertNone then Ok signature
  else if CertMode sp =? CertRC then
    let! crc := computeCRC header paddedData sigLen in
    Ok (copy signature crc)
  else if CertMode sp =? CertCC then
    let! mac := rwrap "gsm0348: compute MAC: %w"
      match Provider input with
      | Some p =>
          let macInput := header ++ paddedData in
          let macInput :=
            if negb (zlen macInput mod 8 =? 0)
            then macInput ++ make_bytes (8 - zlen macInput mod 8) else macInput in
          ComputeMAC p (CardID input) (algoName (KIDAlgo sp)) (cipherModeName (KIDMode sp)) macInput
      | None => computeMAC (KIDMode sp) (SigningKey input) header paddedData
      end in
    let! m := slice mac 0 sigLen in
    Ok (copy signature m)
  else if CertMode sp =? CertDS then
    Err (Errorf "gsm0348: digital signature (DS) mode not implemented" [])
  else Ok signature.

(** Ciphering of signature and data. *)
Definition buildSecured (sp : SecurityProfile) (input : CommandPacketInput)
    (securedData : list Z) : res (list Z) :=
  if Ciphered sp then
    rwrap "gsm0348: encrypt data: %w"
      match Provider input with
      | Some p => ProviderEncrypt p (CardID input) (algoName (KIcAlgo sp)) (cipherModeName (KIcMode sp)) securedData
      | None => encryptData (KIcMode sp) (CipheringKey input) (Counter input) securedData
      end
  else Ok securedData.

Definition BuildCommandPacket (sp : SecurityProfile) (input : CommandPacketInput) : res (list Z) :=
  let sigLen := signatureLength sp in
  let chl := u8 (13 + sigLen) in
  let '(paddedData, pcntr) := buildPadding sp input in
  let header := buildHeader sp input pcntr in
  let! signature := buildSignature sp input header paddedData in
  let securedData := signature ++ paddedData in
  let! securedData := buildSecured sp input securedData in
  let cpl := 1 + zlen header + zlen securedData in
  Ok ([u8 (Z.shiftr cpl 8); u8 (Z.land cpl 0xFF)] ++ [chl] ++ header ++ securedData).

(** ** response.go *)

(** The choice of the block in [decryptData]; AES is not among them. *)
Definition decryptBlock (mode : Z) (key : list Z) : res block :=
  if mode =? CipherDES_CBC then
    if zlen key <? 8 then Err (Errorf "gsm0348: DES key must be at least 8 bytes" [])
    else let! k := slice key 0 8 in Des.NewCipher k
  else if mode =? Cipher3DES_CBC_2Keys then
    if zlen key <? 16 then
      Err (Errorf "gsm0348: 3DES-2-key requires 16-byte key, got %d" [ArgInt (zlen key)])
    else Des.NewTripleDESCipher (expandKey key)
  else if mode =? Cipher3DES_CBC_3Keys then
    if zlen key <? 24 then
      Err (Errorf "gsm0348: 3DES-3-key requires 24-byte key, got %d" [ArgInt (zlen key)])
    else let! k := slice key 0 24 in Des.NewTripleDESCipher k
  else Err (Errorf "gsm0348: unsupported decryption cipher mode: %d" [ArgInt mode]).

Definition decryptData (mode : Z) (key data : list Z) : res (list Z) :=
  let! blk := decryptBlock mode key in
  let blockSize := Z.of_nat (BlockSize blk) in
  if negb (zlen data mod blockSize =? 0) then
    Err (Errorf "gsm0348: encrypted data length %d is not a multiple of block size %d"
           [ArgInt (zlen data); ArgInt blockSize])
  else Ok (Cbc.CryptBlocks_dec blk (make_bytes blockSize) data).

Definition tooShort (field : string) : goerr :=
  Errorf ("gsm0348: response packet too short for " +:+ field) [].

Definition ParseResponsePacket (sp : SecurityProfile) (raw cipherKey signKey : list Z)
    : res ResponsePacket :=
  if zlen raw <? 2 then Err (tooShort "RPL") else
  let! r0 := index raw 0 in
  let! r1 := index raw 1 in
  let rpl := Z.lor (Z.shiftl r0 8) r1 in
  if zlen raw <? 2 + rpl then
    Err (Errorf "gsm0348: response packet truncated: RPL=%d but only %d bytes remain"
           [ArgInt rpl; ArgInt (zlen raw - 2)]) else
  let pos := 2 in
  if zlen raw <=? pos then Err (tooShort "RHL") else
  let! rhl := index raw pos in
  let pos := pos + 1 in
  if zlen raw <? pos + 3 then Err (tooShort "TAR") else
  let! tar := slice raw pos (pos + 3) in
  let tar := to_array 3 tar in
  let pos := pos + 3 in
  if zlen raw <? pos + 5 then Err (tooShort "CNTR") else
  let! counter := slice raw pos (pos + 5) in
  let counter := to_array 5 counter in
  let pos := pos + 5 in
  if zlen raw <=? pos then Err (tooShort "PCNTR") else
  let! pcntr := index raw pos in
  let pos := pos + 1 in
  if zlen raw <=? pos then Err (tooShort "StatusCode") else
  let! statusCode := index raw pos in
  let pos := pos + 1 in
  let sigLen := rhl - 10 in
  let sigLen := if sigLen <? 0 then 0 else sigLen in
  let! sig :=
    (if 0 <? sigLen then
       if zlen raw <? pos + sigLen then Err (tooShort "signature")
       else let! s := slice raw pos (pos + sigLen) in Ok (copy (make_bytes sigLen) s, pos + sigLen)
     else Ok ([], pos)) in
  let '(signature, pos) := sig in
  let dataEnd := 2 + rpl in
  let! data :=
    (if pos <? dataEnd then
       let! d := slice raw pos dataEnd in Ok (copy (make_bytes (dataEnd - pos)) d)
     else Ok []) in
  let! data :=
    (if PoRCiphered sp && (0 <? zlen data) then
       rwrap "gsm0348: decrypt response data: %w" (decryptData (KIcMode sp) cipherKey data)
     else Ok data) in
  let! data :=
    (if (0 <? pcntr) && (pcntr <=? zlen data) then slice data 0 (zlen data - pcntr) else Ok data) in
  Ok {| resp_TAR := tar; resp_Counter := counter; resp_PCNTR := pcntr;
        resp_StatusCode := statusCode; resp_Signature := signature; resp_Data := data |}.

Definition ParseResponsePacketWithProvider (sp : SecurityProfile) (raw : list Z) (cardID : string)
    (provider : CryptoProvider) : res ResponsePacket :=
  if PoRCiphered sp then
    Err (Errorf "gsm0348: response decryption with CryptoProvider not yet supported; use ParseResponsePacket with raw keys" [])
  else ParseResponsePacket sp raw [] [].

(** ** Specifications *)

(** What the card does with a command packet (GSM 03.48, 5.1): it reads every
    parameter from the packet itself, deciphers with its KIc key, recomputes
    the redundancy check or the cryptographic checksum with its KID key, and
    hands TAR, counter and unpadded data to the application. *)
Definition card_unwrap (kicKey kidKey packet : list Z) : option (list Z * list Z * list Z) :=
  match packet with
  | c0 :: c1 :: chl :: rest =>
      if negb (256 * c0 + c1 =? 1 + zlen rest) then None else
      match take 13 rest with
      | spi1 :: _ :: kic :: kid :: t0 :: t1 :: t2 :: n0 :: n1 :: n2 :: n3 :: n4 :: pcntr :: [] =>
          let header := take 13 rest in
          let field (b lo : Z) := Z.land (Z.shiftr b lo) 3 in
          let plain := if Z.testbit spi1 2 then decryptData (field kic 2) kicKey (drop 13 rest)
                       else Ok (drop 13 rest) in
          match plain with
          | Ok body =>
              let sigLen := Z.to_nat (chl - 13) in
              let sg := take sigLen body in
              let data := drop sigLen body in
              let expected :=
                if field spi1 0 =? CertRC then computeCRC header data 4
                else if field spi1 0 =? CertCC then computeMAC (field kid 2) kidKey header data
                else Ok [] in
              match expected with
              | Ok s => if bool_decide (s = sg)
                        then Some ([t0; t1; t2], [n0; n1; n2; n3; n4], take (length data - Z.to_nat pcntr) data)
                        else None
              | _ => None
              end
          | _ => None
          end
      | _ => None
      end
  | _ => None
  end.

(** A response packet as the card sends it: RPL RHL TAR CNTR PCNTR status
    signature data. *)
Definition response_bytes (r : ResponsePacket) (body : list Z) : list Z :=
  let rhl := 10 + zlen (resp_Signature r) in
  let rpl := 1 + rhl + zlen body in
  [Z.shiftr rpl 8; Z.land rpl 255] ++ [rhl] ++ resp_TAR r ++ resp_Counter r ++
  [resp_PCNTR r; resp_StatusCode r] ++ resp_Signature r ++ body.

(** When does the software path of [BuildCommandPacket] succeed? *)
Definition keyLen (mode : Z) : Z :=
  if mode =? CipherDES_CBC then 8 else if mode =? Cipher3DES_CBC_2Keys then 16
  else if mode =? Cipher3DES_CBC_3Keys then 24 else 16.

Definition cert_supported (sp : SecurityProfile) (input : CommandPacketInput) : bool :=
  if CertMode sp =? CertDS then false
  else if CertMode sp =? CertCC then
    (0 <=? KIDMode sp) && (KIDMode sp <=? 2) && (keyLen (KIDMode sp) <=? zlen (SigningKey input))
  else true.

Definition cipher_supported (sp : SecurityProfile) (input : CommandPacketInput) : bool :=
  if Ciphered sp then
    (0 <=? KIcMode sp) && (KIcMode sp <=? 3) && (keyLen (KIcMode sp) <=? zlen (CipheringKey input)) &&
    (signatureLength sp mod cipherBlockSize sp =? 0)
  else true.

Definition input_ok (input : CommandPacketInput) : Prop :=
  length (TAR input) = 3%nat /\ length (Counter input) = 5%nat /\
  bytes_ok (TAR input) /\ bytes_ok (Counter input) /\ bytes_ok (UserData input) /\
  bytes_ok (CipheringKey input) /\ bytes_ok (SigningKey input).

#[global] Instance input_ok_dec input : Decision (input_ok input).
Proof. unfold input_ok. apply _. Defined.

(** ** Lemmas: header bytes *)

Lemma land3 x : Z.land x 3 = x mod 4.
Proof. change 3 with (Z.ones 2). by rewrite Z.land_ones. Qed.

Lemma land7 x : Z.land x 7 = x mod 8.
Proof. change 7 with (Z.ones 3). by rewrite Z.land_ones. Qed.

Lemma land_u8_3 x : Z.land (u8 x) 3 = x mod 4.
Proof.
  rewrite land3. unfold u8. replace 256 with (4 * 64) by lia.
  rewrite Z.rem_mul_r by lia. rewrite Z.mul_comm, Z_mod_plus_full. apply Zmod_mod.
Qed.

(** Enumerates an integer known to be in [0, 4). *)
Ltac enum4 x :=
  let H := fresh in
  assert (x = 0 \/ x = 1 \/ x = 2 \/ x = 3) as H by lia; destruct H as [-> | [-> | [-> | ->]]].

(** Bits of the four header bytes, by enumeration of the masked fields. *)
Lemma spi1_bits (c n : Z) (k : bool) : 0 <= c < 4 -> 0 <= n < 4 ->
  let b := Z.lor (if k then Z.lor (Z.lor 0 c) 4 else Z.lor 0 c) (u8 (Z.shiftl n 3)) in
  is_byte b /\ Z.land b 3 = c /\ Z.testbit b 2 = k /\ Z.land (Z.shiftr b 3) 3 = n.
Proof. intros. enum4 c; enum4 n; destruct k; done. Qed.

Lemma spi2_bits (m c p : Z) (k : bool) : 0 <= m < 4 -> 0 <= c < 4 -> 0 <= p < 4 ->
  let b := Z.lor (Z.lor 0 m) (u8 (Z.shiftl c 2)) in
  let b := Z.lor (if k then Z.lor b 16 else b) (u8 (Z.shiftl p 5)) in
  is_byte b /\ Z.land b 3 = m /\ Z.land (Z.shiftr b 2) 3 = c /\ Z.testbit b 4 = k /\
  Z.land (Z.shiftr b 5) 3 = p.
Proof. intros. enum4 m; enum4 c; enum4 p; destruct k; done. Qed.

Lemma key_byte_bits (a m i : Z) : 0 <= a < 4 -> 0 <= m < 4 -> 0 <= i < 8 ->
  let b := Z.lor (Z.lor (Z.lor 0 a) (u8 (Z.shiftl m 2))) (u8 (Z.shiftl i 4)) in
  is_byte b /\ Z.land b 3 = a /\ Z.land (Z.shiftr b 2) 3 = m /\ Z.land (Z.shiftr b 4) 7 = i.
Proof.
  intros Ha Hm Hi. cbv zeta. revert i Hi. apply (bounded_cases 8).
  enum4 a; enum4 m; apply (bool_decide_unpack _); vm_compute; exact I.
Qed.

Lemma encodeSPI1_bits sp :
  is_byte (encodeSPI1 sp) /\ Z.land (encodeSPI1 sp) 3 = CertMode sp mod 4 /\
  Z.testbit (encodeSPI1 sp) 2 = Ciphered sp /\ Z.land (Z.shiftr (encodeSPI1 sp) 3) 3 = CounterMode sp mod 4.
Proof.
  unfold encodeSPI1. cbv zeta. rewrite !land_u8_3.
  apply spi1_bits; apply Z.mod_pos_bound; lia.
Qed.

Lemma encodeSPI2_bits sp :
  is_byte (encodeSPI2 sp) /\ Z.land (encodeSPI2 sp) 3 = PoRMode sp mod 4 /\
  Z.land (Z.shiftr (encodeSPI2 sp) 2) 3 = PoRCertMode sp mod 4 /\
  Z.testbit (encodeSPI2 sp) 4 = PoRCiphered sp /\
  Z.land (Z.shiftr (encodeSPI2 sp) 5) 3 = PoRProtocol sp mod 4.
Proof.
  unfold encodeSPI2. cbv zeta. rewrite !land_u8_3, land3.
  apply spi2_bits; apply Z.mod_pos_bound; lia.
Qed.

Lemma encodeKIc_bits sp :
  is_byte (encodeKIc sp) /\ Z.land (encodeKIc sp) 3 = KIcAlgo sp mod 4 /\
  Z.land (Z.shiftr (encodeKIc sp) 2) 3 = KIcMode sp mod 4 /\
  Z.land (Z.shiftr (encodeKIc sp) 4) 7 = KIcKeysetID sp mod 8.
Proof.
  unfold encodeKIc. cbv zeta. rewrite !land_u8_3, land3, land7.
  apply key_byte_bits; apply Z.mod_pos_bound; lia.
Qed.

Lemma encodeKID_bits sp :
  is_byte (encodeKID sp) /\ Z.land (encodeKID sp) 3 = KIDAlgo sp mod 4 /\
  Z.land (Z.shiftr (encodeKID sp) 2) 3 = KIDMode sp mod 4 /\
  Z.land (Z.shiftr (encodeKID sp) 4) 7 = KIDKeysetID sp mod 8.
Proof.
  unfold encodeKID. cbv zeta. rewrite !land_u8_3, land3, land7.
  apply key_byte_bits; apply Z.mod_pos_bound; lia.
Qed.

(** ** Lemmas: padding, checksums, ciphering *)

Lemma copy_prefix {A} (dst src : list A) :
  (length src <= length dst)%nat -> copy dst src = src ++ drop (length src) dst.
Proof. intros. unfold copy. by rewrite take_ge by lia. Qed.

Lemma copy_make_bytes n (data : list Z) :
  zlen data <= n -> copy (make_bytes n) data = data ++ make_bytes (n - zlen data).
Proof.
  intros H. pose proof (zlen_nonneg data). unfold make_bytes, zlen in *.
  rewrite copy_prefix by (rewrite length_replicate; lia).
  rewrite drop_replicate. do 2 f_equal. lia.
Qed.

Lemma make_bytes_ok n : bytes_ok (make_bytes n).
Proof. apply bytes_ok_replicate. split; lia. Qed.

Lemma zlen_make_bytes n : 0 <= n -> zlen (make_bytes n) = n.
Proof. intros. unfold zlen, make_bytes. rewrite length_replicate. lia. Qed.
#[export] Hint Resolve make_bytes_ok : go.

Lemma padData_spec data bs : 0 < bs < 256 ->
  let '(p, c) := padData data bs in
  p = data ++ make_bytes c /\ 0 <= c <= bs /\ zlen p mod bs = 0 /\ (c = bs <-> data = []).
Proof.
  intros Hbs. unfold padData. cbv zeta.
  destruct (zlen data =? 0) eqn:E0; [|destruct (_ mod _ =? 0) eqn:E1].
  - apply Z.eqb_eq in E0. destruct data; [|unfold zlen in E0; simpl in E0; lia].
    rewrite u8_small by lia. split_and!; [done | lia | lia | | done].
    rewrite zlen_make_bytes by lia. by apply Z_mod_same_full.
  - apply Z.eqb_eq in E1. apply Z.eqb_neq in E0. rewrite app_nil_r.
    split_and!; [done | lia | lia | done | split; [lia | by intros ->]].
  - apply Z.eqb_neq in E0, E1. pose proof (Z.mod_pos_bound (zlen data) bs).
    rewrite u8_small, copy_make_bytes by lia. pose proof (zlen_nonneg data).
    replace (zlen data + (bs - zlen data mod bs) - zlen data) with (bs - zlen data mod bs) by lia.
    split_and!; [done | lia | lia | | split; [lia | by intros ->]].
    rewrite zlen_app, zlen_make_bytes by lia.
    rewrite (Z.div_mod (zlen data) bs) at 1 by lia.
    replace (_ + _) with ((zlen data / bs + 1) * bs) by lia. apply Z.mod_mul. lia.
Qed.

Lemma xorBytes_ok n mac d : word_ok n mac -> word_ok n d -> word_ok n (xorBytes mac d).
Proof.
  intros Hm Hd. pose proof Hm as [Hl1 ?]. pose proof Hd as [Hl2 ?].
  unfold xorBytes. rewrite drop_ge, app_nil_r by lia. by apply xor_word_ok.
Qed.

Lemma macLoop_ok blk mac pieces :
  BlockEncLaws blk -> BlockSize blk = 8%nat -> word_ok 8 mac -> Forall (word_ok 8) pieces ->
  exists m, macLoop blk mac pieces = Ok m /\ word_ok 8 m.
Proof.
  intros HB Hs Hm Hp. revert mac Hm. induction Hp as [|d pieces Hd _ IH]; intros mac Hm.
  - by exists mac.
  - cbn [macLoop]. replace (zlen d =? 8) with true
      by (symmetry; apply Z.eqb_eq; unfold zlen; rewrite (proj1 Hd); done).
    apply IH. destruct (xorBytes_ok 8 mac d Hm Hd) as [Hl Ho]. split.
    + rewrite <- Hs in Hl |- *. by apply encrypt_props.
    + rewrite <- Hs in Hl. by apply encrypt_props.
Qed.

(** The single-DES blocks of the key parts. *)
Lemma des_key_part key lo :
  0 <= lo -> lo + 8 <= zlen key ->
  exists k blk, slice key lo (lo + 8) = Ok k /\ Des.NewCipher k = Ok blk /\
    BlockLaws blk /\ BlockSize blk = 8%nat /\
    (forall x, word_ok 8 x -> word_ok 8 (Encrypt blk x) /\ word_ok 8 (Decrypt blk x)).
Proof.
  intros H0 H1. rewrite slice_ok by lia. eexists _, _. split; [done|].
  unfold Des.NewCipher. set (k := take _ _).
  assert (zlen k = 8) as ->
    by (unfold k, zlen in *; rewrite length_take, length_drop; lia).
  split; [reflexivity|]. split; [|split; [done|]].
  - apply (des_block_laws k). unfold Des.NewCipher. case_match eqn:E; [done|].
    apply Z.eqb_neq in E. unfold k, zlen in *. rewrite length_take, length_drop in E. lia.
  - cbn [Encrypt Decrypt]. intros x [Hx _].
    split; [by apply encrypt_block_props | by apply decrypt_block_props].
Qed.

(** One DES block per key part of a retail MAC. *)
Ltac des_part key lo blk Hk Hb HL Hs Hw :=
  let k := fresh "k" in
  destruct (des_key_part key lo) as (k & blk & Hk & Hb & HL & Hs & Hw); [lia | lia |];
  let hi := eval vm_compute in (lo + 8) in change (lo + 8) with hi in Hk;
  rewrite Hk; cbn [rbind].

Section RetailMac.
Context (key data : list Z).
Hypothesis Hmul : zlen data mod 8 = 0.
Hypothesis Hdata : bytes_ok data.

Lemma retail_loop blk : BlockLaws blk -> BlockSize blk = 8%nat ->
  exists m, macLoop blk (make_bytes 8) (chunks 8 data) = Ok m /\ word_ok 8 m.
Proof.
  intros. apply macLoop_ok; [apply block_enc_laws | done | by split; [|apply make_bytes_ok] |].
  by apply chunks_words; [lia | |].
Qed.

Lemma retailDES_spec : outcome (computeRetailMACDES key data) (8 <=? zlen key) (word_ok 8).
Proof.
  unfold computeRetailMACDES. rewrite Z.leb_antisym. destruct (zlen key <? 8) eqn:E; [done|].
  apply Z.ltb_ge in E. des_part key 0 b1 Hk1 Hb1 HL1 Hs1 Hw1. rewrite Hb1. cbn [rbind].
  by destruct (retail_loop b1) as (m & -> & ?).
Qed.

Lemma retail3DES2_spec : outcome (computeRetailMAC3DES2Keys key data) (16 <=? zlen key) (word_ok 8).
Proof.
  unfold computeRetailMAC3DES2Keys. rewrite Z.leb_antisym. destruct (zlen key <? 16) eqn:E; [done|].
  apply Z.ltb_ge in E. des_part key 0 b1 Hk1 Hb1 HL1 Hs1 Hw1. des_part key 8 b2 Hk2 Hb2 HL2 Hs2 Hw2.
  rewrite Hb1. cbn [rbind]. destruct (retail_loop b1) as (m & -> & ?); [done | done |].
  cbn [rbind]. rewrite Hb2. split; [done|]. by apply Hw1, Hw2.
Qed.

Lemma retail3DES3_spec : outcome (computeRetailMAC3DES3Keys key data) (24 <=? zlen key) (word_ok 8).
Proof.
  unfold computeRetailMAC3DES3Keys. rewrite Z.leb_antisym. destruct (zlen key <? 24) eqn:E; [done|].
  apply Z.ltb_ge in E. des_part key 0 b1 Hk1 Hb1 HL1 Hs1 Hw1. des_part key 8 b2 Hk2 Hb2 HL2 Hs2 Hw2.
  des_part key 16 b3 Hk3 Hb3 HL3 Hs3 Hw3.
  rewrite Hb1. cbn [rbind]. destruct (retail_loop b1) as (m & -> & ?); [done | done |].
  cbn [rbind]. rewrite Hb2. cbn [rbind]. rewrite Hb3. split; [done|]. by apply Hw3, Hw2.
Qed.

End RetailMac.

(** [true] exactly for the modes [computeMAC] knows with enough key bytes. *)
Definition mac_supported (mode : Z) (key : list Z) : bool :=
  (0 <=? mode) && (mode <=? 2) && (keyLen mode <=? zlen key).

Lemma pad8 z : 0 <= z ->
  let t := if negb (z mod 8 =? 0) then z + (8 - z mod 8) else z in z <= t /\ t mod 8 = 0.
Proof.
  intros Hz. pose proof (Z.mod_pos_bound z 8). pose proof (Z.div_mod z 8).
  destruct (z mod 8 =? 0) eqn:E; cbn [negb]; cbv zeta; [apply Z.eqb_eq in E; lia|]. split; [lia|].
  rewrite (Z.div_mod z 8) at 1 by lia.
  replace (_ + _) with ((z / 8 + 1) * 8) by lia. apply Z.mod_mul. lia.
Qed.

Lemma computeMAC_spec mode key header data :
  bytes_ok header -> bytes_ok data ->
  outcome (computeMAC mode key header data) (mac_supported mode key) (word_ok 8).
Proof.
  intros Hh Hd. unfold computeMAC. cbv zeta.
  pose proof (zlen_nonneg header). pose proof (zlen_nonneg data).
  destruct (pad8 (zlen header + zlen data) ltac:(lia)) as [Hge Hmod].
  set (t := if negb _ then _ else _) in *. clearbody t.
  set (mi := copy _ _).
  assert (zlen mi mod 8 = 0).
  { unfold mi, zlen. rewrite length_copy. unfold make_bytes. rewrite length_replicate.
    rewrite Z2Nat.id by lia. done. }
  assert (bytes_ok mi) by (apply bytes_ok_copy; [apply make_bytes_ok | by apply bytes_ok_app]).
  clearbody mi. unfold mac_supported, keyLen, CipherDES_CBC, Cipher3DES_CBC_2Keys, Cipher3DES_CBC_3Keys.
  destruct (mode =? 0) eqn:E0; [apply Z.eqb_eq in E0; subst; by apply retailDES_spec|].
  destruct (mode =? 1) eqn:E1; [apply Z.eqb_eq in E1; subst; by apply retail3DES2_spec|].
  destruct (mode =? 2) eqn:E2; [apply Z.eqb_eq in E2; subst; by apply retail3DES3_spec|].
  apply Z.eqb_neq in E0, E1, E2. cbn [outcome].
  destruct (0 <=? mode) eqn:?; [|done]. destruct (mode <=? 2) eqn:?; [lia | done].
Qed.

Lemma crcLoop_ok len off crc l :
  bytes_ok crc -> bytes_ok l -> bytes_ok (crcLoop len off crc l) /\ length (crcLoop len off crc l) = length crc.
Proof.
  intros Hc Hl. revert off crc Hc. induction Hl as [|b l Hb Hl IH]; intros off crc Hc; [done|].
  cbn [crcLoop]. destruct (IH (S off) (alter (fun c => Z.lxor c b) (off mod len)%nat crc)) as [H1 H2].
  - apply Forall_alter; [done|]. intros. by apply lxor_is_byte.
  - split; [done|]. rewrite H2. apply length_alter.
Qed.

Lemma computeCRC_spec header data n :
  0 < n -> bytes_ok header -> bytes_ok data ->
  exists crc, computeCRC header data n = Ok crc /\ word_ok (Z.to_nat n) crc.
Proof.
  intros Hn Hh Hd. unfold computeCRC. rewrite (proj2 (Z.eqb_neq _ _)) by lia.
  eexists. split; [done|]. destruct (crcLoop_ok (Z.to_nat n) 0 (make_bytes n) header) as [H1 H2];
    [apply make_bytes_ok | done |].
  destruct (crcLoop_ok (Z.to_nat n) (length header) _ data H1 Hd) as [H3 H4].
  split; [|done]. rewrite H4, H2. apply length_replicate.
Qed.

(** [true] exactly when [encryptData] finds a block cipher. *)
Definition enc_supported (mode : Z) (key : list Z) : bool :=
  (0 <=? mode) && (mode <=? 3) && (keyLen mode <=? zlen key).

Definition mode_block (mode : Z) : nat := if mode =? CipherAES_CBC then 16 else 8.

Definition enc_block_ok (n : nat) (blk : block) : Prop := BlockEncLaws blk /\ BlockSize blk = n.

Lemma aes_slice_spec key n :
  n = 16 \/ n = 24 \/ n = 32 -> n <= zlen key -> bytes_ok key ->
  outcome (let! k := slice key 0 n in Aes.NewCipher k) true (enc_block_ok 16).
Proof.
  intros Hn Hle Hok. rewrite slice_ok by lia. cbn [rbind]. set (k := take _ _).
  assert (Hz : zlen k = n) by (unfold k, zlen in *; rewrite length_take, length_drop; lia).
  assert (Hk : bytes_ok k) by (unfold k; auto with go). clearbody k.
  destruct (Aes.NewCipher k) as [blk| |] eqn:E.
  - split; [done|]. by apply (aes_block_laws k).
  - unfold Aes.NewCipher in E. rewrite Hz in E. by destruct Hn as [-> | [-> | ->]].
  - unfold Aes.NewCipher in E. by case_match.
Qed.

Lemma laws_enc_block blk n : BlockLaws blk -> BlockSize blk = n -> enc_block_ok n blk.
Proof. intros. split; [apply block_enc_laws | done]. Qed.

(** The DES family: the blocks of [decryptBlock], with their inverse law. *)
Definition des_block_ok (blk : block) : Prop := BlockLaws blk /\ BlockSize blk = 8%nat.

Lemma triple_des_spec k : zlen k = 24 -> outcome (Des.NewTripleDESCipher k) true des_block_ok.
Proof.
  intros Hk. destruct (Des.NewTripleDESCipher k) as [blk| |] eqn:E;
    pose proof E as E'; unfold Des.NewTripleDESCipher in E'; rewrite Hk, Z.eqb_refl in E'; [|discriminate E'..].
  split; [done|]. split; [by apply (triple_des_block_laws k)|]. by injection E' as <-.
Qed.

Lemma decryptBlock_spec mode key :
  outcome (decryptBlock mode key) (mac_supported mode key) des_block_ok.
Proof.
  unfold decryptBlock, mac_supported, keyLen, CipherDES_CBC, Cipher3DES_CBC_2Keys, Cipher3DES_CBC_3Keys.
  destruct (mode =? 0) eqn:E0; [apply Z.eqb_eq in E0; subst|
  destruct (mode =? 1) eqn:E1; [apply Z.eqb_eq in E1; subst|
  destruct (mode =? 2) eqn:E2; [apply Z.eqb_eq in E2; subst|]]].
  - cbn [andb Z.leb Z.compare Pos.compare Pos.compare_cont]. rewrite (Z.leb_antisym (zlen key)).
    destruct (zlen key <? 8) eqn:E; [done|]. apply Z.ltb_ge in E.
    des_part key 0 b1 Hk1 Hb1 HL1 Hs1 Hw1. by rewrite Hb1.
  - cbn [andb Z.leb Z.compare Pos.compare Pos.compare_cont]. rewrite (Z.leb_antisym (zlen key)).
    destruct (zlen key <? 16) eqn:E; [done|]. apply Z.ltb_ge in E. apply triple_des_spec.
    unfold expandKey, zlen in *. rewrite length_app, !length_take. lia.
  - cbn [andb Z.leb Z.compare Pos.compare Pos.compare_cont]. rewrite (Z.leb_antisym (zlen key)).
    destruct (zlen key <? 24) eqn:E; [done|]. apply Z.ltb_ge in E.
    rewrite slice_ok by lia. cbn [rbind]. apply triple_des_spec.
    unfold zlen in *. rewrite length_take, length_drop. lia.
  - apply Z.eqb_neq in E0, E1, E2. cbn [outcome].
    destruct (0 <=? mode) eqn:?; [|done]. destruct (mode <=? 2) eqn:?; [lia | done].
Qed.

(** On the DES family the two switches choose the same block. *)
Lemma encryptBlock_des mode key : mode <> 3 ->
  match decryptBlock mode key with
  | Ok blk => encryptBlock mode key = Ok blk
  | Err _ => exists e, encryptBlock mode key = Err e
  | Panic s => encryptBlock mode key = Panic s
  end.
Proof.
  intros Hm. unfold encryptBlock, decryptBlock, CipherAES_CBC. rewrite (proj2 (Z.eqb_neq _ _) Hm).
  destruct (mode =? CipherDES_CBC); [destruct (zlen key <? 8); [by eexists|]; by destruct (rbind _ _) eqn:E; eauto|].
  destruct (mode =? Cipher3DES_CBC_2Keys); [destruct (zlen key <? 16); [by eexists|]; by destruct (Des.NewTripleDESCipher _); eauto|].
  destruct (mode =? Cipher3DES_CBC_3Keys); [destruct (zlen key <? 24); [by eexists|]; by destruct (rbind _ _); eauto|].
  by eexists.
Qed.

Lemma encryptBlock_spec mode key : bytes_ok key ->
  outcome (encryptBlock mode key) (enc_supported mode key) (enc_block_ok (mode_block mode)).
Proof.
  intros Hk. destruct (decide (mode = 3)) as [->|Hm].
  - unfold encryptBlock, enc_supported. cbn [CipherAES_CBC Z.eqb Pos.eqb].
    change (3 =? CipherAES_CBC) with true. change (keyLen 3) with 16. cbv iota.
    change (mode_block 3) with 16%nat. cbn [andb Z.leb Z.compare Pos.compare Pos.compare_cont].
    destruct (32 <=? zlen key) eqn:E1; [|destruct (24 <=? zlen key) eqn:E2; [|destruct (16 <=? zlen key) eqn:E3; [|done]]];
      apply Z.leb_le in E1 || apply Z.leb_le in E2 || apply Z.leb_le in E3.
    + rewrite (proj2 (Z.leb_le 16 (zlen key))) by lia. apply aes_slice_spec; auto; lia.
    + rewrite (proj2 (Z.leb_le 16 (zlen key))) by lia. apply aes_slice_spec; auto; lia.
    + apply aes_slice_spec; auto; lia.
  - pose proof (encryptBlock_des mode key Hm) as HE. pose proof (decryptBlock_spec mode key) as HD.
    assert (HS : mac_supported mode key = enc_supported mode key).
    { unfold mac_supported, enc_supported. replace (mode <=? 3) with (mode <=? 2); [done|].
      destruct (mode <=? 2) eqn:?, (mode <=? 3) eqn:?; lia. }
    rewrite <- HS. assert (mode_block mode = 8%nat) as ->.
    { unfold mode_block, CipherAES_CBC. by rewrite (proj2 (Z.eqb_neq _ _)). }
    destruct (decryptBlock mode key); [rewrite HE | destruct HE as [? ->]; done | done].
    destruct HD as [H1 [H2 H3]]. split; [done | by apply laws_enc_block].
Qed.

Lemma encryptData_spec mode key counter data : bytes_ok key -> bytes_ok data ->
  outcome (encryptData mode key counter data)
    (enc_supported mode key && (zlen data mod Z.of_nat (mode_block mode) =? 0))
    (fun e => length e = length data /\ bytes_ok e).
Proof.
  intros Hk Hd. unfold encryptData. eapply outcome_bind; [by apply encryptBlock_spec|].
  intros blk _ [HL Hs]. rewrite Hs. destruct (_ =? 0) eqn:E; [|done]. cbn [negb].
  assert (Hm : (mode_block mode <= 16)%nat) by (unfold mode_block; destruct (mode =? _); lia).
  rewrite slice_ok by (unfold zlen, make_bytes; rewrite ?length_replicate; lia). cbn [rbind].
  split; [done|]. apply cbc_encrypt_length; [done | split | done |].
  - rewrite drop_0, length_take, Hs. unfold make_bytes. rewrite length_replicate. lia.
  - rewrite drop_0. auto with go.
  - rewrite Hs. by apply Z.eqb_eq.
Qed.

Lemma decrypt_encrypt_data mode key counter data e : mode <> 3 -> bytes_ok data ->
  encryptData mode key counter data = Ok e -> bytes_ok key -> decryptData mode key e = Ok data.
Proof.
  intros Hm Hd He Hk. pose proof (encryptData_spec mode key counter data Hk Hd) as Hs.
  rewrite He in Hs. destruct Hs as [_ [Hlen _]].
  unfold encryptData in He. apply rbind_ok_inv in He as (blk & Hb & He).
  pose proof (encryptBlock_des mode key Hm) as HE. pose proof (decryptBlock_spec mode key) as HD.
  unfold decryptData. destruct (decryptBlock mode key) as [blk'|?|?] eqn:Eb.
  2: { destruct HE as [? HE]. congruence. }
  2: { done. }
  rewrite Hb in HE. injection HE as ->. destruct HD as [_ [HL Hsz]].
  cbn [rbind]. rewrite Hsz in *. replace (zlen e) with (zlen data) by (unfold zlen; lia).
  destruct (zlen data mod Z.of_nat 8 =? 0) eqn:E; [|done]. cbn [negb] in *.
  rewrite slice_ok in He by (unfold zlen; simpl; lia). cbn [rbind] in He. injection He as <-.
  f_equal. change (take _ _) with (make_bytes 8). change (make_bytes (Z.of_nat 8)) with (make_bytes 8).
  apply cbc_roundtrip; [done | by split; [rewrite Hsz | apply (make_bytes_ok 8)] | done |].
  rewrite Hsz. by apply Z.eqb_eq.
Qed.

(** ** Lemmas: the packet *)

Lemma signatureLength_cases sp :
  signatureLength sp = if CertMode sp =? 1 then 4 else if CertMode sp =? 2 then 8 else 0.
Proof.
  unfold signatureLength, CertNone, CertRC, CertCC, CertDS.
  destruct (CertMode sp =? 0) eqn:E0; [apply Z.eqb_eq in E0; by rewrite E0|].
  destruct (CertMode sp =? 1); [done|]. destruct (CertMode sp =? 2); [done|]. by destruct (_ =? 3).
Qed.

Lemma signatureLength_range sp : 0 <= signatureLength sp <= 8.
Proof. rewrite signatureLength_cases. repeat case_match; lia. Qed.

Lemma cipherBlockSize_mode sp : cipherBlockSize sp = Z.of_nat (mode_block (KIcMode sp)).
Proof. unfold cipherBlockSize, mode_block. by destruct (_ =? _). Qed.

Lemma buildPadding_spec sp input : bytes_ok (UserData input) ->
  let '(p, c) := buildPadding sp input in
  p = UserData input ++ make_bytes c /\ is_byte c /\ bytes_ok p /\
  (Ciphered sp = true -> zlen p mod cipherBlockSize sp = 0).
Proof.
  intros Hu. unfold buildPadding. destruct (Ciphered sp).
  - pose proof (padData_spec (UserData input) (cipherBlockSize sp)) as Hp.
    assert (Hb : 0 < cipherBlockSize sp <= 16) by (unfold cipherBlockSize; destruct (_ =? _); lia).
    specialize (Hp ltac:(lia)). destruct (padData _ _) as [p c]. destruct Hp as (-> & Hc & Hm & _).
    split_and!; [done | unfold is_byte; lia | | done]. apply bytes_ok_app. auto with go.
  - rewrite app_nil_r. by split_and!.
Qed.

Lemma buildHeader_ok sp input c :
  input_ok input -> is_byte c -> word_ok 13 (buildHeader sp input c).
Proof.
  intros (HT & HC & HTo & HCo & _) Hc. unfold buildHeader.
  destruct (encodeSPI1_bits sp) as [? _], (encodeSPI2_bits sp) as [? _],
    (encodeKIc_bits sp) as [? _], (encodeKID_bits sp) as [? _]. split.
  - rewrite !length_app. simpl. lia.
  - unfold bytes_ok. rewrite !Forall_app, !Forall_cons, !Forall_nil. by split_and!.
Qed.

Lemma buildSignature_spec sp input header data :
  Provider input = None -> bytes_ok header -> bytes_ok data ->
  outcome (buildSignature sp input header data) (cert_supported sp input)
    (word_ok (Z.to_nat (signatureLength sp))).
Proof.
  intros Hp Hh Hd. unfold buildSignature, cert_supported. rewrite signatureLength_cases. cbv zeta.
  unfold CertNone, CertRC, CertCC, CertDS. rewrite Hp.
  destruct (CertMode sp =? 0) eqn:E0; [apply Z.eqb_eq in E0; rewrite E0; by repeat constructor|].
  destruct (CertMode sp =? 1) eqn:E1.
  - apply Z.eqb_eq in E1. rewrite E1. destruct (computeCRC_spec header data 4) as (crc & -> & Hw); [done..|].
    cbn [rbind]. split; [done|]. rewrite copy_all; [done|]. by rewrite (proj1 Hw).
  - destruct (CertMode sp =? 2) eqn:E2.
    + apply Z.eqb_eq in E2. rewrite E2. cbn [Z.eqb Pos.eqb].
      fold (mac_supported (KIDMode sp) (SigningKey input)).
      rewrite <- (andb_true_r (mac_supported _ _)).
      eapply outcome_bind; [apply outcome_wrap, computeMAC_spec; done|]. intros mac _ [Hl Ho].
      rewrite slice_ok by (unfold zlen; lia). cbn [rbind]. split; [done|].
      rewrite drop_0, take_ge by lia. by rewrite copy_all.
    + destruct (CertMode sp =? 3) eqn:E3; [done|]. repeat split. constructor.
Qed.

Lemma buildSecured_spec sp input sg data :
  Provider input = None -> input_ok input -> bytes_ok sg -> bytes_ok data ->
  zlen sg = signatureLength sp ->
  (Ciphered sp = true -> zlen data mod cipherBlockSize sp = 0) ->
  outcome (buildSecured sp input (sg ++ data)) (cipher_supported sp input)
    (fun e => length e = length (sg ++ data) /\ bytes_ok e).
Proof.
  intros Hp Hin Hs Hd Hl Hm. unfold buildSecured, cipher_supported. rewrite Hp.
  assert (Hsd : bytes_ok (sg ++ data)) by (by apply bytes_ok_app).
  destruct (Ciphered sp); [|done]. specialize (Hm eq_refl).
  eapply outcome_impl; [apply outcome_wrap, encryptData_spec; [apply Hin | done] | | done].
  rewrite <- cipherBlockSize_mode. unfold enc_supported. do 2 f_equal.
  assert (0 < cipherBlockSize sp) by (unfold cipherBlockSize; destruct (_ =? _); lia).
  rewrite zlen_app, Hl, Z.add_mod, Hm, Z.add_0_r, Zmod_mod by lia. done.
Qed.

(** Everything about a packet of the software path at once. *)
Lemma BuildCommandPacket_outcome sp input :
  Provider input = None -> input_ok input ->
  outcome (BuildCommandPacket sp input) (cert_supported sp input && cipher_supported sp input)
    (fun p => exists sg secured,
      let '(data, pcntr) := buildPadding sp input in
      let header := buildHeader sp input pcntr in
      let cpl := 1 + 13 + signatureLength sp + zlen data in
      buildSignature sp input header data = Ok sg /\
      buildSecured sp input (sg ++ data) = Ok secured /\
      word_ok (Z.to_nat (signatureLength sp)) sg /\
      length secured = length (sg ++ data) /\ bytes_ok secured /\
      p = [u8 (Z.shiftr cpl 8); u8 (Z.land cpl 255); 13 + signatureLength sp] ++ header ++ secured).
Proof.
  intros Hp Hin. unfold BuildCommandPacket. cbv zeta. pose proof (signatureLength_range sp) as Hr.
  assert (Hu : bytes_ok (UserData input)) by apply Hin.
  pose proof (buildPadding_spec sp input Hu) as Hpad. destruct (buildPadding sp input) as [data c].
  destruct Hpad as (Hdata & Hc & Hdo & Hm). pose proof (buildHeader_ok sp input c Hin Hc) as [Hhl Hho].
  eapply outcome_bind; [by apply buildSignature_spec|]. intros sg Hsg Hsw.
  assert (Hsl : zlen sg = signatureLength sp) by (unfold zlen; rewrite (proj1 Hsw); lia).
  rewrite <- (andb_true_r (cipher_supported _ _)).
  eapply outcome_bind; [apply buildSecured_spec; try done; apply Hsw|].
  intros e He [Hel Heo]. split; [done|]. exists sg, e. split_and!; try done; [apply Hsw..|].
  rewrite (u8_small (13 + signatureLength sp)) by lia. replace (zlen (buildHeader _ _ _)) with 13 by (unfold zlen; by rewrite Hhl).
  replace (zlen e) with (signatureLength sp + zlen data); [|unfold zlen in *; rewrite Hel, length_app; lia].
  rewrite !Z.add_assoc. done.
Qed.

Lemma be16_join z : 0 <= z < 65536 -> 256 * u8 (Z.shiftr z 8) + u8 (Z.land z 255) = z.
Proof.
  intros Hz. unfold u8. change 255 with (Z.ones 8).
  rewrite Z.land_ones, Z.shiftr_div_pow2 by lia. change (2 ^ 8) with 256.
  rewrite Zmod_mod. pose proof (Z.div_mod z 256).
  assert (0 <= z / 256 < 256) by (split; [apply Z.div_pos | apply Z.div_lt_upper_bound]; lia).
  rewrite (Z.mod_small (z / 256)) by lia. lia.
Qed.

Lemma header_shape sp input c :
  length (TAR input) = 3%nat -> length (Counter input) = 5%nat ->
  exists t0 t1 t2 n0 n1 n2 n3 n4,
    TAR input = [t0; t1; t2] /\ Counter input = [n0; n1; n2; n3; n4] /\
    buildHeader sp input c = [encodeSPI1 sp; encodeSPI2 sp; encodeKIc sp; encodeKID sp;
                              t0; t1; t2; n0; n1; n2; n3; n4; c].
Proof.
  intros HT HC. unfold buildHeader. destruct input as [tar cnt ? ? ? ? ?]. cbn [TAR Counter] in *.
  explode_list tar. explode_list cnt. repeat eexists.
Qed.

(** The signature the card recomputes is the one the builder wrote. *)
Lemma card_signature sp input header data sg :
  Provider input = None -> bytes_ok header -> bytes_ok data ->
  0 <= CertMode sp < 4 -> 0 <= KIDMode sp < 4 ->
  buildSignature sp input header data = Ok sg ->
  (if CertMode sp =? CertRC then computeCRC header data 4
   else if CertMode sp =? CertCC then computeMAC (KIDMode sp) (SigningKey input) header data
   else Ok []) = Ok sg.
Proof.
  intros Hp Hh Hd Hc Hk. unfold buildSignature. rewrite signatureLength_cases, Hp.
  unfold CertNone, CertRC, CertCC, CertDS. cbv zeta.
  destruct (CertMode sp =? 0) eqn:E0; [apply Z.eqb_eq in E0; rewrite E0; by injection 1 as <-|].
  destruct (CertMode sp =? 1) eqn:E1.
  - destruct (computeCRC_spec header data 4) as (crc & -> & Hw); [done..|].
    cbn [rbind]. injection 1 as <-. rewrite copy_all; [done|]. by rewrite (proj1 Hw).
  - destruct (CertMode sp =? 2) eqn:E2.
    + pose proof (computeMAC_spec (KIDMode sp) (SigningKey input) header data Hh Hd) as HM.
      destruct (computeMAC _ _ _ _) as [mac|?|?]; cbn [rwrap rbind]; [|done|done].
      destruct HM as [_ [Hl Ho]]. rewrite slice_ok by (unfold zlen; lia). cbn [rbind]. injection 1 as <-.
      f_equal. rewrite drop_0, take_ge by lia. by rewrite copy_all.
    + destruct (CertMode sp =? 3) eqn:E3; [done|]. lia.
Qed.

Definition card_modes_ok (sp : SecurityProfile) : bool :=
  (0 <=? CertMode sp) && (CertMode sp <? 4) && (0 <=? KIDMode sp) && (KIDMode sp <? 4) &&
  (0 <=? KIcMode sp) && (KIcMode sp <? 4) &&
  (negb (Ciphered sp) || (KIcMode sp <? 3)).

Lemma card_modes_inv sp : card_modes_ok sp = true ->
  0 <= CertMode sp < 4 /\ 0 <= KIDMode sp < 4 /\ 0 <= KIcMode sp < 4 /\
  (Ciphered sp = true -> KIcMode sp <> 3).
Proof. unfold card_modes_ok. destruct (Ciphered sp); simpl; intros; split_and!; intros; lia. Qed.

(** Header parameters.  The four parameter bytes carry every field of the security
    profile in its own bits: the card reads back certification, ciphering, counter and proof
    of receipt modes, algorithms, cipher modes and keyset numbers, each reduced to its field
    width, whatever bytes the profile holds. *)
Theorem header_parameters_recoverable sp :
  Forall is_byte [encodeSPI1 sp; encodeSPI2 sp; encodeKIc sp; encodeKID sp] /\
  (Z.land (encodeSPI1 sp) 3, Z.testbit (encodeSPI1 sp) 2, Z.land (Z.shiftr (encodeSPI1 sp) 3) 3)
    = (CertMode sp mod 4, Ciphered sp, CounterMode sp mod 4) /\
  (Z.land (encodeSPI2 sp) 3, Z.land (Z.shiftr (encodeSPI2 sp) 2) 3,
   Z.testbit (encodeSPI2 sp) 4, Z.land (Z.shiftr (encodeSPI2 sp) 5) 3)
    = (PoRMode sp mod 4, PoRCertMode sp mod 4, PoRCiphered sp, PoRProtocol sp mod 4) /\
  (Z.land (encodeKIc sp) 3, Z.land (Z.shiftr (encodeKIc sp) 2) 3, Z.land (Z.shiftr (encodeKIc sp) 4) 7)
    = (KIcAlgo sp mod 4, KIcMode sp mod 4, KIcKeysetID sp mod 8) /\
  (Z.land (encodeKID sp) 3, Z.land (Z.shiftr (encodeKID sp) 2) 3, Z.land (Z.shiftr (encodeKID sp) 4) 7)
    = (KIDAlgo sp mod 4, KIDMode sp mod 4, KIDKeysetID sp mod 8).
Proof.
  destruct (encodeSPI1_bits sp) as (? & -> & -> & ->), (encodeSPI2_bits sp) as (? & -> & -> & -> & ->),
    (encodeKIc_bits sp) as (? & -> & -> & ->), (encodeKID_bits sp) as (? & -> & -> & ->).
  split; [by rewrite !Forall_cons, Forall_nil | done].
Qed.

(** C39: outcome of the builder.  On the software path (no crypto provider)
    [BuildCommandPacket] never panics, and it succeeds exactly when the certification mode is
    not DS, a cryptographic checksum has a DES mode with enough key bytes, and a ciphered
    packet has a known mode, enough key bytes and a signature that fills whole cipher
    blocks. *)
Theorem command_packet_outcome sp input :
  Provider input = None -> input_ok input ->
  no_panic (BuildCommandPacket sp input) /\
  is_ok (BuildCommandPacket sp input) = cert_supported sp input && cipher_supported sp input.
Proof.
  intros Hp Hin. pose proof (BuildCommandPacket_outcome sp input Hp Hin) as H.
  split; [by eapply outcome_no_panic | by eapply outcome_is_ok].
Qed.

(** Packet layout.  A packet is CPL (two bytes, big endian, the number of bytes that
    follow, below 64 KiB), CHL = 13 + signature length, the 13-byte header with TAR, counter
    and padding count, then signature and padded data, ciphered in place; all elements are
    bytes. *)
Theorem command_packet_layout sp input p :
  Provider input = None -> input_ok input ->
  BuildCommandPacket sp input = Ok p -> zlen p < 65538 ->
  exists c0 c1 pcntr secured,
    p = c0 :: c1 :: (13 + signatureLength sp) :: buildHeader sp input pcntr ++ secured /\
    bytes_ok p /\ 256 * c0 + c1 = zlen p - 2 /\
    zlen secured = signatureLength sp + zlen (UserData input) + pcntr /\
    (Ciphered sp = true -> zlen secured mod cipherBlockSize sp = 0 /\ 0 <= pcntr <= cipherBlockSize sp) /\
    (Ciphered sp = false -> pcntr = 0).
Proof.
  intros Hp Hin Hb Hlen. pose proof (BuildCommandPacket_outcome sp input Hp Hin) as H.
  rewrite Hb in H. destruct H as [Hsup (sg & e & H)].
  pose proof (buildPadding_spec sp input ltac:(apply Hin)) as Hpad.
  pose proof (padData_spec (UserData input) (cipherBlockSize sp)) as Hpd.
  assert (Hbs : 0 < cipherBlockSize sp <= 16) by (unfold cipherBlockSize; destruct (_ =? _); lia).
  specialize (Hpd ltac:(lia)). unfold buildPadding in *.
  destruct (if Ciphered sp then _ else _) as [data c] eqn:Epad.
  destruct Hpad as (Hdata & Hc & Hdo & Hm), H as (Hsg & Hse & [Hsl Hso] & Hel & Heo & Hpk).
  pose proof (buildHeader_ok sp input c Hin Hc) as [Hhl Hho].
  pose proof (signatureLength_range sp) as Hr.
  assert (Hz : zlen e = signatureLength sp + zlen data)
    by (unfold zlen in *; rewrite Hel, length_app; lia).
  assert (Hcpl : 1 + 13 + signatureLength sp + zlen data = zlen p - 2).
  { rewrite Hpk, !zlen_app, Hz, !zlen_cons, zlen_nil.
    replace (zlen (buildHeader sp input c)) with 13 by (unfold zlen; by rewrite Hhl). lia. }
  eexists _, _, c, e. split; [exact Hpk|]. split_and!.
  - rewrite Hpk. apply bytes_ok_app. split; [|by apply bytes_ok_app].
    repeat (apply Forall_cons; split); [apply u8_is_byte | apply u8_is_byte | unfold is_byte; lia | done].
  - rewrite be16_join; [done|]. pose proof (zlen_nonneg data). lia.
  - rewrite Hz, Hdata, zlen_app, zlen_make_bytes by (unfold is_byte in Hc; lia). lia.
  - intros Hci. rewrite Hci in Epad. rewrite Epad in Hpd. split; [|by apply Hpd].
    rewrite Hz, <- Zplus_mod_idemp_r, Hm, Z.add_0_r by done.
    apply andb_true_iff in Hsup as [_ Hsup]. unfold cipher_supported in Hsup. rewrite Hci in Hsup. lia.
  - intros Hci. rewrite Hci in Epad. by injection Epad.
Qed.

(** The card's parsing of a packet of known shape. *)
Lemma card_unwrap_shape sp input c sg secured data :
  input_ok input -> card_modes_ok sp = true -> Provider input = None -> is_byte c ->
  buildSignature sp input (buildHeader sp input c) data = Ok sg ->
  buildSecured sp input (sg ++ data) = Ok secured ->
  word_ok (Z.to_nat (signatureLength sp)) sg -> bytes_ok data ->
  forall c0 c1, 256 * c0 + c1 = 14 + zlen secured ->
  card_unwrap (CipheringKey input) (SigningKey input)
    (c0 :: c1 :: (13 + signatureLength sp) :: buildHeader sp input c ++ secured)
  = Some (TAR input, Counter input, take (length data - Z.to_nat c) data).
Proof.
  intros Hin Hmod Hp Hc Hsg Hse [Hsl Hso] Hdo c0 c1 Hcpl.
  destruct (card_modes_inv sp Hmod) as (Hcm & Hkm & Hcim & Haes).
  pose proof (buildHeader_ok sp input c Hin Hc) as [Hhl Hho].
  pose proof (card_signature sp input _ _ _ Hp Hho Hdo Hcm Hkm Hsg) as Hcs.
  unfold card_unwrap. rewrite take_app_length', drop_app_length' by done.
  rewrite zlen_app. replace (zlen (buildHeader sp input c)) with 13 by (unfold zlen; by rewrite Hhl).
  rewrite (proj2 (Z.eqb_eq _ _)) by lia. cbn [negb].
  destruct (header_shape sp input c) as (t0 & t1 & t2 & n0 & n1 & n2 & n3 & n4 & HT & HN & Hh);
    [apply Hin | apply Hin |].
  rewrite Hh in Hcs |- *. cbv beta iota zeta.
  rewrite Z.shiftr_0_r. destruct (encodeSPI1_bits sp) as (_ & -> & -> & _).
  destruct (encodeKIc_bits sp) as (_ & _ & -> & _), (encodeKID_bits sp) as (_ & _ & -> & _).
  rewrite !(Z.mod_small _ 4) by lia.
  assert ((if Ciphered sp then decryptData (KIcMode sp) (CipheringKey input) secured else Ok secured)
          = Ok (sg ++ data)) as ->.
  { unfold buildSecured in Hse. rewrite Hp in Hse. destruct (Ciphered sp); [|by rewrite Hse].
    apply rwrap_ok_inv in Hse. eapply decrypt_encrypt_data; [by apply Haes | | exact Hse | apply Hin].
    by apply bytes_ok_app. }
  replace (13 + signatureLength sp - 13) with (signatureLength sp) by lia.
  rewrite take_app_length', drop_app_length' by done. rewrite Hcs.
  rewrite bool_decide_true by done. by rewrite HT, HN.
Qed.

(** The packet, unwrapped by the card. *)
Lemma BuildCommandPacket_unwraps sp input p :
  Provider input = None -> input_ok input -> card_modes_ok sp = true ->
  BuildCommandPacket sp input = Ok p -> zlen p < 65538 ->
  card_unwrap (CipheringKey input) (SigningKey input) p
  = Some (TAR input, Counter input, UserData input).
Proof.
  intros Hp Hin Hmod Hb Hlen. pose proof (BuildCommandPacket_outcome sp input Hp Hin) as H.
  rewrite Hb in H. destruct H as [_ (sg & e & H)].
  pose proof (buildPadding_spec sp input ltac:(apply Hin)) as Hpad.
  destruct (buildPadding sp input) as [data c].
  destruct Hpad as (Hdata & Hc & Hdo & Hm), H as (Hsg & Hse & Hsw & Hel & Heo & ->).
  pose proof (buildHeader_ok sp input c Hin Hc) as [Hhl _].
  pose proof (signatureLength_range sp) as Hr. pose proof (zlen_nonneg data).
  assert (Hz : zlen e = signatureLength sp + zlen data)
    by (unfold zlen in *; rewrite Hel, length_app, (proj1 Hsw); lia).
  assert (Hz13 : zlen (buildHeader sp input c) = 13) by (unfold zlen; by rewrite Hhl).
  autorewrite with zlen in Hlen. cbn [app].
  rewrite (card_unwrap_shape sp input c sg e data); try done.
  - do 2 f_equal. rewrite Hdata, take_app_length'; [done|].
    rewrite length_app. unfold make_bytes. rewrite length_replicate. lia.
  - rewrite be16_join; lia.
Qed.

(** C18: the card accepts what the builder sends.  Every packet of the software path
    (certification none, RC or CC; DES or triple-DES modes, ciphered or not) is unwrapped by a
    card that holds the same keys: the length fields match, deciphering inverts the
    ciphering, the recomputed checksum equals the one in the packet, and TAR, counter and
    exactly the user data come out, the padding removed. *)
Theorem command_packet_roundtrip sp input p :
  Provider input = None -> input_ok input -> card_modes_ok sp = true ->
  BuildCommandPacket sp input = Ok p -> zlen p < 65538 ->
  card_unwrap (CipheringKey input) (SigningKey input) p
  = Some (TAR input, Counter input, UserData input).
Proof. apply BuildCommandPacket_unwraps. Qed.

(** Ciphering.  [decryptData] undoes [encryptData] for single DES and for
    two- and three-key triple DES: the response path can read what the same
    key enciphered. *)
Theorem decryptData_inverts_encryptData mode key counter data :
  0 <= mode <= 2 -> keyLen mode <= zlen key -> bytes_ok key -> bytes_ok data ->
  zlen data mod 8 = 0 ->
  exists e, encryptData mode key counter data = Ok e /\ zlen e = zlen data /\
            decryptData mode key e = Ok data.
Proof.
  intros Hm Hl Hk Hd H8. pose proof (encryptData_spec mode key counter data Hk Hd) as H.
  assert (Hmb : mode_block mode = 8%nat) by (unfold mode_block, CipherAES_CBC; case_match; lia).
  rewrite Hmb in H. replace (_ && _) with true in H.
  - apply outcome_ok in H as (e & He & Hle & _). exists e. split_and!; [done | unfold zlen; lia |].
    eapply decrypt_encrypt_data; [lia | done..].
  - symmetry. unfold enc_supported. change (Z.of_nat 8) with 8. rewrite H8.
    repeat (apply andb_true_iff; split); lia.
Qed.

(** ** Response packets *)

Lemma index_nth (l : list Z) i : 0 <= i < zlen l -> index l i = Ok (nth (Z.to_nat i) l 0).
Proof.
  intros Hi. destruct (lookup_lt_is_Some_2 l (Z.to_nat i)) as [x Hx]; [unfold zlen in Hi; lia|].
  apply index_ok; [|lia]. by rewrite nth_lookup, Hx.
Qed.

Lemma nth_is_byte (l : list Z) i : bytes_ok l -> is_byte (nth i l 0).
Proof.
  intros Hl. unfold bytes_ok in Hl. rewrite Forall_forall in Hl. destruct (nth_in_or_default i l 0) as [Hin | ->].
  - by apply Hl, list_elem_of_In.
  - split; lia.
Qed.

Lemma be16_lor a b : is_byte a -> is_byte b -> Z.lor (Z.shiftl a 8) b = 256 * a + b.
Proof.
  unfold is_byte. intros Ha Hb. assert (Hl : Z.land (Z.shiftl a 8) b = 0).
  { rewrite <- (Z.mod_small b (2 ^ 8)) by lia. apply Z.bits_inj'. intros n Hn.
    rewrite Z.land_spec, Z.bits_0. destruct (decide (n < 8)).
    - by rewrite Z.shiftl_spec_low by lia.
    - rewrite Z.mod_pow2_bits_high by lia. apply andb_false_r. }
  rewrite <- Z.lxor_lor, <- Z.add_nocarry_lxor by done.
  rewrite Z.shiftl_mul_pow2 by lia. change (2 ^ 8) with 256. lia.
Qed.

(** Exactly the responses that parse: the fixed fields are there, RPL does not
    exceed what was received, the signature that RHL announces fits, and a
    ciphered body is deciphered by a known mode with enough key bytes. *)
Definition response_acceptable (sp : SecurityProfile) (raw key : list Z) : bool :=
  let rpl := 256 * nth 0 raw 0 + nth 1 raw 0 in
  let pos := 13 + Z.max 0 (nth 2 raw 0 - 10) in
  let dataLen := Z.max 0 (2 + rpl - pos) in
  (13 <=? zlen raw) && (2 + rpl <=? zlen raw) && (pos <=? zlen raw) &&
  (negb (PoRCiphered sp) || (dataLen =? 0) ||
   (mac_supported (KIcMode sp) key && (dataLen mod 8 =? 0))).

Lemma decryptData_spec mode key data :
  outcome (decryptData mode key data) (mac_supported mode key && (zlen data mod 8 =? 0)) (fun _ => True).
Proof.
  unfold decryptData. eapply outcome_bind; [apply decryptBlock_spec|]. intros blk _ [_ Hs].
  rewrite Hs. change (Z.of_nat 8) with 8. by destruct (_ =? 0).
Qed.

(** The parse after the fixed header, at the position behind the signature. *)
Definition responseBody (sp : SecurityProfile) (key raw : list Z) (pcntr pos dataEnd : Z) : res (list Z) :=
  let! data :=
    (if pos <? dataEnd then
       let! d := slice raw pos dataEnd in Ok (copy (make_bytes (dataEnd - pos)) d)
     else Ok []) in
  let! data :=
    (if PoRCiphered sp && (0 <? zlen data) then
       rwrap "gsm0348: decrypt response data: %w" (decryptData (KIcMode sp) key data)
     else Ok data) in
  (if (0 <? pcntr) && (pcntr <=? zlen data) then slice data 0 (zlen data - pcntr) else Ok data).

Lemma responseBody_spec sp key raw pcntr pos dataEnd :
  0 <= pos -> dataEnd <= zlen raw ->
  let n := Z.max 0 (dataEnd - pos) in
  outcome (responseBody sp key raw pcntr pos dataEnd)
    (negb (PoRCiphered sp) || (n =? 0) || (mac_supported (KIcMode sp) key && (n mod 8 =? 0)))
    (fun _ => True).
Proof.
  intros Hpos Hend n. unfold responseBody.
  set (get := if pos <? dataEnd then _ else _).
  assert (exists d, get = Ok d /\ zlen d = n) as (d & -> & Hd).
  { unfold get. destruct (pos <? dataEnd) eqn:E.
    - apply Z.ltb_lt in E. rewrite slice_ok by lia. eexists. split; [done|].
      unfold zlen. rewrite length_copy. unfold make_bytes. rewrite length_replicate. lia.
    - exists []. split; [done|]. unfold zlen. simpl. lia. }
  cbn [rbind].
  assert (Htrim : forall d' : list Z, outcome (if (0 <? pcntr) && (pcntr <=? zlen d') then slice d' 0 (zlen d' - pcntr) else Ok d')
                         true (fun _ => True)).
  { intros d'. destruct (_ && _) eqn:E; [|done]. rewrite slice_ok by lia. done. }
  destruct (PoRCiphered sp); cbn [negb andb orb]; [|apply Htrim].
  rewrite Hd. destruct (0 <? n) eqn:En.
  - rewrite (proj2 (Z.eqb_neq n 0)) by lia. cbn [orb]. rewrite <- Hd.
    rewrite <- (andb_true_r (mac_supported _ _ && _)).
    eapply outcome_bind; [apply outcome_wrap, decryptData_spec|]. intros; apply Htrim.
  - rewrite (proj2 (Z.eqb_eq n 0)) by lia. apply Htrim.
Qed.

(** The parse on a packet whose fixed fields are all there. *)
Lemma ParseResponsePacket_eq sp raw ck sk : bytes_ok raw -> 13 <= zlen raw ->
  let b i := nth i raw 0 in
  let rpl := 256 * b 0%nat + b 1%nat in
  let sigLen := Z.max 0 (b 2%nat - 10) in
  2 + rpl <= zlen raw -> 13 + sigLen <= zlen raw ->
  ParseResponsePacket sp raw ck sk =
  let! data := responseBody sp ck raw (b 11%nat) (13 + sigLen) (2 + rpl) in
  Ok {| resp_TAR := take 3 (drop 3 raw); resp_Counter := take 5 (drop 6 raw);
        resp_PCNTR := b 11%nat; resp_StatusCode := b 12%nat;
        resp_Signature := take (Z.to_nat sigLen) (drop 13 raw); resp_Data := data |}.
Proof.
  intros Hok H13 b rpl sigLen Hrpl Hsig. unfold ParseResponsePacket. cbv zeta.
  rewrite (proj2 (Z.ltb_ge (zlen raw) 2)), !index_nth by lia. cbn [rbind].
  rewrite be16_lor by (by apply nth_is_byte). change (Z.to_nat 0) with 0%nat. change (Z.to_nat 1) with 1%nat.
  fold (b 0%nat) (b 1%nat). fold rpl. rewrite (proj2 (Z.ltb_ge (zlen raw) (2 + rpl))) by lia.
  rewrite (proj2 (Z.leb_gt (zlen raw) 2)) by lia. cbn [rbind].
  rewrite (proj2 (Z.ltb_ge (zlen raw) (2 + 1 + 3))), slice_ok by lia. cbn [rbind].
  rewrite (proj2 (Z.ltb_ge (zlen raw) (2 + 1 + 3 + 5))), slice_ok by lia. cbn [rbind].
  rewrite (proj2 (Z.leb_gt (zlen raw) (2 + 1 + 3 + 5))) by lia. cbn [rbind].
  rewrite (proj2 (Z.leb_gt (zlen raw) (2 + 1 + 3 + 5 + 1))) by lia. cbn [rbind].
  replace (if nth (Z.to_nat 2) raw 0 - 10 <? 0 then 0 else nth (Z.to_nat 2) raw 0 - 10) with sigLen
    by (unfold sigLen, b; change (Z.to_nat 2) with 2%nat; destruct (_ <? _) eqn:?; lia).
  change (2 + 1 + 3 + 5 + 1 + 1) with 13.
  assert (Hs : (if 0 <? sigLen then
                  if zlen raw <? 13 + sigLen then Err (tooShort "signature")
                  else let! s := slice raw 13 (13 + sigLen) in Ok (copy (make_bytes sigLen) s, 13 + sigLen)
                else Ok ([], 13)) = Ok (take (Z.to_nat sigLen) (drop 13 raw), 13 + sigLen)).
  { destruct (0 <? sigLen) eqn:E.
    - rewrite (proj2 (Z.ltb_ge (zlen raw) (13 + sigLen))), slice_ok by lia. cbn [rbind].
      replace (13 + sigLen - 13) with sigLen by lia. change (Z.to_nat 13) with 13%nat.
      rewrite copy_all; [done|]. unfold make_bytes, zlen in *. rewrite length_replicate, length_take, length_drop. lia.
    - replace sigLen with 0 by lia. done. }
  rewrite Hs. cbn [rbind]. unfold responseBody. 
  assert (Hta : to_array 3 (take (Z.to_nat (2 + 1 + 3 - (2 + 1))) (drop (Z.to_nat (2 + 1)) raw)) = take 3 (drop 3 raw)).
  { apply to_array_id. unfold zlen in *. rewrite length_take, length_drop. lia. }
  assert (Hcn : to_array 5 (take (Z.to_nat (2 + 1 + 3 + 5 - (2 + 1 + 3))) (drop (Z.to_nat (2 + 1 + 3)) raw)) = take 5 (drop 6 raw)).
  { apply to_array_id. unfold zlen in *. rewrite length_take, length_drop. lia. }
  rewrite Hta, Hcn.
  destruct (if 13 + sigLen <? 2 + rpl then _ else _); cbn [rbind]; [|done|done].
  destruct (if PoRCiphered sp && _ then _ else _); cbn [rbind]; [|done|done].
  done.
Qed.

(** A response that misses a fixed field, or announces more than it has, is refused. *)
Lemma ParseResponsePacket_refused sp raw ck sk : bytes_ok raw ->
  zlen raw < 13 \/ zlen raw < 2 + (256 * nth 0 raw 0 + nth 1 raw 0) \/
  zlen raw < 13 + (nth 2 raw 0 - 10) ->
  exists e, ParseResponsePacket sp raw ck sk = Err e.
Proof.
  intros Hok Hbad. unfold ParseResponsePacket. cbv zeta.
  destruct (zlen raw <? 2) eqn:E2; [by eexists|]. apply Z.ltb_ge in E2.
  rewrite (index_nth raw 0), (index_nth raw 1) by lia. cbn [rbind].
  rewrite be16_lor by (by apply nth_is_byte). change (Z.to_nat 0) with 0%nat. change (Z.to_nat 1) with 1%nat.
  destruct (zlen raw <? 2 + _) eqn:Er; [by eexists|]. apply Z.ltb_ge in Er.
  destruct (zlen raw <=? 2) eqn:E3; [by eexists|]. apply Z.leb_gt in E3.
  rewrite (index_nth raw 2) by lia. cbn [rbind]. change (Z.to_nat 2) with 2%nat.
  destruct (zlen raw <? 2 + 1 + 3) eqn:E4; [by eexists|]. apply Z.ltb_ge in E4.
  rewrite slice_ok by lia. cbn [rbind].
  destruct (zlen raw <? 2 + 1 + 3 + 5) eqn:E5; [by eexists|]. apply Z.ltb_ge in E5.
  rewrite slice_ok by lia. cbn [rbind].
  destruct (zlen raw <=? 2 + 1 + 3 + 5) eqn:E6; [by eexists|]. apply Z.leb_gt in E6.
  rewrite index_nth by lia. cbn [rbind].
  destruct (zlen raw <=? 2 + 1 + 3 + 5 + 1) eqn:E7; [by eexists|]. apply Z.leb_gt in E7.
  rewrite index_nth by lia. cbn [rbind].
  destruct Hbad as [Hbad | [Hbad | Hbad]]; [lia | lia |].
  rewrite (proj2 (Z.ltb_ge (nth 2 raw 0 - 10) 0)), (proj2 (Z.ltb_lt 0 (nth 2 raw 0 - 10))) by lia.
  rewrite (proj2 (Z.ltb_lt (zlen raw) _)) by lia. by eexists.
Qed.

(** Parsing a response is total.  Whatever bytes arrive, with whatever key,
    [ParseResponsePacket] does not panic, and it succeeds exactly when the packet is
    acceptable: all fixed fields present, RPL and the announced signature within the received
    bytes, and a ciphered body that the DES family can decipher. *)
Theorem parse_response_total sp raw cipherKey signKey :
  bytes_ok raw ->
  no_panic (ParseResponsePacket sp raw cipherKey signKey) /\
  is_ok (ParseResponsePacket sp raw cipherKey signKey) = response_acceptable sp raw cipherKey.
Proof.
  intros Hok. unfold response_acceptable. cbv zeta.
  destruct (13 <=? zlen raw) eqn:E1; [destruct (2 + _ <=? zlen raw) eqn:E2; [destruct (13 + _ <=? zlen raw) eqn:E3|]|];
    cbn [andb].
  2-4: destruct (ParseResponsePacket_refused sp raw cipherKey signKey Hok) as [e ->]; [lia | done].
  rewrite ParseResponsePacket_eq by (done || lia).
  pose proof (responseBody_spec sp cipherKey raw (nth 11 raw 0) (13 + Z.max 0 (nth 2 raw 0 - 10))
                (2 + (256 * nth 0 raw 0 + nth 1 raw 0)) ltac:(lia) ltac:(lia)) as H. cbv zeta in H.
  destruct (responseBody _ _ _ _ _ _); cbn [rbind is_ok no_panic outcome] in *; [|by rewrite H|done].
  by destruct H as [-> _].
Qed.

Definition response_ok (r : ResponsePacket) : Prop :=
  length (resp_TAR r) = 3%nat /\ length (resp_Counter r) = 5%nat /\ zlen (resp_Signature r) <= 245 /\
  bytes_ok (resp_TAR r) /\ bytes_ok (resp_Counter r) /\ is_byte (resp_PCNTR r) /\
  is_byte (resp_StatusCode r) /\ bytes_ok (resp_Signature r).

#[global] Instance response_ok_dec r : Decision (response_ok r).
Proof. unfold response_ok. apply _. Defined.

Lemma responseBody_read sp key pre body pcntr :
  responseBody sp key (pre ++ body) pcntr (zlen pre) (zlen pre + zlen body) =
  let! data := (if PoRCiphered sp && (0 <? zlen body) then
       rwrap "gsm0348: decrypt response data: %w" (decryptData (KIcMode sp) key body)
     else Ok body) in
  (if (0 <? pcntr) && (pcntr <=? zlen data) then slice data 0 (zlen data - pcntr) else Ok data).
Proof.
  unfold responseBody. pose proof (zlen_nonneg pre).
  assert ((if zlen pre <? zlen pre + zlen body then
     let! d := slice (pre ++ body) (zlen pre) (zlen pre + zlen body) in
     Ok (copy (make_bytes (zlen pre + zlen body - zlen pre)) d) else Ok []) = Ok body) as ->; [|done].
  destruct (_ <? _) eqn:E.
  - rewrite slice_ok by (rewrite ?zlen_app; lia). cbn [rbind].
    replace (zlen pre + zlen body - zlen pre) with (zlen body) by lia.
    unfold zlen. rewrite !Nat2Z.id, drop_app_length, firstn_all, copy_all; [done|].
    unfold make_bytes. rewrite length_replicate. lia.
  - destruct body as [|x body]; [done|]. rewrite zlen_cons in E. pose proof (zlen_nonneg body). lia.
Qed.

(** The big-endian length field of a response. *)
Lemma two_byte_length n :
  0 <= n < 65536 ->
  256 * Z.shiftr n 8 + Z.land n 255 = n /\ is_byte (Z.shiftr n 8) /\ is_byte (Z.land n 255).
Proof.
  intros Hn. change 255 with (Z.ones 8). rewrite Z.land_ones, Z.shiftr_div_pow2 by lia.
  change (2 ^ 8) with 256. pose proof (Z.div_mod n 256). unfold is_byte.
  split; [lia|]. split; [|apply Z.mod_pos_bound; lia].
  split; [apply Z.div_pos | apply Z.div_lt_upper_bound]; lia.
Qed.

Lemma padding_stripped (data pad : list Z) pc :
  zlen pad = pc ->
  (if (0 <? pc) && (pc <=? zlen (data ++ pad)) then slice (data ++ pad) 0 (zlen (data ++ pad) - pc)
   else Ok (data ++ pad)) = Ok data.
Proof.
  intros <-. rewrite zlen_app. pose proof (zlen_nonneg data). pose proof (zlen_nonneg pad).
  destruct (0 <? zlen pad) eqn:E; cbn [andb].
  - rewrite (proj2 (Z.leb_le (zlen pad) _)) by lia. rewrite slice_ok by (rewrite ?zlen_app; lia).
    replace (Z.to_nat (zlen data + zlen pad - zlen pad - 0)) with (length data) by (unfold zlen; lia).
    by rewrite drop_0, take_app_length.
  - apply Z.ltb_ge in E. assert (pad = []) as -> by (apply length_zero_iff_nil; unfold zlen in *; lia).
    by rewrite app_nil_r.
Qed.

(** Response round trip.  A response that the card builds from a status code, a
    signature and a body -- the data and its padding, enciphered with the KIc key when the
    profile asks for a ciphered proof of receipt -- is parsed back to exactly the
    same fields and data. *)
Theorem parse_response_roundtrip sp r pad body cipherKey signKey counter :
  response_ok r -> zlen pad = resp_PCNTR r -> bytes_ok body ->
  (if PoRCiphered sp && (0 <? zlen body)
   then KIcMode sp <> CipherAES_CBC /\ bytes_ok (resp_Data r ++ pad) /\ bytes_ok cipherKey /\
        encryptData (KIcMode sp) cipherKey counter (resp_Data r ++ pad) = Ok body
   else body = resp_Data r ++ pad) ->
  11 + zlen (resp_Signature r) + zlen body < 65536 ->
  ParseResponsePacket sp (response_bytes r body) cipherKey signKey = Ok r.
Proof.
  intros (HT & HC & HS & HTo & HCo & Hpc & Hst & Hso) Hpad Hbo Hbody Hlen.
  destruct r as [tar cnt pc st sg data]. cbn [resp_TAR resp_Counter resp_PCNTR resp_StatusCode resp_Signature resp_Data] in *.
  explode_list tar. explode_list cnt. pose proof (zlen_nonneg sg). pose proof (zlen_nonneg body).
  unfold response_bytes. cbn [resp_TAR resp_Counter resp_PCNTR resp_StatusCode resp_Signature app].
  set (rpl := 1 + (10 + zlen sg) + zlen body).
  destruct (two_byte_length rpl) as (Hj & Hb1 & Hb2); [unfold rpl; lia|].
  rewrite ParseResponsePacket_eq; autorewrite with zlen; cbn [nth].
  - rewrite Hj. replace (Z.max 0 (10 + zlen sg - 10)) with (zlen sg) by lia.
    match goal with |- context [responseBody sp cipherKey ?l pc _ _] =>
      set (pre := take 13 l ++ sg); replace l with (pre ++ body)
        by (unfold pre; cbn [take app]; by rewrite <- !app_assoc) end.
    replace (13 + zlen sg) with (zlen pre) by (unfold pre; cbn [take]; rewrite zlen_app; reflexivity).
    replace (2 + rpl) with (zlen pre + zlen body)
      by (unfold pre, rpl; cbn [take]; rewrite zlen_app; autorewrite with zlen; lia).
    rewrite responseBody_read.
    assert ((if PoRCiphered sp && (0 <? zlen body) then
       rwrap "gsm0348: decrypt response data: %w" (decryptData (KIcMode sp) cipherKey body)
     else Ok body) = Ok (data ++ pad)) as ->.
    { destruct (PoRCiphered sp && (0 <? zlen body)); [|by rewrite Hbody].
      destruct Hbody as (Hne & Hdo & Hko & He).
      by rewrite (decrypt_encrypt_data (KIcMode sp) cipherKey counter (data ++ pad) body). }
    cbn [rbind]. rewrite (padding_stripped data pad pc) by done.
    cbn [rbind]. unfold pre. rewrite <- app_assoc. cbn [drop take app].
    rewrite drop_0, take_0. cbn [app]. rewrite take_app_length' by (unfold zlen; lia). done.
  - unfold bytes_ok in *. rewrite !Forall_cons, !Forall_app. unfold is_byte in *.
    rewrite !Forall_cons in HTo. rewrite !Forall_cons in HCo. split_and!; try tauto; lia.
  - lia.
  - rewrite Hj. unfold rpl. lia.
  - lia.
Qed.

(** ** Witnesses: a ciphered, checksummed packet for a card with two-key triple DES *)

Definition wit_profile : SecurityProfile := {|
  CertMode := CertCC; Ciphered := true; CounterMode := CounterReplayCheck;
  PoRMode := PoRAlways; PoRCertMode := CertNone; PoRCiphered := true; PoRProtocol := 0;
  KIcAlgo := 1; KIcMode := Cipher3DES_CBC_2Keys; KIcKeysetID := 1;
  KIDAlgo := 1; KIDMode := Cipher3DES_CBC_2Keys; KIDKeysetID := 1;
  SecurityBytesWithLengthsAndUDHL := false |}.

Definition wit_input : CommandPacketInput := {|
  TAR := [0xB0; 0x00; 0x10]; Counter := [0; 0; 0; 0; 7];
  CipheringKey := Z.of_nat <$> seq 1 16; SigningKey := Z.of_nat <$> seq 101 16;
  UserData := [0xA0; 0xA4; 0x00; 0x00; 0x02; 0x3F; 0x00];
  Provider := None; CardID := "card-1" |}.

Lemma wit_input_ok : input_ok wit_input.
Proof. apply (bool_decide_unpack _). vm_compute. exact I. Qed.

Definition wit_packet : list Z :=
  match BuildCommandPacket wit_profile wit_input with Ok p => p | _ => [] end.

Lemma command_packet_outcome_witness :
  no_panic (BuildCommandPacket wit_profile wit_input) /\
  is_ok (BuildCommandPacket wit_profile wit_input) = true.
Proof. exact (command_packet_outcome wit_profile wit_input eq_refl wit_input_ok). Defined.

Lemma command_packet_layout_witness :
  exists c0 c1 pcntr secured,
    wit_packet = c0 :: c1 :: 21 :: buildHeader wit_profile wit_input pcntr ++ secured /\
    256 * c0 + c1 = zlen wit_packet - 2 /\ zlen secured = 8 + 7 + pcntr.
Proof.
  destruct (command_packet_layout wit_profile wit_input wit_packet eq_refl wit_input_ok)
    as (c0 & c1 & c & e & H1 & _ & H2 & H3 & _); [vm_compute; reflexivity | vm_compute; reflexivity |].
  by exists c0, c1, c, e.
Defined.

Lemma command_packet_roundtrip_witness :
  card_unwrap (CipheringKey wit_input) (SigningKey wit_input) wit_packet
  = Some ([0xB0; 0x00; 0x10], [0; 0; 0; 0; 7], [0xA0; 0xA4; 0x00; 0x00; 0x02; 0x3F; 0x00]).
Proof.
  apply (command_packet_roundtrip wit_profile wit_input wit_packet eq_refl wit_input_ok eq_refl);
    vm_compute; reflexivity.
Defined.

Lemma decryptData_inverts_encryptData_witness :
  exists e, encryptData 2 (Z.of_nat <$> seq 1 24) [] [1; 2; 3; 4; 5; 6; 7; 8] = Ok e /\
            zlen e = 8 /\ decryptData 2 (Z.of_nat <$> seq 1 24) e = Ok [1; 2; 3; 4; 5; 6; 7; 8].
Proof.
  apply (decryptData_inverts_encryptData 2 (Z.of_nat <$> seq 1 24) [] [1; 2; 3; 4; 5; 6; 7; 8]);
    [lia | vm_compute; congruence | apply (bool_decide_unpack _); vm_compute; exact I
    | apply (bool_decide_unpack _); vm_compute; exact I | reflexivity].
Defined.

Lemma parse_response_total_witness :
  no_panic (ParseResponsePacket wit_profile [0; 10; 10; 176; 0; 16; 0; 0; 0; 0; 7; 0] [] []) /\
  is_ok (ParseResponsePacket wit_profile [0; 10; 10; 176; 0; 16; 0; 0; 0; 0; 7; 0] [] []) = false.
Proof.
  apply (parse_response_total wit_profile [0; 10; 10; 176; 0; 16; 0; 0; 0; 0; 7; 0] [] []).
  apply (bool_decide_unpack _). vm_compute. exact I.
Defined.

Definition wit_response : ResponsePacket := {|
  resp_TAR := [0xB0; 0x00; 0x10]; resp_Counter := [0; 0; 0; 0; 7]; resp_PCNTR := 5;
  resp_StatusCode := RespOK; resp_Signature := []; resp_Data := [0x02; 0x90; 0x00] |}.

Lemma parse_response_roundtrip_witness :
  exists body, encryptData Cipher3DES_CBC_2Keys (CipheringKey wit_input) []
                 [0x02; 0x90; 0x00; 0; 0; 0; 0; 0] = Ok body /\
    ParseResponsePacket wit_profile (response_bytes wit_response body) (CipheringKey wit_input) []
    = Ok wit_response.
Proof.
  eexists. split; [vm_compute; reflexivity|].
  apply (parse_response_roundtrip wit_profile wit_response [0; 0; 0; 0; 0] _ _ _ []);
    [apply (bool_decide_unpack _); vm_compute; exact I | reflexivity
    | apply (bool_decide_unpack _); vm_compute; exact I | | vm_compute; reflexivity].
  cbn [PoRCiphered wit_profile andb]. split_and!; [vm_compute; congruence | | | vm_compute; reflexivity];
    apply (bool_decide_unpack _); vm_compute; exact I.
Defined.
