(* ===== verification/SmsFrame.v ===== *)
(** * pkg/smsframe: SMS user data of secured packets

    [FrameOTASMS] and [SplitForConcat] frame a packet into the user data of one
    or several short messages; [ParseUDH] and [Reassembler.AddPart] undo it on
    the receiving side.  The random reference number of [SplitForConcat] is a
    parameter; the mutex of the reassembler makes its calls sequential, so its
    state is passed explicitly. *)

From S2P Require Import Prelude.

(** ** frame.go *)

Record ConcatInfo := { RefNum : Z; Total : Z; Part : Z }.

#[global] Instance ConcatInfo_eq_dec : EqDecision ConcatInfo.
Proof. solve_decision. Defined.

Definition FrameOTASMS (packet : list Z) (concat : option ConcatInfo) : list Z :=
  match concat with
  | None => [0x02; 0x70; 0x00] ++ packet
  | Some c => [0x07; 0x00; 0x03; RefNum c; Total c; Part c; 0x70; 0x00] ++ packet
  end.

(** The loop [for i := 0; i < totalParts; i++]: [n] iterations are left. *)
Fixpoint splitLoop (n : nat) (packet : list Z) (perPartCapacity totalParts refNum i offset : Z)
    : res (list (list Z)) :=
  match n with
  | O => Ok []
  | S n =>
      let end_ := offset + perPartCapacity in
      let end_ := if zlen packet <? end_ then zlen packet else end_ in
      let! chunk := slice packet offset end_ in
      let concat := {| RefNum := refNum; Total := u8 totalParts; Part := u8 (i + 1) |} in
      let framed := FrameOTASMS chunk (Some concat) in
      let! parts := splitLoop n packet perPartCapacity totalParts refNum (i + 1) end_ in
      Ok (framed :: parts)
  end.

(** [rnd] is the value of [rand.Intn(256)]. *)
Definition SplitForConcat (rnd : Z) (packet : list Z) (maxPartSize maxParts : Z)
    : res (list (list Z)) :=
  let singleUDHLen := 3 in
  let concatUDHLen := 8 in
  let singleCapacity := maxPartSize - singleUDHLen in
  if singleCapacity <=? 0 then
    Err (Errorf "maxPartSize %d is too small for even a single-part UDH" [ArgInt maxPartSize])
  else if zlen packet <=? singleCapacity then Ok [FrameOTASMS packet None]
  else
    let perPartCapacity := maxPartSize - concatUDHLen in
    if perPartCapacity <=? 0 then
      Err (Errorf "maxPartSize %d is too small for concatenated UDH" [ArgInt maxPartSize])
    else
      let totalParts := (zlen packet + perPartCapacity - 1) / perPartCapacity in
      if maxParts <? totalParts then
        Err (Errorf "packet requires %d parts but maximum is %d" [ArgInt totalParts; ArgInt maxParts])
      else if 255 <? totalParts then
        Err (Errorf "packet requires %d parts but maximum for concatenation is 255" [ArgInt totalParts])
      else
        let refNum := u8 rnd in
        splitLoop (Z.to_nat totalParts) packet perPartCapacity totalParts refNum 0 0.

(** ** reassemble.go *)

(** The loop over the information elements.  Each round moves [pos] by at
    least two, so [len(raw)] rounds are enough ([ParseUDH_no_panic]); running
    out of fuel is a panic of the model. *)
Fixpoint udhLoop (fuel : nat) (raw : list Z) (endUDH pos : Z) (concat : option ConcatInfo)
    : res (option ConcatInfo) :=
  match fuel with
  | O => Panic "out of fuel"
  | S fuel =>
      if negb (pos <? endUDH) then Ok concat
      else if endUDH <=? pos + 1 then Ok concat
      else
        let! iei := index raw pos in
        let! ieLen := index raw (pos + 1) in
        let pos := pos + 2 in
        if endUDH <? pos + ieLen then Ok concat
        else
          let! concat :=
            (if (iei =? 0x00) && (3 <=? ieLen) then
               let! ref := index raw pos in
               let! tot := index raw (pos + 1) in
               let! part := index raw (pos + 2) in
               Ok (Some {| RefNum := ref; Total := tot; Part := part |})
             else Ok concat) in
          udhLoop fuel raw endUDH (pos + ieLen) concat
  end.

Definition ParseUDH (raw : list Z) : res (Z * option ConcatInfo * list Z) :=
  if zlen raw =? 0 then Ok (0, None, raw)
  else
    let! udhLen := index raw 0 in
    if zlen raw <? udhLen + 1 then Ok (0, None, raw)
    else
      let! payload := slice raw (udhLen + 1) (zlen raw) in
      let endUDH := udhLen + 1 in
      let! concat := udhLoop (S (length raw)) raw endUDH 1 None in
      Ok (udhLen, concat, payload).

Record Reassembler := {
  parts : gmap string (gmap Z (list Z));
  total : gmap string Z
}.

Definition NewReassembler : Reassembler := {| parts := ∅; total := ∅ |}.

(** [string(rune(b))] for a byte: its UTF-8 encoding. *)
Definition byte_string (b : Z) : string := String (Ascii.ascii_of_N (Z.to_N b)) "".
Definition rune_string (b : Z) : string :=
  if b <? 128 then byte_string b
  else byte_string (Z.lor 0xC0 (Z.shiftr b 6)) +:+ byte_string (Z.lor 0x80 (Z.land b 0x3F)).

Definition partKey (msisdn : string) (ref : Z) : string := msisdn +:+ ":" +:+ rune_string ref.

(** [for i := byte(1); i <= totalParts; i++]: the counter is a byte, so
    [i++] wraps at 256.  [None]: the loop has not ended within the fuel. *)
Fixpoint lenLoop (fuel : nat) (m : gmap Z (list Z)) (i totalParts totalLen : Z) : option Z :=
  match fuel with
  | O => None
  | S fuel =>
      if i <=? totalParts
      then lenLoop fuel m (u8 (i + 1)) totalParts (totalLen + zlen (default [] (m !! i)))
      else Some totalLen
  end.

Fixpoint appendLoop (fuel : nat) (m : gmap Z (list Z)) (i totalParts : Z) (assembled : list Z)
    : option (list Z) :=
  match fuel with
  | O => None
  | S fuel =>
      if i <=? totalParts
      then appendLoop fuel m (u8 (i + 1)) totalParts (assembled ++ default [] (m !! i))
      else Some assembled
  end.

(** [None]: the call does not return within the fuel of its loops. *)
Definition AddPart (fuel : nat) (r : Reassembler) (msisdn : string) (raw : list Z)
    : res (option (Reassembler * (list Z * bool))) :=
  let! udh := ParseUDH raw in
  let '(_, concat, payload) := udh in
  match concat with
  | None => Ok (Some (r, (payload, true)))
  | Some concat =>
      let key := partKey msisdn (RefNum concat) in
      let r := match parts r !! key with
               | Some _ => r
               | None => {| parts := <[key := ∅]> (parts r); total := <[key := Total concat]> (total r) |}
               end in
      let partData := copy (make_bytes (zlen payload)) payload in
      let m := <[Part concat := partData]> (default ∅ (parts r !! key)) in
      let r := {| parts := <[key := m]> (parts r); total := total r |} in
      let totalParts := default 0 (total r !! key) in
      if u8 (Z.of_nat (size m)) <? totalParts then Ok (Some (r, ([], false)))
      else
        match lenLoop fuel m 1 totalParts 0 with
        | None => Ok None
        | Some _ =>
            match appendLoop fuel m 1 totalParts [] with
            | None => Ok None
            | Some assembled =>
                Ok (Some ({| parts := delete key (parts r); total := delete key (total r) |},
                          (assembled, true)))
            end
        end
  end.

(** A sequence of calls; each loop counts at most 255 parts, so 256 rounds are
    enough for every call that returns ([AddPart_fuel_enough]). *)
Definition loopFuel : nat := 256.

Fixpoint AddParts (r : Reassembler) (msisdn : string) (raws : list (list Z))
    : res (option (Reassembler * list (list Z * bool))) :=
  match raws with
  | [] => Ok (Some (r, []))
  | raw :: raws =>
      let! o := AddPart loopFuel r msisdn raw in
      match o with
      | None => Ok None
      | Some (r, out) =>
          let! o := AddParts r msisdn raws in
          Ok (match o with None => None | Some (r, outs) => Some (r, out :: outs) end)
      end
  end.

(** ** Lemmas: framing and splitting *)

(** The chunks with their part numbers, counted from [i]. *)
Fixpoint numbered (i : Z) (cs : list (list Z)) : list (Z * list Z) :=
  match cs with
  | [] => []
  | c :: cs => (i, c) :: numbered (i + 1) cs
  end.

Definition part_frame (ref tot : Z) (ic : Z * list Z) : list Z :=
  FrameOTASMS (snd ic) (Some {| RefNum := ref; Total := tot; Part := fst ic |}).

Lemma numbered_fst i cs : fst <$> numbered i cs = seqZ i (zlen cs).
Proof.
  revert i. induction cs as [|c cs IH]; intros i; [done|].
  cbn [numbered]. rewrite fmap_cons, IH, zlen_cons. cbn [fst].
  rewrite (seqZ_cons i (1 + zlen cs)) by (pose proof (zlen_nonneg cs); lia).
  f_equal. f_equal; lia.
Qed.

Lemma numbered_snd i cs : snd <$> numbered i cs = cs.
Proof. revert i. induction cs as [|c cs IH]; intros i; [done|]. cbn [numbered]. rewrite fmap_cons, IH. done. Qed.

Lemma numbered_NoDup i cs : NoDup (fst <$> numbered i cs).
Proof. rewrite numbered_fst. apply NoDup_seqZ. Qed.

Lemma length_numbered i cs : length (numbered i cs) = length cs.
Proof. rewrite <- (numbered_snd i cs) at 2. by rewrite length_fmap. Qed.

Lemma splitLoop_spec cap packet tot ref i off :
  0 < cap -> 0 <= off <= zlen packet -> 0 <= i ->
  let cs := chunks (Z.to_nat cap) (drop (Z.to_nat off) packet) in
  i + zlen cs < 256 ->
  splitLoop (length cs) packet cap tot ref i off
  = Ok (part_frame ref (u8 tot) <$> numbered (i + 1) cs).
Proof.
  intros Hcap Hoff Hi cs. unfold cs. clear cs. remember (drop (Z.to_nat off) packet) as l eqn:El.
  revert i off Hoff Hi El. drop_induction (Z.to_nat cap) l; intros i off Hoff Hi El Hn.
  - done.
  - rewrite chunks_cons in * by (done || lia). cbn [length splitLoop numbered]. rewrite zlen_cons in Hn.
    assert (Hl : zlen l = zlen packet - off).
    { unfold zlen in *. rewrite El, length_drop. lia. }
    assert (Hpos : 0 < zlen l) by (destruct l; [done | unfold zlen; simpl; lia]).
    set (e := if zlen packet <? off + cap then _ else _).
    assert (He : e = Z.min (zlen packet) (off + cap)) by (unfold e; destruct (_ <? _) eqn:?; lia).
    rewrite slice_ok by lia. cbn [rbind]. rewrite IH; [|lia|lia| |lia].
    + cbn [rbind]. rewrite fmap_cons. unfold part_frame at 2. cbn [fst snd].
      pose proof (zlen_nonneg (chunks (Z.to_nat cap) (drop (Z.to_nat cap) l))).
      rewrite (u8_small (i + 1)) by lia. rewrite <- El. do 3 f_equal.
      destruct (decide (cap <= zlen l)); [f_equal; lia|].
      rewrite !take_ge; [done | unfold zlen in *; lia..].
    + rewrite El, drop_drop. destruct (decide (cap <= zlen l)); [f_equal; lia|].
      rewrite !drop_ge; [done | unfold zlen in *; lia..].
Qed.

(** How many parts a packet needs. *)
Definition parts_needed (packet : list Z) (maxPartSize : Z) : Z :=
  (zlen packet + (maxPartSize - 8) - 1) / (maxPartSize - 8).

Definition split_ok (packet : list Z) (maxPartSize maxParts : Z) : bool :=
  (3 <? maxPartSize) &&
  ((zlen packet <=? maxPartSize - 3) ||
   ((8 <? maxPartSize) && (parts_needed packet maxPartSize <=? maxParts) &&
    (parts_needed packet maxPartSize <=? 255))).

Lemma SplitForConcat_spec rnd packet maxPartSize maxParts :
  let cs := chunks (Z.to_nat (maxPartSize - 8)) packet in
  outcome (SplitForConcat rnd packet maxPartSize maxParts) (split_ok packet maxPartSize maxParts)
    (fun ps => if zlen packet <=? maxPartSize - 3 then ps = [FrameOTASMS packet None]
               else 8 < maxPartSize /\ 0 < zlen cs <= 255 /\ zlen cs <= maxParts /\
                    ps = part_frame (u8 rnd) (zlen cs) <$> numbered 1 cs).
Proof.
  intros cs. unfold SplitForConcat, split_ok. cbv zeta.
  destruct (maxPartSize - 3 <=? 0) eqn:E0.
  { replace (3 <? maxPartSize) with false by lia. done. }
  replace (3 <? maxPartSize) with true by lia. cbn [andb].
  destruct (zlen packet <=? maxPartSize - 3) eqn:E1; [done|]. cbn [orb].
  destruct (maxPartSize - 8 <=? 0) eqn:E2.
  { replace (8 <? maxPartSize) with false by lia. done. }
  replace (8 <? maxPartSize) with true by lia. cbn [andb]. fold (parts_needed packet maxPartSize).
  assert (Hn : zlen cs = parts_needed packet maxPartSize).
  { unfold cs, parts_needed. unfold zlen at 1. rewrite length_chunks by lia. by rewrite Z2Nat.id by lia. }
  rewrite <- Hn. destruct (maxParts <? zlen cs) eqn:E3.
  { replace (zlen cs <=? maxParts) with false by lia. done. }
  replace (zlen cs <=? maxParts) with true by lia. cbn [andb].
  destruct (255 <? zlen cs) eqn:E4.
  { replace (zlen cs <=? 255) with false by lia. done. }
  replace (zlen cs <=? 255) with true by lia.
  assert (Hcs : 0 < zlen cs).
  { pose proof (zlen_nonneg packet). rewrite Hn. apply Z.div_str_pos. lia. }
  replace (Z.to_nat (zlen cs)) with (length cs) by (unfold zlen; lia).
  pose proof (splitLoop_spec (maxPartSize - 8) packet (zlen cs) (u8 rnd) 0 0) as HS. cbv zeta in HS.
  change (drop (Z.to_nat 0) packet) with packet in HS. fold cs in HS.
  rewrite HS; [|lia | pose proof (zlen_nonneg packet); lia | lia | lia].
  rewrite (u8_small (zlen cs)) by lia. split; [done|]. split_and!; [lia | lia | lia | lia | done].
Qed.

(** ** Lemmas: parsing the header *)

Lemma udhLoop_no_panic fuel raw endUDH pos c :
  bytes_ok raw -> 0 <= pos <= endUDH -> endUDH <= zlen raw -> endUDH < pos + Z.of_nat fuel ->
  no_panic (udhLoop fuel raw endUDH pos c).
Proof.
  intros Hok. revert pos c. induction fuel as [|fuel IH]; intros pos c Hpos Hend Hf; cbn [udhLoop].
  - lia.
  - destruct (pos <? endUDH) eqn:E1; [|done]. destruct (endUDH <=? pos + 1) eqn:E2; [done|]. cbn [negb].
    apply no_panic_bind; [apply index_no_panic; lia|]. intros iei _.
    apply no_panic_bind; [apply index_no_panic; lia|]. intros ieLen Hie.
    assert (is_byte ieLen) as Hb.
    { unfold index in Hie. destruct (0 <=? pos + 1); [|done]. destruct (raw !! _) as [x|] eqn:Ex; [|done].
      injection Hie as ->. unfold bytes_ok in Hok. rewrite Forall_forall in Hok.
      eapply Hok, list_elem_of_lookup_2, Ex. }
    unfold is_byte in Hb. destruct (endUDH <? pos + 2 + ieLen) eqn:E3; [done|].
    apply no_panic_bind.
    + destruct (_ && _) eqn:E4; [|done].
      repeat (apply no_panic_bind; [apply index_no_panic; lia|]; intros ? _). done.
    + intros c' _. apply IH; lia.
Qed.

Lemma ParseUDH_total raw : bytes_ok raw -> no_panic (ParseUDH raw).
Proof.
  intros Hok. unfold ParseUDH. destruct (zlen raw =? 0) eqn:E0; [done|].
  pose proof (zlen_nonneg raw). apply no_panic_bind; [apply index_no_panic; lia|]. intros u Hu.
  assert (is_byte u) as Hb.
  { destruct raw; [done|]. injection Hu as ->. by inversion Hok. }
  unfold is_byte in Hb. destruct (zlen raw <? u + 1) eqn:E1; [done|].
  rewrite slice_ok by lia. cbn [rbind].
  apply no_panic_bind; [|done]. apply udhLoop_no_panic; [done | lia | lia |]. unfold zlen in *. lia.
Qed.

Lemma drop_hdr {A} (h c : list A) n : n = length h -> take (length c) (drop n (h ++ c)) = c.
Proof. intros ->. by rewrite drop_app_length, firstn_all. Qed.

Lemma ParseUDH_single c : ParseUDH (FrameOTASMS c None) = Ok (2, None, c).
Proof.
  unfold ParseUDH, FrameOTASMS. set (h := [2; 112; 0]). pose proof (zlen_nonneg c).
  assert (Hz : zlen (h ++ c) = 3 + zlen c) by (by rewrite zlen_app).
  rewrite Hz, (proj2 (Z.eqb_neq _ _)) by lia. change (index (h ++ c) 0) with (Ok 2 : res Z). cbn [rbind].
  rewrite (proj2 (Z.ltb_ge _ _)), slice_ok by (rewrite ?Hz; lia). cbn [rbind].
  change (udhLoop (S (length (h ++ c))) (h ++ c) (2 + 1) 1 None) with (Ok None : res (option ConcatInfo)).
  cbn [rbind]. do 2 f_equal. replace (Z.to_nat (3 + zlen c - (2 + 1))) with (length c) by (unfold zlen; lia).
  by apply drop_hdr.
Qed.

Lemma ParseUDH_part ref tot ic :
  ParseUDH (part_frame ref tot ic)
  = Ok (7, Some {| RefNum := ref; Total := tot; Part := fst ic |}, snd ic).
Proof.
  destruct ic as [i c]. unfold ParseUDH, part_frame, FrameOTASMS. cbn [RefNum Total Part fst snd].
  set (h := [7; 0; 3; ref; tot; i; 112; 0]). pose proof (zlen_nonneg c).
  assert (Hz : zlen (h ++ c) = 8 + zlen c) by (by rewrite zlen_app).
  rewrite Hz, (proj2 (Z.eqb_neq _ _)) by lia. change (index (h ++ c) 0) with (Ok 7 : res Z). cbn [rbind].
  rewrite (proj2 (Z.ltb_ge _ _)), slice_ok by (rewrite ?Hz; lia). cbn [rbind].
  change (udhLoop (S (length (h ++ c))) (h ++ c) (7 + 1) 1 None)
    with (Ok (Some {| RefNum := ref; Total := tot; Part := i |})).
  cbn [rbind]. do 2 f_equal. replace (Z.to_nat (8 + zlen c - (7 + 1))) with (length c) by (unfold zlen; lia).
  by apply drop_hdr.
Qed.

(** ** Lemmas: the byte-counter loops *)

Section Loops.
Context (m : gmap Z (list Z)) (tot : Z).

Lemma lenLoop_some fuel i acc :
  1 <= i <= tot + 1 -> tot < 255 -> tot - i + 1 < Z.of_nat fuel ->
  is_Some (lenLoop fuel m i tot acc).
Proof.
  revert i acc. induction fuel as [|fuel IH]; intros i acc Hi Ht Hf; [lia|]. cbn [lenLoop].
  destruct (i <=? tot) eqn:E; [|by eexists]. rewrite u8_small by lia. apply IH; lia.
Qed.

Lemma appendLoop_spec fuel i acc :
  1 <= i <= tot + 1 -> tot < 255 -> tot - i + 1 < Z.of_nat fuel ->
  appendLoop fuel m i tot acc
  = Some (acc ++ concat ((fun j => default [] (m !! j)) <$> seqZ i (tot - i + 1))).
Proof.
  revert i acc. induction fuel as [|fuel IH]; intros i acc Hi Ht Hf; [lia|]. cbn [appendLoop].
  destruct (i <=? tot) eqn:E.
  - rewrite u8_small, IH by lia. rewrite (seqZ_cons i) by lia. rewrite fmap_cons. cbn [concat].
    rewrite <- app_assoc. replace (tot - (i + 1) + 1) with (Z.pred (tot - i + 1)) by lia. done.
  - rewrite seqZ_nil by lia. cbn. by rewrite app_nil_r.
Qed.

(** With 255 parts announced the counter wraps before it exceeds the bound. *)
Lemma lenLoop_diverges fuel i acc : 0 <= i < 256 -> tot = 255 -> lenLoop fuel m i tot acc = None.
Proof.
  revert i acc. induction fuel as [|fuel IH]; intros i acc Hi ->; [done|]. cbn [lenLoop].
  rewrite (proj2 (Z.leb_le _ _)) by lia. apply IH; [apply u8_range | done].
Qed.

End Loops.

(** What the two loops produce from the stored parts. *)
Definition gather (m : gmap Z (list Z)) (n : Z) : list Z :=
  concat ((fun j => default [] (m !! j)) <$> seqZ 1 n).

Lemma gather_numbered cs (L : list (Z * list Z)) :
  L ≡ₚ numbered 1 cs -> gather (list_to_map L) (zlen cs) = concat cs.
Proof.
  intros HP. assert (HN : NoDup L.*1) by (rewrite HP; apply numbered_NoDup).
  rewrite (list_to_map_proper L _ HN HP). unfold gather. rewrite <- (numbered_fst 1 cs).
  transitivity (concat (numbered 1 cs).*2); [|by rewrite numbered_snd].
  rewrite <- list_fmap_compose. f_equal.
  apply list_fmap_ext. intros k [i c] Hk. cbn [compose fst snd].
  erewrite elem_of_list_to_map_1; [done | apply numbered_NoDup | by eapply list_elem_of_lookup_2].
Qed.

(** ** Lemmas: the reassembler *)

(** The two maps always have the same keys. *)
Definition reass_wf (r : Reassembler) : Prop := dom (parts r) = dom (total r).

Lemma copy_payload (p : list Z) : copy (make_bytes (zlen p)) p = p.
Proof. apply copy_all. unfold make_bytes, zlen. rewrite length_replicate. lia. Qed.

Section Run.
Context (r0 : Reassembler) (msisdn : string) (ref n : Z).
Hypothesis Hfresh_p : parts r0 !! partKey msisdn ref = None.
Hypothesis Hfresh_t : total r0 !! partKey msisdn ref = None.
Hypothesis Hn : 0 < n < 256.

(** The state after the parts [got] of the message have arrived. *)
Definition partial_state (got : list (Z * list Z)) : Reassembler :=
  match got with
  | [] => r0
  | _ => {| parts := <[partKey msisdn ref := list_to_map got]> (parts r0);
            total := <[partKey msisdn ref := n]> (total r0) |}
  end.

Lemma AddPart_store fuel got ic :
  NoDup (ic :: got).*1 -> zlen got + 1 <= n ->
  AddPart fuel (partial_state got) msisdn (part_frame ref n ic) =
  if zlen got + 1 <? n then Ok (Some (partial_state (ic :: got), ([], false)))
  else let m := list_to_map (ic :: got) in
       Ok (match lenLoop fuel m 1 n 0, appendLoop fuel m 1 n [] with
           | Some _, Some a => Some (r0, (a, true))
           | _, _ => None
           end).
Proof.
  intros HN Hd. unfold AddPart. rewrite ParseUDH_part. cbn [rbind]. cbn [RefNum Total Part].
  set (key := partKey msisdn ref) in *.
  set (r1 := match parts (partial_state got) !! key with Some _ => _ | None => _ end).
  assert (Hr1 : r1 = {| parts := <[key := list_to_map got]> (parts r0); total := <[key := n]> (total r0) |}).
  { unfold r1, partial_state. destruct got as [|d got]; cbn [parts total].
    - by rewrite Hfresh_p.
    - by rewrite lookup_insert_eq. }
  rewrite Hr1. cbn [parts total]. rewrite !lookup_insert_eq, !insert_insert_eq. cbn [default]. unfold id.
  rewrite copy_payload.
  replace (<[fst ic := snd ic]> (list_to_map got : gmap Z (list Z)))
    with (list_to_map (ic :: got) : gmap Z (list Z)) by (by destruct ic).
  assert (Hsz : size (list_to_map (ic :: got) : gmap Z (list Z)) = length (ic :: got))
    by (by apply map_size_list_to_map).
  cbn [fst snd] in *. rewrite Hsz. rewrite u8_small by (cbn [length]; unfold zlen in *; lia).
  replace (Z.of_nat (length (ic :: got))) with (zlen got + 1) by (unfold zlen; cbn [length]; lia).
  destruct (zlen got + 1 <? n) eqn:E; [done|].
  rewrite !delete_insert_id by done. cbv zeta.
  destruct (lenLoop _ _ _ _ _); [|done]. destruct (appendLoop _ _ _ _ _); [|done]. by destruct r0.
Qed.

Lemma AddPart_step got ic :
  n < 255 -> NoDup (ic :: got).*1 -> zlen got + 1 <= n ->
  AddPart loopFuel (partial_state got) msisdn (part_frame ref n ic) =
  Ok (Some (if zlen got + 1 <? n then (partial_state (ic :: got), ([], false))
            else (r0, (gather (list_to_map (ic :: got)) n, true)))).
Proof.
  intros Hlt HN Hd. rewrite AddPart_store by done. destruct (_ <? n) eqn:E; [done|]. cbv zeta.
  destruct (lenLoop_some (list_to_map (ic :: got)) n loopFuel 1 0) as [x ->];
    [lia | lia | unfold loopFuel; lia |].
  rewrite appendLoop_spec by (unfold loopFuel; lia). cbn [app].
  unfold gather. by replace (n - 1 + 1) with n by lia.
Qed.

(** All parts but the last are stored, whatever the number of parts. *)
Lemma AddParts_partial todo got :
  NoDup (reverse todo ++ got).*1 -> zlen got + zlen todo < n ->
  AddParts (partial_state got) msisdn (part_frame ref n <$> todo) =
  Ok (Some (partial_state (reverse todo ++ got), replicate (length todo) ([], false))).
Proof.
  revert got. induction todo as [|ic todo IH]; intros got HN Hlen; [done|].
  rewrite fmap_cons. cbn [AddParts]. rewrite zlen_cons in Hlen.
  rewrite reverse_cons, <- app_assoc in HN |- *. cbn [app] in *. pose proof (zlen_nonneg todo).
  assert (NoDup (ic :: got).*1) by (rewrite fmap_app, NoDup_app in HN; apply HN).
  rewrite AddPart_store by (done || lia). rewrite (proj2 (Z.ltb_lt _ _)) by lia. cbn [rbind].
  rewrite IH by (done || rewrite zlen_cons; lia). done.
Qed.

Lemma AddParts_run todo got :
  n < 255 -> NoDup (reverse todo ++ got).*1 -> zlen got + zlen todo = n -> todo <> [] ->
  AddParts (partial_state got) msisdn (part_frame ref n <$> todo) =
  Ok (Some (r0, replicate (length todo - 1) ([], false)
                  ++ [(gather (list_to_map (reverse todo ++ got)) n, true)])).
Proof.
  revert got. induction todo as [|ic todo IH]; intros got Hlt HN Hlen Hne; [done|].
  rewrite fmap_cons. cbn [AddParts]. rewrite zlen_cons in Hlen.
  rewrite reverse_cons, <- app_assoc in HN |- *. cbn [app] in *.
  assert (NoDup (ic :: got).*1) by (rewrite fmap_app, NoDup_app in HN; apply HN).
  pose proof (zlen_nonneg todo). rewrite AddPart_step by (done || lia). cbn [rbind].
  destruct (zlen got + 1 <? n) eqn:E.
  - rewrite IH; [| done | done | rewrite zlen_cons; lia | intros ->; rewrite zlen_nil in *; lia].
    cbn [rbind]. cbn [length]. destruct todo as [|jc todo]; [rewrite zlen_nil in *; lia|].
    cbn [length]. rewrite !Nat.sub_succ, !Nat.sub_0_r. done.
  - destruct todo as [|jc todo]; [|rewrite zlen_cons in *; pose proof (zlen_nonneg todo); lia]. done.
Qed.

End Run.

(** ** Lemmas: keys *)

(** The last byte of a string; it tells one-byte runes from two-byte ones. *)
Fixpoint last_byte (s : string) : option Z :=
  match s with
  | EmptyString => None
  | String a EmptyString => Some (Z.of_N (Ascii.N_of_ascii a))
  | String _ s => last_byte s
  end.

Lemma last_byte_app s a t : last_byte (s +:+ String a t) = last_byte (String a t).
Proof.
  induction s as [|b s IH]; [done|]. cbn [String.append].
  change (last_byte (String b (s +:+ String a t)))
    with (match s +:+ String a t with EmptyString => Some (Z.of_N (Ascii.N_of_ascii b)) | u => last_byte u end).
  rewrite <- IH. by destruct s.
Qed.

Definition rune_ok (b : Z) : bool :=
  let s := ":" +:+ rune_string b in
  match last_byte s with
  | Some l => if b <? 128 then (l =? b) && (String.length s =? 2)%nat
              else (128 <=? l) && (String.length s =? 3)%nat
  | None => false
  end.

Lemma rune_string_props b : is_byte b -> rune_ok b = true.
Proof. revert b. apply (bounded_cases 256). apply (bool_decide_unpack _). vm_compute. exact I. Qed.

(** The byte a rune of one or two bytes stands for. *)
Definition rune_value (s : string) : Z :=
  let v a := Z.of_N (Ascii.N_of_ascii a) in
  match s with
  | String a EmptyString => v a
  | String a (String c EmptyString) => 64 * (v a - 0xC0) + (v c - 0x80)
  | _ => 0
  end.

Lemma rune_value_string b : is_byte b -> rune_value (rune_string b) = b.
Proof. revert b. apply (bounded_cases 256). apply (bool_decide_unpack _). vm_compute. exact I. Qed.

Lemma partKey_inj msisdn ref msisdn' ref' :
  is_byte ref -> is_byte ref' -> partKey msisdn ref = partKey msisdn' ref' ->
  msisdn = msisdn' /\ ref = ref'.
Proof.
  intros Hr Hr' Heq. pose proof (rune_string_props ref Hr) as H1. pose proof (rune_string_props ref' Hr') as H2.
  assert (Hlast : last_byte (":" +:+ rune_string ref) = last_byte (":" +:+ rune_string ref')).
  { transitivity (last_byte (partKey msisdn ref)); [symmetry; apply last_byte_app|].
    rewrite Heq. apply last_byte_app. }
  unfold rune_ok in H1, H2. rewrite Hlast in H1. destruct (last_byte _) as [l|]; [|done].
  assert (Hl : String.length (":" +:+ rune_string ref) = String.length (":" +:+ rune_string ref')).
  { destruct (ref <? 128) eqn:?, (ref' <? 128) eqn:?; rewrite ?andb_true_iff, ?Nat.eqb_eq in *; unfold is_byte in *; lia. }
  destruct (string_app_inj_length _ _ _ _ Hl Heq) as [-> Hk]. split; [done|].
  rewrite <- (rune_value_string ref), <- (rune_value_string ref') by done. injection Hk as Hk. by f_equal.
Qed.

(** ** Properties *)

(** The payload a receiver reads from one short message. *)
Definition sms_payload (sms : list Z) : list Z :=
  match ParseUDH sms with Ok (_, _, p) => p | _ => [] end.

Lemma numbered_payloads ref tot i cs : sms_payload <$> (part_frame ref tot <$> numbered i cs) = cs.
Proof.
  rewrite <- list_fmap_compose. rewrite <- (numbered_snd i cs) at 2. apply list_fmap_ext.
  intros k ic _. cbn [compose]. unfold sms_payload. by rewrite ParseUDH_part.
Qed.

(** The frames and what they carry. *)
Lemma SplitForConcat_frames rnd packet maxPartSize maxParts :
  let out := SplitForConcat rnd packet maxPartSize maxParts in
  no_panic out /\ is_ok out = split_ok packet maxPartSize maxParts /\
  forall ps, out = Ok ps ->
    Forall (fun p => zlen p <= maxPartSize) ps /\ concat (sms_payload <$> ps) = packet /\
    0 < zlen ps <= 255 /\ (zlen packet <= maxPartSize - 3 \/ zlen ps <= maxParts).
Proof.
  intros out. pose proof (SplitForConcat_spec rnd packet maxPartSize maxParts) as H. cbv zeta in H. fold out in H.
  split; [by eapply outcome_no_panic|]. split; [by eapply outcome_is_ok|].
  intros ps ->. destruct H as [Hok H]. unfold split_ok in Hok.
  destruct (zlen packet <=? maxPartSize - 3) eqn:E.
  - subst ps. split_and!; [|rewrite fmap_cons; unfold sms_payload; rewrite ParseUDH_single; apply app_nil_r|done|done|lia].
    constructor; [|constructor]. unfold FrameOTASMS. rewrite zlen_app. change (zlen [2; 112; 0]) with 3. lia.
  - destruct H as (Hsz & Hlen & Hmax & ->).
    set (cs := chunks _ packet) in *.
    assert (Hz : zlen (part_frame (u8 rnd) (zlen cs) <$> numbered 1 cs) = zlen cs)
      by (unfold zlen; by rewrite length_fmap, length_numbered).
    rewrite Hz, numbered_payloads. split_and!; [|apply concat_chunks; lia|lia|lia|lia].
    apply Forall_fmap. pose proof (chunks_length_le (Z.to_nat (maxPartSize - 8)) packet ltac:(lia)) as Hle.
    fold cs in Hle. rewrite <- (numbered_snd 1 cs), Forall_fmap in Hle. eapply Forall_impl; [exact Hle|].
    intros [i c] [_ Hc]. cbn [compose snd] in Hc |- *. unfold part_frame, FrameOTASMS. rewrite zlen_app. cbn [snd].
    unfold zlen. cbn [length]. lia.
Qed.

(** C20: splitting.  [SplitForConcat] never panics; it succeeds exactly when the packet fits
    one message or the number of parts is within [maxParts] and 255.  The parts
    then fit [maxPartSize] each, there are at most [maxParts] of them (one when the packet
    fits), and their payloads, in order, are the packet. *)
Theorem split_for_concat_correct rnd packet maxPartSize maxParts :
  let out := SplitForConcat rnd packet maxPartSize maxParts in
  no_panic out /\ is_ok out = split_ok packet maxPartSize maxParts /\
  forall ps, out = Ok ps ->
    Forall (fun p => zlen p <= maxPartSize) ps /\ concat (sms_payload <$> ps) = packet /\
    0 < zlen ps <= 255 /\ (zlen packet <= maxPartSize - 3 \/ zlen ps <= maxParts).
Proof. apply SplitForConcat_frames. Qed.

(** C19: reassembly in any order.  The parts of a split packet (fewer than 255), received in any
    order by a reassembler that holds nothing for this sender and reference, give
    "not complete" until the last one, which returns exactly the packet; the reassembler is
    back in the state it started from, so nothing leaks. *)
Theorem reassembly_any_order rnd packet maxPartSize maxParts ps qs r msisdn :
  SplitForConcat rnd packet maxPartSize maxParts = Ok ps -> qs ≡ₚ ps -> zlen ps < 255 ->
  parts r !! partKey msisdn (u8 rnd) = None -> total r !! partKey msisdn (u8 rnd) = None ->
  AddParts r msisdn qs = Ok (Some (r, replicate (length qs - 1) ([], false) ++ [(packet, true)])).
Proof.
  intros Hs Hp Hlt Hfp Hft.
  pose proof (SplitForConcat_spec rnd packet maxPartSize maxParts) as H. cbv zeta in H.
  rewrite Hs in H. destruct H as [_ H]. destruct (zlen packet <=? maxPartSize - 3) eqn:E.
  - subst ps. apply Permutation_singleton_r in Hp as ->. cbn [AddParts].
    unfold AddPart. rewrite ParseUDH_single. done.
  - destruct H as (Hsz & Hlen & Hmax & ->). set (cs := chunks _ packet) in *.
    apply Permutation_map_inv in Hp as (L & -> & HP).
    unfold zlen in Hlt at 1. rewrite length_fmap, length_numbered in Hlt. fold (zlen cs) in Hlt.
    assert (HL : length L = length cs) by (rewrite <- HP; apply length_numbered).
    change r with (partial_state r msisdn (u8 rnd) (zlen cs) []) at 1.
    rewrite (AddParts_run r msisdn (u8 rnd) (zlen cs)); [| done | done | lia | lia | | |].
    + rewrite app_nil_r, length_map. do 5 f_equal.
      rewrite gather_numbered; [f_equal; apply concat_chunks; lia|]. by rewrite reverse_Permutation.
    + rewrite app_nil_r, reverse_Permutation, <- HP. apply numbered_NoDup.
    + unfold zlen. rewrite HL. simpl. lia.
    + intros ->. unfold zlen in *. simpl in *. lia.
Qed.

(** C40: 255 parts are never reassembled.  [SplitForConcat] sends up to 255 parts, but when the
    last of 255 parts arrives the byte counter of [AddPart] wraps around below
    its bound for ever: whatever the number of rounds allowed, the call does not return. *)
Theorem reassembly_255_diverges rnd packet maxPartSize maxParts ps r msisdn :
  SplitForConcat rnd packet maxPartSize maxParts = Ok ps -> zlen ps = 255 ->
  parts r !! partKey msisdn (u8 rnd) = None -> total r !! partKey msisdn (u8 rnd) = None ->
  exists r' last, ps = take 254 ps ++ [last] /\
    AddParts r msisdn (take 254 ps) = Ok (Some (r', replicate 254 ([], false))) /\
    forall fuel, AddPart fuel r' msisdn last = Ok None.
Proof.
  intros Hs H255 Hfp Hft.
  pose proof (SplitForConcat_spec rnd packet maxPartSize maxParts) as H. cbv zeta in H.
  rewrite Hs in H. destruct H as [_ H]. destruct (zlen packet <=? maxPartSize - 3) eqn:E; [by subst ps|].
  destruct H as (Hsz & Hlen & Hmax & ->). set (cs := chunks _ packet) in *.
  assert (Hn : zlen cs = 255) by (unfold zlen in H255; rewrite length_fmap, length_numbered in H255; done).
  pose proof (numbered_NoDup 1 cs) as HN. pose proof (length_numbered 1 cs) as HL.
  set (L := numbered 1 cs) in *. clearbody L.
  destruct (drop 254 L) as [|ic tl] eqn:Ed; [apply (f_equal length) in Ed; rewrite length_drop in Ed; unfold zlen in *; simpl in *; lia|].
  assert (tl = []) as -> by (apply (f_equal length) in Ed; rewrite length_drop in Ed; destruct tl; [done | unfold zlen in *; simpl in *; lia]).
  rewrite <- (take_drop 254 L), Ed in HN |- *.
  set (T := take 254 L) in *.
  assert (HT : length T = 254%nat) by (unfold T; rewrite length_take; unfold zlen in *; lia).
  clearbody T. rewrite Hn. rewrite fmap_app, take_app_length' by (by rewrite length_fmap).
  assert (HN' : NoDup (ic :: reverse T).*1).
  { assert (Hperm : T ++ [ic] ≡ₚ ic :: reverse T) by (rewrite reverse_Permutation; symmetry; apply Permutation_cons_append).
    by rewrite <- Hperm. }
  exists (partial_state r msisdn (u8 rnd) 255 (reverse T)), (part_frame (u8 rnd) 255 ic).
  split; [done|]. split.
  - change r with (partial_state r msisdn (u8 rnd) 255 []) at 1.
    rewrite AddParts_partial; [by rewrite app_nil_r, HT | done | done | lia | |].
    + rewrite app_nil_r. rewrite fmap_cons in HN'. by inversion HN'.
    + unfold zlen. rewrite HT. done.
  - intros fuel. rewrite AddPart_store; [|done|done|lia|done|].
    + unfold zlen. rewrite length_reverse, HT. change (Z.of_nat 254 + 1 <? 255) with false. cbv zeta iota.
      by rewrite lenLoop_diverges.
    + unfold zlen. rewrite length_reverse, HT. lia.
Qed.

Lemma index_is_byte l i b : bytes_ok l -> index l i = Ok b -> is_byte b.
Proof.
  unfold index. intros Hok H. destruct (0 <=? i); [|done]. destruct (l !! _) as [x|] eqn:Ex; [|done].
  injection H as ->. unfold bytes_ok in Hok. rewrite Forall_forall in Hok.
  eapply Hok, list_elem_of_lookup_2, Ex.
Qed.

Lemma udhLoop_ref_byte fuel raw endUDH pos c0 c :
  bytes_ok raw -> (forall c', c0 = Some c' -> is_byte (RefNum c')) ->
  udhLoop fuel raw endUDH pos c0 = Ok (Some c) -> is_byte (RefNum c).
Proof.
  intros Hok. revert pos c0. induction fuel as [|fuel IH]; intros pos c0 Hc H; [done|]. cbn [udhLoop] in H.
  destruct (negb _); [injection H as ->; by apply Hc|].
  destruct (_ <=? _); [injection H as ->; by apply Hc|].
  apply rbind_ok_inv in H as (iei & _ & H). apply rbind_ok_inv in H as (ieLen & _ & H).
  destruct (_ <? _); [injection H as ->; by apply Hc|].
  apply rbind_ok_inv in H as (c1 & Hc1 & H). apply (IH _ c1) in H; [done|].
  intros c' ->. destruct (_ && _); [|injection Hc1 as ->; by apply Hc].
  apply rbind_ok_inv in Hc1 as (ref & Href & Hc1). apply rbind_ok_inv in Hc1 as (tot & _ & Hc1).
  apply rbind_ok_inv in Hc1 as (part & _ & Hc1). injection Hc1 as <-. by eapply index_is_byte.
Qed.

Lemma ParseUDH_ref_byte raw u c p : bytes_ok raw -> ParseUDH raw = Ok (u, Some c, p) -> is_byte (RefNum c).
Proof.
  intros Hok H. unfold ParseUDH in H. destruct (_ =? 0); [done|].
  apply rbind_ok_inv in H as (udhLen & _ & H). destruct (_ <? _); [done|].
  apply rbind_ok_inv in H as (payload & _ & H). apply rbind_ok_inv in H as (c' & Hc & H).
  injection H as -> -> ->. by eapply udhLoop_ref_byte in Hc.
Qed.

(** The keys a call may change: the one of its sender and reference. *)
Lemma AddPart_frame fuel r msisdn raw r' out k :
  AddPart fuel r msisdn raw = Ok (Some (r', out)) ->
  (forall u c p, ParseUDH raw = Ok (u, Some c, p) -> k <> partKey msisdn (RefNum c)) ->
  parts r' !! k = parts r !! k /\ total r' !! k = total r !! k.
Proof.
  unfold AddPart. intros H Hk. apply rbind_ok_inv in H as ([[u c] p] & Hu & H).
  destruct c as [c|]; [|by injection H as <- <-]. specialize (Hk _ _ _ Hu).
  set (key := partKey msisdn (RefNum c)) in *.
  destruct (parts r !! key) as [m|] eqn:Em; cbn [parts total] in H;
    (destruct (_ <? _); [injection H as <- <- |
      destruct (lenLoop _ _ _ _ _); [|done]; destruct (appendLoop _ _ _ _ _); [|done]; injection H as <- <-]);
    cbn [parts total]; by rewrite ?lookup_delete_ne, ?lookup_insert_ne by done.
Qed.

Lemma AddPart_wf fuel r msisdn raw r' out :
  reass_wf r -> AddPart fuel r msisdn raw = Ok (Some (r', out)) -> reass_wf r'.
Proof.
  unfold AddPart, reass_wf. intros Hwf H. apply rbind_ok_inv in H as ([[u c] p] & Hu & H).
  destruct c as [c|]; [|by injection H as <- <-]. set (key := partKey msisdn (RefNum c)) in *.
  assert (Hk : forall m, parts r !! key = Some m -> key ∈ dom (total r))
    by (intros m Hm; rewrite <- Hwf; apply elem_of_dom; eauto).
  destruct (parts r !! key) as [m|] eqn:Em; cbn [parts total] in H;
    (destruct (_ <? _); [injection H as <- <- |
      destruct (lenLoop _ _ _ _ _); [|done]; destruct (appendLoop _ _ _ _ _); [|done]; injection H as <- <-]);
    cbn [parts total]; rewrite ?dom_delete_L, ?dom_insert_L, Hwf;
    try (specialize (Hk _ eq_refl)); clear -Hk; set_solver.
Qed.

(** Messages do not interfere.  A call leaves the parts stored for every other (sender,
    reference) pair untouched -- the string keys of two different pairs never collide, although
    the reference is appended as a UTF-8 rune -- and keeps the two maps of the reassembler
    in step. *)
Theorem reassembly_isolated fuel r msisdn raw r' out msisdn' ref' :
  bytes_ok raw -> is_byte ref' -> reass_wf r ->
  AddPart fuel r msisdn raw = Ok (Some (r', out)) ->
  (forall u c p, ParseUDH raw = Ok (u, Some c, p) ->
     is_byte (RefNum c) -> (msisdn, RefNum c) <> (msisdn', ref')) ->
  reass_wf r' /\
  parts r' !! partKey msisdn' ref' = parts r !! partKey msisdn' ref' /\
  total r' !! partKey msisdn' ref' = total r !! partKey msisdn' ref'.
Proof.
  intros Hok Href Hwf H Hne. split; [by eapply AddPart_wf|]. eapply AddPart_frame; [done|].
  intros u c p Hu Heq. assert (Hb : is_byte (RefNum c)) by (by eapply ParseUDH_ref_byte).
  apply (Hne _ _ _ Hu Hb). destruct (partKey_inj msisdn' ref' msisdn (RefNum c) Href Hb Heq) as [-> ->]. done.
Qed.

(** ** Witnesses *)

Definition wit_sms : list Z := Z.of_nat <$> seq 0 20.

Definition wit_parts : list (list Z) :=
  match SplitForConcat 200 wit_sms 14 10 with Ok ps => ps | _ => [] end.

Lemma reassembly_any_order_witness :
  AddParts NewReassembler "491700000001" (reverse wit_parts)
  = Ok (Some (NewReassembler, [([], false); ([], false); ([], false); (wit_sms, true)])).
Proof.
  apply (reassembly_any_order 200 wit_sms 14 10 wit_parts (reverse wit_parts) NewReassembler "491700000001");
    [vm_compute; reflexivity | apply reverse_Permutation | vm_compute; reflexivity | reflexivity | reflexivity].
Defined.

Definition wit_255 : list (list Z) :=
  match SplitForConcat 1 (replicate 255 7) 9 255 with Ok ps => ps | _ => [] end.

Lemma reassembly_255_diverges_witness :
  exists r' last, wit_255 = take 254 wit_255 ++ [last] /\
    AddParts NewReassembler "491700000001" (take 254 wit_255) = Ok (Some (r', replicate 254 ([], false))) /\
    forall fuel, AddPart fuel r' "491700000001" last = Ok None.
Proof.
  apply (reassembly_255_diverges 1 (replicate 255 7) 9 255 wit_255 NewReassembler "491700000001");
    [vm_compute; reflexivity | vm_compute; reflexivity | reflexivity | reflexivity].
Defined.

Lemma reassembly_isolated_witness :
  exists r', AddPart loopFuel NewReassembler "4917" (part_frame 9 2 (1, [1; 2])) = Ok (Some (r', ([], false))) /\
    reass_wf r' /\ parts r' !! partKey "4918" 9 = None.
Proof.
  eexists. split; [vm_compute; reflexivity|].
  edestruct (reassembly_isolated loopFuel NewReassembler "4917" (part_frame 9 2 (1, [1; 2])))
    with (msisdn' := "4918") (ref' := 9) as (Hw & Hp & _); [| | | vm_compute; reflexivity | | exact (conj Hw Hp)].
  - apply (bool_decide_unpack _). vm_compute. exact I.
  - by split.
  - done.
  - intros. by injection 1.
Defined.
