(* ===== verification/GlobalPlatform.v ===== *)
(** * pkg/globalplatform: card content management commands and CAP files

    [apdu.go] builds DELETE, INSTALL and LOAD commands, [capfile.go] turns the
    sections of a JavaCard CAP file into a load file.  The ZIP container is read
    by the Go library; its entries, in the order of the archive, are the input
    of the model. *)

From S2P Require Import Prelude.

(** ** apdu.go *)

Definition CLAGlobalPlatform : Z := 0x80.
Definition INSInstall : Z := 0xE6.
Definition INSDelete : Z := 0xE4.
Definition INSLoad : Z := 0xE8.

Definition BuildDeleteAPDU (aid : list Z) (deleteRelated : bool) : res (list Z) :=
  if zlen aid =? 0 then Panic "AID must not be empty"
  else
    let p2 := if deleteRelated then 0x80 else 0x00 in
    let data := [0x4F; u8 (zlen aid)] ++ aid in
    Ok ([CLAGlobalPlatform; INSDelete; 0x00; p2; u8 (zlen data)] ++ data).

Definition BuildInstallForLoadAPDU (loadFileAID securityDomainAID : list Z) : list Z :=
  let data := [u8 (zlen loadFileAID)] ++ loadFileAID ++
              [u8 (zlen securityDomainAID)] ++ securityDomainAID ++ [0x00] ++ [0x00] ++ [0x00] in
  [CLAGlobalPlatform; INSInstall; 0x02; 0x00; u8 (zlen data)] ++ data.

Definition installParamsField (stkParams installParams : list Z) : list Z :=
  if (0 <? zlen stkParams) || (0 <? zlen installParams) then
    let inner := stkParams ++ installParams in
    [0xC9; u8 (zlen inner)] ++ inner
  else [].

Definition BuildInstallForInstallAPDU (loadFileAID moduleAID appAID : list Z) (privilege : Z)
    (stkParams installParams : list Z) : list Z :=
  let paramsField := installParamsField stkParams installParams in
  let data := [u8 (zlen loadFileAID)] ++ loadFileAID ++ [u8 (zlen moduleAID)] ++ moduleAID ++
              [u8 (zlen appAID)] ++ appAID ++ [0x01; privilege] ++
              [u8 (zlen paramsField)] ++ paramsField ++ [0x00] in
  [CLAGlobalPlatform; INSInstall; 0x0C; 0x00; u8 (zlen data)] ++ data.

(** The loop [for offset < len(loadFileData)]; each round consumes at least
    one byte, so [len(loadFileData) + 1] rounds end it. *)
Fixpoint loadLoop (fuel : nat) (loadFileData : list Z) (maxBlockSize offset blockNum : Z)
    : res (list (list Z)) :=
  match fuel with
  | O => Panic "out of fuel"
  | S fuel =>
      if offset <? zlen loadFileData then
        let end_ := offset + maxBlockSize in
        let end_ := if zlen loadFileData <? end_ then zlen loadFileData else end_ in
        let! chunk := slice loadFileData offset end_ in
        let p1 := if zlen loadFileData <=? end_ then 0x80 else 0x00 in
        let apdu := [CLAGlobalPlatform; INSLoad; p1; u8 blockNum; u8 (zlen chunk)] ++ chunk in
        let! apdus := loadLoop fuel loadFileData maxBlockSize end_ (blockNum + 1) in
        Ok (apdu :: apdus)
      else Ok []
  end.

Definition BuildLoadBlockAPDUs (loadFileData : list Z) (maxBlockSize : Z) : res (list (list Z)) :=
  if maxBlockSize <=? 0 then Panic "maxBlockSize must be positive, got %d"
  else loadLoop (S (length loadFileData)) loadFileData maxBlockSize 0 0.

Definition BuildSTKParameters (maxMenuItems : Z) (menuIDPositions accessDomain : list Z)
    (priorityLevel maxTimers maxMenuEntryLength maxChannels : Z) : list Z :=
  let body := [u8 maxMenuItems] ++ [u8 (zlen menuIDPositions)] ++ menuIDPositions ++
              [u8 (zlen accessDomain)] ++ accessDomain ++
              [priorityLevel] ++ [maxTimers] ++ [maxMenuEntryLength] ++ [maxChannels] in
  [0xC9; u8 (zlen body)] ++ body.

(** ** capfile.go *)

Definition sectionOrder : list string :=
  ["Header"; "Directory"; "Import"; "Applet"; "Class"; "Method"; "StaticField"; "Export";
   "ConstantPool"; "RefLocation"].

Record CAPFile := {
  Filename : string;
  AID : list Z;
  Sections : gmap string (list Z);
  LoadFile : list Z
}.

(** [range c.Sections] visits the keys in an unspecified order: [keys].
    [sort.Strings] orders by bytes. *)
Definition orderedSections (sections : gmap string (list Z)) (keys : list string) : list string :=
  let ordered := filter (fun name => is_Some (sections !! name)) sectionOrder in
  let extra := filter (fun name => name ∉ ordered) keys in
  ordered ++ merge_sort String.le extra.

Definition AssembleLoadFile (c : CAPFile) (keys : list string) : list Z :=
  concat ((fun name => default [] (Sections c !! name)) <$> orderedSections (Sections c) keys).

Definition ExtractAID (c : CAPFile) : res (list Z) :=
  match Sections c !! "Header" with
  | None => Ok []
  | Some header =>
      if zlen header <? 13 then Ok []
      else
        let offset := 10 in
        if zlen header <=? offset + 2 then Ok []
        else
          let offset := offset + 2 in
          if zlen header <=? offset then Ok []
          else
            let! aidLen := index header offset in
            let offset := offset + 1 in
            if zlen header <? offset + aidLen then Ok []
            else
              let! a := slice header offset (offset + aidLen) in
              Ok (copy (make_bytes aidLen) a)
  end.

Definition SectionSizes (c : CAPFile) : gmap string Z := zlen <$> Sections c.

(** An entry of the archive: its name and the outcome of [Open] and [ReadAll]. *)
Record zip_entry := { Name : string; Open : res unit; ReadAll : res (list Z) }.

Definition to_lower (a : Ascii.ascii) : Ascii.ascii :=
  let n := Ascii.N_of_ascii a in
  if (65 <=? Z.of_N n) && (Z.of_N n <=? 90) then Ascii.ascii_of_N (n + 32) else a.

Definition ToLower (s : string) : string :=
  String.string_of_list_ascii (to_lower <$> String.list_ascii_of_string s).

Definition HasSuffix (s suffix : string) : bool :=
  let n := String.length s in let m := String.length suffix in
  (m <=? n)%nat && bool_decide (String.substring (n - m) m s = suffix).

Definition TrimSuffix (s suffix : string) : string :=
  if HasSuffix s suffix then String.substring 0 (String.length s - String.length suffix) s else s.

(** The part of a path after its last slash. *)
Fixpoint baseName (s : string) : string :=
  match s with
  | EmptyString => EmptyString
  | String a rest =>
      if bool_decide (String.index 0 "/" s = None) then s else baseName rest
  end.

Fixpoint readSections (entries : list zip_entry) (sections : gmap string (list Z))
    : res (gmap string (list Z)) :=
  match entries with
  | [] => Ok sections
  | file :: entries =>
      if negb (HasSuffix (ToLower (Name file)) ".cap") then readSections entries sections
      else
        let sectionName := TrimSuffix (baseName (Name file)) ".cap" in
        let! _ := (match Open file with
                   | Err e => Err (Errorf "failed to open section %s: %w" [ArgStr sectionName; ArgErr e])
                   | r => r
                   end) in
        let! sectionData := (match ReadAll file with
                   | Err e => Err (Errorf "failed to read section %s: %w" [ArgStr sectionName; ArgErr e])
                   | r => r
                   end) in
        readSections entries (<[sectionName := sectionData]> sections)
  end.

Definition ParseCAPFile (archive : res (list zip_entry)) (filename : string) : res CAPFile :=
  let! entries := rwrap "failed to open CAP file as ZIP: %w" archive in
  let! sections := readSections entries ∅ in
  if bool_decide (size sections = 0%nat) then
    Err (Errorf "no CAP sections found in %s" [ArgStr filename])
  else
    let c := {| Filename := filename; AID := []; Sections := sections; LoadFile := [] |} in
    let! aid := ExtractAID c in
    let c := {| Filename := filename; AID := aid; Sections := sections; LoadFile := [] |} in
    Ok {| Filename := filename; AID := aid; Sections := sections;
          LoadFile := AssembleLoadFile c (map_to_list sections).*1 |}.

(** ** Lemmas: loading *)

(** The LOAD command that carries block [i] of the load file. *)
Definition load_apdu (last : bool) (i : Z) (c : list Z) : list Z :=
  [0x80; 0xE8; if last then 0x80 else 0x00; u8 i; u8 (zlen c)] ++ c.

Fixpoint load_apdus (i : Z) (cs : list (list Z)) : list (list Z) :=
  match cs with
  | [] => []
  | c :: cs => load_apdu (bool_decide (cs = [])) i c :: load_apdus (i + 1) cs
  end.

Lemma loadLoop_spec fuel data max off i :
  0 < max -> 0 <= off <= zlen data -> zlen data - off < Z.of_nat fuel ->
  loadLoop fuel data max off i
  = Ok (load_apdus i (chunks (Z.to_nat max) (drop (Z.to_nat off) data))).
Proof.
  intros Hmax. revert off i. induction fuel as [|fuel IH]; intros off i Hoff Hf; [lia|]. cbn [loadLoop].
  destruct (off <? zlen data) eqn:E.
  - set (e := if zlen data <? off + max then _ else _).
    assert (He : e = Z.min (zlen data) (off + max)) by (unfold e; destruct (zlen data <? _) eqn:?; lia).
    set (l := drop (Z.to_nat off) data).
    assert (Hl : zlen l = zlen data - off) by (unfold l, zlen in *; rewrite length_drop; lia).
    rewrite slice_ok, IH by lia. cbn [rbind]. fold l.
    rewrite (chunks_cons _ l) by (lia || (intros Hn; rewrite Hn, zlen_nil in Hl; lia)).
    assert (Hd : drop (Z.to_nat e) data = drop (Z.to_nat max) l).
    { unfold l. rewrite drop_drop. destruct (decide (off + max <= zlen data)); [f_equal; lia|].
      rewrite !drop_ge; [done | unfold zlen in *; lia..]. }
    assert (Ht : take (Z.to_nat (e - off)) l = take (Z.to_nat max) l).
    { destruct (decide (off + max <= zlen data)); [f_equal; lia|].
      rewrite !take_ge; [done | unfold zlen in *; lia..]. }
    cbn [load_apdus]. rewrite Hd, Ht. unfold load_apdu. do 3 f_equal.
    assert (Hlast : bool_decide (chunks (Z.to_nat max) (drop (Z.to_nat max) l) = []) = (zlen data <=? e)).
    { destruct (zlen data <=? e) eqn:Ee.
      - apply bool_decide_true. rewrite drop_ge; [apply chunks_nil|]. unfold zlen in *. lia.
      - apply bool_decide_false. rewrite chunks_cons; [done | lia |].
        intros Hn. apply (f_equal length) in Hn. rewrite length_drop in Hn. cbn [length] in Hn.
        unfold zlen in *. lia. }
    rewrite Hlast. done.
  - rewrite drop_ge, chunks_nil by (unfold zlen in *; lia). done.
Qed.

Lemma load_apdus_length i cs : length (load_apdus i cs) = length cs.
Proof. revert i. induction cs; intros; simpl; auto. Qed.

Lemma load_apdus_data i cs : concat (drop 5 <$> load_apdus i cs) = concat cs.
Proof.
  revert i. induction cs as [|c cs IH]; intros i; [done|].
  cbn [load_apdus concat]. rewrite fmap_cons. cbn [concat]. by rewrite IH.
Qed.

Lemma load_apdus_lookup i cs k c :
  cs !! k = Some c ->
  load_apdus i cs !! k = Some (load_apdu (bool_decide (S k = length cs)) (i + Z.of_nat k) c).
Proof.
  revert i k. induction cs as [|c' cs IH]; intros i [|k] H; try done; cbn [load_apdus].
  - injection H as ->. change (Z.of_nat 0) with 0. rewrite Z.add_0_r.
    replace (bool_decide (1%nat = length (c :: cs))) with (bool_decide (cs = [])); [done|].
    apply bool_decide_ext. destruct cs; split; done.
  - change ((?a :: ?b) !! S k) with (b !! k) in *. rewrite (IH (i + 1) k H). do 2 f_equal; [|lia]. apply bool_decide_ext. simpl. lia.
Qed.

Lemma load_blocks_eq data max :
  0 < max -> BuildLoadBlockAPDUs data max = Ok (load_apdus 0 (chunks (Z.to_nat max) data)).
Proof. intros. unfold BuildLoadBlockAPDUs. rewrite (proj2 (Z.leb_gt _ _)) by lia. by rewrite loadLoop_spec by (unfold zlen; lia). Qed.

(** Load blocks.  For a positive block size [BuildLoadBlockAPDUs] does not panic: the
    commands carry the load file in order and complete, one per block; block [k] has the
    number [k] modulo 256 in P2, P1 = 0x80 exactly on the last block and, for block sizes up to
    255, its own length in LC. *)
Theorem load_blocks_correct data max :
  0 < max -> exists apdus,
    BuildLoadBlockAPDUs data max = Ok apdus /\
    concat (drop 5 <$> apdus) = data /\ zlen apdus = (zlen data + max - 1) / max /\
    (forall k a, apdus !! k = Some a ->
      exists block,
        a = [0x80; 0xE8; (if bool_decide (S k = length apdus) then 0x80 else 0x00);
             Z.of_nat k mod 256; u8 (zlen block)] ++ block /\
        0 < zlen block <= max /\ (max <= 255 -> u8 (zlen block) = zlen block)).
Proof.
  intros Hmax. rewrite load_blocks_eq by done.
  set (cs := chunks _ data). exists (load_apdus 0 cs). split; [done|].
  split; [rewrite load_apdus_data; apply concat_chunks; lia|]. split.
  - unfold zlen at 1. rewrite load_apdus_length. unfold cs. rewrite length_chunks by lia.
    by rewrite Z2Nat.id by lia.
  - intros k a Ha. destruct (cs !! k) as [c|] eqn:Ec.
    2: { apply lookup_ge_None in Ec. rewrite lookup_ge_None_2 in Ha; [done|]. by rewrite load_apdus_length. }
    rewrite (load_apdus_lookup 0 cs k c Ec), <- (load_apdus_length 0 cs) in Ha. injection Ha as <-.
    exists c. split; [done|]. pose proof (chunks_length_le (Z.to_nat max) data ltac:(lia)) as Hc.
    rewrite Forall_forall in Hc. specialize (Hc c (list_elem_of_lookup_2 _ _ _ Ec)).
    split; [unfold zlen; lia|]. intros. apply u8_small. unfold zlen. lia.
Qed.

(** ** The card's reading of INSTALL *)

(** A length byte and that many bytes. *)
Definition read_lv (l : list Z) : option (list Z * list Z) :=
  match l with
  | n :: rest => if n <=? zlen rest then Some (take (Z.to_nat n) rest, drop (Z.to_nat n) rest) else None
  | [] => None
  end.

(** The [n] fields of a data field that must be consumed completely. *)
Fixpoint read_lvs (n : nat) (l : list Z) : option (list (list Z)) :=
  match n with
  | O => match l with [] => Some [] | _ => None end
  | S n => match read_lv l with
           | Some (v, rest) => cons v <$> read_lvs n rest
           | None => None
           end
  end.

(** A case-3 command APDU: header, LC, data of exactly LC bytes. *)
Definition parse_apdu (apdu : list Z) : option (list Z * list Z) :=
  match apdu with
  | cla :: ins :: p1 :: p2 :: lc :: data =>
      if lc =? zlen data then Some ([cla; ins; p1; p2], data) else None
  | _ => None
  end.

Lemma read_lvs_cons n v l :
  zlen v < 256 -> read_lvs (S n) (u8 (zlen v) :: v ++ l) = cons v <$> read_lvs n l.
Proof.
  intros Hv. pose proof (zlen_nonneg v). rewrite u8_small by lia. cbn [read_lvs]. unfold read_lv.
  rewrite zlen_app. pose proof (zlen_nonneg l). rewrite (proj2 (Z.leb_le _ _)) by lia.
  rewrite take_app_length', drop_app_length' by (unfold zlen; lia). done.
Qed.

Lemma parse_apdu_data h data :
  length h = 4%nat -> zlen data < 256 -> parse_apdu (h ++ u8 (zlen data) :: data) = Some (h, data).
Proof.
  intros Hh Hd. pose proof (zlen_nonneg data). rewrite u8_small by lia.
  do 4 (destruct h as [|? h]; [done|]). destruct h; [|done]. cbn. by rewrite Z.eqb_refl.
Qed.

(** INSTALL commands are unambiguous.  As long as each field and the whole data field
    stay below 256 bytes, the card reads back from INSTALL [for LOAD] the load file and
    security domain AIDs, and from INSTALL [for INSTALL] the three AIDs, the
    privilege byte and the parameter field (tag C9 around STK and install parameters), with
    nothing left over. *)
Theorem install_apdus_parse load sd module appl privilege stk inst :
  let params := installParamsField stk inst in
  zlen load + zlen sd + 5 < 256 ->
  zlen load + zlen module + zlen appl + zlen params + 7 < 256 ->
  (exists d, parse_apdu (BuildInstallForLoadAPDU load sd) = Some ([0x80; 0xE6; 0x02; 0x00], d) /\
             read_lvs 5 d = Some [load; sd; []; []; []]) /\
  (exists d, parse_apdu (BuildInstallForInstallAPDU load module appl privilege stk inst)
               = Some ([0x80; 0xE6; 0x0C; 0x00], d) /\
             read_lvs 6 d = Some [load; module; appl; [privilege]; params; []]).
Proof.
  intros params H1 H2. pose proof (zlen_nonneg load). pose proof (zlen_nonneg sd).
  pose proof (zlen_nonneg module). pose proof (zlen_nonneg appl). pose proof (zlen_nonneg params).
  split; eexists.
  - split; [apply (parse_apdu_data [0x80; 0xE6; 0x02; 0x00]); [done|]; autorewrite with zlen; lia|].
    cbn [app]. do 2 rewrite read_lvs_cons by lia. done.
  - unfold BuildInstallForInstallAPDU. fold params.
    split; [apply (parse_apdu_data [0x80; 0xE6; 0x0C; 0x00]); [done|]; autorewrite with zlen; lia|].
    cbn [app]. do 3 rewrite read_lvs_cons by lia.
    change (1 :: privilege :: ?l) with (u8 (zlen [privilege]) :: [privilege] ++ l).
    do 2 rewrite read_lvs_cons by (done || lia). done.
Qed.

(** ** Load files *)

Lemma merge_sort_unique (l1 l2 : list string) :
  l1 ≡ₚ l2 -> merge_sort String.le l1 = merge_sort String.le l2.
Proof.
  intros HP. apply (StronglySorted_unique String.le); try apply StronglySorted_merge_sort; try apply _.
  by rewrite !merge_sort_Permutation.
Qed.

Lemma orderedSections_perm m keys1 keys2 :
  keys1 ≡ₚ keys2 -> orderedSections m keys1 = orderedSections m keys2.
Proof. intros HP. unfold orderedSections. f_equal. apply merge_sort_unique. by rewrite HP. Qed.

Lemma sectionOrder_NoDup : NoDup sectionOrder.
Proof. apply (bool_decide_unpack _). vm_compute. exact I. Qed.

(** The load file does not depend on the map order.  Go visits the section map in
    a random order; whatever the order, [AssembleLoadFile] lists every section exactly once, the
    standard ones first in the order of the specification, the others behind them sorted by
    name, and so produces the same bytes. *)
Theorem load_file_deterministic c keys1 keys2 :
  keys1 ≡ₚ (map_to_list (Sections c)).*1 -> keys2 ≡ₚ (map_to_list (Sections c)).*1 ->
  AssembleLoadFile c keys1 = AssembleLoadFile c keys2 /\
  orderedSections (Sections c) keys1 ≡ₚ (map_to_list (Sections c)).*1 /\
  exists extra, orderedSections (Sections c) keys1
      = filter (fun n => is_Some (Sections c !! n)) sectionOrder ++ extra /\
    StronglySorted String.le extra /\ (forall n, n ∈ extra -> n ∉ sectionOrder).
Proof.
  intros H1 H2. split; [|split].
  - unfold AssembleLoadFile. rewrite (orderedSections_perm _ keys1 keys2); [done|]. by rewrite H1, H2.
  - assert (HN : NoDup keys1) by (rewrite H1; apply NoDup_fst_map_to_list).
    unfold orderedSections. rewrite merge_sort_Permutation. rewrite <- H1.
    apply NoDup_Permutation; [|done|].
    + apply NoDup_app. split; [apply NoDup_filter, sectionOrder_NoDup|]. split; [|by apply NoDup_filter].
      intros x Hx. rewrite list_elem_of_filter. by intros [? _].
    + intros x. rewrite elem_of_app, !list_elem_of_filter, H1, list_elem_of_fmap.
      assert (Hdom : (exists y, x = y.1 /\ y ∈ map_to_list (Sections c)) <-> is_Some (Sections c !! x)).
      { split.
        - intros ([k v] & -> & Hin). apply elem_of_map_to_list in Hin. eauto.
        - intros [v Hv]. exists (x, v). by rewrite elem_of_map_to_list. }
      rewrite Hdom. destruct (decide (x ∈ sectionOrder)); naive_solver.
  - eexists. split; [done|]. split; [apply StronglySorted_merge_sort; apply _|].
    intros n. rewrite merge_sort_Permutation, !list_elem_of_filter.
    intros [Hn Hin] Hso. apply Hn. split; [|done].
    rewrite H1, list_elem_of_fmap in Hin. destruct Hin as ([k v] & -> & Hin).
    apply elem_of_map_to_list in Hin. eauto.
Qed.

(** AID extraction is safe.  On any header section [ExtractAID] returns without a panic;
    a header whose AID is complete gives exactly the AID bytes at offset 13. *)
Theorem extract_aid_correct c :
  (forall h, Sections c !! "Header" = Some h -> bytes_ok h) ->
  exists aid, ExtractAID c = Ok aid /\
    forall pre a suf, Sections c !! "Header" = Some (pre ++ [zlen a] ++ a ++ suf) ->
      length pre = 12%nat -> aid = a.
Proof.
  intros Hok. unfold ExtractAID. destruct (Sections c !! "Header") as [h|] eqn:Eh; [|by eexists].
  specialize (Hok _ eq_refl). cbv zeta. pose proof (zlen_nonneg h).
  destruct (zlen h <? 13) eqn:E1.
  { exists []. split; [done|]. intros pre a suf [= ->] Hp.
    apply Z.ltb_lt in E1. rewrite zlen_app, zlen_cons, zlen_app in E1.
    pose proof (zlen_nonneg a). pose proof (zlen_nonneg suf).
    assert (zlen pre = 12) by (unfold zlen; lia). lia. }
  rewrite !(proj2 (Z.leb_gt (zlen h) _)) by lia.
  destruct (lookup_lt_is_Some_2 h 12) as [n Hn]; [unfold zlen in *; lia|].
  rewrite (index_ok h (10 + 2) n) by done. cbn [rbind].
  assert (Hb : is_byte n).
  { unfold bytes_ok in Hok. rewrite Forall_forall in Hok. eapply Hok, list_elem_of_lookup_2, Hn. }
  unfold is_byte in Hb.
  assert (Hshape : forall pre a suf, Some h = Some (pre ++ [zlen a] ++ a ++ suf) -> length pre = 12%nat ->
    n = zlen a /\ zlen h = 13 + zlen a + zlen suf /\ drop 13 h = a ++ suf).
  { intros pre a suf [= ->] Hp. split; [|split].
    - rewrite lookup_app_r in Hn by lia. rewrite Hp in Hn. by injection Hn.
    - autorewrite with zlen. unfold zlen. lia.
    - change (zlen a :: a ++ suf) with ([zlen a] ++ a ++ suf). rewrite app_assoc. apply drop_app_length'. rewrite length_app. simpl. lia. }
  destruct (zlen h <? 10 + 2 + 1 + n) eqn:E2.
  - exists []. split; [done|]. intros pre a suf Hh Hp. destruct (Hshape _ _ _ Hh Hp) as (-> & Hz & _).
    pose proof (zlen_nonneg suf). lia.
  - rewrite slice_ok by lia. cbn [rbind]. eexists. split; [done|].
    intros pre a suf Hh Hp. destruct (Hshape _ _ _ Hh Hp) as (-> & Hz & Hd).
    change (Z.to_nat (10 + 2 + 1)) with 13%nat. rewrite Hd.
    replace (Z.to_nat (10 + 2 + 1 + zlen a - (10 + 2 + 1))) with (length a) by (unfold zlen; lia).
    rewrite take_app_length. apply copy_all. unfold make_bytes, zlen. rewrite length_replicate. lia.
Qed.

(** ** Witnesses *)

Lemma load_blocks_correct_witness : exists apdus,
  BuildLoadBlockAPDUs [1; 2; 3; 4; 5] 2 = Ok apdus /\ concat (drop 5 <$> apdus) = [1; 2; 3; 4; 5].
Proof.
  destruct (load_blocks_correct [1; 2; 3; 4; 5] 2) as (a & H1 & H2 & _); [lia|]. by exists a.
Defined.

Lemma install_apdus_parse_witness :
  exists d, parse_apdu (BuildInstallForInstallAPDU [1; 2] [3] [4; 5] 0 [9] []) = Some ([0x80; 0xE6; 0x0C; 0x00], d) /\
            read_lvs 6 d = Some [[1; 2]; [3]; [4; 5]; [0]; [0xC9; 1; 9]; []].
Proof. apply (install_apdus_parse [1; 2] [] [3] [4; 5] 0 [9] []); vm_compute; reflexivity. Defined.

Definition wit_cap : CAPFile := {|
  Filename := "a.cap"; AID := []; LoadFile := [];
  Sections := {[ "Header" := [1; 0; 10; 0xDE; 0xCA; 0xFF; 0xED; 1; 2; 4; 0; 1; 2; 0xA0; 0xA1];
                 "Applet" := [3; 3]; "Zzz" := [9]; "Debug" := [8] ]} |}.

Lemma load_file_deterministic_witness :
  AssembleLoadFile wit_cap ["Zzz"; "Debug"; "Applet"; "Header"]
  = AssembleLoadFile wit_cap ["Header"; "Applet"; "Debug"; "Zzz"].
Proof.
  apply (load_file_deterministic wit_cap ["Zzz"; "Debug"; "Applet"; "Header"] ["Header"; "Applet"; "Debug"; "Zzz"]);
    apply (bool_decide_unpack _); vm_compute; exact I.
Defined.

Lemma extract_aid_correct_witness : exists aid, ExtractAID wit_cap = Ok aid /\ aid = [0xA0; 0xA1].
Proof.
  destruct (extract_aid_correct wit_cap) as (aid & H1 & H2).
  - intros h. vm_compute (Sections wit_cap !! _). intros [= <-]. apply (bool_decide_unpack _). vm_compute. exact I.
  - exists aid. split; [done|].
    apply (H2 [1; 0; 10; 0xDE; 0xCA; 0xFF; 0xED; 1; 2; 4; 0; 1] [0xA0; 0xA1] []); reflexivity.
Defined.
