(* ===== verification/Decimal.v ===== *)
(** * Decimal numerals

    [strconv.Itoa] and [strconv.FormatInt] are [pretty]; [strconv.Atoi] (Pipeline.v) reads back
    what they print.  A numeral is made of digits and a sign, so it contains none of
    the separators that the keys of the stores put between their parts. *)

From S2P Require Import Prelude Effects Models Pipeline.

Notation ascii_list := String.list_ascii_of_string.

Definition isDigit (a : Ascii.ascii) : Prop := is_Some (digit_of a).

Lemma digit_char d : (d < 10)%N -> digit_of (pretty_N_char d) = Some (Z.of_N d).
Proof.
  intros Hd. assert (H : Forall (fun d => digit_of (pretty_N_char d) = Some (Z.of_N d)) [0; 1; 2; 3; 4; 5; 6; 7; 8; 9]%N) by (repeat constructor).
  rewrite Forall_forall in H. apply H. assert (Hc : (d = 0 \/ d = 1 \/ d = 2 \/ d = 3 \/ d = 4 \/ d = 5 \/ d = 6 \/ d = 7 \/ d = 8 \/ d = 9)%N) by lia.
  set_solver.
Qed.

Lemma go_digits x s : Forall isDigit (ascii_list s) -> Forall isDigit (ascii_list (pretty_N_go x s)).
Proof.
  revert s. induction (N.lt_wf_0 x) as [x _ IH]; intros s Hs. destruct (decide (0 < x)%N) as [Hx|Hx].
  - rewrite pretty_N_go_step by done. apply IH; [by apply N.div_lt|]. cbn. constructor; [|done].
    eexists. apply digit_char. by apply N.mod_lt.
  - assert (x = 0%N) as -> by lia. by rewrite pretty_N_go_0.
Qed.

Lemma go_value x s : digits_val (ascii_list (pretty_N_go x s)) 0 = digits_val (ascii_list s) (Z.of_N x).
Proof.
  revert s. induction (N.lt_wf_0 x) as [x _ IH]; intros s. destruct (decide (0 < x)%N) as [Hx|Hx].
  - rewrite pretty_N_go_step by done. rewrite IH by (by apply N.div_lt). cbn. rewrite digit_char by (by apply N.mod_lt).
    f_equal. rewrite <- (N2Z.inj_mul 10), <- N2Z.inj_add. f_equal. symmetry. by apply N.div_mod.
  - assert (x = 0%N) as -> by lia. by rewrite pretty_N_go_0.
Qed.

Lemma pretty_N_digits (x : N) : Forall isDigit (ascii_list (pretty x)).
Proof.
  unfold pretty, pretty_N. case_decide; [cbn; repeat constructor; by eexists|]. by apply go_digits.
Qed.

Lemma pretty_N_value (x : N) : digits_val (ascii_list (pretty x)) 0 = Some (Z.of_N x).
Proof. unfold pretty, pretty_N. case_decide; [by subst|]. by rewrite go_value. Qed.

Lemma pretty_N_nonempty (x : N) : exists a l, ascii_list (pretty x) = a :: l.
Proof.
  destruct (ascii_list (pretty x)) as [|a l] eqn:E; [|by eexists _, _]. pose proof (pretty_N_value x) as H. rewrite E in H.
  injection H as H. assert (x = 0%N) as -> by lia. done.
Qed.

Lemma digit_not_sign a : isDigit a -> (Ascii.N_of_ascii a =? 45)%N = false /\ (Ascii.N_of_ascii a =? 43)%N = false.
Proof.
  intros [d H]. unfold digit_of in H. destruct (_ && _) eqn:E; [|done]. apply andb_true_iff in E as [E _]. split; apply N.eqb_neq; lia.
Qed.

Lemma numeral_pretty (z : Z) : numeral (pretty z) = Some z.
Proof.
  unfold numeral. destruct z as [|p|p]; [done| |].
  - change (pretty (Z.pos p)) with (pretty (N.pos p)). pose proof (pretty_N_value (N.pos p)) as Hv. pose proof (pretty_N_digits (N.pos p)) as Hd.
    destruct (pretty_N_nonempty (N.pos p)) as (a & l & E). rewrite E in *. apply Forall_cons_1 in Hd as [Ha _].
    destruct (digit_not_sign a Ha) as [-> ->]. by rewrite Hv.
  - change (ascii_list (pretty (Z.neg p))) with (Ascii.ascii_of_N 45 :: ascii_list (pretty (N.pos p))).
    pose proof (pretty_N_value (N.pos p)) as Hv. destruct (pretty_N_nonempty (N.pos p)) as (a & l & E). rewrite E in *.
    change (Ascii.N_of_ascii (Ascii.ascii_of_N 45) =? 45)%N with true. cbv iota. by rewrite Hv.
Qed.

(** [strconv.Atoi] inverts [strconv.Itoa] on 64-bit integers. *)
Lemma Atoi_pretty z : - 2 ^ 63 <= z < 2 ^ 63 -> Atoi (pretty z) = Some z.
Proof. intros Hz. unfold Atoi. rewrite numeral_pretty. assert (Hr : (- 2 ^ 63 <=? z) && (z <? 2 ^ 63) = true) by lia. by rewrite Hr. Qed.

(** ** Separators *)

Definition colon : Ascii.ascii := Ascii.ascii_of_N 58.
Definition colonFree (s : string) : Prop := colon ∉ ascii_list s.

Lemma pretty_colonFree (z : Z) : colonFree (pretty z).
Proof.
  assert (H : forall x : N, colonFree (pretty x)).
  { intros x Hc. pose proof (pretty_N_digits x) as Hd. rewrite Forall_forall in Hd. by destruct (Hd colon Hc). }
  destruct z as [|p|p]; [apply (H 0%N) | apply (H (N.pos p))|]. unfold colonFree.
  change (ascii_list (pretty (Z.neg p))) with (Ascii.ascii_of_N 45 :: ascii_list (pretty (N.pos p))).
  intros [Hc|Hc]%elem_of_cons; [done | by apply (H (N.pos p))].
Qed.

(** A text is split in one way at its last colon. *)
Lemma last_colon_inj a b u v : colonFree u -> colonFree v -> a +:+ ":" +:+ u = b +:+ ":" +:+ v -> a = b /\ u = v.
Proof.
  intros Hu Hv. revert b. induction a as [|c a IH]; intros [|c' b] H.
  - by injection H.
  - assert (u = b +:+ ":" +:+ v) as -> by (by injection H). exfalso. apply Hu. rewrite list_ascii_app. set_solver.
  - assert (v = a +:+ ":" +:+ u) as -> by (by injection H). exfalso. apply Hv. rewrite list_ascii_app. set_solver.
  - injection H as -> H. by destruct (IH b H) as [-> ->].
Qed.
