(* ===== verification/Redis.v ===== *)
(** * The Redis client (internal/redis/state.go, client.go)

    The server is not part of the program: it is the class [Redis], whose law says that a command
    has its documented effect on the keyspace, strings and hashes with a deadline.  A round trip
    executes a program of commands at one moment of the server's clock; it may fail
    after any number of them.  encoding/json is the class [JSON], the cipher of client.go the class
    [AEAD].  The operations of the client are those of the source, over the
    keys the source makes up. *)

From S2P Require Import Prelude Effects Models Pipeline HexUtil Store Decimal.

(** ** The server *)

Inductive rvalue := RString (s : string) | RHash (h : gmap string string).
Record entry := mkEntry { en_value : rvalue; en_deadline : option Z }.

Inductive command :=
| HGETALL (k : string)
| HSET (k : string) (fields : list (string * string))
| HINCRBY (k f : string) (n : Z)
| HGET (k f : string)
| EXISTS (k : string)
| EXPIRE (k : string) (ttl : Z)
| DEL (k : string)
| GET (k : string)
| SET (k v : string) (ttl : Z)
| SETNX (k v : string) (ttl : Z)
| INCR (k : string).

Inductive reply :=
| RpNil | RpOk | RpInt (n : Z) | RpBulk (s : string) | RpMap (h : gmap string string) | RpErr (e : goerr).

Definition wrongType : goerr := Errorf "WRONGTYPE Operation against a key holding the wrong kind of value" [].
Definition notInteger : goerr := Errorf "ERR value is not an integer or out of range" [].

(** What is visible of a key at time [t]. *)
Definition live (t : Z) (k : string) (ks : gmap string entry) : option entry :=
  match ks !! k with
  | Some e => match en_deadline e with
              | Some d => if t <? d then Some e else None
              | None => Some e
              end
  | None => None
  end.

(** The integer a string holds, in its only spelling. *)
Definition integerOf (s : string) : option Z :=
  match Atoi s with Some z => if bool_decide (pretty z = s) then Some z else None | None => None end.

(** The value after adding [n], and the error when there is none. *)
Definition addTo (s : string) (n : Z) : goerr + Z :=
  match integerOf s with
  | Some z => if (- 2 ^ 63 <=? z + n) && (z + n <? 2 ^ 63) then inr (z + n) else inl notInteger
  | None => inl notInteger
  end.

(** The documented effect of a command at time [t]. *)
Definition documented (c : command) (t : Z) (ks : gmap string entry) : reply * gmap string entry :=
  match c with
  | HGETALL k =>
      match live t k ks with
      | None => (RpMap ∅, ks)
      | Some (mkEntry (RHash h) _) => (RpMap h, ks)
      | Some _ => (RpErr wrongType, ks)
      end
  | HSET k fields =>
      let new := list_to_map fields : gmap string string in
      match live t k ks with
      | None => (RpInt (Z.of_nat (size new)), <[k := mkEntry (RHash new) None]> ks)
      | Some (mkEntry (RHash h) d) =>
          (RpInt (Z.of_nat (size (new ∖ h))), <[k := mkEntry (RHash (new ∪ h)) d]> ks)
      | Some _ => (RpErr wrongType, ks)
      end
  | HINCRBY k f n =>
      match live t k ks with
      | None => (RpInt n, <[k := mkEntry (RHash {[ f := pretty n ]}) None]> ks)
      | Some (mkEntry (RHash h) d) =>
          match addTo (default "0" (h !! f)) n with
          | inr z => (RpInt z, <[k := mkEntry (RHash (<[f := pretty z]> h)) d]> ks)
          | inl e => (RpErr e, ks)
          end
      | Some _ => (RpErr wrongType, ks)
      end
  | HGET k f =>
      match live t k ks with
      | None => (RpNil, ks)
      | Some (mkEntry (RHash h) _) => (match h !! f with Some s => RpBulk s | None => RpNil end, ks)
      | Some _ => (RpErr wrongType, ks)
      end
  | EXISTS k => (RpInt (match live t k ks with Some _ => 1 | None => 0 end), ks)
  | EXPIRE k ttl =>
      match live t k ks with
      | None => (RpInt 0, ks)
      | Some e => (RpInt 1, <[k := mkEntry (en_value e) (Some (t + ttl))]> ks)
      end
  | DEL k => (RpInt (match live t k ks with Some _ => 1 | None => 0 end), delete k ks)
  | GET k =>
      match live t k ks with
      | None => (RpNil, ks)
      | Some (mkEntry (RString s) _) => (RpBulk s, ks)
      | Some _ => (RpErr wrongType, ks)
      end
  | SET k v ttl => (RpOk, <[k := mkEntry (RString v) (Some (t + ttl))]> ks)
  | SETNX k v ttl =>
      match live t k ks with
      | None => (RpInt 1, <[k := mkEntry (RString v) (Some (t + ttl))]> ks)
      | Some _ => (RpInt 0, ks)
      end
  | INCR k =>
      match live t k ks with
      | None => (RpInt 1, <[k := mkEntry (RString (pretty 1)) None]> ks)
      | Some (mkEntry (RString s) d) =>
          match addTo s 1 with
          | inr z => (RpInt z, <[k := mkEntry (RString (pretty z)) d]> ks)
          | inl e => (RpErr e, ks)
          end
      | Some _ => (RpErr wrongType, ks)
      end
  end.

Class Redis (R : Type) := {
  execute : command -> Z -> R -> reply * R;
  tonumber : string -> option Z      (** Lua's [tonumber], as an integer reply shows it *)
}.

(** A server removes expired keys when it likes: two keyspaces are the same at [t] when they show the same. *)
Definition shows (t : Z) (ks ks' : gmap string entry) : Prop := forall k, live t k ks = live t k ks'.

Class RedisLaws (R : Type) `{!Redis R} := {
  keys : R -> gmap string entry;
  execute_reply c t r : fst (execute c t r) = fst (documented c t (keys r));
  execute_keys c t r : shows t (keys (snd (execute c t r))) (snd (documented c t (keys r)));
  tonumber_exact z : Z.abs z <= 2 ^ 53 -> tonumber (pretty z) = Some z
}.

(** Programs of commands: a pipeline or a script, executed without another client in between. *)
Inductive prog (A : Type) :=
| Done (a : A)
| Call (c : command) (k : reply -> prog A).
Arguments Done {A}.
Arguments Call {A}.

Fixpoint run {R A} (ex : command -> Z -> R -> reply * R) (p : prog A) (t : Z) (r : R) : A * R :=
  match p with
  | Done a => (a, r)
  | Call c k => let '(rp, r) := ex c t r in run ex (k rp) t r
  end.

(** The first [n] commands only. *)
Fixpoint cut {R A} (ex : command -> Z -> R -> reply * R) (n : nat) (p : prog A) (t : Z) (r : R) : R :=
  match n, p with
  | S n, Call c k => let '(rp, r) := ex c t r in cut ex n (k rp) t r
  | _, _ => r
  end.

Fixpoint bindP {A B} (p : prog A) (f : A -> prog B) : prog B :=
  match p with
  | Done a => f a
  | Call c k => Call c (fun rp => bindP (k rp) f)
  end.

Fixpoint pipelined (cmds : list command) : prog (list reply) :=
  match cmds with
  | [] => Done []
  | c :: cmds => Call c (fun rp => bindP (pipelined cmds) (fun rps => Done (rp :: rps)))
  end.

(** ** The client *)

(** The connection: per round trip its error with the number of commands executed before it, the
    server's clock and the client's clock, in nanoseconds. *)
Record Net := { nt_fault : nat -> option (goerr * nat); nt_server : nat -> Z; nt_clock : nat -> Z }.

Record Client (R : Type) := mkClient { rdb : R; net : Net; rounds : nat }.
Arguments mkClient {R}.
Arguments rdb {R}.
Arguments net {R}.
Arguments rounds {R}.

Class JSON (A : Type) := { Marshal : A -> res string; Unmarshal : string -> res A }.
Class JSONLaws (A : Type) `{!JSON A} := {
  encodable : A -> Prop;
  json_roundtrip x : encodable x -> exists s, Marshal x = Ok s /\ Unmarshal s = Ok x
}.

Module CampaignCommandJSON.
Record t := mk {
  Sequence : Z; ApplicationID : string; Script : string; ExpectResponse : bool; TAR : string;
  KIcAlgo : string; KIcMode : string; KIcKeysetID : Z; KIdAlgo : string; KIdMode : string; KIdKeysetID : Z;
  CertMode : string; Ciphered : bool; CounterMode : string;
  PORMode : string; PORProtocol : string; PORCiphered : bool; PORCertMode : string
}.
End CampaignCommandJSON.

Definition second : Z := 1000000000.
Definition minute : Z := 60 * second.
Definition hour : Z := 60 * minute.

(** [recordPartDLRScript]: an error of a call ends the script. *)
Section Script.
Context {R : Type} `{!Redis R}.

(** [tonumber(redis.call('HGET', ...)) or 0]; a missing field is [false], which is no number. *)
Definition numberOf (rp : reply) : res Z :=
  match rp with
  | RpBulk s => Ok (default 0 (tonumber s))
  | RpErr e => Err e
  | _ => Ok 0
  end.

Definition recordPartDLRScript (key field : string) : prog (res (list Z)) :=
  Call (EXISTS key) (fun exists_ =>
  match exists_ with
  | RpInt 0 => Done (Ok [0; 0; 0; 0])
  | _ =>
      Call (HINCRBY key field 1) (fun incr =>
      match incr with
      | RpErr e => Done (Err e)
      | _ =>
          Call (HGET key "total") (fun total => Call (HGET key "delivered") (fun delivered => Call (HGET key "failed") (fun failed =>
          Done (rbind (numberOf total) (fun total => rbind (numberOf delivered) (fun delivered => rbind (numberOf failed) (fun failed =>
                Ok [1; total; delivered; failed])))))))
      end)
  end).
End Script.

Section Client.
Context {R : Type} `{!Redis R}.
Context `{!JSON (list CampaignCommandJSON.t), !JSON SMPPMapping.t, !JSON Profile.t, !JSON CampaignParams.t}.

Notation CM := (M (Client R)).

Definition atServer {A} (p : prog A) : CM A := fun c =>
  let t := nt_server (net c) (rounds c) in
  match nt_fault (net c) (rounds c) with
  | Some (e, n) => (Err e, mkClient (cut execute n p t (rdb c)) (net c) (S (rounds c)))
  | None => let '(a, r) := run execute p t (rdb c) in (Ok a, mkClient r (net c) (S (rounds c)))
  end.

(** [Exec] returns the error of the first command that has one; a missing key is the error [redis.Nil]. *)
Fixpoint firstError (rps : list reply) : option goerr :=
  match rps with
  | [] => None
  | RpNil :: _ => Some redis_Nil
  | RpErr e :: _ => Some e
  | _ :: rps => firstError rps
  end.

Definition Exec (cmds : list command) : CM (list reply) :=
  do! rps <- atServer (pipelined cmds);
  match firstError rps with Some e => merr e | None => ret rps end.

Definition bulk (rps : list reply) : string := match rps with RpBulk s :: _ => s | _ => "" end.
Definition number (rps : list reply) : Z := match rps with RpInt n :: _ => n | _ => 0 end.
Definition fieldsOf (rps : list reply) : gmap string string := match rps with RpMap h :: _ => h | _ => ∅ end.

(** [rdb.Get(...)], where the caller takes [redis.Nil] for a miss. *)
Definition lookupString (key : string) : CM (option string) :=
  do! r <- try (Exec [GET key]);
  match r with
  | Ok rps => ret (Some (bulk rps))
  | Err e => if bool_decide (e = redis_Nil) then ret None else merr e
  | Panic p => mres (Panic p)
  end.

(** *** Card state *)

Definition cardStateKey (cardID : string) : string := "card:" +:+ cardID +:+ ":state".

(** The value [strconv.Atoi] and [strconv.ParseInt] return beside the error the caller drops: zero for a
    text that is no numeral, the nearest bound for one out of range. *)
Definition atoiValue (s : string) : Z :=
  match numeral s with
  | Some n => Z.max (- 2 ^ 63) (Z.min n (2 ^ 63 - 1))
  | None => 0
  end.

Definition stateFields (state : CardState.t) : list (string * string) :=
  [("campaign_id", CardState.CampaignID state);
   ("current_step", pretty (CardState.CurrentStep state));
   ("status", CardState.Status state);
   ("retry_count", pretty (CardState.RetryCount state));
   ("last_msg_id", CardState.LastMsgID state);
   ("last_event_id", CardState.LastEventID state);
   ("transition_seq", pretty (CardState.TransitionSeq state))].

Definition fieldsState (result : gmap string string) : CardState.t :=
  let text f := default "" (result !! f) in {|
  CardState.CampaignID := text "campaign_id";
  CardState.CurrentStep := atoiValue (text "current_step");
  CardState.Status := text "status";
  CardState.RetryCount := atoiValue (text "retry_count");
  CardState.LastMsgID := text "last_msg_id";
  CardState.LastEventID := text "last_event_id";
  CardState.TransitionSeq := atoiValue (text "transition_seq") |}.

Definition GetCardState (cardID : string) : CM (option CardState.t) :=
  do! rps <- Exec [HGETALL (cardStateKey cardID)];
  let result := fieldsOf rps in
  if bool_decide (result = ∅) then ret None else ret (Some (fieldsState result)).

Definition SetCardState (cardID : string) (state : CardState.t) : CM unit :=
  let key := cardStateKey cardID in
  do! _ <- Exec [HSET key (stateFields state); EXPIRE key (24 * hour)];
  ret tt.

Definition DeleteCardState (cardID : string) : CM unit :=
  do! _ <- Exec [DEL (cardStateKey cardID)]; ret tt.

(** *** Campaign commands *)

Definition campaignCommandsKey (campaignID : string) : string := "campaign:" +:+ campaignID +:+ ":commands".

Definition commandJSON (cmd : CampaignCommandCache.t) : CampaignCommandJSON.t :=
  CampaignCommandJSON.mk
    (CampaignCommandCache.Sequence cmd) (CampaignCommandCache.ApplicationID cmd)
    (EncodeToString (CampaignCommandCache.Script cmd)) (CampaignCommandCache.ExpectResponse cmd)
    (EncodeToString (CampaignCommandCache.TAR cmd))
    (CampaignCommandCache.KIcAlgo cmd) (CampaignCommandCache.KIcMode cmd) (CampaignCommandCache.KIcKeysetID cmd)
    (CampaignCommandCache.KIdAlgo cmd) (CampaignCommandCache.KIdMode cmd) (CampaignCommandCache.KIdKeysetID cmd)
    (CampaignCommandCache.CertMode cmd) (CampaignCommandCache.Ciphered cmd) (CampaignCommandCache.CounterMode cmd)
    (CampaignCommandCache.PORMode cmd) (CampaignCommandCache.PORProtocol cmd) (CampaignCommandCache.PORCiphered cmd)
    (CampaignCommandCache.PORCertMode cmd).

Definition CacheCampaignCommands (campaignID : string) (cmds : list CampaignCommandCache.t) : CM unit :=
  do! data <- mwrap "marshal campaign commands: %w" (mres (Marshal (commandJSON <$> cmds)));
  do! _ <- Exec [SET (campaignCommandsKey campaignID) data (12 * hour)];
  ret tt.

(** [%d] and [%w] in the message of an undecodable field. *)
Definition decodeAt {A} (fmt : string) (i : Z) (r : res A) : res A :=
  match r with Err e => Err (Errorf fmt [ArgInt i; ArgErr e]) | r => r end.

Fixpoint decodeCommands (i : Z) (jsonCmds : list CampaignCommandJSON.t) : res (list CampaignCommandCache.t) :=
  match jsonCmds with
  | [] => Ok []
  | jc :: jsonCmds =>
      rbind (decodeAt "decode script hex at index %d: %w" i (DecodeString (CampaignCommandJSON.Script jc))) (fun script =>
      rbind (decodeAt "decode tar hex at index %d: %w" i (DecodeString (CampaignCommandJSON.TAR jc))) (fun tar =>
      rbind (decodeCommands (i + 1) jsonCmds) (fun cmds =>
      Ok (CampaignCommandCache.mk
        (CampaignCommandJSON.Sequence jc) (CampaignCommandJSON.ApplicationID jc) script (CampaignCommandJSON.ExpectResponse jc) tar
        (CampaignCommandJSON.KIcAlgo jc) (CampaignCommandJSON.KIcMode jc) (CampaignCommandJSON.KIcKeysetID jc)
        (CampaignCommandJSON.KIdAlgo jc) (CampaignCommandJSON.KIdMode jc) (CampaignCommandJSON.KIdKeysetID jc)
        (CampaignCommandJSON.CertMode jc) (CampaignCommandJSON.Ciphered jc) (CampaignCommandJSON.CounterMode jc)
        (CampaignCommandJSON.PORMode jc) (CampaignCommandJSON.PORProtocol jc) (CampaignCommandJSON.PORCiphered jc)
        (CampaignCommandJSON.PORCertMode jc) :: cmds))))
  end.

Definition GetCampaignCommands (campaignID : string) : CM (option (list CampaignCommandCache.t)) :=
  do! data <- lookupString (campaignCommandsKey campaignID);
  match data with
  | None => ret None
  | Some data =>
      do! jsonCmds <- mwrap "unmarshal campaign commands: %w" (mres (Unmarshal data));
      do! cmds <- mres (decodeCommands 0 jsonCmds);
      ret (Some cmds)
  end.

(** *** Campaign status *)

Definition campaignStatusKey (campaignID : string) : string := "campaign:" +:+ campaignID +:+ ":status".

Definition SetCampaignStatus (campaignID status : string) : CM unit :=
  do! _ <- Exec [SET (campaignStatusKey campaignID) status (24 * hour)]; ret tt.

Definition GetCampaignStatus (campaignID : string) : CM string :=
  do! status <- lookupString (campaignStatusKey campaignID);
  ret (default "" status).

(** *** Multipart tracking *)

Definition multipartKey (msgID : string) : string := "multipart:" +:+ msgID.

Definition InitMultipartTracking (msgID : string) (totalParts : Z) : CM unit :=
  let key := multipartKey msgID in
  do! _ <- Exec [HSET key [("total", pretty totalParts); ("delivered", pretty 0); ("failed", pretty 0)]; EXPIRE key (10 * minute)];
  ret tt.

Definition RecordPartDLR (msgID : string) (delivered : bool) : CM (bool * bool) :=
  let field := if delivered then "delivered" else "failed" in
  do! result <- mwrap "record part DLR lua: %w"
    (do! r <- atServer (recordPartDLRScript (multipartKey msgID) field); mres r);
  match result with
  | tracked :: total :: del :: fail :: _ =>
      if tracked =? 0 then merr GatewayStore.ErrNoMultipartTracking
      else if total <=? 0 then merr (Errorf "multipart tracking for msg %s has invalid total: %d" [ArgStr msgID; ArgInt total])
      else ret (total <=? del + fail, 0 <? fail)
  | _ => merr (Errorf "unexpected lua result length: %d" [ArgInt (zlen result)])
  end.

(** *** SMPP correlation *)

Definition smppKey (smppMsgID : string) : string := "smpp:" +:+ smppMsgID.

Definition StoreSMPPCorrelation (smppMsgID : string) (mapping : SMPPMapping.t) : CM unit :=
  do! data <- mwrap "marshal smpp mapping: %w" (mres (Marshal mapping));
  do! _ <- Exec [SET (smppKey smppMsgID) data (5 * minute)];
  ret tt.

Definition LoadSMPPCorrelation (smppMsgID : string) : CM (option SMPPMapping.t) :=
  let key := smppKey smppMsgID in
  do! r <- try (Exec [GET key; DEL key]);
  match r with
  | Err e => if bool_decide (e = redis_Nil) then ret None else merr e
  | Panic p => mres (Panic p)
  | Ok rps => do! mapping <- mwrap "unmarshal smpp mapping: %w" (mres (Unmarshal (bulk rps))); ret (Some mapping)
  end.

(** *** Dedupe *)

Definition dedupeKey (eventID : string) : string := "dedupe:" +:+ eventID.

Definition CheckAndSetDedupe (eventID : string) : CM bool :=
  do! rps <- Exec [SETNX (dedupeKey eventID) "1" (10 * minute)];
  ret (number rps =? 1).

(** *** Profiles and campaign parameters *)

Definition profileCacheKey (profileID : string) : string := "profile:" +:+ profileID.

Definition CacheProfile (profileID : string) (profile : Profile.t) : CM unit :=
  do! data <- mwrap "marshal profile: %w" (mres (Marshal profile));
  do! _ <- Exec [SET (profileCacheKey profileID) data (1 * hour)];
  ret tt.

Definition GetCachedProfile (profileID : string) : CM Profile.t :=
  do! data <- lookupString (profileCacheKey profileID);
  match data with
  | None => merr redis_Nil
  | Some data => mres (Unmarshal data)
  end.

Definition campaignParamsKey (campaignID : string) : string := "campaign_params:" +:+ campaignID.

Definition CacheCampaignParams (campaignID : string) (params : CampaignParams.t) : CM unit :=
  do! data <- mwrap "marshal campaign params: %w" (mres (Marshal params));
  do! _ <- Exec [SET (campaignParamsKey campaignID) data (1 * hour)];
  ret tt.

Definition GetCachedCampaignParams (campaignID : string) : CM (option CampaignParams.t) :=
  do! data <- lookupString (campaignParamsKey campaignID);
  match data with
  | None => ret None
  | Some data => do! params <- mwrap "unmarshal campaign params: %w" (mres (Unmarshal data)); ret (Some params)
  end.

(** *** Throttle *)

Definition throttleKey (campaignID : string) (now : Z) : string := "throttle:" +:+ campaignID +:+ ":" +:+ pretty now.

Definition AcquireThrottle (campaignID : string) (ratePerSec : Z) : CM bool :=
  do! now <- gets (fun c => nt_clock (net c) (rounds c) / second);
  let key := throttleKey campaignID now in
  do! rps <- Exec [INCR key; EXPIRE key (2 * second)];
  ret (number rps <=? ratePerSec).

(** *** client.go: SetHashFields *)

Definition SetHashFields (key : string) (fields : list (string * Z)) : CM unit :=
  do! _ <- Exec [HSET key (prod_map id pretty <$> fields); EXPIRE key (24 * hour)];
  ret tt.
End Client.

(** ** Encryption of values *)

Class AEAD (C : Type) := {
  NonceSize : C -> Z;
  Seal : C -> list Z -> list Z -> list Z;          (** nonce, plaintext *)
  Open : C -> list Z -> list Z -> res (list Z)     (** nonce, ciphertext *)
}.
Class AEADLaws (C : Type) `{!AEAD C} := {
  nonce_size c : 0 <= NonceSize c;
  open_seal c nonce plaintext : zlen nonce = NonceSize c -> Open c nonce (Seal c nonce plaintext) = Ok plaintext
}.

Section Encryption.
Context {C : Type} `{!AEAD C}.

(** [nonce]: what [rand.Reader] gives for the size, or its error. *)
Definition encryptData (aead : option C) (nonce : Z -> res (list Z)) (plaintext : list Z) : res (list Z) :=
  match aead with
  | None => Ok plaintext
  | Some a => rbind (nonce (NonceSize a)) (fun nonce => Ok (nonce ++ Seal a nonce plaintext))
  end.

Definition decryptData (aead : option C) (ciphertext : list Z) : res (list Z) :=
  match aead with
  | None => Ok ciphertext
  | Some a =>
      if zlen ciphertext <? NonceSize a then Err (Errorf "ciphertext too short" [])
      else rbind (slice ciphertext 0 (NonceSize a)) (fun nonce =>
           rbind (slice ciphertext (NonceSize a) (zlen ciphertext)) (fun ciphertext => Open a nonce ciphertext))
  end.

(** *** client.go: NewClient *)

Record Config := mkConfig { Addr : string; Password : string; DB : Z; PoolSize : Z; MinIdleConns : Z }.

(** [redis.Options]: a zero pool size is ten connections a processor, zero idle connections are five. *)
Definition clientOptions (numCPU : Z) (cfg : Config) : Config :=
  mkConfig (Addr cfg) (Password cfg) (DB cfg) (if PoolSize cfg =? 0 then 10 * numCPU else PoolSize cfg)
    (if MinIdleConns cfg =? 0 then 5 else MinIdleConns cfg).

(** [aes.NewCipher] and [cipher.NewGCM] are parameters; [ping] is the outcome of the first round trip.  The result is the client's options and
    cipher, and the caller's key slice: zeroed once there is a client, as it was when there is an error. *)
Definition NewClient {B} (newCipher : list Z -> res B) (newGCM : B -> res C) (numCPU : Z) (ping : res unit) (cfg : Config) (encryptionKey : list Z)
    : res (Config * option C) * list Z :=
  let aead := if 0 <? zlen encryptionKey
              then rbind (rwrap "create redis encryption cipher: %w" (newCipher encryptionKey)) (fun block =>
                   rbind (rwrap "create redis encryption AEAD: %w" (newGCM block)) (fun aead => Ok (Some aead)))
              else Ok None in
  match rbind (rwrap "redis ping failed: %w" ping) (fun _ => aead) with
  | Ok aead => (Ok (clientOptions numCPU cfg, aead), (fun _ => 0) <$> encryptionKey)
  | Err e => (Err e, encryptionKey)
  | Panic p => (Panic p, encryptionKey)
  end.
End Encryption.
