(* ===== verification/RedisProps.v ===== *)
(** * The Redis client refines a typed store

    [Spec] is what the client promises: a store whose keys say what they are about, whose values
    are the program's own and which forgets a value at its deadline.  The theorem below says that the flat
    keyspace of texts with hashes, JSON and hexadecimal digits implements it: keys of different
    kinds never meet, and what is written is what is read.  On top of it: the throttle keeps its
    limit per second, and the client and the process-local store of the gateway answer alike. *)

From S2P Require Import Prelude Effects Models Pipeline HexUtil Store Decimal Redis.

(** ** Keyspaces *)

Definition visible (t : Z) (e : entry) : option entry :=
  match en_deadline e with Some d => if t <? d then Some e else None | None => Some e end.

Lemma live_visible t k ks : live t k ks = ks !! k ≫= visible t.
Proof. done. Qed.

Lemma live_insert t k e ks k' : live t k' (<[k := e]> ks) = if decide (k = k') then visible t e else live t k' ks.
Proof.
  rewrite !live_visible. case_decide as H; [subst; by rewrite lookup_insert_eq | by rewrite lookup_insert_ne].
Qed.

Lemma live_delete t k ks k' : live t k' (delete k ks) = if decide (k = k') then None else live t k' ks.
Proof.
  rewrite !live_visible. case_decide as H; [subst; by rewrite lookup_delete_eq | by rewrite lookup_delete_ne].
Qed.

Lemma live_later t t' k ks : t <= t' -> live t' k ks = live t k ks ≫= visible t'.
Proof.
  intros Ht. rewrite !live_visible. destruct (ks !! k) as [e|]; [|done]. cbn. unfold visible. destruct (en_deadline e) as [d|] eqn:E; [|cbn; by rewrite E].
  destruct (t <? d) eqn:E1; cbn; [by rewrite E|]. destruct (t' <? d) eqn:E2; [lia | done].
Qed.

#[global] Instance shows_equiv t : Equivalence (shows t).
Proof. split; [by intros ks k | intros ks ks' H k; by rewrite H | intros ks1 ks2 ks3 H1 H2 k; by rewrite H1, H2]. Qed.
#[global] Instance live_proper t k : Proper (shows t ==> (=)) (live t k).
Proof. intros ks ks' H. apply H. Qed.
#[global] Instance insert_proper t k e : Proper (shows t ==> shows t) (<[k := e]>).
Proof. intros ks ks' H k'. rewrite !live_insert. case_decide; [done | apply H]. Qed.
#[global] Instance delete_proper t k : Proper (shows t ==> shows t) (delete k).
Proof. intros ks ks' H k'. rewrite !live_delete. case_decide; [done | apply H]. Qed.

(** A command sees and changes only what a keyspace shows. *)
Lemma documented_shows c t ks ks' : shows t ks ks' ->
  fst (documented c t ks) = fst (documented c t ks') /\ shows t (snd (documented c t ks)) (snd (documented c t ks')).
Proof.
  intros H. destruct c; cbn [documented]; setoid_rewrite H; try (destruct (live t k ks') as [[[] ]|]); cbn; try destruct (addTo _ _); cbn; (split; [done|]); by rewrite ?H.
Qed.

Section Server.
Context {R : Type} `{!Redis R, !RedisLaws R}.

Lemma run_shows {A} (p : prog A) t r ks : shows t (keys r) ks ->
  fst (run execute p t r) = fst (run documented p t ks) /\ shows t (keys (snd (run execute p t r))) (snd (run documented p t ks)).
Proof.
  revert r ks. induction p as [a|c k IH]; intros r ks H; [done|]. cbn.
  pose proof (execute_reply c t r) as Hr. pose proof (execute_keys c t r) as Hk.
  destruct (documented_shows c t _ _ H) as [Hr' Hk'].
  destruct (execute c t r) as [rp r']. destruct (documented c t ks) as [rp' ks'] eqn:E. cbn in *.
  assert (rp = rp') as -> by congruence. apply IH. by rewrite Hk, Hk'.
Qed.
End Server.

(** ** Keys *)

Inductive key :=
| KCard (cardID : string)
| KCommands (campaignID : string)
| KStatus (campaignID : string)
| KParts (msgID : string)
| KSMPP (smppMsgID : string)
| KEvent (eventID : string)
| KProfile (profileID : string)
| KParams (campaignID : string)
| KWindow (campaignID : string) (sec : Z).

#[global] Instance key_eq_dec : EqDecision key.
Proof. solve_decision. Defined.

Definition keyText (k : key) : string :=
  match k with
  | KCard id => cardStateKey id
  | KCommands id => campaignCommandsKey id
  | KStatus id => campaignStatusKey id
  | KParts id => multipartKey id
  | KSMPP id => smppKey id
  | KEvent id => dedupeKey id
  | KProfile id => profileCacheKey id
  | KParams id => campaignParamsKey id
  | KWindow id sec => throttleKey id sec
  end.

Lemma colonFree_compute s : bool_decide (colonFree s) = true -> colonFree s.
Proof. apply bool_decide_eq_true. Qed.

(** No two keys have the same text. *)
#[global] Instance keyText_inj : Inj (=) (=) keyText.
Proof.
  assert (Hs : forall a b u v, bool_decide (colonFree u) = true -> bool_decide (colonFree v) = true ->
    a +:+ ":" +:+ u = b +:+ ":" +:+ v -> a = b /\ u = v).
  { intros a b u v Hu Hv. apply last_colon_inj; by apply colonFree_compute. }
  intros k k'. destruct k, k'; cbn; try (by intros [=]); intros H;
    try (injection H as H; f_equal; exact H).
  - injection H as H. by destruct (Hs _ _ "state" "state" eq_refl eq_refl H) as [-> _].
  - injection H as H. by destruct (Hs _ _ "commands" "commands" eq_refl eq_refl H) as [-> _].
  - injection H as H. by destruct (Hs _ _ "commands" "status" eq_refl eq_refl H) as [_ ?].
  - injection H as H. by destruct (Hs _ _ "status" "commands" eq_refl eq_refl H) as [_ ?].
  - injection H as H. by destruct (Hs _ _ "status" "status" eq_refl eq_refl H) as [-> _].
  - injection H as H. destruct (last_colon_inj _ _ _ _ (pretty_colonFree _) (pretty_colonFree _) H) as [-> Hsec].
    by apply (inj pretty) in Hsec as ->.
Qed.

(** ** The specification *)

Inductive content :=
| VCard (st : CardState.t)
| VCommands (cmds : list CampaignCommandCache.t)
| VStatus (status : string)
| VParts (total delivered failed : Z)
| VMapping (mapping : SMPPMapping.t)
| VSeen
| VProfile (profile : Profile.t)
| VParams (params : CampaignParams.t)
| VCount (n : Z).

(** A value and the time at which it is forgotten. *)
Definition Spec : Type := key -> option (content * Z).

Definition put (k : key) (v : content) (deadline : Z) (m : Spec) : Spec := fun k' => if decide (k = k') then Some (v, deadline) else m k'.
Definition drop_ (k : key) (m : Spec) : Spec := fun k' => if decide (k = k') then None else m k'.

Definition alive (t : Z) (k : key) (m : Spec) : option (content * Z) :=
  match m k with Some (v, d) => if t <? d then Some (v, d) else None | None => None end.

Inductive op :=
| OSetCard (id : string) (st : CardState.t) | OGetCard (id : string) | ODelCard (id : string)
| OCacheCommands (id : string) (cmds : list CampaignCommandCache.t) | OGetCommands (id : string)
| OSetStatus (id status : string) | OGetStatus (id : string)
| OInitParts (id : string) (total : Z) | ORecordPart (id : string) (delivered : bool)
| OStoreSMPP (id : string) (mapping : SMPPMapping.t) | OLoadSMPP (id : string)
| ODedupe (id : string)
| OCacheProfile (id : string) (profile : Profile.t) | OGetProfile (id : string)
| OCacheParams (id : string) (params : CampaignParams.t) | OGetParams (id : string)
| OThrottle (id : string) (rate : Z).

Inductive answer :=
| ADone | ACard (o : option CardState.t) | ACommands (o : option (list CampaignCommandCache.t)) | AStatus (s : string)
| AParts (allResolved anyFailed : bool) | AMapping (o : option SMPPMapping.t) | AFlag (b : bool)
| AProfile (p : Profile.t) | AParams (o : option CampaignParams.t).

(** A part report on a tracked message. *)
Definition countPart (ok : bool) (total delivered failed : Z) : content :=
  if ok then VParts total (delivered + 1) failed else VParts total delivered (failed + 1).

Definition partsAnswer (id : string) (v : content) : res answer :=
  match v with
  | VParts total delivered failed =>
      if total <=? 0 then Err (Errorf "multipart tracking for msg %s has invalid total: %d" [ArgStr id; ArgInt total])
      else Ok (AParts (total <=? delivered + failed) (0 <? failed))
  | _ => Err GatewayStore.ErrNoMultipartTracking
  end.

(** What each operation does at server time [t], with the client's clock at [clock]. *)
Definition sem (o : op) (clock t : Z) (m : Spec) : res answer * Spec :=
  match o with
  | OSetCard id st => (Ok ADone, put (KCard id) (VCard st) (t + 24 * hour) m)
  | OGetCard id => (Ok (ACard (match alive t (KCard id) m with Some (VCard st, _) => Some st | _ => None end)), m)
  | ODelCard id => (Ok ADone, drop_ (KCard id) m)
  | OCacheCommands id cmds => (Ok ADone, put (KCommands id) (VCommands cmds) (t + 12 * hour) m)
  | OGetCommands id => (Ok (ACommands (match alive t (KCommands id) m with Some (VCommands l, _) => Some l | _ => None end)), m)
  | OSetStatus id status => (Ok ADone, put (KStatus id) (VStatus status) (t + 24 * hour) m)
  | OGetStatus id => (Ok (AStatus (match alive t (KStatus id) m with Some (VStatus s, _) => s | _ => "" end)), m)
  | OInitParts id total => (Ok ADone, put (KParts id) (VParts total 0 0) (t + 10 * minute) m)
  | ORecordPart id ok =>
      match alive t (KParts id) m with
      | Some (VParts total delivered failed, d) =>
          let v := countPart ok total delivered failed in (partsAnswer id v, put (KParts id) v d m)
      | _ => (Err GatewayStore.ErrNoMultipartTracking, m)
      end
  | OStoreSMPP id mapping => (Ok ADone, put (KSMPP id) (VMapping mapping) (t + 5 * minute) m)
  | OLoadSMPP id => (Ok (AMapping (match alive t (KSMPP id) m with Some (VMapping x, _) => Some x | _ => None end)), drop_ (KSMPP id) m)
  | ODedupe id =>
      match alive t (KEvent id) m with
      | Some _ => (Ok (AFlag false), m)
      | None => (Ok (AFlag true), put (KEvent id) VSeen (t + 10 * minute) m)
      end
  | OCacheProfile id profile => (Ok ADone, put (KProfile id) (VProfile profile) (t + 1 * hour) m)
  | OGetProfile id => (match alive t (KProfile id) m with Some (VProfile p, _) => Ok (AProfile p) | _ => Err redis_Nil end, m)
  | OCacheParams id params => (Ok ADone, put (KParams id) (VParams params) (t + 1 * hour) m)
  | OGetParams id => (Ok (AParams (match alive t (KParams id) m with Some (VParams p, _) => Some p | _ => None end)), m)
  | OThrottle id rate =>
      let w := KWindow id (clock / second) in
      let n := match alive t w m with Some (VCount n, _) => n + 1 | _ => 1 end in
      (Ok (AFlag (n <=? rate)), put w (VCount n) (t + 2 * second) m)
  end.

(** ** The client *)

Definition int64 (z : Z) : Prop := - 2 ^ 63 <= z < 2 ^ 63.

Section Refinement.
Context {R : Type} `{!Redis R, !RedisLaws R}.
Context {jsC : JSON (list CampaignCommandJSON.t)} {jsM : JSON SMPPMapping.t} {jsP : JSON Profile.t} {jsQ : JSON CampaignParams.t}.
Context {lwC : JSONLaws (list CampaignCommandJSON.t)} {lwM : JSONLaws SMPPMapping.t} {lwP : JSONLaws Profile.t} {lwQ : JSONLaws CampaignParams.t}.

Definition answering {A} (f : A -> answer) (m : M (Client R) A) : M (Client R) answer := do! a <- m; ret (f a).
Definition done_ : M (Client R) unit -> M (Client R) answer := answering (fun _ => ADone).

Definition perform (o : op) : M (Client R) answer :=
  match o with
  | OSetCard id st => done_ (Redis.SetCardState id st)
  | OGetCard id => answering ACard (Redis.GetCardState id)
  | ODelCard id => done_ (DeleteCardState id)
  | OCacheCommands id cmds => done_ (Redis.CacheCampaignCommands id cmds)
  | OGetCommands id => answering ACommands (Redis.GetCampaignCommands id)
  | OSetStatus id status => done_ (Redis.SetCampaignStatus id status)
  | OGetStatus id => answering AStatus (Redis.GetCampaignStatus id)
  | OInitParts id total => done_ (InitMultipartTracking id total)
  | ORecordPart id ok => answering (fun p => AParts (fst p) (snd p)) (RecordPartDLR id ok)
  | OStoreSMPP id mapping => done_ (StoreSMPPCorrelation id mapping)
  | OLoadSMPP id => answering AMapping (LoadSMPPCorrelation id)
  | ODedupe id => answering AFlag (Redis.CheckAndSetDedupe id)
  | OCacheProfile id profile => done_ (Redis.CacheProfile id profile)
  | OGetProfile id => answering AProfile (Redis.GetCachedProfile id)
  | OCacheParams id params => done_ (Redis.CacheCampaignParams id params)
  | OGetParams id => answering AParams (Redis.GetCachedCampaignParams id)
  | OThrottle id rate => answering AFlag (Redis.AcquireThrottle id rate)
  end.

(** ** How values are stored *)

Definition text {A} `{!JSON A} (x : A) : string := match Marshal x with Ok s => s | _ => "" end.

Definition encode (v : content) : rvalue :=
  match v with
  | VCard st => RHash (list_to_map (stateFields st))
  | VCommands cmds => RString (text (commandJSON <$> cmds))
  | VStatus s => RString s
  | VParts total delivered failed => RHash (list_to_map [("total", pretty total); ("delivered", pretty delivered); ("failed", pretty failed)])
  | VMapping x => RString (text x)
  | VSeen => RString "1"
  | VProfile p => RString (text p)
  | VParams p => RString (text p)
  | VCount n => RString (pretty n)
  end.

(** A value belongs under its key, and survives its encoding; [n] bounds the counts. *)
Definition content_ok (n : Z) (k : key) (v : content) : Prop :=
  match k, v with
  | KCard _, VCard st => int64 (CardState.CurrentStep st) /\ int64 (CardState.RetryCount st) /\ int64 (CardState.TransitionSeq st)
  | KCommands _, VCommands cmds =>
      encodable (commandJSON <$> cmds) /\ Forall (fun c => bytes_ok (CampaignCommandCache.Script c) /\ bytes_ok (CampaignCommandCache.TAR c)) cmds
  | KStatus _, VStatus _ => True
  | KParts _, VParts total delivered failed => Z.abs total <= 2 ^ 53 /\ 0 <= delivered <= n /\ 0 <= failed <= n
  | KSMPP _, VMapping x => encodable x
  | KEvent _, VSeen => True
  | KProfile _, VProfile p => encodable p
  | KParams _, VParams p => encodable p
  | KWindow _ _, VCount k => 1 <= k <= n
  | _, _ => False
  end.

Definition op_ok (o : op) : Prop :=
  match o with
  | OSetCard id st => content_ok 0 (KCard id) (VCard st)
  | OCacheCommands id cmds => content_ok 0 (KCommands id) (VCommands cmds)
  | OInitParts id total => content_ok 0 (KParts id) (VParts total 0 0)
  | OStoreSMPP id mapping => content_ok 0 (KSMPP id) (VMapping mapping)
  | OCacheProfile id profile => content_ok 0 (KProfile id) (VProfile profile)
  | OCacheParams id params => content_ok 0 (KParams id) (VParams params)
  | _ => True
  end.

Definition stored (s : content * Z) : entry := mkEntry (encode (fst s)) (Some (snd s)).

(** The keyspace [ks] shows what [m] holds at time [t], after [n] operations. *)
Record rep (n t : Z) (ks : gmap string entry) (m : Spec) : Prop := {
  rep_live k : live t (keyText k) ks = stored <$> alive t k m;
  rep_ok k v d : m k = Some (v, d) -> content_ok n k v
}.

Lemma content_ok_mono n n' k v : n <= n' -> content_ok n k v -> content_ok n' k v.
Proof. intros Hn. destruct k, v; cbn; try done; lia. Qed.

Lemma rep_shows n t ks ks' m : shows t ks ks' -> rep n t ks' m -> rep n t ks m.
Proof. intros Hs [H1 H2]. split; [|done]. intros k. by rewrite Hs. Qed.

Lemma rep_later n n' t t' ks m : n <= n' -> t <= t' -> rep n t ks m -> rep n' t' ks m.
Proof.
  intros Hn Ht [H1 H2]. split.
  - intros k. rewrite (live_later t t'), H1 by done. unfold alive. destruct (m k) as [[v d]|]; [|done].
    destruct (t <? d) eqn:E; cbn; [|by destruct (t' <? d) eqn:E'; [lia|]]. unfold visible. cbn. by destruct (t' <? d).
  - intros k v d Hk. by eapply content_ok_mono; [|eapply H2].
Qed.

Lemma alive_put t k v d m k' : alive t k' (put k v d m) = if decide (k = k') then (if t <? d then Some (v, d) else None) else alive t k' m.
Proof. unfold alive, put. by case_decide. Qed.

Lemma rep_put n n' t ks m k v d : n <= n' -> rep n t ks m -> content_ok n' k v -> rep n' t (<[keyText k := stored (v, d)]> ks) (put k v d m).
Proof.
  intros Hn [H1 H2] Hv. split.
  - intros k'. rewrite live_insert, alive_put. destruct (decide (k = k')) as [<-|Hne].
    + rewrite decide_True by done. unfold visible. cbn. by destruct (t <? d).
    + rewrite decide_False by (by intros ?%(inj keyText)). apply H1.
  - intros k' v' d'. unfold put. case_decide as E; [subst k'; by intros [= <- <-]|]. intros H. by eapply content_ok_mono; [|eapply H2].
Qed.

Lemma rep_drop n n' t ks m k : n <= n' -> rep n t ks m -> rep n' t (delete (keyText k) ks) (drop_ k m).
Proof.
  intros Hn [H1 H2]. split.
  - intros k'. rewrite live_delete. unfold alive, drop_. destruct (decide (k = k')) as [<-|Hne].
    + by rewrite decide_True.
    + rewrite decide_False by (by intros ?%(inj keyText)). apply H1.
  - intros k' v' d'. unfold drop_. case_decide; [done|]. intros Hk. by eapply content_ok_mono; [|eapply H2].
Qed.

(** What is alive belongs under its key. *)
Lemma rep_alive n t ks m k v d : rep n t ks m -> alive t k m = Some (v, d) -> content_ok n k v.
Proof.
  intros [_ H]. unfold alive. destruct (m k) as [[v' d']|] eqn:E; [|done]. destruct (t <? d'); [|done]. intros [= <- <-]. by eapply H.
Qed.

(** ** Round trips *)

Definition srv (c : Client R) : Z := nt_server (net c) (rounds c).
Definition clk (c : Client R) : Z := nt_clock (net c) (rounds c).
Definition next (c : Client R) (r : R) : Client R := mkClient r (net c) (S (rounds c)).

Lemma atServer_run {A} (p : prog A) c : nt_fault (net c) (rounds c) = None ->
  exists r, atServer p c = (Ok (fst (run documented p (srv c) (keys (rdb c)))), next c r) /\
    shows (srv c) (keys r) (snd (run documented p (srv c) (keys (rdb c)))).
Proof.
  intros Hf. unfold atServer. rewrite Hf. fold (srv c).
  destruct (run_shows p (srv c) (rdb c) (keys (rdb c))) as [H1 H2]; [done|].
  destruct (run execute p (srv c) (rdb c)) as [a r]. cbn in *. exists r. by rewrite H1.
Qed.

Lemma Exec_run cmds c : nt_fault (net c) (rounds c) = None ->
  let out := run documented (pipelined cmds) (srv c) (keys (rdb c)) in
  exists r, Exec cmds c = (match firstError (fst out) with Some e => Err e | None => Ok (fst out) end, next c r) /\
    shows (srv c) (keys r) (snd out).
Proof.
  intros Hf out. destruct (atServer_run (pipelined cmds) c Hf) as (r & E & Hs). exists r. split; [|done].
  unfold Exec, bindM. rewrite E. fold out. by destruct (firstError (fst out)).
Qed.

Lemma json_text {A} {js : JSON A} {lw : JSONLaws A} (x : A) : encodable x -> Marshal x = Ok (text x) /\ Unmarshal (text x) = Ok x.
Proof. intros Hx. destruct (json_roundtrip x Hx) as (s & E & U). unfold text. by rewrite E. Qed.

Lemma Exec_set n c m k v s ttl : nt_fault (net c) (rounds c) = None -> rep n (srv c) (keys (rdb c)) m ->
  encode v = RString s -> content_ok (n + 1) k v ->
  exists r, Exec [SET (keyText k) s ttl] c = (Ok [RpOk], next c r) /\ rep (n + 1) (srv c) (keys r) (put k v (srv c + ttl) m).
Proof.
  intros Hf Hr Hv Hok. destruct (Exec_run [SET (keyText k) s ttl] c Hf) as (r & E & Hs). exists r. split; [exact E|].
  eapply rep_shows; [exact Hs|]. cbn. rewrite <- Hv. apply (rep_put n); [lia | done..].
Qed.

Lemma Exec_hset n c m k v fields ttl : nt_fault (net c) (rounds c) = None -> rep n (srv c) (keys (rdb c)) m ->
  encode v = RHash (list_to_map fields) -> content_ok (n + 1) k v ->
  (forall v', content_ok n k v' -> exists h, encode v' = RHash h /\ dom h ⊆ list_to_set fields.*1) ->
  exists r rps, Exec [HSET (keyText k) fields; EXPIRE (keyText k) ttl] c = (Ok rps, next c r) /\
    rep (n + 1) (srv c) (keys r) (put k v (srv c + ttl) m).
Proof.
  intros Hf Hr Hv Hok Hk. destruct (Exec_run [HSET (keyText k) fields; EXPIRE (keyText k) ttl] c Hf) as (r & E & Hs). exists r.
  assert (Hrep : rep (n + 1) (srv c) (<[keyText k := stored (v, srv c + ttl)]> (keys (rdb c))) (put k v (srv c + ttl) m)) by (apply (rep_put n); [lia | done..]).
  cbn in E, Hs. rewrite (rep_live _ _ _ _ Hr) in E, Hs. unfold stored in Hrep. cbn in Hrep. rewrite Hv in Hrep.
  destruct (alive (srv c) k m) as [[v' d]|] eqn:Ea; cbn in E, Hs.
  - destruct (Hk v' (rep_alive _ _ _ _ _ _ _ Hr Ea)) as (h & Hh & Hd). rewrite Hh in E, Hs.
    assert (Hu : (list_to_map fields : gmap string string) ∪ h = list_to_map fields).
    { apply map_eq. intros i. rewrite lookup_union. destruct (list_to_map fields !! i) as [x|] eqn:Ei; [by rewrite union_Some_l|].
      rewrite left_id by apply _. apply not_elem_of_dom. intros Hi. apply Hd in Hi. apply not_elem_of_dom in Ei. by rewrite dom_list_to_map_L in Ei. }
    rewrite Hu in E, Hs. assert (Hlt : (srv c <? d) = true).
    { unfold alive in Ea. destruct (m k) as [[v1 d1]|]; [|done]. destruct (srv c <? d1) eqn:El; [|done]. by injection Ea as <- <-. }
    cbn in E, Hs. rewrite live_insert, decide_True in E, Hs by done. unfold visible in E, Hs. cbn in E, Hs. rewrite Hlt in E, Hs. cbn in E, Hs.
    eexists. split; [exact E|]. eapply rep_shows; [exact Hs|]. rewrite insert_insert_eq. exact Hrep.
  - cbn in E, Hs. rewrite live_insert, decide_True in E, Hs by done. cbn in E, Hs.
    eexists. split; [exact E|]. eapply rep_shows; [exact Hs|]. rewrite insert_insert_eq. exact Hrep.
Qed.

(** A string under [k], or none. *)
Lemma lookupString_run n c m k : nt_fault (net c) (rounds c) = None -> rep n (srv c) (keys (rdb c)) m ->
  (forall v, content_ok n k v -> exists s, encode v = RString s) ->
  exists r, lookupString (keyText k) c =
      (Ok (match alive (srv c) k m with Some (v, _) => match encode v with RString s => Some s | _ => None end | None => None end), next c r) /\
    rep (n + 1) (srv c) (keys r) m.
Proof.
  intros Hf Hr Hk. destruct (Exec_run [GET (keyText k)] c Hf) as (r & E & Hs). exists r. cbn in E, Hs. unfold lookupString, bindM, try. rewrite E. clear E.
  rewrite (rep_live _ _ _ _ Hr) in *. destruct (alive (srv c) k m) as [[v d]|] eqn:Ea; cbn in *.
  - destruct (Hk v (rep_alive _ _ _ _ _ _ _ Hr Ea)) as (s & Hv). rewrite Hv in *. cbn in *. split; [done|].
    eapply rep_shows; [exact Hs|]. by eapply rep_later; [| |exact Hr]; lia.
  - split; [done|]. eapply rep_shows; [exact Hs|]. by eapply rep_later; [| |exact Hr]; lia.
Qed.

Lemma rep_unchanged n t ks ks' m : shows t ks ks' -> rep n t ks' m -> rep (n + 1) t ks m.
Proof. intros Hs Hr. eapply rep_shows; [exact Hs|]. eapply rep_later; [| |exact Hr]; lia. Qed.

Definition stringOf (v : content) : option string := match encode v with RString s => Some s | RHash _ => None end.
Definition hashOf (v : content) : option (gmap string string) := match encode v with RHash h => Some h | RString _ => None end.

Lemma Exec_hgetall n c m k : nt_fault (net c) (rounds c) = None -> rep n (srv c) (keys (rdb c)) m ->
  (forall v, content_ok n k v -> is_Some (hashOf v)) ->
  exists r, Exec [HGETALL (keyText k)] c = (Ok [RpMap (default ∅ (alive (srv c) k m ≫= fun s => hashOf (fst s)))], next c r) /\
    rep (n + 1) (srv c) (keys r) m.
Proof.
  intros Hf Hr Hk. destruct (Exec_run [HGETALL (keyText k)] c Hf) as (r & E & Hs). exists r. cbn in E, Hs. rewrite (rep_live _ _ _ _ Hr) in E, Hs.
  destruct (alive (srv c) k m) as [[v d]|] eqn:Ea; cbn in *; [|by split; [|eapply rep_unchanged]].
  destruct (Hk v (rep_alive _ _ _ _ _ _ _ Hr Ea)) as [h Hh]. unfold hashOf in *. destruct (encode v); [done|]. by split; [|eapply rep_unchanged].
Qed.

Lemma Exec_del n c m k : nt_fault (net c) (rounds c) = None -> rep n (srv c) (keys (rdb c)) m ->
  exists r rps, Exec [DEL (keyText k)] c = (Ok rps, next c r) /\ rep (n + 1) (srv c) (keys r) (drop_ k m).
Proof.
  intros Hf Hr. destruct (Exec_run [DEL (keyText k)] c Hf) as (r & E & Hs). exists r. eexists. split; [exact E|].
  eapply rep_shows; [exact Hs|]. apply (rep_drop n); [lia | done].
Qed.

Lemma Exec_take n c m k : nt_fault (net c) (rounds c) = None -> rep n (srv c) (keys (rdb c)) m ->
  (forall v, content_ok n k v -> is_Some (stringOf v)) ->
  exists r rp, Exec [GET (keyText k); DEL (keyText k)] c =
      (match alive (srv c) k m ≫= fun s => stringOf (fst s) with Some s => Ok [RpBulk s; rp] | None => Err redis_Nil end, next c r) /\
    rep (n + 1) (srv c) (keys r) (drop_ k m).
Proof.
  intros Hf Hr Hk. destruct (Exec_run [GET (keyText k); DEL (keyText k)] c Hf) as (r & E & Hs). exists r. cbn in E, Hs. rewrite (rep_live _ _ _ _ Hr) in E, Hs.
  assert (Hrep : rep (n + 1) (srv c) (delete (keyText k) (keys (rdb c))) (drop_ k m)) by (apply (rep_drop n); [lia | done]).
  destruct (alive (srv c) k m) as [[v d]|] eqn:Ea; cbn in *.
  - destruct (Hk v (rep_alive _ _ _ _ _ _ _ Hr Ea)) as [s Hv]. unfold stringOf in *. destruct (encode v); [|done]. cbn in *.
    eexists. split; [exact E|]. by eapply rep_shows.
  - exists RpNil. split; [exact E|]. by eapply rep_shows.
Qed.

Lemma Exec_setnx n c m k v s ttl : nt_fault (net c) (rounds c) = None -> rep n (srv c) (keys (rdb c)) m ->
  encode v = RString s -> content_ok (n + 1) k v ->
  exists r, Exec [SETNX (keyText k) s ttl] c = (Ok [RpInt (match alive (srv c) k m with Some _ => 0 | None => 1 end)], next c r) /\
    rep (n + 1) (srv c) (keys r) (match alive (srv c) k m with Some _ => m | None => put k v (srv c + ttl) m end).
Proof.
  intros Hf Hr Hv Hok. destruct (Exec_run [SETNX (keyText k) s ttl] c Hf) as (r & E & Hs). exists r. cbn in E, Hs. rewrite (rep_live _ _ _ _ Hr) in E, Hs.
  destruct (alive (srv c) k m) as [[v' d]|] eqn:Ea; cbn in *; (split; [exact E|]); [by eapply rep_unchanged|].
  eapply rep_shows; [exact Hs|]. rewrite <- Hv. apply (rep_put n); [lia | done..].
Qed.

(** ** Each operation *)

Definition simulates (o : op) : Prop := forall n c m,
  nt_fault (net c) (rounds c) = None -> 0 <= n < 2 ^ 53 -> rep n (srv c) (keys (rdb c)) m -> op_ok o ->
  exists r, perform o c = (fst (sem o (clk c) (srv c) m), next c r) /\ rep (n + 1) (srv c) (keys r) (snd (sem o (clk c) (srv c) m)).

Lemma content_family n k v : content_ok n k v ->
  match k with
  | KCard _ => exists st, v = VCard st
  | KCommands _ => exists l, v = VCommands l
  | KStatus _ => exists s, v = VStatus s
  | KParts _ => exists a b c, v = VParts a b c
  | KSMPP _ => exists x, v = VMapping x
  | KEvent _ => v = VSeen
  | KProfile _ => exists x, v = VProfile x
  | KParams _ => exists x, v = VParams x
  | KWindow _ _ => exists n, v = VCount n
  end.
Proof. destruct k, v; cbn; intros ?; try done; eauto. Qed.

(** The contents of a key of a string kind are strings. *)
Definition stringKind (k : key) : Prop := match k with KCard _ | KParts _ => False | _ => True end.

Lemma kind_string n k v : stringKind k -> content_ok n k v -> exists s, encode v = RString s.
Proof. destruct k, v; cbn; try done; intros _ _; by eexists. Qed.

Lemma int64_value (z : Z) : int64 z -> atoiValue (pretty z) = z.
Proof. intros Hz. unfold atoiValue. rewrite numeral_pretty. unfold int64 in Hz. lia. Qed.

Lemma fieldsState_stateFields st : content_ok 0 (KCard "") (VCard st) -> fieldsState (list_to_map (stateFields st)) = st.
Proof.
  destruct st as [a b c d e f g]. cbn. intros (Hb & Hd & Hg).
  transitivity (CardState.mk a (atoiValue (pretty b)) c (atoiValue (pretty d)) e f (atoiValue (pretty g))); [reflexivity|]. by rewrite !int64_value.
Qed.

Lemma decode_commands l : Forall (fun c => bytes_ok (CampaignCommandCache.Script c) /\ bytes_ok (CampaignCommandCache.TAR c)) l ->
  forall i, decodeCommands i (commandJSON <$> l) = Ok l.
Proof.
  intros Hl. assert (Hd : forall b, bytes_ok b -> DecodeString (EncodeToString b) = Ok b).
  { intros b Hb. unfold DecodeString, EncodeToString. rewrite string_bytes_of_bytes.
    - pose proof (hex_decode_encode id b from_hex_digit Hb) as H. by rewrite list_fmap_id in H.
    - pose proof (hex_encode_chars id b) as H. rewrite list_fmap_id in H. eapply Forall_impl; [apply H|]; [apply from_hex_digit | done | apply hex_char_is_byte]. }
  induction Hl as [|[] l [H1 H2] _ IH]; intros i; [done|].
  cbn -[DecodeString EncodeToString] in *. rewrite (Hd _ H1). cbn -[DecodeString EncodeToString]. rewrite (Hd _ H2). cbn -[DecodeString EncodeToString]. by rewrite IH.
Qed.

Lemma sim_set_card id st : simulates (OSetCard id st).
Proof.
  intros n c m Hf Hn Hr Hok. destruct (Exec_hset n c m (KCard id) (VCard st) (stateFields st) (24 * hour) Hf Hr) as (r & rps & E & Hr').
  - done.
  - exact Hok.
  - intros v Hv. apply content_family in Hv as [st' ->]. eexists. split; [done|]. by rewrite dom_list_to_map_L.
  - exists r. split; [|done]. cbn [perform sem fst]. cbn [keyText] in E. unfold done_, answering, Redis.SetCardState, bindM. cbv zeta. by rewrite E.
Qed.

Lemma sim_get_card id : simulates (OGetCard id).
Proof.
  intros n c m Hf Hn Hr _. destruct (Exec_hgetall n c m (KCard id) Hf Hr) as (r & E & Hr').
  { intros v Hv. by destruct (content_family _ _ _ Hv) as [st ->]. }
  exists r. split; [|done]. cbn [perform sem fst]. unfold answering, Redis.GetCardState, bindM. cbn [keyText] in E. rewrite E. clear E.
  destruct (alive (srv c) (KCard id) m) as [[v d]|] eqn:Ea; [|done].
  pose proof (rep_alive _ _ _ _ _ _ _ Hr Ea) as Hv. destruct (content_family _ _ _ Hv) as [st ->]. cbn [option_bind mbind fst hashOf encode default fieldsOf].
  rewrite bool_decide_false by (intros H; apply (f_equal (lookup "status")) in H; done). cbv zeta.
  unfold Datatypes.id. by rewrite (fieldsState_stateFields st Hv).
Qed.

Lemma sim_del_card id : simulates (ODelCard id).
Proof.
  intros n c m Hf Hn Hr _. destruct (Exec_del n c m (KCard id) Hf Hr) as (r & rps & E & Hr'). exists r. split; [|done].
  cbn [perform sem fst]. unfold done_, answering, DeleteCardState, bindM. cbn [keyText] in E. by rewrite E.
Qed.

Lemma sim_cache_commands id cmds : simulates (OCacheCommands id cmds).
Proof.
  intros n c m Hf Hn Hr Hok. destruct Hok as [He Hb]. destruct (json_text _ He) as [Hm _].
  destruct (Exec_set n c m (KCommands id) (VCommands cmds) _ (12 * hour) Hf Hr eq_refl (conj He Hb)) as (r & E & Hr'). exists r. split; [|done].
  cbn [perform sem fst]. unfold done_, answering, Redis.CacheCampaignCommands, bindM, mwrap, mres. rewrite Hm. cbn [rwrap]. cbn [keyText] in E. by rewrite E.
Qed.

Lemma sim_set_status id status : simulates (OSetStatus id status).
Proof.
  intros n c m Hf Hn Hr _. destruct (Exec_set n c m (KStatus id) (VStatus status) _ (24 * hour) Hf Hr eq_refl I) as (r & E & Hr'). exists r. split; [|done].
  cbn [perform sem fst]. unfold done_, answering, Redis.SetCampaignStatus, bindM. cbn [keyText] in E. by rewrite E.
Qed.

Lemma sim_store_smpp id x : simulates (OStoreSMPP id x).
Proof.
  intros n c m Hf Hn Hr Hok. destruct (json_text _ Hok) as [Hm _].
  destruct (Exec_set n c m (KSMPP id) (VMapping x) _ (5 * minute) Hf Hr eq_refl Hok) as (r & E & Hr'). exists r. split; [|done].
  cbn [perform sem fst]. unfold done_, answering, StoreSMPPCorrelation, bindM, mwrap, mres. rewrite Hm. cbn [rwrap]. cbn [keyText] in E. by rewrite E.
Qed.

Lemma sim_cache_profile id x : simulates (OCacheProfile id x).
Proof.
  intros n c m Hf Hn Hr Hok. destruct (json_text _ Hok) as [Hm _].
  destruct (Exec_set n c m (KProfile id) (VProfile x) _ (1 * hour) Hf Hr eq_refl Hok) as (r & E & Hr'). exists r. split; [|done].
  cbn [perform sem fst]. unfold done_, answering, Redis.CacheProfile, bindM, mwrap, mres. rewrite Hm. cbn [rwrap]. cbn [keyText] in E. by rewrite E.
Qed.

Lemma sim_cache_params id x : simulates (OCacheParams id x).
Proof.
  intros n c m Hf Hn Hr Hok. destruct (json_text _ Hok) as [Hm _].
  destruct (Exec_set n c m (KParams id) (VParams x) _ (1 * hour) Hf Hr eq_refl Hok) as (r & E & Hr'). exists r. split; [|done].
  cbn [perform sem fst]. unfold done_, answering, Redis.CacheCampaignParams, bindM, mwrap, mres. rewrite Hm. cbn [rwrap]. cbn [keyText] in E. by rewrite E.
Qed.

Lemma sim_get_commands id : simulates (OGetCommands id).
Proof.
  intros n c m Hf Hn Hr _. destruct (lookupString_run n c m (KCommands id) Hf Hr) as (r & E & Hr'); [intros v; by apply kind_string|].
  exists r. split; [|done]. cbn [perform sem fst]. unfold answering, Redis.GetCampaignCommands, bindM. cbn [keyText] in E. rewrite E. clear E.
  destruct (alive (srv c) (KCommands id) m) as [[v d]|] eqn:Ea; [|done].
  pose proof (rep_alive _ _ _ _ _ _ _ Hr Ea) as Hv. destruct (content_family _ _ _ Hv) as [l ->]. destruct Hv as [He Hb]. destruct (json_text _ He) as [_ Hu].
  cbn [encode]. unfold mwrap, mres. rewrite Hu. cbn [rwrap]. by rewrite decode_commands.
Qed.

Lemma sim_get_status id : simulates (OGetStatus id).
Proof.
  intros n c m Hf Hn Hr _. destruct (lookupString_run n c m (KStatus id) Hf Hr) as (r & E & Hr'); [intros v; by apply kind_string|].
  exists r. split; [|done]. cbn [perform sem fst]. unfold answering, Redis.GetCampaignStatus, bindM. cbn [keyText] in E. rewrite E. clear E.
  destruct (alive (srv c) (KStatus id) m) as [[v d]|] eqn:Ea; [|done].
  pose proof (rep_alive _ _ _ _ _ _ _ Hr Ea) as Hv. by destruct (content_family _ _ _ Hv) as [l ->].
Qed.

Lemma sim_get_profile id : simulates (OGetProfile id).
Proof.
  intros n c m Hf Hn Hr _. destruct (lookupString_run n c m (KProfile id) Hf Hr) as (r & E & Hr'); [intros v; by apply kind_string|].
  exists r. split; [|done]. cbn [perform sem fst]. unfold answering, Redis.GetCachedProfile, bindM. cbn [keyText] in E. rewrite E. clear E.
  destruct (alive (srv c) (KProfile id) m) as [[v d]|] eqn:Ea; [|done].
  pose proof (rep_alive _ _ _ _ _ _ _ Hr Ea) as Hv. destruct (content_family _ _ _ Hv) as [l ->]. destruct (json_text _ Hv) as [_ Hu].
  cbn [encode]. unfold mres. by rewrite Hu.
Qed.

Lemma sim_get_params id : simulates (OGetParams id).
Proof.
  intros n c m Hf Hn Hr _. destruct (lookupString_run n c m (KParams id) Hf Hr) as (r & E & Hr'); [intros v; by apply kind_string|].
  exists r. split; [|done]. cbn [perform sem fst]. unfold answering, Redis.GetCachedCampaignParams, bindM. cbn [keyText] in E. rewrite E. clear E.
  destruct (alive (srv c) (KParams id) m) as [[v d]|] eqn:Ea; [|done].
  pose proof (rep_alive _ _ _ _ _ _ _ Hr Ea) as Hv. destruct (content_family _ _ _ Hv) as [l ->]. destruct (json_text _ Hv) as [_ Hu].
  cbn [encode]. unfold mwrap, mres. by rewrite Hu.
Qed.

Lemma sim_load_smpp id : simulates (OLoadSMPP id).
Proof.
  intros n c m Hf Hn Hr _. destruct (Exec_take n c m (KSMPP id) Hf Hr) as (r & rp & E & Hr').
  { intros v Hv. by destruct (content_family _ _ _ Hv) as [x ->]. }
  exists r. split; [|done]. cbn [perform sem fst]. unfold answering, LoadSMPPCorrelation, bindM, try. cbv zeta. cbn [keyText] in E. rewrite E. clear E.
  destruct (alive (srv c) (KSMPP id) m) as [[v d]|] eqn:Ea; [|done].
  pose proof (rep_alive _ _ _ _ _ _ _ Hr Ea) as Hv. destruct (content_family _ _ _ Hv) as [x ->]. destruct (json_text _ Hv) as [_ Hu].
  cbn [option_bind mbind fst stringOf encode bulk]. unfold mwrap, mres. by rewrite Hu.
Qed.

Lemma sim_dedupe id : simulates (ODedupe id).
Proof.
  intros n c m Hf Hn Hr _. destruct (Exec_setnx n c m (KEvent id) VSeen "1" (10 * minute) Hf Hr eq_refl I) as (r & E & Hr'). exists r.
  cbn [perform sem]. unfold answering, Redis.CheckAndSetDedupe, bindM. cbn [keyText] in E. rewrite E. clear E.
  by destruct (alive (srv c) (KEvent id) m) as [[v d]|].
Qed.

Lemma sim_init_parts id total : simulates (OInitParts id total).
Proof.
  intros n c m Hf Hn Hr Hok. cbn in Hok.
  destruct (Exec_hset n c m (KParts id) (VParts total 0 0) [("total", pretty total); ("delivered", pretty 0); ("failed", pretty 0)] (10 * minute) Hf Hr) as (r & rps & E & Hr').
  - done.
  - cbn. lia.
  - intros v Hv. apply content_family in Hv as (x & y & z & ->). eexists. split; [done|]. by rewrite dom_list_to_map_L.
  - exists r. split; [|done]. cbn [perform sem fst]. cbn [keyText] in E. unfold done_, answering, InitMultipartTracking, bindM. cbv zeta. by rewrite E.
Qed.

Lemma addTo_pretty z n : int64 z -> int64 (z + n) -> addTo (pretty z) n = inr (z + n).
Proof.
  unfold int64, addTo, integerOf. intros Hz Hn. rewrite Atoi_pretty by done. rewrite bool_decide_true by done.
  assert (E : (- 2 ^ 63 <=? z + n) && (z + n <? 2 ^ 63) = true) by lia. by rewrite E.
Qed.

Lemma alive_until t k m v d : alive t k m = Some (v, d) -> (t <? d) = true.
Proof. unfold alive. destruct (m k) as [[v' d']|]; [|done]. destruct (t <? d') eqn:E; [|done]. by intros [= <- <-]. Qed.

(** INCR and EXPIRE on a window. *)
Lemma Exec_incr n c m k ttl : 0 <= n < 2 ^ 53 -> nt_fault (net c) (rounds c) = None -> rep n (srv c) (keys (rdb c)) m ->
  (forall n v, content_ok n k v <-> exists x, v = VCount x /\ 1 <= x <= n) ->
  let x := match alive (srv c) k m with Some (VCount x, _) => x + 1 | _ => 1 end in
  exists r rps, Exec [INCR (keyText k); EXPIRE (keyText k) ttl] c = (Ok (RpInt x :: rps), next c r) /\
    rep (n + 1) (srv c) (keys r) (put k (VCount x) (srv c + ttl) m).
Proof.
  intros Hn Hf Hr Hk. destruct (Exec_run [INCR (keyText k); EXPIRE (keyText k) ttl] c Hf) as (r & E & Hs). cbn in E, Hs. rewrite (rep_live _ _ _ _ Hr) in E, Hs.
  destruct (alive (srv c) k m) as [[v d]|] eqn:Ea.
  - pose proof (rep_alive _ _ _ _ _ _ _ Hr Ea) as Hv. apply Hk in Hv as (x & -> & Hx). cbn [fmap option_fmap option_map stored encode fst snd] in E, Hs.
    rewrite addTo_pretty in E, Hs by (unfold int64; lia). cbn in E, Hs. rewrite live_insert, decide_True in E, Hs by done.
    unfold visible in E, Hs. cbn in E, Hs. rewrite (alive_until _ _ _ _ _ Ea) in E, Hs. cbn in E, Hs.
    eexists r, _. split; [exact E|]. eapply rep_shows; [exact Hs|]. rewrite insert_insert_eq.
    apply (rep_put n _ _ _ _ k (VCount (x + 1)) (srv c + ttl)); [lia | done |]. apply Hk. eexists. split; [done | lia].
  - cbn in E, Hs. rewrite live_insert, decide_True in E, Hs by done. cbn in E, Hs.
    eexists r, _. split; [exact E|]. eapply rep_shows; [exact Hs|]. rewrite insert_insert_eq.
    apply (rep_put n _ _ _ _ k (VCount 1) (srv c + ttl)); [lia | done |]. apply Hk. eexists. split; [done | lia].
Qed.

Lemma sim_throttle id rate : simulates (OThrottle id rate).
Proof.
  intros n c m Hf Hn Hr _. destruct (Exec_incr n c m (KWindow id (clk c / second)) (2 * second) Hn Hf Hr) as (r & rps & E & Hr').
  { intros n' v. split; [by destruct v; cbn; intros; eauto | by intros (x & -> & Hx)]. }
  exists r. split; [|done]. cbn [perform sem fst]. unfold answering, Redis.AcquireThrottle, bindM, gets. cbv zeta. fold (clk c). cbn [keyText] in E. by rewrite E.
Qed.

(** The script on a tracked message. *)
Lemma script_tracked key field t ks h dl (z total delivered failed : Z) :
  live t key ks = Some (mkEntry (RHash h) (Some dl)) -> (t <? dl) = true -> addTo (default "0" (h !! field)) 1 = inr z ->
  Z.abs total <= 2 ^ 53 -> Z.abs delivered <= 2 ^ 53 -> Z.abs failed <= 2 ^ 53 ->
  <[field := pretty z]> h = list_to_map [("total", pretty total); ("delivered", pretty delivered); ("failed", pretty failed)] ->
  run documented (recordPartDLRScript key field) t ks =
    (Ok [1; total; delivered; failed], <[key := stored (VParts total delivered failed, dl)]> ks).
Proof.
  intros Hl Ht Ha H1 H2 H3 Hh. unfold recordPartDLRScript. cbn [run documented]. rewrite Hl. cbn [run documented]. rewrite Hl, Ha. rewrite Hh.
  assert (Hl' : forall e, live t key (<[key := mkEntry e (Some dl)]> ks) = Some (mkEntry e (Some dl))).
  { intros e. rewrite live_insert, decide_True by done. unfold visible. cbn. by rewrite Ht. }
  cbn [run documented]. rewrite Hl'. cbn [run documented]. rewrite Hl'. cbn [run documented]. rewrite Hl'.
  change (list_to_map [("total", pretty total); ("delivered", pretty delivered); ("failed", pretty failed)] !! "total") with (Some (pretty total)).
  change (list_to_map [("total", pretty total); ("delivered", pretty delivered); ("failed", pretty failed)] !! "delivered") with (Some (pretty delivered)).
  change (list_to_map [("total", pretty total); ("delivered", pretty delivered); ("failed", pretty failed)] !! "failed") with (Some (pretty failed)).
  cbn [run numberOf]. rewrite !tonumber_exact by done. done.
Qed.

Lemma part_counted (ok : bool) (total d f : Z) :
  <[(if ok then "delivered" else "failed") := pretty (if ok then d + 1 else f + 1)]>
    (list_to_map [("total", pretty total); ("delivered", pretty d); ("failed", pretty f)] : gmap string string) =
  list_to_map [("total", pretty total); ("delivered", pretty (if ok then d + 1 else d)); ("failed", pretty (if ok then f else f + 1))].
Proof.
  cbn [list_to_map foldr uncurry fst snd]. destruct ok; apply map_eq; intros i; rewrite !lookup_insert; repeat case_decide; subst; done.
Qed.

Lemma script_run n c m k (ok : bool) : 0 <= n < 2 ^ 53 -> nt_fault (net c) (rounds c) = None -> rep n (srv c) (keys (rdb c)) m ->
  (forall n v, content_ok n k v <-> exists total d f, v = VParts total d f /\ Z.abs total <= 2 ^ 53 /\ 0 <= d <= n /\ 0 <= f <= n) ->
  exists r, atServer (recordPartDLRScript (keyText k) (if ok then "delivered" else "failed")) c =
      (Ok (Ok (match alive (srv c) k m with
               | Some (VParts total d f, _) => [1; total; if ok then d + 1 else d; if ok then f else f + 1]
               | _ => [0; 0; 0; 0]
               end)), next c r) /\
    rep (n + 1) (srv c) (keys r) (match alive (srv c) k m with Some (VParts total d f, dl) => put k (countPart ok total d f) dl m | _ => m end).
Proof.
  intros Hn Hf Hr Hk. destruct (atServer_run (recordPartDLRScript (keyText k) (if ok then "delivered" else "failed")) c Hf) as (r & E & Hs).
  exists r. rewrite E. clear E. pose proof (rep_live _ _ _ _ Hr k) as Hl. destruct (alive (srv c) k m) as [[v dl]|] eqn:Ea; cbn [fmap option_fmap option_map] in Hl.
  - pose proof (rep_alive _ _ _ _ _ _ _ Hr Ea) as Hv. apply Hk in Hv as (total & d & f & -> & Ht & Hd & Hfa).
    assert (E : run documented (recordPartDLRScript (keyText k) (if ok then "delivered" else "failed")) (srv c) (keys (rdb c)) =
      (Ok [1; total; if ok then d + 1 else d; if ok then f else f + 1], <[keyText k := stored (countPart ok total d f, dl)]> (keys (rdb c)))).
    { replace (countPart ok total d f) with (VParts total (if ok then d + 1 else d) (if ok then f else f + 1)) by (by destruct ok).
      apply (script_tracked _ _ _ _ _ _ (if ok then d + 1 else f + 1) _ _ _ Hl (alive_until _ _ _ _ _ Ea)).
      - destruct ok; [change (_ !! _) with (Some (pretty d)) | change (_ !! _) with (Some (pretty f))]; cbn [default]; apply addTo_pretty; unfold int64; lia.
      - done.
      - destruct ok; lia.
      - destruct ok; lia.
      - apply part_counted. }
    rewrite E in *. split; [done|]. eapply rep_shows; [exact Hs|]. apply (rep_put n); [lia | done |]. apply Hk.
    unfold countPart. destruct ok; eexists _, _, _; (split; [done|]); lia.
  - unfold recordPartDLRScript in *. cbn [run documented] in *. rewrite Hl in *. cbn [run documented fst snd] in *. split; [done | by eapply rep_unchanged].
Qed.

Lemma sim_record_part id ok : simulates (ORecordPart id ok).
Proof.
  intros n c m Hf Hn Hr _. destruct (script_run n c m (KParts id) ok Hn Hf Hr) as (r & E & Hr').
  { intros n' v. split; [destruct v; cbn; intros; try done; eauto 10 | by intros (total & d & f & -> & Hx)]. }
  exists r. cbn [perform sem]. unfold answering, RecordPartDLR, bindM, mwrap. cbv zeta. cbn [keyText] in E. unfold bindM. rewrite E. clear E. unfold mres. cbn [rwrap].
  destruct (alive (srv c) (KParts id) m) as [[v dl]|] eqn:Ea; [|by split].
  pose proof (rep_alive _ _ _ _ _ _ _ Hr Ea) as Hv. destruct (content_family _ _ _ Hv) as (total & d & f & ->). split; [|done].
  unfold countPart, partsAnswer. destruct ok; cbn [fst]; change (1 =? 0) with false; cbv iota; by destruct (total <=? 0).
Qed.

Lemma simulation o : simulates o.
Proof.
  destruct o; [apply sim_set_card | apply sim_get_card | apply sim_del_card | apply sim_cache_commands | apply sim_get_commands
    | apply sim_set_status | apply sim_get_status | apply sim_init_parts | apply sim_record_part | apply sim_store_smpp | apply sim_load_smpp
    | apply sim_dedupe | apply sim_cache_profile | apply sim_get_profile | apply sim_cache_params | apply sim_get_params | apply sim_throttle].
Qed.

(** ** Runs *)

(** No round trip fails, and the server's clock does not run backwards. *)
Definition steady (nt : Net) : Prop :=
  (forall i, nt_fault nt i = None) /\ (forall i j, (i <= j)%nat -> nt_server nt i <= nt_server nt j).

Fixpoint performs (ops : list op) (c : Client R) : list (res answer) * Client R :=
  match ops with
  | [] => ([], c)
  | o :: ops => let '(a, c) := perform o c in let '(as_, c) := performs ops c in (a :: as_, c)
  end.

Fixpoint sems (ops : list op) (nt : Net) (i : nat) (m : Spec) : list (res answer) :=
  match ops with
  | [] => []
  | o :: ops => let '(a, m) := sem o (nt_clock nt i) (nt_server nt i) m in a :: sems ops nt (S i) m
  end.

(** Nothing of the client is stored yet. *)
Definition fresh (t : Z) (r : R) : Prop := forall k, live t (keyText k) (keys r) = None.

Lemma performs_sems ops : Forall op_ok ops -> forall nt i n r m, steady nt -> 0 <= n -> n + zlen ops <= 2 ^ 53 -> rep n (nt_server nt i) (keys r) m ->
  fst (performs ops (mkClient r nt i)) = sems ops nt i m.
Proof.
  induction 1 as [|o ops Ho _ IH]; intros nt i n r m Hs Hn Hb Hr; [done|]. cbn [performs sems]. rewrite zlen_cons in Hb. pose proof (zlen_nonneg ops).
  destruct (simulation o n (mkClient r nt i) m) as (r' & E & Hr'); [apply Hs | lia | done | done |]. unfold clk, srv in *. cbn [net rounds] in *. rewrite E. clear E.
  destruct (sem o (nt_clock nt i) (nt_server nt i) m) as [a m'] eqn:Em. cbn [fst snd] in *. unfold next. cbn [net rounds].
  assert (Hr'' : rep (n + 1) (nt_server nt (S i)) (keys r') m') by (eapply rep_later; [done | | exact Hr']; apply Hs; lia).
  specialize (IH nt (S i) (n + 1) r' m' Hs ltac:(lia) ltac:(lia) Hr''). destruct (performs ops (mkClient r' nt (S i))) as [as_ c']. cbn [fst] in *. by rewrite IH.
Qed.

Lemma rep_fresh t r : fresh t r -> rep 0 t (keys r) (fun _ => None).
Proof. intros H. split; [|done]. intros k. by rewrite H. Qed.

(** C14: the client refines a typed store.  Whatever operations are run, as long as no round trip fails, every one answers
    what the store [Spec] answers that keeps a value under its own kind of key until its deadline:
    keys of different kinds never meet in the flat keyspace, and states, commands, counts, mappings and
    parameters are read back as they were written. *)
Theorem redis_client_refines_store ops nt r :
  steady nt -> Forall op_ok ops -> zlen ops <= 2 ^ 53 -> fresh (nt_server nt 0) r ->
  fst (performs ops (mkClient r nt 0)) = sems ops nt 0 (fun _ => None).
Proof. intros Hs Ho Hl Hf. apply (performs_sems ops Ho nt 0 0 r _ Hs); [lia | lia | by apply rep_fresh]. Qed.

(** ** The throttle *)

(** A call for campaign [id] within the client's second [sec]. *)
Definition inWindow (nt : Net) (id : string) (sec : Z) (i : nat) (o : op) : bool :=
  match o with OThrottle id' _ => bool_decide (id = id') && (nt_clock nt i / second =? sec) | _ => false end.

Definition granted (a : res answer) : bool := match a with Ok (AFlag b) => b | _ => false end.

(** The calls of the window that were granted at [rate] at most. *)
Fixpoint grants (nt : Net) (id : string) (sec rate : Z) (i : nat) (ops : list op) (as_ : list (res answer)) : Z :=
  match ops, as_ with
  | o :: ops, a :: as_ =>
      (if inWindow nt id sec i o && granted a && match o with OThrottle _ q => q <=? rate | _ => false end then 1 else 0)
      + grants nt id sec rate (S i) ops as_
  | _, _ => 0
  end.

Lemma sem_window nt id sec i o m :
  inWindow nt id sec i o = false -> snd (sem o (nt_clock nt i) (nt_server nt i) m) (KWindow id sec) = m (KWindow id sec).
Proof.
  destruct o; cbn [inWindow sem]; intros H; try destruct (alive _ _ m) as [[[] ]|]; cbn [snd]; unfold put, drop_;
    try match goal with |- context [decide ?P] => destruct (decide P) as [E|E] end; try done;
    injection E as <- <-; by rewrite bool_decide_true, Z.eqb_refl in H.
Qed.

Lemma grants_bounded nt id sec rate ops : forall i m k,
  (forall j j' o o', ops !! j = Some o -> ops !! j' = Some o' -> inWindow nt id sec (i + j) o = true -> inWindow nt id sec (i + j') o' = true ->
     nt_server nt (i + j') < nt_server nt (i + j) + 2 * second) ->
  (m (KWindow id sec) = None /\ k = 0) \/
  (exists d, m (KWindow id sec) = Some (VCount k, d) /\ 0 <= k /\
     forall j o, ops !! j = Some o -> inWindow nt id sec (i + j) o = true -> nt_server nt (i + j) < d) ->
  grants nt id sec rate i ops (sems ops nt i m) <= Z.max 0 (rate - k).
Proof.
  induction ops as [|o ops IH]; intros i m k Hspan Hk; [cbn; lia|]. cbn [sems].
  destruct (sem o (nt_clock nt i) (nt_server nt i) m) as [a m'] eqn:Em. cbn [grants].
  assert (Hspan' : forall j j' o o', ops !! j = Some o -> ops !! j' = Some o' -> inWindow nt id sec (S i + j) o = true -> inWindow nt id sec (S i + j') o' = true ->
     nt_server nt (S i + j') < nt_server nt (S i + j) + 2 * second).
  { intros j j' o1 o2. specialize (Hspan (S j) (S j') o1 o2). rewrite !Nat.add_succ_r in Hspan. exact Hspan. }
  destruct (inWindow nt id sec i o) eqn:Hw.
  - destruct o; cbn in Hw; try done. apply andb_true_iff in Hw as [->%bool_decide_eq_true <-%Z.eqb_eq].
    assert (Hcount : match alive (nt_server nt i) (KWindow id0 (nt_clock nt i / second)) m with Some (VCount n, _) => n + 1 | _ => 1 end = k + 1).
    { unfold alive. destruct Hk as [[-> ->]|(d & -> & _ & Hd)]; [done|]. specialize (Hd 0%nat _ eq_refl). rewrite Nat.add_0_r in Hd.
      destruct (nt_server nt i <? d) eqn:El; [done|]. cbn in Hd. rewrite bool_decide_true, Z.eqb_refl in Hd by done. specialize (Hd eq_refl). lia. }
    cbn [sem] in Em. rewrite Hcount in Em. injection Em as <- <-.
    assert (Hnn : 0 <= k) by (destruct Hk as [[_ ->]|(d & _ & ? & _)]; lia).
    specialize (IH (S i) (put (KWindow id0 (nt_clock nt i / second)) (VCount (k + 1)) (nt_server nt i + 2 * second) m) (k + 1) Hspan').
    lapply IH; clear IH; [intros IH|].
    + cbn [granted andb]. destruct (k + 1 <=? rate0) eqn:E1, (rate0 <=? rate) eqn:E2; cbn [andb]; lia.
    + right. eexists. split; [unfold put; by rewrite decide_True|]. split; [lia|]. intros j o Hj Hjw.
      specialize (Hspan 0%nat (S j) (OThrottle id0 rate0) o eq_refl Hj). rewrite Nat.add_0_r, Nat.add_succ_r in Hspan. apply Hspan; [|exact Hjw].
      cbn. by rewrite bool_decide_true, Z.eqb_refl.
  - cbn [andb]. pose proof (sem_window nt id sec i o m Hw) as Hsame. rewrite Em in Hsame. cbn [snd] in Hsame.
    specialize (IH (S i) m' k Hspan'). rewrite Hsame in IH. lapply IH; clear IH; [lia|].
    destruct Hk as [Hk|(d & Hk & Hn & Hd)]; [by left|]. right. exists d. split; [done|]. split; [done|]. intros j o1 Hj Hjw.
    specialize (Hd (S j) o1 Hj). rewrite Nat.add_succ_r in Hd. by apply Hd.
Qed.

(** C26: the throttle keeps its limit per second.  In every run without failing round trips, of the calls for a campaign
    that fall into one second of the client's clock and reach the server within two seconds, at most
    [rate] are granted. *)
Theorem throttle_keeps_limit ops nt r id sec rate :
  steady nt -> Forall op_ok ops -> zlen ops <= 2 ^ 53 -> fresh (nt_server nt 0) r -> 0 <= rate ->
  (forall j j' o o', ops !! j = Some o -> ops !! j' = Some o' -> inWindow nt id sec j o = true -> inWindow nt id sec j' o' = true ->
     nt_server nt j' < nt_server nt j + 2 * second) ->
  grants nt id sec rate 0 ops (fst (performs ops (mkClient r nt 0))) <= rate.
Proof.
  intros Hs Ho Hl Hf Hrate Hspan. rewrite (performs_sems ops Ho nt 0 0 r (fun _ => None) Hs); [|lia|lia|by apply rep_fresh].
  pose proof (grants_bounded nt id sec rate ops 0 (fun _ => None) 0 Hspan (or_introl (conj eq_refl eq_refl))). lia.
Qed.

(** ** The gateway's two stores *)

(** The operations of the gateway (transport/service.go) on the process-local store. *)
Definition local (o : op) : M GatewayStore.t answer :=
  match o with
  | OInitParts id total => do! _ <- GatewayStore.InitMultipartTracking id total; ret ADone
  | ORecordPart id ok => do! p <- GatewayStore.RecordPartDLR id ok; ret (AParts (fst p) (snd p))
  | OStoreSMPP id mapping => do! _ <- GatewayStore.StoreSMPPCorrelation id mapping; ret ADone
  | OLoadSMPP id => do! x <- GatewayStore.LoadSMPPCorrelation id; ret (AMapping x)
  | _ => ret ADone
  end.

Fixpoint locals (ops : list op) (g : GatewayStore.t) : list (res answer) :=
  match ops with
  | [] => []
  | o :: ops => let '(a, g) := local o g in a :: locals ops g
  end.

Definition gatewayOp (o : op) : Prop :=
  match o with OInitParts _ total => 0 < total | ORecordPart _ _ | OStoreSMPP _ _ | OLoadSMPP _ => True | _ => False end.

(** Equal answers, except that the local store has forgotten a message whose verdict is out, for which the
    client repeats that all parts are resolved. *)
Definition agree (remote here : res answer) : Prop :=
  remote = here \/ (here = Err GatewayStore.ErrNoMultipartTracking /\ exists anyFailed, remote = Ok (AParts true anyFailed)).

(** What the two stores hold, [last] a time before which nothing expires. *)
Definition sameParts (remote : option (content * Z)) (here : option GatewayStore.multipartState) : Prop :=
  match here with
  | Some st => exists d, remote = Some (VParts (GatewayStore.total st) (GatewayStore.delivered st) (GatewayStore.failed st), d) /\
      0 < GatewayStore.total st
  | None => remote = None \/ exists total de fa d, remote = Some (VParts total de fa, d) /\ 0 < total <= de + fa
  end.

Record mirrors (last : Z) (m : Spec) (g : GatewayStore.t) : Prop := {
  mi_smpp id : fst <$> m (KSMPP id) = VMapping <$> (GatewayStore.correlations g !! id);
  mi_parts id : sameParts (m (KParts id)) (GatewayStore.multiparts g !! id);
  mi_last k v d : m k = Some (v, d) -> last <= d
}.

Lemma mirrors_alive last m g t k : mirrors last m g -> t < last -> alive t k m = m k.
Proof. intros H Ht. unfold alive. destruct (m k) as [[v d]|] eqn:E; [|done]. pose proof (mi_last _ _ _ H k v d E). assert (El : (t <? d) = true) by lia. by rewrite El. Qed.

(** Changing one key on both sides. *)
Lemma mirrors_put_smpp last m g id x d : mirrors last m g -> last <= d ->
  mirrors last (put (KSMPP id) (VMapping x) d m) (GatewayStore.mk (<[id := x]> (GatewayStore.correlations g)) (GatewayStore.multiparts g)).
Proof.
  intros [H1 H2 H3] Hd. split; cbn.
  - intros id'. unfold put. destruct (decide (id = id')) as [->|Hne]; [rewrite decide_True, lookup_insert_eq by done; done|].
    rewrite decide_False by congruence. by rewrite lookup_insert_ne.
  - intros id'. unfold put. rewrite decide_False by done. apply H2.
  - intros k' v' d'. unfold put. case_decide; [by intros [= <- <-] | apply H3].
Qed.

Lemma mirrors_drop_smpp last m g id : mirrors last m g ->
  mirrors last (drop_ (KSMPP id) m) (GatewayStore.mk (delete id (GatewayStore.correlations g)) (GatewayStore.multiparts g)).
Proof.
  intros [H1 H2 H3]. split; cbn.
  - intros id'. unfold drop_. destruct (decide (id = id')) as [->|Hne]; [rewrite decide_True, lookup_delete_eq by done; done|].
    rewrite decide_False by congruence. by rewrite lookup_delete_ne.
  - intros id'. unfold drop_. rewrite decide_False by done. apply H2.
  - intros k' v' d'. unfold drop_. case_decide; [done | apply H3].
Qed.

Lemma mirrors_put_parts last m g id v d parts : mirrors last m g -> last <= d ->
  sameParts (Some (v, d)) (parts !! id) -> (forall id', id' <> id -> parts !! id' = GatewayStore.multiparts g !! id') ->
  mirrors last (put (KParts id) v d m) (GatewayStore.mk (GatewayStore.correlations g) parts).
Proof.
  intros [H1 H2 H3] Hd Hp Ho. split; cbn.
  - intros id'. unfold put. rewrite decide_False by done. apply H1.
  - intros id'. unfold put. destruct (decide (id = id')) as [->|Hne]; [by rewrite decide_True|].
    rewrite decide_False by congruence. rewrite Ho by done. apply H2.
  - intros k' v' d'. unfold put. case_decide; [by intros [= <- <-] | apply H3].
Qed.

(** A part report on the state of a message. *)
Definition countState (ok : bool) (st : GatewayStore.multipartState) : GatewayStore.multipartState :=
  if ok then GatewayStore.Build_multipartState (GatewayStore.total st) (GatewayStore.delivered st + 1) (GatewayStore.failed st)
  else GatewayStore.Build_multipartState (GatewayStore.total st) (GatewayStore.delivered st) (GatewayStore.failed st + 1).

Lemma local_record id ok g : local (ORecordPart id ok) g =
  match GatewayStore.multiparts g !! id with
  | None => (Err GatewayStore.ErrNoMultipartTracking, g)
  | Some st =>
      let st' := countState ok st in
      let resolved := GatewayStore.total st' <=? GatewayStore.delivered st' + GatewayStore.failed st' in
      (Ok (AParts resolved (0 <? GatewayStore.failed st')),
       GatewayStore.mk (GatewayStore.correlations g)
         (if resolved then delete id (GatewayStore.multiparts g) else <[id := st']> (GatewayStore.multiparts g)))
  end.
Proof. cbn [local]. unfold GatewayStore.RecordPartDLR, bindM, gets, modify, ret, merr. by destruct (GatewayStore.multiparts g !! id). Qed.

Lemma mirrors_record last m g id ok clock t : mirrors last m g -> t < last ->
  agree (fst (sem (ORecordPart id ok) clock t m)) (fst (local (ORecordPart id ok) g)) /\
  mirrors last (snd (sem (ORecordPart id ok) clock t m)) (snd (local (ORecordPart id ok) g)).
Proof.
  intros H Ht. cbn [sem]. rewrite (mirrors_alive _ _ _ _ _ H Ht), local_record. pose proof (mi_parts _ _ _ H id) as Hp.
  destruct (GatewayStore.multiparts g !! id) as [st|] eqn:Eg.
  - destruct Hp as (d & Em & Hpos). rewrite Em. pose proof (mi_last _ _ _ H _ _ _ Em) as Hd. cbv zeta. set (st' := countState ok st).
    assert (Hv : countPart ok (GatewayStore.total st) (GatewayStore.delivered st) (GatewayStore.failed st) =
      VParts (GatewayStore.total st') (GatewayStore.delivered st') (GatewayStore.failed st')) by (by destruct ok).
    assert (Ht' : GatewayStore.total st' = GatewayStore.total st) by (by destruct ok).
    rewrite Hv. cbn [fst snd partsAnswer]. assert (E0 : (GatewayStore.total st' <=? 0) = false) by lia. rewrite E0. split; [by left|].
    apply mirrors_put_parts; [done | done | |].
    + destruct (GatewayStore.total st' <=? GatewayStore.delivered st' + GatewayStore.failed st') eqn:Er; [rewrite lookup_delete_eq | rewrite lookup_insert_eq].
      * right. eexists _, _, _, _. split; [done | lia].
      * eexists. split; [done | lia].
    + intros id' Hne. destruct (GatewayStore.total st' <=? GatewayStore.delivered st' + GatewayStore.failed st'); [by rewrite lookup_delete_ne | by rewrite lookup_insert_ne].
  - cbn [fst snd]. destruct Hp as [->|(total & de & fa & d & Em & Hr)]; [split; [by left | done]|].
    rewrite Em. pose proof (mi_last _ _ _ H _ _ _ Em) as Hd. cbn [fst snd]. split.
    + right. split; [done|]. unfold countPart, partsAnswer. assert (E0 : (total <=? 0) = false) by lia.
      destruct ok; rewrite E0; [assert (E1 : (total <=? de + 1 + fa) = true) by lia | assert (E1 : (total <=? de + (fa + 1)) = true) by lia]; rewrite E1; by eexists.
    + replace g with (GatewayStore.mk (GatewayStore.correlations g) (GatewayStore.multiparts g)) by (by destruct g).
      apply mirrors_put_parts; [by destruct g | done | | done]. cbn. rewrite Eg. right. unfold countPart. destruct ok; eexists _, _, _, _; (split; [done | lia]).
Qed.

Lemma mirrors_step last o m g clock t : gatewayOp o -> mirrors last m g -> t < last -> last <= t + 5 * minute ->
  agree (fst (sem o clock t m)) (fst (local o g)) /\ mirrors last (snd (sem o clock t m)) (snd (local o g)).
Proof.
  intros Ho H Ht Hl. destruct o; try done.
  - split; [by left|]. apply mirrors_put_parts; [done | unfold minute, second in *; lia | | intros; by rewrite lookup_insert_ne].
    rewrite lookup_insert_eq. cbn. by eexists.
  - by apply mirrors_record.
  - split; [by left|]. apply mirrors_put_smpp; [done | unfold minute, second in *; lia].
  - cbn [sem local]. rewrite (mirrors_alive _ _ _ _ _ H Ht). pose proof (mi_smpp _ _ _ H id) as Hs. split; [|by apply mirrors_drop_smpp].
    left. unfold GatewayStore.LoadSMPPCorrelation, bindM, gets, modify, ret. cbn [fst snd].
    destruct (m (KSMPP id)) as [[v d]|], (GatewayStore.correlations g !! id); cbn in Hs; try done. by injection Hs as ->.
Qed.

Lemma locals_mirror last nt ops : Forall gatewayOp ops -> forall i m g,
  (forall j, (i <= j < i + length ops)%nat -> nt_server nt j < last <= nt_server nt j + 5 * minute) -> mirrors last m g ->
  Forall2 agree (sems ops nt i m) (locals ops g).
Proof.
  induction 1 as [|o ops Ho _ IH]; intros i m g Ht H; [constructor|]. cbn [sems locals].
  destruct (Ht i) as [Ht1 Ht2]; [cbn; lia|].
  destruct (mirrors_step last o m g (nt_clock nt i) (nt_server nt i) Ho H Ht1 Ht2) as [Ha Hm].
  destruct (sem o (nt_clock nt i) (nt_server nt i) m) as [a m']. destruct (local o g) as [b g']. constructor; [done|].
  apply IH; [|done]. intros j Hj. apply Ht. cbn. lia.
Qed.

(** C27: either store can serve the gateway.  For every sequence of the gateway's operations that takes less than the
    five minutes a correlation lives, and no failing round trip, the Redis client and the
    process-local store give the same answers -- but for reports that arrive after the verdict on
    their message, which the local store does not know any more and for which the client repeats that all
    parts are resolved. *)
Theorem gateway_stores_agree ops nt r :
  steady nt -> Forall op_ok ops -> Forall gatewayOp ops -> zlen ops <= 2 ^ 53 -> fresh (nt_server nt 0) r ->
  (forall i, (i < length ops)%nat -> nt_server nt i < nt_server nt 0 + 5 * minute) ->
  Forall2 agree (fst (performs ops (mkClient r nt 0))) (locals ops GatewayStore.NewGatewayCoordinationStore).
Proof.
  intros Hs Ho Hg Hl Hf Ht. rewrite (performs_sems ops Ho nt 0 0 r (fun _ => None) Hs); [|lia|lia|by apply rep_fresh].
  apply (locals_mirror (nt_server nt 0 + 5 * minute)); [done | |].
  - intros j Hj. specialize (Ht j ltac:(lia)). pose proof (proj2 Hs 0%nat j ltac:(lia)). lia.
  - split; cbn; [done | by left | done].
Qed.
End Refinement.

(** ** Encryption of values *)

(** What is encrypted under a key is decrypted under it, and stored in the clear without one. *)
Lemma decrypt_encrypt {C} `{!AEAD C, !AEADLaws C} (aead : option C) nonce plaintext ciphertext :
  (forall n l, nonce n = Ok l -> zlen l = n) -> encryptData aead nonce plaintext = Ok ciphertext -> decryptData aead ciphertext = Ok plaintext.
Proof.
  intros Hn. unfold encryptData, decryptData. destruct aead as [a|]; [|by intros [= ->]]. destruct (nonce (NonceSize a)) as [l|e|p] eqn:E; [|done..].
  cbn [rbind]. intros [= <-]. pose proof (Hn _ _ E) as Hl. pose proof (nonce_size a) as Hs. pose proof (zlen_nonneg (Seal a l plaintext)). rewrite zlen_app.
  assert (E1 : (zlen l + zlen (Seal a l plaintext) <? NonceSize a) = false) by lia. rewrite E1.
  assert (Hlen : Z.to_nat (NonceSize a) = length l) by (unfold zlen in Hl; lia).
  rewrite !slice_ok by (rewrite ?zlen_app; lia). cbn [rbind]. rewrite Z.sub_0_r, Hlen. change (Z.to_nat 0) with 0%nat.
  rewrite drop_0, take_app_length, drop_app_length, take_ge by (unfold zlen in *; lia). by apply open_seal.
Qed.

(** ** A server and a run *)

Module RedisWitness.

#[local] Instance server : Redis (gmap string entry) := {| execute := documented; tonumber := numeral |}.
#[local] Instance server_laws : RedisLaws (gmap string entry).
Proof. refine {| keys r := r |}; [done | done | intros z _; apply numeral_pretty]. Defined.

#[local] Instance mapping_eq : EqDecision SMPPMapping.t.
Proof. solve_decision. Defined.

Definition mapping : SMPPMapping.t := SMPPMapping.mk "msg-1" "camp-1" "card-1" "4915112345678".
Definition mappingJSON : string := "{msg_id:msg-1,campaign_id:camp-1,card_id:card-1,msisdn:4915112345678}".

(** A codec that knows one mapping. *)
#[local] Instance codec : JSON SMPPMapping.t := {|
  Marshal x := if decide (x = mapping) then Ok mappingJSON else Err (Errorf "unknown" []);
  Unmarshal s := if decide (s = mappingJSON) then Ok mapping else Err (Errorf "unknown" []) |}.
#[local] Instance codec_laws : JSONLaws SMPPMapping.t.
Proof. refine {| encodable x := x = mapping |}. intros x ->. exists mappingJSON. split; vm_compute; reflexivity. Defined.

(** No value of the other types. *)
#[local] Instance noCodec {A} : JSON A | 100 := {| Marshal _ := Err (Errorf "unknown" []); Unmarshal _ := Err (Errorf "unknown" []) |}.
#[local] Instance noCodec_laws {A} : JSONLaws A | 100.
Proof. by refine {| encodable _ := False |}. Defined.

(** A round trip every 100 ms; the client's clock is the server's. *)
Definition nt : Net := {| nt_fault _ := None; nt_server i := Z.of_nat i * 100000000; nt_clock i := Z.of_nat i * 100000000 |}.

Definition state : CardState.t := CardState.mk "camp-1" (-2) "awaiting_dlr" 1 "msg-1" "ev-1" 1234567890123.

Definition ops : list op :=
  [OSetCard "card-1" state; OSetStatus "card-1" "running"; OGetCard "card-1"; OGetStatus "card-1"; OGetCard "card-2";
   ODedupe "ev-1"; ODedupe "ev-1"; OThrottle "camp-1" 1; OThrottle "camp-1" 1; OThrottle "camp-2" 1].

Definition gatewayOps : list op :=
  [OInitParts "msg-1" 2; OStoreSMPP "id-1" mapping; ORecordPart "msg-1" true; ORecordPart "msg-1" false; ORecordPart "msg-1" true;
   OLoadSMPP "id-1"; OLoadSMPP "id-1"; ORecordPart "msg-2" true].

Lemma nt_steady : steady nt.
Proof. split; [done | intros i j Hij; cbn; lia]. Qed.

Lemma ops_ok : Forall op_ok ops.
Proof. unfold ops. repeat constructor; done. Qed.

Lemma gatewayOps_ok : Forall op_ok gatewayOps /\ Forall gatewayOp gatewayOps.
Proof. unfold gatewayOps. split; repeat constructor; done. Qed.

Lemma empty_fresh t : fresh (R := gmap string entry) t ∅.
Proof. done. Qed.
(** Typical operations on states, status, duplicates and the throttle. *)
Lemma redis_client_refines_store_witness :
  fst (performs ops (mkClient (∅ : gmap string entry) nt 0)) = sems ops nt 0 (fun _ => None) /\
  sems ops nt 0 (fun _ => None) =
    [Ok ADone; Ok ADone; Ok (ACard (Some state)); Ok (AStatus "running"); Ok (ACard None);
     Ok (AFlag true); Ok (AFlag false); Ok (AFlag true); Ok (AFlag false); Ok (AFlag true)].
Proof.
  split; [|vm_compute; reflexivity].
  apply (redis_client_refines_store ops nt ∅ nt_steady ops_ok); [vm_compute; discriminate | apply empty_fresh].
Defined.

Lemma throttle_keeps_limit_witness :
  grants nt "camp-1" 0 1 0 ops (fst (performs ops (mkClient (∅ : gmap string entry) nt 0))) <= 1.
Proof.
  apply (throttle_keeps_limit ops nt ∅ "camp-1" 0 1 nt_steady ops_ok); [vm_compute; discriminate | apply empty_fresh | lia |].
  intros j j' o o' Hj Hj' _ _. apply lookup_lt_Some in Hj'. cbn in Hj'. cbn [nt nt_server]. unfold second. lia.
Defined.

(** Two parts, of which one fails: the third report comes after the verdict. *)
Lemma gateway_stores_agree_witness :
  Forall2 agree (fst (performs gatewayOps (mkClient (∅ : gmap string entry) nt 0))) (locals gatewayOps GatewayStore.NewGatewayCoordinationStore) /\
  locals gatewayOps GatewayStore.NewGatewayCoordinationStore =
    [Ok ADone; Ok ADone; Ok (AParts false false); Ok (AParts true true); Err GatewayStore.ErrNoMultipartTracking;
     Ok (AMapping (Some mapping)); Ok (AMapping None); Err GatewayStore.ErrNoMultipartTracking].
Proof.
  split; [|vm_compute; reflexivity].
  apply (gateway_stores_agree gatewayOps nt ∅ nt_steady (proj1 gatewayOps_ok) (proj2 gatewayOps_ok)); [vm_compute; discriminate | apply empty_fresh |].
  intros i Hi. cbn in Hi. cbn [nt nt_server]. unfold minute, second. lia.
Defined.
End RedisWitness.
