(* ===== verification/ShardedCache.v ===== *)
(** * shardedCache of internal/executor/worker.go

    A concurrent map cut into 256 shards by the FNV-1a hash of the key.  Each
    operation holds the lock of one shard, so operations are atomic; the model
    is the array of shard maps.  It refines a plain map. *)

From S2P Require Import Prelude HexUtil.

Definition cacheShards : Z := 256.

(** [hash/fnv] New32a: 32-bit FNV-1a. *)
Definition fnv_step (h b : Z) : Z := u32 (Z.lxor h b * 16777619).
Definition fnv32a (data : list Z) : Z := foldl fnv_step 2166136261 data.

Section Cache.
Context {V : Type}.

Abbreviation shardedCache := (list (gmap string V)).

Definition newShardedCache : shardedCache := replicate (Z.to_nat cacheShards) ∅.

(** The index of the shard of a key. *)
Definition shard (key : string) : nat := Z.to_nat (fnv32a (string_bytes key) mod cacheShards).

Definition Load (key : string) (c : shardedCache) : option V := (c !!! shard key : gmap string V) !! key.
Definition Store (key : string) (value : V) (c : shardedCache) : shardedCache :=
  alter (fun m => <[key := value]> m) (shard key) c.
Definition Delete (key : string) (c : shardedCache) : shardedCache :=
  alter (fun m => delete key m) (shard key) c.

(** ** Refinement of a plain map *)

Definition refines (c : shardedCache) (m : gmap string V) : Prop :=
  length c = Z.to_nat cacheShards /\ forall k, Load k c = m !! k.

Lemma shard_lt key (c : shardedCache) : length c = Z.to_nat cacheShards -> (shard key < length c)%nat.
Proof.
  intros ->. unfold shard. apply Z2Nat.inj_lt; [apply Z.mod_pos_bound; done | done |].
  by apply Z.mod_pos_bound.
Qed.

Lemma lookup_total_alter (f : gmap string V -> gmap string V) i j (c : shardedCache) :
  (i < length c)%nat -> alter f i c !!! j = if decide (i = j) then f (c !!! i) else c !!! j.
Proof.
  intros Hi. rewrite !list_lookup_total_alt. destruct (decide (i = j)) as [<-|].
  - rewrite list_lookup_alter_eq. by destruct (lookup_lt_is_Some_2 c i Hi) as [x ->].
  - by rewrite list_lookup_alter_ne.
Qed.

Lemma new_refines : refines newShardedCache ∅.
Proof.
  split; [apply length_replicate|]. intros k. unfold Load, newShardedCache.
  rewrite list_lookup_total_alt, lookup_replicate_2; [by rewrite !lookup_empty|].
  unfold shard. apply Z2Nat.inj_lt; [apply Z.mod_pos_bound; done | done | by apply Z.mod_pos_bound].
Qed.

Lemma store_refines c m k v : refines c m -> refines (Store k v c) (<[k := v]> m).
Proof.
  intros [Hl Hr]. split; [unfold Store; by rewrite length_alter|]. intros k'. unfold Load, Store.
  rewrite lookup_total_alter by (by apply shard_lt). destruct (decide (k = k')) as [<-|Hne].
  - rewrite decide_True by done. by rewrite !lookup_insert_eq.
  - rewrite (lookup_insert_ne m) by done. destruct (decide (shard k = shard k')) as [->|].
    + rewrite lookup_insert_ne by done. apply Hr.
    + apply Hr.
Qed.

Lemma delete_refines c m k : refines c m -> refines (Delete k c) (delete k m).
Proof.
  intros [Hl Hr]. split; [unfold Delete; by rewrite length_alter|]. intros k'. unfold Load, Delete.
  rewrite lookup_total_alter by (by apply shard_lt). destruct (decide (k = k')) as [<-|Hne].
  - rewrite decide_True by done. by rewrite !lookup_delete_eq.
  - rewrite (lookup_delete_ne m) by done. destruct (decide (shard k = shard k')) as [->|].
    + rewrite lookup_delete_ne by done. apply Hr.
    + apply Hr.
Qed.

(** A sequence of operations, and the same on a plain map. *)
Inductive cache_op :=
| OpStore (k : string) (v : V)
| OpDelete (k : string).

Definition run_op (c : shardedCache) (o : cache_op) : shardedCache :=
  match o with OpStore k v => Store k v c | OpDelete k => Delete k c end.
Definition spec_op (m : gmap string V) (o : cache_op) : gmap string V :=
  match o with OpStore k v => <[k := v]> m | OpDelete k => delete k m end.

(** The sharded cache is a map.  After any sequence of stores and deletes on a new cache, a load
    of any key returns what a single unsharded map would return: the hash only picks the shard, no
    key is lost or shadowed, and every index stays within the 256 shards. *)
Theorem sharded_cache_refines_map (ops : list cache_op) :
  refines (foldl run_op newShardedCache ops) (foldl spec_op ∅ ops).
Proof.
  assert (H : forall c m, refines c m -> refines (foldl run_op c ops) (foldl spec_op m ops)).
  { induction ops as [|o ops IH]; intros c m Hr; [done|]. cbn [foldl]. apply IH.
    destruct o; [by apply store_refines | by apply delete_refines]. }
  apply H, new_refines.
Qed.

End Cache.

(** The offset basis and a published FNV-1a value. *)
Example fnv_known_answer : fnv32a (string_bytes "foobar") = 0xbf9cf968.
Proof. vm_compute. reflexivity. Qed.
