(* ===== verification/Executor.v ===== *)
(** * internal/executor: the card worker

    [CardWorker] of worker.go with helpers.go: a card event is checked for
    duplicates and dispatched to [handleActivate] (build the secured packet of a
    step and send it), [handleDLR] (delivery report) or [handleMO] (answer of the
    card).  The worker's collaborators are the interfaces of service.go: the
    coordination store [S], the counter store [C], the key store, the producers
    of [Pipeline].  Telemetry and log lines are not modelled.

    Handlers run in the monad [M] over [World]; [w_trace] is the history of
    what the worker did to its collaborators, in order.  The goroutine that
    [scheduleActivateRetry] starts is an entry of [w_retries], and its firing is
    the separate step [fireRetry]. *)

From S2P Require Import Prelude Effects Models Pipeline Store HexUtil Gsm0348 SmsFrame ShardedCache.

(** ** helpers.go *)

Definition parseCertificationMode (mode : string) : Z :=
  if bool_decide (mode = "NO_SECURITY" \/ mode = "NONE") then CertNone
  else if bool_decide (mode = "RC") then CertRC
  else if bool_decide (mode = "CC") then CertCC
  else if bool_decide (mode = "DS") then CertDS
  else CertNone.

Definition parseCounterMode (mode : string) : Z :=
  if bool_decide (mode = "NO_COUNTER" \/ mode = "NONE") then CounterNone
  else if bool_decide (mode = "COUNTER_NO_REPLAY") then CounterNoReplay
  else if bool_decide (mode = "COUNTER_REPLAY_OR_CHECK") then CounterReplayCheck
  else CounterNone.

Definition parsePoRMode (mode : string) : Z :=
  if bool_decide (mode = "NO_REPLY" \/ mode = "NONE") then PoRNone
  else if bool_decide (mode = "REPLY_ALWAYS") then PoRAlways
  else if bool_decide (mode = "REPLY_ON_ERROR") then PoROnError
  else PoRNone.

Definition parseCipherMode (mode : string) : Z :=
  if bool_decide (mode = "DES_CBC") then CipherDES_CBC
  else if bool_decide (mode = "TRIPLE_DES_CBC_2_KEYS") then Cipher3DES_CBC_2Keys
  else if bool_decide (mode = "TRIPLE_DES_CBC_3_KEYS") then Cipher3DES_CBC_3Keys
  else if bool_decide (mode = "AES_CBC") then CipherAES_CBC
  else CipherDES_CBC.

Definition parseAlgo (algo : string) : Z :=
  if bool_decide (algo = "DES") then 0x01
  else if bool_decide (algo = "AES") then 0x02
  else 0x01.

Definition parsePoRProtocol (protocol : string) : Z :=
  if bool_decide (protocol = "SMS_DELIVER_REPORT") then 0x01
  else if bool_decide (protocol = "SMS_SUBMIT") then 0x02
  else 0x02.

Definition porStatusDescription (code : Z) : string :=
  if code =? RespOK then "command executed successfully"
  else if code =? RespRCCCDSFailed then "RC/CC/DS verification failed"
  else if code =? RespCNTRLow then "counter too low"
  else if code =? RespCNTRHighNoUpdate then "counter too high, not updated"
  else if code =? RespCNTRHighUpdated then "counter too high, updated"
  else if code =? RespCNTRBlocked then "counter blocked"
  else if code =? RespCryptError then "cryptographic error"
  else if code =? RespInsNotSupported then "instruction not supported"
  else if code =? RespCNTRIncreaseNotAllowed then "counter increase not allowed"
  else if code =? RespTARUnknown then "TAR unknown"
  else if code =? RespInsufficientMemory then "insufficient memory"
  else "unknown status".

Definition buildSecProfileFromCache (cmd : CampaignCommandCache.t) : SecurityProfile := {|
  CertMode := parseCertificationMode (CampaignCommandCache.CertMode cmd);
  Ciphered := CampaignCommandCache.Ciphered cmd;
  CounterMode := parseCounterMode (CampaignCommandCache.CounterMode cmd);
  PoRMode := parsePoRMode (CampaignCommandCache.PORMode cmd);
  PoRCertMode := parseCertificationMode (CampaignCommandCache.PORCertMode cmd);
  PoRCiphered := CampaignCommandCache.PORCiphered cmd;
  PoRProtocol := parsePoRProtocol (CampaignCommandCache.PORProtocol cmd);
  KIcAlgo := parseAlgo (CampaignCommandCache.KIcAlgo cmd);
  KIcMode := parseCipherMode (CampaignCommandCache.KIcMode cmd);
  KIcKeysetID := u8 (CampaignCommandCache.KIcKeysetID cmd);
  KIDAlgo := parseAlgo (CampaignCommandCache.KIdAlgo cmd);
  KIDMode := parseCipherMode (CampaignCommandCache.KIdMode cmd);
  KIDKeysetID := u8 (CampaignCommandCache.KIdKeysetID cmd);
  SecurityBytesWithLengthsAndUDHL := true
|}.

(** ** internal/keystore/software.go *)

Definition SoftwareKeyStore_GetKeys (cardID : string) : M Sys CardKeyMaterial.t :=
  do! row <- try (do! o <- query (fun d => cards d !! cardID); first o);
  match row with
  | Ok card => ret {| CardKeyMaterial.EncKey := Card.EncKey card;
                      CardKeyMaterial.AuthKey := Card.AuthKey card;
                      CardKeyMaterial.KEK := Card.KEK card;
                      CardKeyMaterial.ProfileID := Card.ProfileID card;
                      CardKeyMaterial.MSISDN := Card.MSISDN card |}
  | Err e => merr (Errorf "keystore: load card %s: %w" [ArgStr cardID; ArgErr e])
  | Panic p => mres (Panic p)
  end.

(** ** worker.go: state *)

Record campaignExecutionContext := {
  cec_commands : list CampaignCommandCache.t;
  cec_commandByStep : gmap Z CampaignCommandCache.t;
  cec_params : CampaignParams.t;
  cec_cachedAt : Z
}.

Record cachedStatus := { cst_status : string; cst_cachedAt : Z }.

Definition campaignCacheTTL : Z := 3600 * 1000000000.
Definition campaignStatusCacheTTL : Z := 5 * 1000000000.
Definition retrySemCap : Z := 10000.

(** What is fixed when the worker is constructed. *)
Record Config := {
  keyStore : string -> M Sys CardKeyMaterial.t;
  cryptoProvider : option CryptoProvider;
  hasCardState : bool;    (** [w.cardState != nil] *)
  hasWSHub : bool         (** [w.wsHub != nil] *)
}.

Definition nextSeq (st : CardState.t) : CardState.t * Z :=
  let seq := i64 (CardState.TransitionSeq st + 1) in
  ({| CardState.CampaignID := CardState.CampaignID st;
      CardState.CurrentStep := CardState.CurrentStep st;
      CardState.Status := CardState.Status st;
      CardState.RetryCount := CardState.RetryCount st;
      CardState.LastMsgID := CardState.LastMsgID st;
      CardState.LastEventID := CardState.LastEventID st;
      CardState.TransitionSeq := seq |}, seq).

(** [counter[0] = byte(v >> 32)], the other four bytes big endian. *)
Definition counterBytes (v : Z) : list Z :=
  [u8 (Z.shiftr v 32); u8 (Z.shiftr (u32 v) 24); u8 (Z.shiftr (u32 v) 16);
   u8 (Z.shiftr (u32 v) 8); u8 (u32 v)].

(** [fmt.Sprintf("0x%02X", code)] *)
Definition hex02 (code : Z) : string := "0x" +:+ Encode [code].

(** The loop of [advanceOrComplete] over the commands: the least sequence
    number above [step], or -1. *)
Fixpoint nextStepLoop (step nextStep : Z) (commands : list CampaignCommandCache.t) : Z :=
  match commands with
  | [] => nextStep
  | cmd :: commands =>
      let sq := CampaignCommandCache.Sequence cmd in
      let nextStep :=
        if step <? sq then if (nextStep =? -1) || (sq <? nextStep) then sq else nextStep
        else nextStep in
      nextStepLoop step nextStep commands
  end.

Section Worker.
Context {S C : Type} `{!CoordinationStore S} `{!CounterStore C}.
Context (cfg : Config).

Record World := mkWorld {
  w_sys : Sys;
  w_store : S;
  w_counter : C;
  campaignCache : gmap string campaignExecutionContext;
  campaignStatusCache : gmap string cachedStatus;
  cardKeyCache : list (gmap string CardKeyMaterial.t);
  retrySem : Z;
  w_retries : list (CardEvent.t * Z);
  w_trace : list effect;
  w_logp : LogProducer.t
}.

Definition set_w_sys y w := mkWorld y (w_store w) (w_counter w) (campaignCache w) (campaignStatusCache w)
  (cardKeyCache w) (retrySem w) (w_retries w) (w_trace w) (w_logp w).
Definition set_w_store s w := mkWorld (w_sys w) s (w_counter w) (campaignCache w) (campaignStatusCache w)
  (cardKeyCache w) (retrySem w) (w_retries w) (w_trace w) (w_logp w).
Definition set_w_counter c w := mkWorld (w_sys w) (w_store w) c (campaignCache w) (campaignStatusCache w)
  (cardKeyCache w) (retrySem w) (w_retries w) (w_trace w) (w_logp w).
Definition set_campaignCache c w := mkWorld (w_sys w) (w_store w) (w_counter w) c (campaignStatusCache w)
  (cardKeyCache w) (retrySem w) (w_retries w) (w_trace w) (w_logp w).
Definition set_campaignStatusCache c w := mkWorld (w_sys w) (w_store w) (w_counter w) (campaignCache w) c
  (cardKeyCache w) (retrySem w) (w_retries w) (w_trace w) (w_logp w).
Definition set_cardKeyCache c w := mkWorld (w_sys w) (w_store w) (w_counter w) (campaignCache w)
  (campaignStatusCache w) c (retrySem w) (w_retries w) (w_trace w) (w_logp w).
Definition set_retries n l w := mkWorld (w_sys w) (w_store w) (w_counter w) (campaignCache w)
  (campaignStatusCache w) (cardKeyCache w) n l (w_trace w) (w_logp w).

#[export] Instance World_bus : HasBus World := {|
  bus_sys := {| sys := w_sys; set_sys := set_w_sys |};
  trace := w_trace;
  emit e w := mkWorld (w_sys w) (w_store w) (w_counter w) (campaignCache w) (campaignStatusCache w)
                (cardKeyCache w) (retrySem w) (w_retries w) (w_trace w ++ [e]) (w_logp w);
  logp := w_logp;
  set_logp p w := mkWorld (w_sys w) (w_store w) (w_counter w) (campaignCache w) (campaignStatusCache w)
                (cardKeyCache w) (retrySem w) (w_retries w) (w_trace w) p
|}.

#[export] Instance World_bus_laws : BusLaws World.
Proof. split; done. Qed.

Abbreviation H := (M World).

(** Calls of the collaborators. *)
Definition on_store {A} (m : M (Sys * S) A) : H A :=
  fun w => let '(r, (y, s)) := m (w_sys w, w_store w) in (r, set_w_store s (set_w_sys y w)).
Definition on_counter {A} (m : M C A) : H A :=
  fun w => let '(r, c) := m (w_counter w) in (r, set_w_counter c w).
Definition on_sys {A} (m : M Sys A) : H A :=
  fun w => let '(r, y) := m (w_sys w) in (r, set_w_sys y w).

Definition tell (e : effect) : H unit := modify (emit e).

Definition setCardState (cardID : string) (st : CardState.t) : H unit :=
  do! _ <- tell (ESetCardState cardID st); on_store (SetCardState cardID st).

Definition publishLog (a : MessageLogAction.t) : H unit := ignore (LogProducer_Publish (MLog a)).
Definition publishEvent (e : CardEvent.t) : H unit :=
  do! _ <- EventProducer_Publish EEvent (MEvent e); ret tt.

Definition broadcast (campaignID : string) (e : WSEvent.t) : H unit :=
  mwhen (hasWSHub cfg) (tell (EBroadcast campaignID e)).

(** [if w.cardState != nil { if _, err := w.cardState.WriteCardState(...); err != nil {
    return fmt.Errorf("write card state: %w", err) } }] *)
Definition writeCardState (ev : CardStateChange.t) : H unit :=
  mwhen (hasCardState cfg) (do! _ <- mwrap "write card state: %w" (WriteCardState ev); ret tt).

(** ** worker.go: caches *)

Definition loadProfileCached (profileID : string) : H Profile.t :=
  do! cached <- try (on_store (GetCachedProfile profileID));
  match cached with
  | Ok p => ret p
  | _ =>
      do! row <- try (on_sys (do! o <- query (fun d => profiles_tbl d !! profileID); first o));
      match row with
      | Ok p => do! _ <- ignore (on_store (CacheProfile profileID p)); ret p
      | Err e => merr (Errorf "load profile %s: %w" [ArgStr profileID; ArgErr e])
      | Panic s => mres (Panic s)
      end
  end.

Definition loadCampaignParamsCached (campaignID : string) : H CampaignParams.t :=
  do! cached <- try (on_store (GetCachedCampaignParams campaignID));
  match cached with
  | Ok (Some p) => ret p
  | _ =>
      do! campaign <- mwrap "load campaign params from db: %w"
        (on_sys (do! o <- query (fun d => campaigns d !! campaignID); first o));
      let params := {| CampaignParams.MaxConcatOverride := Campaign.MaxConcatOverride campaign;
                       CampaignParams.ThrottleSMSPerSec := Campaign.ThrottleSMSPerSec campaign;
                       CampaignParams.MaxRetries := Campaign.MaxRetries campaign |} in
      do! _ <- ignore (on_store (CacheCampaignParams campaignID params));
      ret params
  end.

(** [Where("campaign_id = ?").Order("sequence ASC").Find] *)
Definition seq_le (a b : CampaignCommand.t) : Prop :=
  CampaignCommand.Sequence a <= CampaignCommand.Sequence b.
#[local] Instance seq_le_dec a b : Decision (seq_le a b).
Proof. unfold seq_le. apply _. Defined.

Definition commandOfRow (dc : CampaignCommand.t) : CampaignCommandCache.t :=
  let app := CampaignCommand.Application dc in {|
  CampaignCommandCache.Sequence := CampaignCommand.Sequence dc;
  CampaignCommandCache.ApplicationID := CampaignCommand.ApplicationID dc;
  CampaignCommandCache.Script := CampaignCommand.Script dc;
  CampaignCommandCache.ExpectResponse := CampaignCommand.ExpectResponse dc;
  CampaignCommandCache.TAR := Application.TAR app;
  CampaignCommandCache.KIcAlgo := Application.KIcAlgo app;
  CampaignCommandCache.KIcMode := Application.KIcMode app;
  CampaignCommandCache.KIcKeysetID := Application.KIcKeysetID app;
  CampaignCommandCache.KIdAlgo := Application.KIdAlgo app;
  CampaignCommandCache.KIdMode := Application.KIdMode app;
  CampaignCommandCache.KIdKeysetID := Application.KIdKeysetID app;
  CampaignCommandCache.CertMode := Application.CertificationMode app;
  CampaignCommandCache.Ciphered := Application.Ciphered app;
  CampaignCommandCache.CounterMode := Application.CounterMode app;
  CampaignCommandCache.PORMode := Application.PORMode app;
  CampaignCommandCache.PORProtocol := Application.PORProtocol app;
  CampaignCommandCache.PORCiphered := Application.PORCiphered app;
  CampaignCommandCache.PORCertMode := Application.PORCertMode app |}.

Definition loadCampaignCommands (campaignID : string) : H (list CampaignCommandCache.t) :=
  do! cached <- try (on_store (GetCampaignCommands campaignID));
  match cached with
  | Ok (Some cmds) => ret cmds
  | _ =>
      do! rows <- mwrap "load campaign commands from db: %w"
        (on_sys (query (fun d => merge_sort seq_le
           (filter (fun c => CampaignCommand.CampaignID c = campaignID) (campaign_commands d)))));
      let commands := commandOfRow <$> rows in
      do! _ <- ignore (on_store (CacheCampaignCommands campaignID commands));
      ret commands
  end.

Definition loadCardKeys (cardID : string) : H CardKeyMaterial.t :=
  do! cached <- gets (fun w => Load cardID (cardKeyCache w));
  match cached with
  | Some k => ret k
  | None =>
      do! keys <- on_sys (keyStore cfg cardID);
      do! _ <- modify (fun w => set_cardKeyCache (ShardedCache.Store cardID keys (cardKeyCache w)) w);
      ret keys
  end.

Definition PreloadCardKeys (keys : list (string * CardKeyMaterial.t)) : H unit :=
  modify (fun w => set_cardKeyCache
    (foldl (fun c kv => ShardedCache.Store (fst kv) (snd kv) c) (cardKeyCache w) keys) w).

Definition evictCardCaches (cardID : string) : H unit :=
  do! _ <- modify (fun w => set_cardKeyCache (Delete cardID (cardKeyCache w)) w);
  do! _ <- on_counter (EvictCard cardID);
  do! _ <- tell (EEvict cardID);
  on_store (EvictCardState cardID).

(** A cached context that is still fresh; an expired one is evicted. *)
Definition freshContext (campaignID : string) : H (option campaignExecutionContext) :=
  do! cached <- gets (fun w => campaignCache w !! campaignID);
  match cached with
  | None => ret None
  | Some cec =>
      do! n <- now;
      if n - cec_cachedAt cec <? campaignCacheTTL then ret (Some cec)
      else do! _ <- modify (fun w => set_campaignCache (delete campaignID (campaignCache w)) w); ret None
  end.

(** [singleflight] runs its function once for concurrent callers; for one
    caller it is the call. *)
Definition loadCampaignContext (campaignID : string) : H campaignExecutionContext :=
  do! hit <- freshContext campaignID;
  match hit with
  | Some cec => ret cec
  | None =>
      do! hit <- freshContext campaignID;
      match hit with
      | Some cec => ret cec
      | None =>
          do! commands <- loadCampaignCommands campaignID;
          do! params <- loadCampaignParamsCached campaignID;
          let commandByStep := foldl (fun m c => <[CampaignCommandCache.Sequence c := c]> m) ∅ commands in
          do! at_ <- now;
          let cec := {| cec_commands := commands; cec_commandByStep := commandByStep;
                        cec_params := params; cec_cachedAt := at_ |} in
          do! _ <- modify (fun w => set_campaignCache (<[campaignID := cec]> (campaignCache w)) w);
          ret cec
      end
  end.

Definition InvalidateCampaignCache (campaignID : string) : H unit :=
  do! _ <- modify (fun w => set_campaignCache (delete campaignID (campaignCache w)) w);
  modify (fun w => set_campaignStatusCache (delete campaignID (campaignStatusCache w)) w).

Definition getCampaignStatusCached (campaignID : string) : H string :=
  do! cached <- gets (fun w => campaignStatusCache w !! campaignID);
  do! fresh <- (match cached with
                | None => ret None
                | Some cs =>
                    do! n <- now;
                    if n - cst_cachedAt cs <? campaignStatusCacheTTL then ret (Some (cst_status cs))
                    else do! _ <- modify (fun w => set_campaignStatusCache (delete campaignID (campaignStatusCache w)) w);
                         ret None
                end);
  match fresh with
  | Some status => ret status
  | None =>
      do! status <- on_store (GetCampaignStatus campaignID);
      do! status <- (if bool_decide (status = "") then
                       do! campaign <- mwrap "load campaign status from db: %w"
                         (on_sys (do! o <- query (fun d => campaigns d !! campaignID); first o));
                       do! _ <- ignore (on_store (SetCampaignStatus campaignID (Campaign.Status campaign)));
                       ret (Campaign.Status campaign)
                     else ret status);
      do! at_ <- now;
      do! _ <- modify (fun w => set_campaignStatusCache
                 (<[campaignID := {| cst_status := status; cst_cachedAt := at_ |}]> (campaignStatusCache w)) w);
      ret status
  end.

(** One tick of [StartCacheSweeper]. *)
Definition sweepCaches : H unit :=
  do! n <- now;
  do! _ <- modify (fun w => set_campaignCache
             (filter (fun kv => ~ (campaignCacheTTL <= n - cec_cachedAt (snd kv))) (campaignCache w)) w);
  modify (fun w => set_campaignStatusCache
             (filter (fun kv => ~ (campaignStatusCacheTTL <= n - cst_cachedAt (snd kv))) (campaignStatusCache w)) w).

(** ** worker.go: retries *)

(** [select { case w.retrySem <- struct{}{}: default: ... }] and the goroutine. *)
Definition scheduleActivateRetry (event : CardEvent.t) (delay : Z) (reason : string) : H unit :=
  do! inFlight <- gets retrySem;
  if inFlight <? retrySemCap then
    modify (fun w => set_retries (retrySem w + 1) (w_retries w ++ [(event, delay)]) w)
  else
    do! current <- try (on_store (GetCardState (CardEvent.CardID event)));
    match current with
    | Ok (Some current) =>
        if negb (bool_decide (CardState.CampaignID current = CardEvent.CampaignID event)) then ret tt
        else if bool_decide (CardState.Status current = "completed" \/ CardState.Status current = "failed" \/
                             CardState.Status current = "skipped") then ret tt
        else
          let '(_, overflowSeq) := nextSeq current in
          do! at_ <- now;
          do! _ <- mwhen (hasCardState cfg) (ignore (WriteCardState {|
            CardStateChange.CampaignID := CardEvent.CampaignID event;
            CardStateChange.CardID := CardEvent.CardID event;
            CardStateChange.Status := "failed";
            CardStateChange.CurrentStep := 0;
            CardStateChange.RetryCount := 0;
            CardStateChange.LastMsgID := "";
            CardStateChange.LastSMPPID := "";
            CardStateChange.LastError := "retry_scheduler_overflow: " +:+ reason;
            CardStateChange.LastErrCode := "";
            CardStateChange.Timestamp := at_;
            CardStateChange.TransitionSeq := overflowSeq;
            CardStateChange.StatsFrom := "in_progress";
            CardStateChange.StatsTo := "failed" |}));
          do! _ <- ignore (setCardState (CardEvent.CardID event) {|
            CardState.CampaignID := CardEvent.CampaignID event;
            CardState.CurrentStep := 0;
            CardState.Status := "failed";
            CardState.RetryCount := 0;
            CardState.LastMsgID := "";
            CardState.LastEventID := "";
            CardState.TransitionSeq := overflowSeq |});
          evictCardCaches (CardEvent.CardID event)
    | _ => ret tt
    end.

(** The goroutine of the [i]-th pending retry ends: its timer fires and it
    publishes the event, unless its context is cancelled first. *)
Definition fireRetry (i : nat) (cancelled : bool) : H unit :=
  do! o <- gets (fun w => w_retries w !! i);
  match o with
  | None => ret tt
  | Some (event, _) =>
      do! _ <- mwhen (negb cancelled) (ignore (publishEvent event));
      modify (fun w => set_retries (retrySem w - 1) (delete i (w_retries w)) w)
  end.

(** ** worker.go: handleActivate *)

Record prepared := {
  pr_cmd : CampaignCommandCache.t;
  pr_ctx : campaignExecutionContext;
  pr_keys : CardKeyMaterial.t;
  pr_profile : Profile.t;
  pr_counter : list Z;
  pr_packet : list Z;
  pr_parts : list (list Z)
}.

Definition packetInput (event : CardEvent.t) (cmd : CampaignCommandCache.t)
    (cardKeys : CardKeyMaterial.t) (counter : list Z) : CommandPacketInput := {|
  TAR := to_array 3 (CampaignCommandCache.TAR cmd);
  Counter := counter;
  CipheringKey := if cryptoProvider cfg is Some _ then [] else CardKeyMaterial.EncKey cardKeys;
  SigningKey := if cryptoProvider cfg is Some _ then [] else CardKeyMaterial.AuthKey cardKeys;
  UserData := CampaignCommandCache.Script cmd;
  Provider := cryptoProvider cfg;
  CardID := if cryptoProvider cfg is Some _ then CardEvent.CardID event else ""
|}.

(** Steps 2 to 10: everything up to the framed parts. *)
Definition prepareActivate (event : CardEvent.t) : H prepared :=
  do! campaignCtx <- mwrap "load campaign context: %w" (loadCampaignContext (CardEvent.CampaignID event));
  match cec_commandByStep campaignCtx !! CardEvent.Step event with
  | None => merr (Errorf "no command found at sequence %d for campaign %s"
                    [ArgInt (CardEvent.Step event); ArgStr (CardEvent.CampaignID event)])
  | Some cmd =>
      do! cardKeys <- mwrap "get card keys: %w" (loadCardKeys (CardEvent.CardID event));
      do! counterVal <- mwrap "get counter: %w"
        (on_counter (GetCounter (CardEvent.CardID event) (CampaignCommandCache.ApplicationID cmd)));
      do! _ <- mwrap "incr counter: %w"
        (on_counter (IncrCounterAsync (CardEvent.CardID event) (CampaignCommandCache.ApplicationID cmd)));
      let secProfile := buildSecProfileFromCache cmd in
      let counter := counterBytes counterVal in
      do! packet <- mwrap "build command packet: %w"
        (mres (BuildCommandPacket secProfile (packetInput event cmd cardKeys counter)));
      do! profile <- mwrap "load profile: %w" (loadProfileCached (CardKeyMaterial.ProfileID cardKeys));
      let maxConcat := match CampaignParams.MaxConcatOverride (cec_params campaignCtx) with
                       | Some n => n
                       | None => Profile.MaxConcatSMS profile
                       end in
      do! rnd <- ask sys_rand;
      do! parts <- mwrap "split for concat: %w"
        (mres (SplitForConcat rnd packet (Profile.BufferSize profile) maxConcat));
      ret {| pr_cmd := cmd; pr_ctx := campaignCtx; pr_keys := cardKeys; pr_profile := profile;
             pr_counter := counter; pr_packet := packet; pr_parts := parts |}
  end.

(** Step 11: [true] when the activation is put off. *)
Definition throttleActivate (event : CardEvent.t) (p : prepared) : H bool :=
  match CampaignParams.ThrottleSMSPerSec (cec_params (pr_ctx p)) with
  | Some rate =>
      if 0 <? rate then
        do! allowed <- try (on_store (AcquireThrottle (CardEvent.CampaignID event) rate));
        match allowed with
        | Ok false =>
            let backoff := (CardEvent.RetryCount event + 1) * 100000000 in
            let backoff := if 1000000000 <? backoff then 1000000000 else backoff in
            do! id <- newUUID;
            do! at_ <- now;
            do! _ <- scheduleActivateRetry
                       (CardEvent.activate id (CardEvent.CardID event) (CardEvent.CampaignID event)
                          (CardEvent.Step event) (CardEvent.RetryCount event) at_) backoff "throttle";
            ret true
        | _ => ret false
        end
      else ret false
  | None => ret false
  end.

Definition logEntryOf (event : CardEvent.t) (p : prepared) (msgID : string) (createdAt : Z)
    (status : string) : MessageLogEntry.t := {|
  MessageLogEntry.ID := msgID;
  MessageLogEntry.CampaignID := CardEvent.CampaignID event;
  MessageLogEntry.CardID := CardEvent.CardID event;
  MessageLogEntry.Direction := "MT";
  MessageLogEntry.CreatedAt := createdAt;
  MessageLogEntry.UpdatedAt := createdAt;
  MessageLogEntry.RawPayload := CampaignCommandCache.Script (pr_cmd p);
  MessageLogEntry.SecuredPayload := pr_packet p;
  MessageLogEntry.CounterHex := EncodeToString (pr_counter p);
  MessageLogEntry.Status := status;
  MessageLogEntry.SMPPMessageID := "" |}.

Definition smsMsgOf (event : CardEvent.t) (p : prepared) (msgID : string) : SendSMSMessage.t := {|
  SendSMSMessage.MsgID := msgID;
  SendSMSMessage.CampaignID := CardEvent.CampaignID event;
  SendSMSMessage.CardID := CardEvent.CardID event;
  SendSMSMessage.MSISDN := CardKeyMaterial.MSISDN (pr_keys p);
  SendSMSMessage.TON := 1;
  SendSMSMessage.NPI := 1;
  SendSMSMessage.DataCoding := u8 (Profile.DCS (pr_profile p));
  SendSMSMessage.ProtocolID := u8 (Profile.PID (pr_profile p));
  SendSMSMessage.ESMClass := 0x40;
  SendSMSMessage.Parts :=
    imap (fun i payload => {| SMSPart.Sequence := Z.of_nat i + 1; SMSPart.Total := zlen (pr_parts p);
                              SMSPart.RefNum := 0; SMSPart.Payload := payload |}) (pr_parts p) |}.

Definition activateStateOf (event : CardEvent.t) (msgID : string) : CardState.t := {|
  CardState.CampaignID := CardEvent.CampaignID event;
  CardState.CurrentStep := CardEvent.Step event;
  CardState.Status := "awaiting_dlr";
  CardState.RetryCount := CardEvent.RetryCount event;
  CardState.LastMsgID := msgID;
  CardState.LastEventID := CardEvent.EventID event;
  CardState.TransitionSeq := 1 |}.

Definition activateChange (event : CardEvent.t) (msgID : string) (activateTS : Z) : CardStateChange.t := {|
  CardStateChange.CampaignID := CardEvent.CampaignID event;
  CardStateChange.CardID := CardEvent.CardID event;
  CardStateChange.Status := "in_progress";
  CardStateChange.CurrentStep := CardEvent.Step event;
  CardStateChange.RetryCount := CardEvent.RetryCount event;
  CardStateChange.LastMsgID := msgID;
  CardStateChange.LastSMPPID := "";
  CardStateChange.LastError := "";
  CardStateChange.LastErrCode := "";
  CardStateChange.Timestamp := activateTS;
  CardStateChange.TransitionSeq := CardState.TransitionSeq (activateStateOf event msgID);
  CardStateChange.StatsFrom := "pending";
  CardStateChange.StatsTo := "in_progress" |}.

(** Steps 12 to the end: log, state, SMS, projections. *)
Definition publishActivate (event : CardEvent.t) (p : prepared) : H unit :=
  do! msgID <- newUUID;
  do! createdAt <- now;
  do! activateTS <- now;
  do! _ <- ignore (setCardState (CardEvent.CardID event) (activateStateOf event msgID));
  do! sent <- try (SMSProducer_Publish (MSendSMS (smsMsgOf event p msgID)));
  match sent with
  | Err e =>
      do! _ <- publishLog (MessageLogAction.create (logEntryOf event p msgID createdAt "send_failed"));
      merr (Errorf "publish SMS to kafka: %w" [ArgErr e])
  | Panic s => mres (Panic s)
  | Ok _ =>
      do! _ <- publishLog (MessageLogAction.create (logEntryOf event p msgID createdAt "sent"));
      do! _ <- writeCardState (activateChange event msgID activateTS);
      broadcast (CardEvent.CampaignID event) {|
        WSEvent.Type_ := "card_status";
        WSEvent.CampaignID := CardEvent.CampaignID event;
        WSEvent.CardID := CardEvent.CardID event;
        WSEvent.Data := [("status", VStr "in_progress"); ("current_step", VInt (CardEvent.Step event));
                         ("msg_id", VStr msgID); ("msisdn", VStr (CardKeyMaterial.MSISDN (pr_keys p)))] |}
  end.

Definition handleActivate (event : CardEvent.t) : H unit :=
  do! status <- mwrap "get campaign status: %w" (getCampaignStatusCached (CardEvent.CampaignID event));
  if negb (bool_decide (status = "running")) then
    InvalidateCampaignCache (CardEvent.CampaignID event)
  else
    do! p <- prepareActivate event;
    do! postponed <- throttleActivate event p;
    if postponed : bool then ret tt else publishActivate event p.

(** ** worker.go: advanceOrComplete *)

Definition completedState (campaignID : string) (seq : Z) : CardState.t := {|
  CardState.CampaignID := campaignID;
  CardState.CurrentStep := 0;
  CardState.Status := "completed";
  CardState.RetryCount := 0;
  CardState.LastMsgID := "";
  CardState.LastEventID := "";
  CardState.TransitionSeq := seq |}.

Definition terminalChange (campaignID cardID status : string) (retryCount : Z) (lastError : string)
    (timestamp seq : Z) (statsFrom statsTo : string) : CardStateChange.t := {|
  CardStateChange.CampaignID := campaignID;
  CardStateChange.CardID := cardID;
  CardStateChange.Status := status;
  CardStateChange.CurrentStep := 0;
  CardStateChange.RetryCount := retryCount;
  CardStateChange.LastMsgID := "";
  CardStateChange.LastSMPPID := "";
  CardStateChange.LastError := lastError;
  CardStateChange.LastErrCode := "";
  CardStateChange.Timestamp := timestamp;
  CardStateChange.TransitionSeq := seq;
  CardStateChange.StatsFrom := statsFrom;
  CardStateChange.StatsTo := statsTo |}.

Definition statusEvent (campaignID cardID : string) (data : list (string * value)) : WSEvent.t := {|
  WSEvent.Type_ := "card_status"; WSEvent.CampaignID := campaignID; WSEvent.CardID := cardID;
  WSEvent.Data := data |}.

(** Both callers pass the card's state. *)
Definition advanceOrComplete (event : CardEvent.t) (commands : list CampaignCommandCache.t)
    (state : CardState.t) : H unit :=
  let nextStep := nextStepLoop (CardEvent.Step event) (-1) commands in
  if nextStep =? -1 then
    do! completedAt <- now;
    let '(_, seq) := nextSeq state in
    do! _ <- ignore (setCardState (CardEvent.CardID event) (completedState (CardEvent.CampaignID event) seq));
    do! _ <- writeCardState (terminalChange (CardEvent.CampaignID event) (CardEvent.CardID event)
               "completed" 0 "" completedAt seq "in_progress" "completed");
    do! _ <- broadcast (CardEvent.CampaignID event)
               (statusEvent (CardEvent.CampaignID event) (CardEvent.CardID event) [("status", VStr "completed")]);
    evictCardCaches (CardEvent.CardID event)
  else
    do! id <- newUUID;
    do! at_ <- now;
    publishEvent (CardEvent.activate id (CardEvent.CardID event) (CardEvent.CampaignID event) nextStep 0 at_).

(** ** worker.go: handleDLR *)

Definition failedState (event : CardEvent.t) (state : CardState.t) (retryCount seq : Z) : CardState.t := {|
  CardState.CampaignID := CardEvent.CampaignID event;
  CardState.CurrentStep := CardState.CurrentStep state;
  CardState.Status := "failed";
  CardState.RetryCount := retryCount;
  CardState.LastMsgID := CardState.LastMsgID state;
  CardState.LastEventID := CardEvent.EventID event;
  CardState.TransitionSeq := seq |}.

(** Marks the card failed, in the store and in the projections. *)
Definition failCard (event : CardEvent.t) (state : CardState.t) (stateRetries changeRetries : Z)
    (errDesc statsFrom : string) (data : list (string * value)) : H unit :=
  let '(_, seq) := nextSeq state in
  do! _ <- ignore (setCardState (CardEvent.CardID event) (failedState event state stateRetries seq));
  do! _ <- mwhen (hasCardState cfg)
    (do! at_ <- now;
     do! _ <- mwrap "write card state: %w" (WriteCardState
       (terminalChange (CardEvent.CampaignID event) (CardEvent.CardID event) "failed" changeRetries
          errDesc at_ seq statsFrom "failed"));
     ret tt);
  do! _ <- broadcast (CardEvent.CampaignID event)
             (statusEvent (CardEvent.CampaignID event) (CardEvent.CardID event) data);
  evictCardCaches (CardEvent.CardID event).

Definition dlrDelivered (event : CardEvent.t) (state : CardState.t) : H unit :=
  do! campaignCtx <- mwrap "load campaign context: %w" (loadCampaignContext (CardEvent.CampaignID event));
  let expect := match cec_commandByStep campaignCtx !! CardState.CurrentStep state with
                | Some cmd => CampaignCommandCache.ExpectResponse cmd
                | None => false
                end in
  if expect then
    let state := {| CardState.CampaignID := CardState.CampaignID state;
                    CardState.CurrentStep := CardState.CurrentStep state;
                    CardState.Status := "awaiting_mo";
                    CardState.RetryCount := CardState.RetryCount state;
                    CardState.LastMsgID := CardState.LastMsgID state;
                    CardState.LastEventID := CardState.LastEventID state;
                    CardState.TransitionSeq := CardState.TransitionSeq state |} in
    let '(state, _) := nextSeq state in
    ignore (setCardState (CardEvent.CardID event) state)
  else advanceOrComplete event (cec_commands campaignCtx) state.

Definition dlrPartialSubmit (event : CardEvent.t) (state : CardState.t) : H unit :=
  let errDesc := "submit failed after partial accept: " +:+ CardEvent.ErrorCode event in
  failCard event state (CardState.RetryCount state) 0 errDesc "pending"
    [("status", VStr "failed"); ("last_error", VStr errDesc)].

Definition dlrFailed (event : CardEvent.t) (state : CardState.t) : H unit :=
  do! campaignCtx <- mwrap "load campaign context: %w" (loadCampaignContext (CardEvent.CampaignID event));
  if CardState.RetryCount state + 1 <? CampaignParams.MaxRetries (cec_params campaignCtx) then
    do! id <- newUUID;
    do! at_ <- now;
    publishEvent (CardEvent.activate id (CardEvent.CardID event) (CardEvent.CampaignID event)
                    (CardState.CurrentStep state) (CardState.RetryCount state + 1) at_)
  else
    let errDesc := "DLR status: " +:+ CardEvent.DLRStatus event +:+ " (error_code: " +:+
                   CardEvent.ErrorCode event +:+ ")" in
    let n := CardState.RetryCount state + 1 in
    failCard event state n n errDesc "in_progress"
      [("status", VStr "failed"); ("last_error", VStr errDesc); ("retry_count", VInt n)].

Definition dlrFailureStatuses : list string :=
  ["FAILED_SUBMIT"; "FAILED"; "UNDELIV"; "EXPIRED"; "DELETED"; "REJECTD"].

Definition handleDLR (event : CardEvent.t) : H unit :=
  do! state <- mwrap "get card state: %w" (on_store (GetCardState (CardEvent.CardID event)));
  match state with
  | None => merr (Errorf "DLR for card %s: no card state in Redis (activate may still be in progress)"
                    [ArgStr (CardEvent.CardID event)])
  | Some state =>
      let status := CardState.Status state in
      if negb (bool_decide (status ∈ ["awaiting_dlr"; "in_progress"; "awaiting_mo"])) then ret tt
      else
        do! _ <- mwhen (negb (bool_decide (CardEvent.MsgID event = "")))
          (publishLog (MessageLogAction.update (CardEvent.MsgID event)
             [("dlr_status", VStr (CardEvent.DLRStatus event));
              ("smpp_message_id", VStr (CardEvent.SMPPMessageID event))]));
        do! _ <- broadcast (CardEvent.CampaignID event) {|
          WSEvent.Type_ := "dlr_update"; WSEvent.CampaignID := CardEvent.CampaignID event;
          WSEvent.CardID := CardEvent.CardID event;
          WSEvent.Data := [("msg_id", VStr (CardEvent.MsgID event));
                           ("dlr_status", VStr (CardEvent.DLRStatus event))] |};
        if negb (bool_decide (status = "awaiting_dlr")) && negb (bool_decide (status = "in_progress"))
        then ret tt
        else
          let dlr := CardEvent.DLRStatus event in
          if bool_decide (dlr = "DELIVRD") then dlrDelivered event state
          else if bool_decide (dlr = "FAILED_PARTIAL_SUBMIT") then dlrPartialSubmit event state
          else if bool_decide (dlr ∈ dlrFailureStatuses) then dlrFailed event state
          else ret tt
  end.

(** ** worker.go: handleMO *)

Definition moEvaluate (event : CardEvent.t) (state : CardState.t)
    (campaignCtx : campaignExecutionContext) (resp : ResponsePacket) : H unit :=
  let code := resp_StatusCode resp in
  if code =? RespOK then
    do! _ <- broadcast (CardEvent.CampaignID event)
               (statusEvent (CardEvent.CampaignID event) (CardEvent.CardID event)
                  [("por_status", VStr "ok"); ("current_step", VInt (CardState.CurrentStep state));
                   ("por_data", VStr (EncodeToString (resp_Data resp)))]);
    advanceOrComplete {|
      CardEvent.Type_ := ""; CardEvent.EventID := CardEvent.EventID event;
      CardEvent.CardID := CardEvent.CardID event; CardEvent.CampaignID := CardEvent.CampaignID event;
      CardEvent.Step := CardState.CurrentStep state; CardEvent.RetryCount := 0;
      CardEvent.MsgID := ""; CardEvent.SMPPMessageID := ""; CardEvent.DLRStatus := "";
      CardEvent.ErrorCode := ""; CardEvent.SourceMSISDN := ""; CardEvent.PayloadHex := "";
      CardEvent.Timestamp := 0 |} (cec_commands campaignCtx) state
  else
    let errDesc := "PoR error: status_code=" +:+ hex02 code +:+ " (" +:+ porStatusDescription code +:+ ")" in
    failCard event state (CardState.RetryCount state) 0 errDesc "in_progress"
      [("status", VStr "failed"); ("por_status", VStr (hex02 code)); ("last_error", VStr errDesc)].

Definition handleMO (event : CardEvent.t) : H unit :=
  do! state <- mwrap "get card state: %w" (on_store (GetCardState (CardEvent.CardID event)));
  match state with
  | None => merr (Errorf "MO for card %s: no card state in Redis (activate may still be in progress)"
                    [ArgStr (CardEvent.CardID event)])
  | Some state =>
      if negb (bool_decide (CardState.Status state = "awaiting_mo")) &&
         negb (bool_decide (CardState.Status state = "awaiting_dlr")) then ret tt
      else
        let event := if bool_decide (CardEvent.CampaignID event = "")
                     then CardEvent.set_CampaignID (CardState.CampaignID state) event else event in
        do! cardKeys <- mwrap "get card keys: %w" (loadCardKeys (CardEvent.CardID event));
        do! payloadBytes <- mwrap "decode MO payload hex: %w" (mres (Decode (CardEvent.PayloadHex event)));
        do! campaignCtx <- mwrap "load campaign context: %w" (loadCampaignContext (CardEvent.CampaignID event));
        match cec_commandByStep campaignCtx !! CardState.CurrentStep state with
        | None => merr (Errorf "no command found at sequence %d for campaign %s"
                          [ArgInt (CardState.CurrentStep state); ArgStr (CardEvent.CampaignID event)])
        | Some currentCmd =>
            let secProfile := buildSecProfileFromCache currentCmd in
            do! resp <- mwrap "parse response packet: %w"
              (mres (ParseResponsePacket secProfile payloadBytes (CardKeyMaterial.EncKey cardKeys)
                       (CardKeyMaterial.AuthKey cardKeys)));
            do! moLogID <- newUUID;
            do! moNow <- now;
            do! _ <- publishLog (MessageLogAction.create {|
              MessageLogEntry.ID := moLogID;
              MessageLogEntry.CampaignID := CardEvent.CampaignID event;
              MessageLogEntry.CardID := CardEvent.CardID event;
              MessageLogEntry.Direction := "MO";
              MessageLogEntry.CreatedAt := moNow;
              MessageLogEntry.UpdatedAt := moNow;
              MessageLogEntry.RawPayload := payloadBytes;
              MessageLogEntry.SecuredPayload := [];
              MessageLogEntry.CounterHex := "";
              MessageLogEntry.Status := "received";
              MessageLogEntry.SMPPMessageID := "" |});
            do! _ <- mwhen (negb (bool_decide (CardState.LastMsgID state = "")))
              (publishLog (MessageLogAction.update (CardState.LastMsgID state)
                 [("por_status_code", VInt (resp_StatusCode resp)); ("por_data", VBytes (resp_Data resp));
                  ("status", VStr "processed")]));
            moEvaluate event state campaignCtx resp
        end
  end.

(** ** worker.go: dispatch *)

Definition HandleCardEvent (event : CardEvent.t) : H unit :=
  do! isNew <- try (on_store (CheckAndSetDedupe (CardEvent.EventID event)));
  match isNew with
  | Ok false => ret tt
  | _ =>
      if bool_decide (CardEvent.Type_ event = "card.activate") then handleActivate event
      else if bool_decide (CardEvent.Type_ event = "card.dlr_received") then handleDLR event
      else if bool_decide (CardEvent.Type_ event = "card.mo_received") then handleMO event
      else ret tt
  end.

(** [unmarshal] is the JSON decoder. *)
Definition HandleEvent (unmarshal : list Z -> res CardEvent.t) (value : list Z) : H unit :=
  do! event <- mres (unmarshal value);
  HandleCardEvent event.

End Worker.
Arguments World : clear implicits.
