(* ===== verification/KeyRegistry.v ===== *)
(** * internal/keystore: the registry of backends and the Scylla reader

    registry.go keeps factories by name and builds the key store that a configuration names; scylla.go adapts a reader of
    key records.  [CP] is the type of crypto providers; a factory, code of another package, is any function of the
    configuration (the database handle and the logger are the same for all). *)

From S2P Require Import Prelude Effects Models Pipeline Store Crypto Executor.

Section Registry.
Context {CP : Type}.

(** keystore.KeyStore: GetKeys *)
Abbreviation KeyStore := (string -> M Sys CardKeyMaterial.t).

Record Config := mkConfig { Backend : string }.
Definition Factory : Type := Config -> res (KeyStore * option CP).
Abbreviation factories := (gmap string Factory).

Definition Register (name : string) (factory : Factory) (r : factories) : factories := <[name := factory]> r.

Definition Build (r : factories) (cfg : Config) : res (KeyStore * option CP) :=
  let backend := if bool_decide (Backend cfg = "") then "software" else Backend cfg in
  if bool_decide (backend = "software") then Ok (SoftwareKeyStore_GetKeys, None)
  else
    match r !! backend with
    | None => Err (Errorf "keystore: unknown backend %q" [ArgStr backend])
    | Some factory => factory cfg
    end.

(** The factory a list of registrations leaves for a name: the last one. *)
Definition lastNamed (name : string) (regs : list (string * Factory)) : option Factory :=
  snd <$> last (filter (fun kv => fst kv = name) regs).

Lemma registered name (regs : list (string * Factory)) r :
  foldl (fun r kv => Register (fst kv) (snd kv) r) r regs !! name =
    match lastNamed name regs with Some f => Some f | None => r !! name end.
Proof.
  revert r. induction regs as [|[k f] regs IH] using rev_ind; intros r; [done|].
  rewrite foldl_app. cbn. unfold lastNamed. rewrite filter_app, filter_cons, filter_nil. cbn. case_decide as Hk.
  - subst k. rewrite last_snoc. cbn. apply lookup_insert_eq.
  - rewrite app_nil_r. unfold Register at 1. rewrite lookup_insert_ne by done. apply IH.
Qed.

(** The registry builds what is configured.  After any registrations, in any order and with any repetitions, no backend or "software" gives the software key
    store without a crypto provider, whatever is registered under these names; another name gives what the last factory registered
    under it makes of the configuration, and an error names a backend that nobody registered. *)
Theorem registry_builds_configured (regs : list (string * Factory)) cfg :
  Build (foldl (fun r kv => Register (fst kv) (snd kv) r) ∅ regs) cfg =
    if bool_decide (Backend cfg ∈ [""; "software"]) then Ok (SoftwareKeyStore_GetKeys, None)
    else match lastNamed (Backend cfg) regs with
         | Some factory => factory cfg
         | None => Err (Errorf "keystore: unknown backend %q" [ArgStr (Backend cfg)])
         end.
Proof.
  unfold Build. rewrite registered. destruct (decide (Backend cfg = "")) as [->|Hne]; [done|]. rewrite (bool_decide_false _ Hne).
  destruct (decide (Backend cfg = "software")) as [->|Hs]; [done|]. rewrite (bool_decide_false _ Hs), bool_decide_false by set_solver.
  rewrite lookup_empty. by destruct (lastNamed _ _).
Qed.
End Registry.

(** ** scylla.go *)

Module ScyllaCardKeyRecord.
Record t := mk { CardID : string; EncKey : list Z; AuthKey : list Z; KEK : list Z; ProfileID : string; MSISDN : string }.
End ScyllaCardKeyRecord.

(** [reader] is a ScyllaKeyReader; a nil record without an error is dereferenced. *)
Definition ScyllaKeyStore_GetKeys {S} (reader : string -> M S (option ScyllaCardKeyRecord.t)) (cardID : string) : M S CardKeyMaterial.t :=
  do! record <- reader cardID;
  match record with
  | None => mres (Panic "invalid memory address or nil pointer dereference")
  | Some r => ret (CardKeyMaterial.mk (ScyllaCardKeyRecord.EncKey r) (ScyllaCardKeyRecord.AuthKey r) (ScyllaCardKeyRecord.KEK r)
                     (ScyllaCardKeyRecord.ProfileID r) (ScyllaCardKeyRecord.MSISDN r))
  end.
