(* ===== verification/ProbeSMSC.v ===== *)
(** * cmd/smpp-probe-smsc: the controllable SMSC of the integration tests

    A server that captures every submit_sm it receives and emits delivery receipts and mobile-originated messages when
    asked over HTTP.  Modelled are the capture store, the response configuration, the loop over the bytes of a
    connection, the handling of each PDU, and the HTTP handlers.  A connection is a number; [written] is what was
    written to the connections so far; an outcome of [conn.Write] is a fault of the environment; a goroutine's
    handling of one PDU or one HTTP request is one step.  A JSON body is what the decoder made of it.

    The codec of github.com/idnteq/go-smsc is not part of the repository: class [Smpp]; [SmppLaws] is what SMPP 3.4
    says of its PDUs. *)

From S2P Require Import Prelude Effects Models Pipeline HexUtil.

(** ** The smpp package *)

Module PDU.
Record t := mk { CommandID : Z; CommandStatus : Z; SequenceNumber : Z; Body : list Z }.
End PDU.

Class Smpp := {
  DecodePDU : list Z -> res PDU.t;
  EncodePDU : PDU.t -> list Z;
  ParseDeliverSM : list Z -> string * string;          (** source and destination address *)
  CmdBindTransceiver : Z; CmdBindTransceiverResp : Z; CmdSubmitSM : Z; CmdSubmitSMResp : Z; CmdDeliverSM : Z; CmdDeliverSMResp : Z;
  CmdEnquireLink : Z; CmdEnquireLinkResp : Z; CmdUnbind : Z; CmdUnbindResp : Z; CmdGenericNack : Z;
  StatusOK : Z; StatusSysErr : Z; StatusInvCmdID : Z
}.

Definition be16 (z : Z) : list Z := [u8 (Z.shiftr z 8); u8 z].
Definition beValue (l : list Z) : Z := foldl (fun acc b => 256 * acc + b) 0 l.

Definition uint32 (z : Z) : Prop := 0 <= z < 2 ^ 32.

(** A PDU as Go has it, short enough for its length field. *)
Definition wellFormed (p : PDU.t) : Prop :=
  uint32 (PDU.CommandID p) /\ uint32 (PDU.CommandStatus p) /\ uint32 (PDU.SequenceNumber p) /\ Forall is_byte (PDU.Body p) /\
  uint32 (16 + zlen (PDU.Body p)).

(** A PDU starts with its length in four bytes and has at least the sixteen of the header; it decodes to what was encoded. *)
Class SmppLaws `{!Smpp} : Prop := {
  encode_length p : wellFormed p -> beValue (take 4 (EncodePDU p)) = zlen (EncodePDU p) /\ 16 <= zlen (EncodePDU p);
  decode_encode p : wellFormed p -> DecodePDU (EncodePDU p) = Ok p
}.

(** ** Capture store and configuration *)

Module Capture.
Record t := mk { MessageID : string; SourceAddr : string; DestAddr : string; RawBody : list Z; RawBodyHex : string; ReceivedAt : string }.
End Capture.

Record CaptureStore := mkCaptureStore { captures : gmap string Capture.t; order : list string }.

Definition NewCaptureStore : CaptureStore := mkCaptureStore ∅ [].
Definition Add (c : Capture.t) (cs : CaptureStore) : CaptureStore :=
  mkCaptureStore (<[Capture.MessageID c := c]> (captures cs)) (order cs ++ [Capture.MessageID c]).
Definition Get (id : string) (cs : CaptureStore) : option Capture.t := captures cs !! id.
Definition All (cs : CaptureStore) : list Capture.t := omap (fun id => captures cs !! id) (order cs).
Definition Clear (cs : CaptureStore) : CaptureStore := mkCaptureStore ∅ [].

Record SubmitConfig := mkSubmitConfig { mode : string; status : Z; delayMs : Z }.
Definition NewSubmitConfig : SubmitConfig := mkSubmitConfig "accept" 0 0.

(** ** The server *)

Record ProbeServer := mkProbe {
  pr_sys : Sys;
  pr_store : CaptureStore;
  pr_config : SubmitConfig;
  pr_conns : gset nat;
  pr_seqNum : Z;
  pr_written : list (nat * list Z)
}.

Definition set_pr_sys y s := mkProbe y (pr_store s) (pr_config s) (pr_conns s) (pr_seqNum s) (pr_written s).
Definition set_pr_store st s := mkProbe (pr_sys s) st (pr_config s) (pr_conns s) (pr_seqNum s) (pr_written s).
Definition set_pr_config c s := mkProbe (pr_sys s) (pr_store s) c (pr_conns s) (pr_seqNum s) (pr_written s).
Definition set_pr_conns c s := mkProbe (pr_sys s) (pr_store s) (pr_config s) c (pr_seqNum s) (pr_written s).
Definition set_pr_seqNum n s := mkProbe (pr_sys s) (pr_store s) (pr_config s) (pr_conns s) n (pr_written s).
Definition set_pr_written w s := mkProbe (pr_sys s) (pr_store s) (pr_config s) (pr_conns s) (pr_seqNum s) w.

#[global] Instance ProbeServer_sys : HasSys ProbeServer := {| sys := pr_sys; set_sys := set_pr_sys |}.

Abbreviation PM := (M ProbeServer).

Definition NewProbeServer (y : Sys) : ProbeServer := mkProbe y NewCaptureStore NewSubmitConfig ∅ 0 [].

(** [ps.seqNum.Add(1)] on an atomic.Uint32 *)
Definition nextSeq : PM Z := fun s => let n := (pr_seqNum s + 1) mod 2 ^ 32 in (Ok n, set_pr_seqNum n s).

(** acceptLoop registers a connection, the deferred function of handleConnection removes it. *)
Definition register (conn : nat) : PM unit := modify (fun s => set_pr_conns ({[conn]} ∪ pr_conns s) s).
Definition unregister (conn : nat) : PM unit := modify (fun s => set_pr_conns (pr_conns s ∖ {[conn]}) s).

(** [Stop]: every connection is closed and forgotten. *)
Definition Stop : PM unit := modify (set_pr_conns ∅).

(** ** Helpers *)

(** The bytes up to the first NUL. *)
Fixpoint untilNul (l : list Z) : list Z :=
  match l with
  | [] => []
  | b :: l => if b =? 0 then [] else b :: untilNul l
  end.

Definition readCString (body : list Z) (offset : Z) : string :=
  if zlen body <=? offset then "" else bytes_string (untilNul (drop (Z.to_nat offset) body)).

Definition writeCStringBytes (s : string) : list Z := string_bytes s ++ [0].

Definition buildDeliverSMBody (sourceAddr destAddr : string) (esmClass : Z) (shortMessage : list Z) : list Z :=
  [0; 0; 0] ++ string_bytes sourceAddr ++ [0] ++ [1; 1] ++ string_bytes destAddr ++ [0] ++ [esmClass; 0; 0; 0; 0; 0; 0; 0; 0] ++
  (if 254 <? zlen shortMessage then [0] ++ be16 0x0424 ++ be16 (zlen shortMessage) ++ shortMessage
   else [u8 (zlen shortMessage)] ++ shortMessage).

(** The receipt of POST /dlr; [date] is the formatted time. *)
Definition receiptText (messageID stat date : string) : string :=
  let delivered := bool_decide (stat = "DELIVRD") in
  "id:" +:+ messageID +:+ " sub:001 dlvrd:" +:+ (if delivered then "001" else "000") +:+ " submit date:" +:+ date +:+ " done date:" +:+ date
    +:+ " stat:" +:+ stat +:+ " err:" +:+ (if delivered then "000" else "069") +:+ " text:...".

Section Probe.
Context `{!Smpp}.
(** [Format(time.RFC3339)], [Format("0601021504")], and the order in which a range over [conns] visits them. *)
Context (rfc3339 shortDate : Z -> string) (iteration : gset nat -> list nat).

(** ** SMPP side *)

Definition writePDU (conn : nat) (pdu : PDU.t) : PM unit :=
  do! conns <- gets pr_conns;
  if negb (bool_decide (conn ∈ conns)) then merr (Errorf "connection not registered for write" [])
  else
    do! fault <- ask sys_fault;
    match fault with
    | Some e => merr e
    | None => modify (fun s => set_pr_written (pr_written s ++ [(conn, EncodePDU pdu)]) s)
    end.

Definition handleSubmitSM (conn : nat) (pdu : PDU.t) : PM unit :=
  let '(sourceAddr, destAddr) := ParseDeliverSM (PDU.Body pdu) in
  do! seq <- nextSeq;
  let messageID := "PROBE-" +:+ pretty seq in
  do! at_ <- now;
  let capture := Capture.mk messageID sourceAddr destAddr (PDU.Body pdu) (EncodeToString (PDU.Body pdu)) (rfc3339 at_) in
  do! _ <- modify (fun s => set_pr_store (Add capture (pr_store s)) s);
  do! cfg <- gets pr_config;
  if bool_decide (mode cfg = "reject") then
    let st := if status cfg =? 0 then StatusSysErr else status cfg in
    ignore (writePDU conn (PDU.mk CmdSubmitSMResp st (PDU.SequenceNumber pdu) [0]))
  else if bool_decide (mode cfg = "timeout") then ret tt
  else ignore (writePDU conn (PDU.mk CmdSubmitSMResp StatusOK (PDU.SequenceNumber pdu) (writeCStringBytes messageID))).

(** The switch of handleConnection: whether the connection goes on. *)
Definition handlePDU (conn : nat) (pdu : PDU.t) : PM bool :=
  let answer id st body := ignore (writePDU conn (PDU.mk id st (PDU.SequenceNumber pdu) body)) in
  if PDU.CommandID pdu =? CmdBindTransceiver then do! _ <- answer CmdBindTransceiverResp StatusOK (writeCStringBytes "PROBE-SMSC"); ret true
  else if PDU.CommandID pdu =? CmdSubmitSM then do! _ <- handleSubmitSM conn pdu; ret true
  else if PDU.CommandID pdu =? CmdEnquireLink then do! _ <- answer CmdEnquireLinkResp StatusOK []; ret true
  else if PDU.CommandID pdu =? CmdDeliverSMResp then ret true
  else if PDU.CommandID pdu =? CmdUnbind then do! _ <- answer CmdUnbindResp StatusOK []; ret false
  else do! _ <- answer CmdGenericNack StatusInvCmdID []; ret true.

(** One turn of the loop on the bytes to come: the decoded PDU and the bytes after it; [None] ends the connection (end of the
    stream, a length below sixteen, a body cut short, what does not decode). *)
Definition readPDU (stream : list Z) : option (PDU.t * list Z) :=
  if zlen stream <? 16 then None
  else
    let cmdLen := beValue (take 4 stream) in
    if cmdLen <? 16 then None
    else if zlen stream <? cmdLen then None
    else match DecodePDU (take (Z.to_nat cmdLen) stream) with
         | Ok pdu => Some (pdu, drop (Z.to_nat cmdLen) stream)
         | _ => None
         end.

(** The loop; every turn takes at least sixteen bytes. *)
Fixpoint serveStream (fuel : nat) (conn : nat) (stream : list Z) : PM unit :=
  match fuel with
  | O => ret tt
  | S fuel =>
      match readPDU stream with
      | None => ret tt
      | Some (pdu, rest) =>
          do! go_on <- handlePDU conn pdu;
          if go_on : bool then serveStream fuel conn rest else ret tt
      end
  end.

Definition handleConnection (conn : nat) (stream : list Z) : PM unit :=
  do! _ <- serveStream (S (length stream)) conn stream; unregister conn.

(** [conns[0]] of the slice the range fills. *)
Definition sendDeliverSM (sourceAddr destAddr : string) (esmClass : Z) (payload : list Z) : PM unit :=
  do! conns <- gets (fun s => iteration (pr_conns s));
  match conns with
  | [] => merr (Errorf "no SMPP client connected" [])
  | conn :: _ =>
      let body := buildDeliverSMBody sourceAddr destAddr esmClass payload in
      do! seq <- nextSeq;
      writePDU conn (PDU.mk CmdDeliverSM StatusOK seq body)
  end.

(** ** HTTP side *)

(** Status code and body text. *)
Inductive answer := Answer (code : Z) (body : string).

Definition getHealth : PM answer := ret (Answer 200 "ok").
Definition getCapture (id : string) : PM (option Capture.t) := gets (fun s => Get id (pr_store s)).
Definition listCaptures : PM (list Capture.t) := gets (fun s => All (pr_store s)).
Definition clearCaptures : PM answer :=
  do! _ <- modify (fun s => set_pr_store (Clear (pr_store s)) s); ret (Answer 200 "cleared").

Record dlrRequest := mkDlrRequest { dr_MessageID : string; dr_Status : string }.

Definition postDLR (body : goerr + dlrRequest) : PM answer :=
  match body with
  | inl e => ret (Answer 400 (Error e))
  | inr req =>
      if bool_decide (dr_MessageID req = "") then ret (Answer 400 "message_id required")
      else
        let stat := if bool_decide (dr_Status req = "") then "DELIVRD" else dr_Status req in
        do! c <- getCapture (dr_MessageID req);
        match c with
        | None => ret (Answer 404 "message_id not found in captures")
        | Some c =>
            do! at_ <- now;
            do! sent <- try (sendDeliverSM "" (Capture.DestAddr c) 4 (string_bytes (receiptText (dr_MessageID req) stat (shortDate at_))));
            match sent with
            | Err e => ret (Answer 500 (Error e))
            | Panic p => mres (Panic p)
            | Ok _ => ret (Answer 200 "dlr")
            end
        end
  end.

Record moRequest := mkMoRequest { mr_SourceAddr : string; mr_DestAddr : string; mr_Payload : string; mr_Text : string }.

(** The payload, or the text of the refusal. *)
Definition moPayload (req : moRequest) : string + list Z :=
  if negb (bool_decide (mr_Payload req = "")) then
    match DecodeString (mr_Payload req) with
    | Ok payload => inr payload
    | Err e => inl ("invalid hex payload: " +:+ Error e)
    | Panic p => inl p
    end
  else if negb (bool_decide (mr_Text req = "")) then inr (string_bytes (mr_Text req))
  else inl "payload or text required".

Definition postMO (body : goerr + moRequest) : PM answer :=
  match body with
  | inl e => ret (Answer 400 (Error e))
  | inr req =>
      if bool_decide (mr_SourceAddr req = "") then ret (Answer 400 "source_addr required")
      else
        match moPayload req with
        | inl text => ret (Answer 400 text)
        | inr payload =>
            let destAddr := if bool_decide (mr_DestAddr req = "") then "GATEWAY" else mr_DestAddr req in
            do! sent <- try (sendDeliverSM (mr_SourceAddr req) destAddr 0 payload);
            match sent with
            | Err e => ret (Answer 500 (Error e))
            | Panic p => mres (Panic p)
            | Ok _ => ret (Answer 200 "mo")
            end
        end
  end.

Definition postConfig (body : goerr + SubmitConfig) : PM answer :=
  match body with
  | inl e => ret (Answer 400 (Error e))
  | inr req =>
      let m := if bool_decide (mode req = "") then "accept" else mode req in
      if negb (bool_decide (m ∈ ["accept"; "reject"; "timeout"])) then ret (Answer 400 "mode must be accept, reject, or timeout")
      else do! _ <- modify (set_pr_config (mkSubmitConfig m (status req) (delayMs req))); ret (Answer 200 m)
  end.
End Probe.
