(* ===== verification/Scenario.v ===== *)
(** * A concrete campaign

    One card and a campaign of two commands: the first expects an answer of the
    card, the second does not.  The worker runs over the process-local stores
    with everything cached; the witnesses of the worker's theorems start here. *)

From S2P Require Import Prelude Effects Models Pipeline Store HexUtil Crypto Gsm0348 SmsFrame ShardedCache Executor.

Module Scenario.

Definition command (sequence : Z) (expect : bool) (script : list Z) : CampaignCommandCache.t := {|
  CampaignCommandCache.Sequence := sequence;
  CampaignCommandCache.ApplicationID := "app-1";
  CampaignCommandCache.Script := script;
  CampaignCommandCache.ExpectResponse := expect;
  CampaignCommandCache.TAR := [0xB0; 0x00; 0x10];
  CampaignCommandCache.KIcAlgo := "DES";
  CampaignCommandCache.KIcMode := "TRIPLE_DES_CBC_2_KEYS";
  CampaignCommandCache.KIcKeysetID := 1;
  CampaignCommandCache.KIdAlgo := "DES";
  CampaignCommandCache.KIdMode := "TRIPLE_DES_CBC_2_KEYS";
  CampaignCommandCache.KIdKeysetID := 1;
  CampaignCommandCache.CertMode := "CC";
  CampaignCommandCache.Ciphered := true;
  CampaignCommandCache.CounterMode := "COUNTER_REPLAY_OR_CHECK";
  CampaignCommandCache.PORMode := "REPLY_ALWAYS";
  CampaignCommandCache.PORProtocol := "SMS_SUBMIT";
  CampaignCommandCache.PORCiphered := false;
  CampaignCommandCache.PORCertMode := "NO_SECURITY" |}.

Definition cmd1 : CampaignCommandCache.t := command 1 true [0xA0; 0xA4; 0x00; 0x00; 0x02; 0x3F; 0x00].
Definition cmd2 : CampaignCommandCache.t := command 2 false [0xA0; 0xC0; 0x00; 0x00; 0x10].

Definition context (throttle : option Z) : campaignExecutionContext := {|
  cec_commands := [cmd1; cmd2];
  cec_commandByStep := {[ 1 := cmd1; 2 := cmd2 ]};
  cec_params := {| CampaignParams.MaxConcatOverride := None; CampaignParams.ThrottleSMSPerSec := throttle;
                   CampaignParams.MaxRetries := 3 |};
  cec_cachedAt := 0 |}.

Definition keys : CardKeyMaterial.t := {|
  CardKeyMaterial.EncKey := Z.of_nat <$> seq 1 16;
  CardKeyMaterial.AuthKey := Z.of_nat <$> seq 101 16;
  CardKeyMaterial.KEK := [];
  CardKeyMaterial.ProfileID := "profile-1";
  CardKeyMaterial.MSISDN := "32470000001" |}.

Definition profile : Profile.t := {|
  Profile.ID := "profile-1"; Profile.Name := "default"; Profile.MaxConcatSMS := 5; Profile.BufferSize := 140;
  Profile.PID := 127; Profile.DCS := 246; Profile.SecurityBytesType := "WITH_LENGTHS_AND_UDHL" |}.

Definition cfg : Config := {|
  keyStore := SoftwareKeyStore_GetKeys; cryptoProvider := None; hasCardState := true; hasWSHub := true |}.

Definition state (status : string) (step retries : Z) : CardState.t := {|
  CardState.CampaignID := "camp-1"; CardState.CurrentStep := step; CardState.Status := status;
  CardState.RetryCount := retries; CardState.LastMsgID := "msg-1"; CardState.LastEventID := "ev-0";
  CardState.TransitionSeq := 1 |}.

Definition store (hot : gmap string CardState.t) : Coordination.t := {|
  Coordination.profiles := {[ "profile-1" := profile ]};
  Coordination.commands := ∅; Coordination.params := ∅; Coordination.statusCache := ∅;
  Coordination.cardStates := hot; Coordination.throttles := ∅ |}.

Definition counters : Counters.t := {|
  Counters.counters := {[ "card-1:app-1" := 41 ]}; Counters.cardApps := {[ "card-1" := ["app-1"] ]} |}.

Definition deny_sys : Sys :=
  let y := quiet_sys empty_db in
  {| sys_now := sys_now y; sys_uuid := sys_uuid y; sys_rand := sys_rand y; sys_fault := sys_fault y;
     sys_ctx := sys_ctx y; sys_full := sys_full y; sys_allow := fun _ => false; tick := 0; db := empty_db |}.

Definition world_with (y : Sys) (throttle : option Z) (campaignStatus : string) (hot : gmap string CardState.t)
    : World Coordination.t Counters.t := {|
  w_sys := y;
  w_store := store hot;
  w_counter := counters;
  campaignCache := {[ "camp-1" := context throttle ]};
  campaignStatusCache := {[ "camp-1" := {| cst_status := campaignStatus; cst_cachedAt := 0 |} ]};
  cardKeyCache := ShardedCache.Store "card-1" keys newShardedCache;
  retrySem := 0;
  w_retries := [];
  w_trace := [];
  w_logp := {| LogProducer.dropped := 0; LogProducer.disabled := false |} |}.

Definition world := world_with (quiet_sys empty_db) None "running".

Definition activate : CardEvent.t := CardEvent.activate "ev-1" "card-1" "camp-1" 1 0 0.

Definition dlr (status : string) (step : Z) : CardEvent.t := {|
  CardEvent.Type_ := "card.dlr_received"; CardEvent.EventID := "ev-2"; CardEvent.CardID := "card-1";
  CardEvent.CampaignID := "camp-1"; CardEvent.Step := step; CardEvent.RetryCount := 0;
  CardEvent.MsgID := "msg-1"; CardEvent.SMPPMessageID := "smpp-1"; CardEvent.DLRStatus := status;
  CardEvent.ErrorCode := "000"; CardEvent.SourceMSISDN := ""; CardEvent.PayloadHex := "";
  CardEvent.Timestamp := 0 |}.

(** A proof of receipt with status 0 and data 02 90 00. *)
Definition receipt : ResponsePacket := {|
  resp_TAR := [0xB0; 0x00; 0x10]; resp_Counter := [0; 0; 0; 0; 41]; resp_PCNTR := 0;
  resp_StatusCode := RespOK; resp_Signature := []; resp_Data := [0x02; 0x90; 0x00] |}.

Definition mo : CardEvent.t := {|
  CardEvent.Type_ := "card.mo_received"; CardEvent.EventID := "ev-3"; CardEvent.CardID := "card-1";
  CardEvent.CampaignID := ""; CardEvent.Step := 0; CardEvent.RetryCount := 0;
  CardEvent.MsgID := ""; CardEvent.SMPPMessageID := ""; CardEvent.DLRStatus := "";
  CardEvent.ErrorCode := ""; CardEvent.SourceMSISDN := "32470000001";
  CardEvent.PayloadHex := EncodeToString (response_bytes receipt (resp_Data receipt));
  CardEvent.Timestamp := 0 |}.

Definition packet : list Z :=
  match BuildCommandPacket (buildSecProfileFromCache cmd1) (packetInput cfg activate cmd1 keys (counterBytes 41)) with
  | Ok p => p
  | _ => []
  end.

End Scenario.
