(* ===== verification/ExecutorLogic.v ===== *)
(** * Reasoning about the card worker

    A weakest-precondition style calculus for the handlers of [Executor].
    [wp m w Q] says that [m] started in [w] returns normally in a state that
    satisfies [Q].  [view w w' h t] summarises what a piece of code did: the hot
    card states are now [h] and the control effects [t] (everything but log
    lines and broadcasts) were appended; the campaign cache is unchanged and the
    environment only answered questions.  Each collaborator call has one rule;
    the rules use only the laws of the interfaces. *)

From S2P Require Import Prelude Effects Models Pipeline Store HexUtil Gsm0348 SmsFrame ShardedCache Executor.

(** Effects that move the card, as opposed to logging and live views. *)
Definition control (e : effect) : bool :=
  match e with ELog _ | EBroadcast _ _ => false | _ => true end.

Section Logic.
Context {S C : Type} `{!CoordinationStore S, !CoordinationLaws S, !CounterStore C, !CounterLaws C}.
Context (cfg : Config).
Abbreviation World := (World S C).

Definition wp {A} (m : M World A) (w : World) (Q : A -> World -> Prop) : Prop :=
  exists a w', m w = (Ok a, w') /\ Q a w'.

Definition hot_of (w : World) : gmap string CardState.t := hot (w_store w).
Definition ctl (w : World) : list effect := filter (fun e => control e = true) (w_trace w).

Record view (w w' : World) (h : gmap string CardState.t) (t : list effect) : Prop := {
  view_sys : sys_le (w_sys w) (w_sys w');
  view_hot : hot_of w' = h;
  view_ctl : ctl w' = ctl w ++ t;
  view_cache : campaignCache w' = campaignCache w;
  view_keys : (w_counter w' = w_counter w /\ cardKeyCache w' = cardKeyCache w) \/ exists c, EEvict c ∈ t
}.

Lemma view_refl w : view w w (hot_of w) [].
Proof. split; [reflexivity | done | by rewrite app_nil_r | done | by left]. Qed.

Lemma view_trans w1 w2 w3 h1 h2 t1 t2 :
  view w1 w2 h1 t1 -> view w2 w3 h2 t2 -> view w1 w3 h2 (t1 ++ t2).
Proof.
  intros [Hs1 Hh1 Hc1 Ha1 Hk1] [Hs2 Hh2 Hc2 Ha2 Hk2]. split.
  - by etrans.
  - done.
  - by rewrite Hc2, Hc1, app_assoc.
  - by rewrite Ha2.
  - destruct Hk1 as [Hk1 | [c Hc]]; [|right; exists c; rewrite elem_of_app; by left].
    destruct Hk2 as [Hk2 | [c Hc]]; [left; destruct Hk1, Hk2; split; congruence | right; exists c; rewrite elem_of_app; by right].
Qed.

(** No select of this run sees a cancelled context. *)
Definition uncancelled (w : World) : Prop := forall n, sys_ctx (w_sys w) n = None.

(** The campaign's context is cached and does not expire during the run. *)
Definition context_cached (w : World) (campaignID : string) (cec : campaignExecutionContext) : Prop :=
  campaignCache w !! campaignID = Some cec /\
  forall n, sys_now (w_sys w) n - cec_cachedAt cec < campaignCacheTTL.

Lemma view_uncancelled w w' h t : view w w' h t -> uncancelled w -> uncancelled w'.
Proof. intros [[n Hn] _ _ _ _] H k. rewrite Hn. apply H. Qed.

Lemma view_context w w' h t c cec : view w w' h t -> context_cached w c cec -> context_cached w' c cec.
Proof. intros [[n Hn] _ _ Hc _] [H1 H2]. split; [by rewrite Hc|]. intros k. rewrite Hn. apply H2. Qed.

(** ** Structural rules *)

Lemma wp_ret {A} (a : A) w (Q : A -> World -> Prop) : Q a w -> wp (ret a) w Q.
Proof. intros. by exists a, w. Qed.

Lemma wp_bind {A B} (m : M World A) (k : A -> M World B) w Q :
  wp m w (fun a w1 => wp (k a) w1 Q) -> wp (bindM m k) w Q.
Proof. intros (a & w1 & Hm & b & w2 & Hk & HQ). exists b, w2. by rewrite (run_bind _ _ _ _ _ Hm). Qed.

Lemma wp_wrap {A} s (m : M World A) w Q : wp m w Q -> wp (mwrap s m) w Q.
Proof. intros (a & w1 & Hm & HQ). exists a, w1. split; [by apply run_wrap | done]. Qed.

Lemma wp_ignore {A} (m : M World A) w (Q : unit -> World -> Prop) :
  wp m w (fun _ w' => Q tt w') -> wp (ignore m) w Q.
Proof. intros (a & w1 & Hm & HQ). exists tt, w1. split; [by eapply run_ignore | done]. Qed.

Lemma wp_try {A} (m : M World A) w (Q : res A -> World -> Prop) :
  wp m w (fun a w' => Q (Ok a) w') -> wp (try m) w Q.
Proof. intros (a & w1 & Hm & HQ). exists (Ok a), w1. unfold try. by rewrite Hm. Qed.

Lemma wp_gets {A} (f : World -> A) w (Q : A -> World -> Prop) : Q (f w) w -> wp (gets f) w Q.
Proof. intros. by exists (f w), w. Qed.

(** ** Rules of the collaborators *)

Lemma wp_ask {A} (f : Sys -> nat -> A) w Q :
  (forall w', view w w' (hot_of w) [] -> Q (f (w_sys w) (tick (w_sys w))) w') -> wp (ask f) w Q.
Proof.
  intros H. eexists _, _. split; [reflexivity|]. apply H.
  split; [by eexists | done | by rewrite app_nil_r | done | by left].
Qed.

Lemma wp_now w Q : (forall n w', view w w' (hot_of w) [] -> Q n w') -> wp now w Q.
Proof. intros H. apply wp_ask. auto. Qed.

Lemma wp_newUUID w Q : (forall id w', view w w' (hot_of w) [] -> Q id w') -> wp newUUID w Q.
Proof. intros H. apply wp_ask. auto. Qed.

Lemma ctl_emit e (w : World) : ctl (emit e w) = if control e then ctl w ++ [e] else ctl w.
Proof.
  unfold ctl. cbn. rewrite filter_app, filter_cons, filter_nil. destruct (control e) eqn:E.
  - by rewrite decide_True.
  - rewrite decide_False by congruence. apply app_nil_r.
Qed.

Lemma wp_tell e w (Q : unit -> World -> Prop) :
  (forall w', view w w' (hot_of w) (if control e then [e] else []) -> Q tt w') -> wp (tell e) w Q.
Proof.
  intros H. exists tt, (emit e w). split; [done|]. apply H. split; [reflexivity | done | | done | by left].
  rewrite ctl_emit. destruct (control e); [done | by rewrite app_nil_r].
Qed.

Lemma wp_getCardState c st w Q :
  hot_of w !! c = Some st ->
  (forall w', view w w' (hot_of w) [] -> Q (Some st) w') -> wp (on_store (GetCardState c)) w Q.
Proof.
  intros Hst H. destruct (get_card_state_hit c st (w_sys w) (w_store w) Hst) as (y & s & Hrun & Hy & Hh).
  eexists _, _. unfold on_store. rewrite Hrun. split; [reflexivity|]. apply H.
  split; [done | done | by rewrite app_nil_r | done | by left].
Qed.

Lemma wp_setCardState c st w (Q : unit -> World -> Prop) :
  (forall w', view w w' (<[c := st]> (hot_of w)) [ESetCardState c st] -> Q tt w') ->
  wp (setCardState c st) w Q.
Proof.
  intros H. unfold setCardState. apply wp_bind, wp_tell. intros w1 Hv1. cbn [control] in Hv1.
  destruct (set_card_state c st (w_sys w1) (w_store w1)) as (y & s & Hrun & Hy & Hh).
  eexists _, _. unfold on_store. rewrite Hrun. split; [reflexivity|]. apply H.
  eapply (view_trans w w1 _ _ _ [_] []); [exact Hv1|].
  split; [done | | by rewrite app_nil_r | done | by left].
  pose proof (view_hot _ _ _ _ Hv1) as Hw1. unfold hot_of in *. cbn. by rewrite Hh, Hw1.
Qed.

Lemma wp_publishLog a w (Q : unit -> World -> Prop) :
  (forall w', view w w' (hot_of w) [] -> Q tt w') -> wp (publishLog a) w Q.
Proof.
  intros H. unfold publishLog. apply wp_ignore. unfold LogProducer_Publish.
  apply wp_bind, wp_gets. destruct (LogProducer.disabled _); [apply wp_ret, H, view_refl|].
  apply wp_bind, wp_ask. intros w1 Hv1.
  destruct (sys_full _ _).
  - apply wp_bind. eexists _, _. split; [reflexivity|]. apply wp_ret, H.
    eapply (view_trans _ _ _ _ _ [] []); [exact Hv1|].
    split; [reflexivity | apply (view_hot _ _ _ _ Hv1) | by rewrite app_nil_r | done | by left].
  - apply wp_bind. eexists _, _. split; [reflexivity|]. apply wp_ret, H.
    eapply (view_trans _ _ _ _ _ [] []); [exact Hv1|].
    split; [reflexivity | apply (view_hot _ _ _ _ Hv1) | by rewrite ctl_emit, app_nil_r | done | by left].
Qed.

Lemma wp_broadcast c e w (Q : unit -> World -> Prop) :
  (forall w', view w w' (hot_of w) [] -> Q tt w') -> wp (broadcast cfg c e) w Q.
Proof.
  intros H. unfold broadcast, mwhen. destruct (hasWSHub cfg); [by apply wp_tell | apply wp_ret, H, view_refl].
Qed.

Lemma wp_select_send e w Q :
  uncancelled w -> control e = true ->
  (forall w', view w w' (hot_of w) [e] -> Q (ResolvedFuture None) w') -> wp (select_send e) w Q.
Proof.
  intros Hu He H. unfold select_send. apply wp_bind, wp_ask. intros w1 Hv1. rewrite (Hu _).
  apply wp_bind. eapply wp_tell. intros w2 Hv2. rewrite He in Hv2. apply wp_ret, H.
  rewrite (view_hot _ _ _ _ Hv1) in Hv2. by eapply (view_trans _ _ _ _ _ [] [e]).
Qed.

Lemma wp_publishEvent e w (Q : unit -> World -> Prop) :
  uncancelled w -> (forall w', view w w' (hot_of w) [EEvent e] -> Q tt w') -> wp (publishEvent e) w Q.
Proof.
  intros Hu H. unfold publishEvent, EventProducer_Publish. apply wp_bind, wp_select_send; [done | done |].
  intros w' Hv. by apply wp_ret, H.
Qed.

Lemma wp_writeCardState ev w (Q : unit -> World -> Prop) :
  uncancelled w -> hasCardState cfg = true ->
  (forall w', view w w' (hot_of w) [EState ev] -> Q tt w') -> wp (writeCardState cfg ev) w Q.
Proof.
  intros Hu Hc H. unfold writeCardState, mwhen. rewrite Hc. unfold WriteCardState.
  apply wp_bind, wp_wrap, wp_select_send; [done | done |]. intros w' Hv. by apply wp_ret, H.
Qed.

Lemma wp_evict c w (Q : unit -> World -> Prop) :
  (forall w', view w w' (delete c (hot_of w)) [EEvict c] -> Q tt w') -> wp (evictCardCaches c) w Q.
Proof.
  intros H. unfold evictCardCaches. apply wp_bind. eexists _, _. split; [reflexivity|].
  set (w1 := set_cardKeyCache _ w). destruct (evict_counter c (w_counter w1)) as [c' Hc'].
  apply wp_bind. eexists _, _. unfold on_counter at 1. rewrite Hc'. split; [reflexivity|].
  apply wp_bind, wp_tell. intros w2 Hv2. cbn [control] in Hv2.
  destruct (evict_card_state c (w_sys w2) (w_store w2)) as (y & s & Hrun & Hy & Hh).
  eexists _, _. unfold on_store. rewrite Hrun. split; [reflexivity|]. apply H.
  destruct Hv2 as [Hs2 Hh2 Hc2 Ha2 _]. split; cbn.
  - etrans; [exact Hs2 | exact Hy].
  - unfold hot_of in *. cbn in *. by rewrite Hh, Hh2.
  - unfold ctl in *. cbn in *. by rewrite Hc2.
  - by rewrite Ha2.
  - right. exists c. apply list_elem_of_singleton. done.
Qed.

Lemma wp_loadCampaignContext c cec w Q :
  context_cached w c cec ->
  (forall w', view w w' (hot_of w) [] -> Q cec w') -> wp (loadCampaignContext c) w Q.
Proof.
  intros [Hc Hf] H. unfold loadCampaignContext, freshContext.
  apply wp_bind, wp_bind, wp_gets. rewrite Hc. apply wp_bind, wp_ask. intros w1 Hv1.
  rewrite (proj2 (Z.ltb_lt _ _) (Hf _)). by apply wp_ret, wp_ret, H.
Qed.

End Logic.

(** Composes the views of consecutive steps into one. *)
Ltac compose_views :=
  repeat match goal with
  | H1 : view ?a ?b _ _, H2 : view ?b ?c _ _ |- _ =>
      try rewrite (view_hot _ _ _ _ H1) in H2;
      apply (view_trans _ _ _ _ _ _ _ H1) in H2; clear H1
  end; cbn [app] in *; rewrite ?delete_insert_eq in *.
