(* ===== verification/ExecutorProps.v ===== *)
(** * Properties of the card worker

    The handlers refine a small decision table: [dlr_verdict] and [mo_verdict]
    say what a delivery report or an answer of the card means for the card,
    [enacts] what a verdict does to the hot state and to the other components.
    Further properties: stale events change nothing, an activation records its
    state before it sends, what it sends is what the card can unwrap, and the
    next step is the least one above the current. *)

From S2P Require Import Prelude Effects Models Pipeline Store HexUtil Crypto Gsm0348 SmsFrame ShardedCache Executor Scenario ExecutorLogic.

(** ** Steps and counters *)

Lemma nextStepLoop_spec step n cmds :
  0 <= step -> (n = -1 \/ step < n) ->
  let r := nextStepLoop step n cmds in
  let above := filter (fun c => step < CampaignCommandCache.Sequence c) cmds in
  (r = -1 <-> n = -1 /\ above = []) /\
  (r <> -1 -> step < r /\ (r = n \/ exists c, c ∈ above /\ CampaignCommandCache.Sequence c = r) /\
              (n <> -1 -> r <= n) /\ Forall (fun c => r <= CampaignCommandCache.Sequence c) above).
Proof.
  intros Hs. revert n. induction cmds as [|c cmds IH]; intros n Hn; cbn [nextStepLoop].
  - cbn. split; [naive_solver|]. intros Hr. split; [lia|]. split; [by left|]. split; [lia | constructor].
  - rewrite filter_cons. set (sq := CampaignCommandCache.Sequence c) in *.
    destruct (step <? sq) eqn:E.
    + rewrite decide_True by lia. set (n' := if (n =? -1) || (sq <? n) then sq else n).
      assert (Hn' : step < n' /\ n' <= sq /\ (n <> -1 -> n' <= n) /\ (n' = sq \/ n' = n)).
      { unfold n'. destruct (n =? -1) eqn:E1; cbn [orb]; [lia|]. destruct (sq <? n) eqn:E2; lia. }
      destruct (IH n') as [IH1 IH2]; [lia|]. cbv zeta. split.
      * split; [intros Hr; apply IH1 in Hr; lia | intros [_ [=]]].
      * intros Hr. destruct (IH2 Hr) as (H1 & H2 & H3 & H4). specialize (H3 ltac:(lia)).
        split; [done|]. split; [|split; [lia|]].
        -- destruct H2 as [H2 | (c' & Hin & Heq)]; [|right; exists c'; split; [by right | done]].
           destruct Hn' as (_ & _ & _ & [Hq | Hq]); [right; exists c; split; [by left | unfold sq in *; lia] | left; lia].
        -- constructor; [unfold sq in *; lia | done].
    + rewrite decide_False by lia. apply IH. done.
Qed.

(** The next step.  With commands numbered from 0, [advanceOrComplete] picks the least sequence
    number above the current step, and finds none exactly when no command follows: no step is
    skipped, whatever the order of the commands and the gaps between their numbers. *)
Theorem next_step_least step cmds :
  0 <= step ->
  let n := nextStepLoop step (-1) cmds in
  (n = -1 <-> forall c, c ∈ cmds -> CampaignCommandCache.Sequence c <= step) /\
  (n <> -1 -> (exists c, c ∈ cmds /\ CampaignCommandCache.Sequence c = n) /\ step < n /\
              forall c, c ∈ cmds -> step < CampaignCommandCache.Sequence c ->
                        n <= CampaignCommandCache.Sequence c).
Proof.
  intros Hs n. destruct (nextStepLoop_spec step (-1) cmds Hs) as [H1 H2]; [by left|].
  cbv zeta in H1, H2. fold n in H1, H2. split.
  - rewrite H1. split.
    + intros [_ Hnil] c Hc. destruct (decide (step < CampaignCommandCache.Sequence c)); [|lia].
      assert (Hin : c ∈ filter (fun c => step < CampaignCommandCache.Sequence c) cmds)
        by (by apply list_elem_of_filter).
      rewrite Hnil in Hin. by apply not_elem_of_nil in Hin.
    + intros Hall. split; [done|]. destruct (filter _ cmds) as [|c l] eqn:E; [done|].
      assert (Hin : c ∈ filter (fun c => step < CampaignCommandCache.Sequence c) cmds)
        by (rewrite E; by left).
      apply list_elem_of_filter in Hin as [Hlt Hin]. specialize (Hall c Hin). lia.
  - intros Hn. destruct (H2 Hn) as (Hlt & [Heq | (c & Hin & Heq)] & _ & Hall); [lia|].
    apply list_elem_of_filter in Hin as [_ Hin]. split; [by exists c|]. split; [done|].
    intros c' Hc' Hgt. rewrite Forall_forall in Hall. apply Hall. by apply list_elem_of_filter.
Qed.

Lemma u8_shiftr v k : 0 <= k -> u8 (Z.shiftr (u32 v) k) = (v mod 2 ^ 32) / 2 ^ k mod 256.
Proof. intros. unfold u8, u32. by rewrite Z.shiftr_div_pow2. Qed.

(** The value of a big-endian byte string. *)
Definition be_value (l : list Z) : Z := foldl (fun acc b => 256 * acc + b) 0 l.

Lemma be_split x : 0 <= x < 2 ^ 32 ->
  x = 2 ^ 24 * (x / 2 ^ 24 mod 256) + 2 ^ 16 * (x / 2 ^ 16 mod 256) + 2 ^ 8 * (x / 2 ^ 8 mod 256) + x mod 256.
Proof.
  intros Hx. change (2 ^ 32) with 4294967296 in Hx.
  change (2 ^ 24) with 16777216. change (2 ^ 16) with 65536. change (2 ^ 8) with 256.
  Z.div_mod_to_equations. lia.
Qed.

(** The counter field.  The five counter bytes of a packet are the counter value, big endian, and
    the value is recovered from them for every counter below 2^40; larger values wrap. *)
Lemma counter_bytes_value v :
  0 <= v < 2 ^ 63 ->
  length (counterBytes v) = 5%nat /\ bytes_ok (counterBytes v) /\ be_value (counterBytes v) = v mod 2 ^ 40.
Proof.
  intros Hv. split; [done|]. split.
  - unfold counterBytes, bytes_ok. rewrite !Forall_cons. split_and!; try apply u8_is_byte. constructor.
  - unfold counterBytes, be_value. cbn [foldl]. rewrite !u8_shiftr by lia.
    unfold u8 at 1 2. rewrite Z.shiftr_div_pow2 by lia. unfold u32.
    assert (H32 : v mod 2 ^ 40 = 2 ^ 32 * (v / 2 ^ 32 mod 256) + v mod 2 ^ 32).
    { change (2 ^ 40) with (2 ^ 32 * 256). rewrite Z.rem_mul_r by lia. lia. }
    rewrite H32. pose proof (Z.mod_pos_bound v (2 ^ 32) ltac:(lia)) as Hm.
    rewrite (be_split (v mod 2 ^ 32) Hm) at 5. lia.
Qed.

(** ** The decision table *)

Inductive verdict :=
| Ignore
| AwaitMO
| Advance (step : Z)
| Retry (step n : Z)
| Complete
| Fail (stateRetries changeRetries : Z) (err from : string).

Definition after_step (cmds : list CampaignCommandCache.t) (step : Z) : verdict :=
  let n := nextStepLoop step (-1) cmds in if n =? -1 then Complete else Advance n.

Definition expects_response (cec : campaignExecutionContext) (step : Z) : bool :=
  match cec_commandByStep cec !! step with
  | Some cmd => CampaignCommandCache.ExpectResponse cmd
  | None => false
  end.

(** What a delivery report means for a card in state [st]. *)
Definition dlr_verdict (cec : campaignExecutionContext) (st : CardState.t) (event : CardEvent.t) : verdict :=
  if bool_decide (CardState.Status st ∈ ["awaiting_dlr"; "in_progress"]) then
    let dlr := CardEvent.DLRStatus event in
    if bool_decide (dlr = "DELIVRD") then
      if expects_response cec (CardState.CurrentStep st) then AwaitMO
      else after_step (cec_commands cec) (CardEvent.Step event)
    else if bool_decide (dlr = "FAILED_PARTIAL_SUBMIT") then
      Fail (CardState.RetryCount st) 0 ("submit failed after partial accept: " +:+ CardEvent.ErrorCode event) "pending"
    else if bool_decide (dlr ∈ dlrFailureStatuses) then
      let n := CardState.RetryCount st + 1 in
      if n <? CampaignParams.MaxRetries (cec_params cec) then Retry (CardState.CurrentStep st) n
      else Fail n n ("DLR status: " +:+ dlr +:+ " (error_code: " +:+ CardEvent.ErrorCode event +:+ ")") "in_progress"
    else Ignore
  else Ignore.

(** What a proof of receipt with status [code] means. *)
Definition mo_verdict (cec : campaignExecutionContext) (st : CardState.t) (code : Z) : verdict :=
  if code =? RespOK then after_step (cec_commands cec) (CardState.CurrentStep st)
  else Fail (CardState.RetryCount st) 0
         ("PoR error: status_code=" +:+ hex02 code +:+ " (" +:+ porStatusDescription code +:+ ")") "in_progress".

Definition awaiting_mo (st : CardState.t) : CardState.t := {|
  CardState.CampaignID := CardState.CampaignID st;
  CardState.CurrentStep := CardState.CurrentStep st;
  CardState.Status := "awaiting_mo";
  CardState.RetryCount := CardState.RetryCount st;
  CardState.LastMsgID := CardState.LastMsgID st;
  CardState.LastEventID := CardState.LastEventID st;
  CardState.TransitionSeq := i64 (CardState.TransitionSeq st + 1) |}.

Section Handlers.
Context {S C : Type} `{!CoordinationStore S, !CoordinationLaws S, !CounterStore C, !CounterLaws C}.
Context (cfg : Config).
Abbreviation World := (World S C).
Implicit Types w : World.

(** What a verdict does: the hot state of the card, the events and the state
    changes sent, in this order and nothing else. *)
Definition enacts (card campaign : string) (st : CardState.t) (event : CardEvent.t) (v : verdict)
    (w w' : World) : Prop :=
  let seq := i64 (CardState.TransitionSeq st + 1) in
  match v with
  | Ignore => view w w' (hot_of w) []
  | AwaitMO => view w w' (<[card := awaiting_mo st]> (hot_of w)) [ESetCardState card (awaiting_mo st)]
  | Advance n => exists id at_,
      view w w' (hot_of w) [EEvent (CardEvent.activate id card campaign n 0 at_)]
  | Retry step n => exists id at_,
      view w w' (hot_of w) [EEvent (CardEvent.activate id card campaign step n at_)]
  | Complete => exists at_,
      view w w' (delete card (hot_of w))
        [ESetCardState card (completedState campaign seq);
         EState (terminalChange campaign card "completed" 0 "" at_ seq "in_progress" "completed");
         EEvict card]
  | Fail sr cr err from => exists at_,
      view w w' (delete card (hot_of w))
        [ESetCardState card (failedState event st sr seq);
         EState (terminalChange campaign card "failed" cr err at_ seq from "failed");
         EEvict card]
  end.

Lemma enacts_after w0 w1 w2 card campaign st event v :
  view w0 w1 (hot_of w0) [] -> enacts card campaign st event v w1 w2 ->
  enacts card campaign st event v w0 w2.
Proof.
  intros Hv He. pose proof (view_hot _ _ _ _ Hv) as Hh.
  destruct v; cbn [enacts] in *; rewrite Hh in He;
    repeat (let x := fresh "x" in destruct He as [x He]; exists x);
    by eapply (view_trans _ _ _ _ _ []).
Qed.

(** The terminal tail shared by completion and failure. *)
Lemma wp_failCard card event st sr cr err from data w :
  card = CardEvent.CardID event -> uncancelled w -> hasCardState cfg = true ->
  wp (failCard cfg event st sr cr err from data) w
     (fun _ w' => enacts card (CardEvent.CampaignID event) st event (Fail sr cr err from) w w').
Proof.
  intros -> Hu Hc. unfold failCard. cbn [nextSeq].
  apply wp_bind, wp_ignore, wp_setCardState. intros w1 Hv1. apply wp_bind. unfold mwhen. rewrite Hc.
  apply wp_bind, wp_now. intros at_ w2 Hv2. apply wp_bind, wp_wrap. unfold WriteCardState.
  assert (Hu2 : uncancelled w2) by eauto using view_uncancelled.
  apply wp_select_send; [done | done |]. intros w3 Hv3. apply wp_ret, wp_bind, wp_broadcast. intros w4 Hv4.
  apply wp_evict. intros w5 Hv5. exists at_.
  by compose_views.
Qed.

Lemma wp_advanceOrComplete card event cmds st w :
  card = CardEvent.CardID event -> uncancelled w -> hasCardState cfg = true ->
  wp (advanceOrComplete cfg event cmds st) w
     (fun _ w' => enacts card (CardEvent.CampaignID event) st event (after_step cmds (CardEvent.Step event)) w w').
Proof.
  intros -> Hu Hc. unfold advanceOrComplete, after_step. cbv zeta. destruct (_ =? -1).
  - apply wp_bind, wp_now. intros at_ w1 Hv1. cbn [nextSeq].
    apply wp_bind, wp_ignore, wp_setCardState. intros w2 Hv2.
    assert (Hu2 : uncancelled w2) by eauto using view_uncancelled.
    apply wp_bind, wp_writeCardState; [done | done |]. intros w3 Hv3.
    apply wp_bind, wp_broadcast. intros w4 Hv4. apply wp_evict. intros w5 Hv5. exists at_.
    by compose_views.
  - apply wp_bind, wp_newUUID. intros id w1 Hv1. apply wp_bind, wp_now. intros at_ w2 Hv2.
    assert (Hu2 : uncancelled w2) by eauto using view_uncancelled.
    apply wp_publishEvent; [done|]. intros w3 Hv3. exists id, at_.
    by compose_views.
Qed.

Lemma wp_dlrFailed event st cec w :
  uncancelled w -> hasCardState cfg = true -> context_cached w (CardEvent.CampaignID event) cec ->
  let n := CardState.RetryCount st + 1 in
  wp (dlrFailed cfg event st) w
     (fun _ w' => enacts (CardEvent.CardID event) (CardEvent.CampaignID event) st event
        (if n <? CampaignParams.MaxRetries (cec_params cec) then Retry (CardState.CurrentStep st) n
         else Fail n n ("DLR status: " +:+ CardEvent.DLRStatus event +:+ " (error_code: " +:+
                        CardEvent.ErrorCode event +:+ ")") "in_progress") w w').
Proof.
  intros Hu Hc Hctx n. unfold dlrFailed. eapply wp_bind, wp_wrap, wp_loadCampaignContext; [done|].
  intros w1 Hv1. assert (Hu1 : uncancelled w1) by eauto using view_uncancelled. fold n.
  destruct (n <? _).
  - apply wp_bind, wp_newUUID. intros id w2 Hv2. apply wp_bind, wp_now. intros at_ w3 Hv3.
    apply wp_publishEvent; [eauto using view_uncancelled|]. intros w4 Hv4. exists id, at_.
    by compose_views.
  - destruct (wp_failCard (CardEvent.CardID event) event st n n ("DLR status: " +:+ CardEvent.DLRStatus event +:+
      " (error_code: " +:+ CardEvent.ErrorCode event +:+ ")") "in_progress" [("status", VStr "failed");
      ("last_error", VStr ("DLR status: " +:+ CardEvent.DLRStatus event +:+ " (error_code: " +:+
      CardEvent.ErrorCode event +:+ ")")); ("retry_count", VInt n)] w1) as (a & w' & Hrun & He); [done | done | done |].
    exists a, w'. split; [exact Hrun|]. by eapply enacts_after.
Qed.

Lemma wp_enacts_after {A} (m : M World A) w0 w1 card campaign st event v :
  view w0 w1 (hot_of w0) [] ->
  wp m w1 (fun _ w' => enacts card campaign st event v w1 w') ->
  wp m w1 (fun _ w' => enacts card campaign st event v w0 w').
Proof. intros Hv (a & w' & Hm & He). exists a, w'. split; [done | by eapply enacts_after]. Qed.

Lemma wp_dlrDelivered event st cec w :
  uncancelled w -> hasCardState cfg = true -> context_cached w (CardEvent.CampaignID event) cec ->
  wp (dlrDelivered cfg event st) w
     (fun _ w' => enacts (CardEvent.CardID event) (CardEvent.CampaignID event) st event
        (if expects_response cec (CardState.CurrentStep st) then AwaitMO
         else after_step (cec_commands cec) (CardEvent.Step event)) w w').
Proof.
  intros Hu Hc Hctx. unfold dlrDelivered. eapply wp_bind, wp_wrap, wp_loadCampaignContext; [done|].
  intros w1 Hv1. assert (Hu1 : uncancelled w1) by eauto using view_uncancelled.
  fold (expects_response cec (CardState.CurrentStep st)). cbv zeta.
  destruct (expects_response _ _).
  - cbn [nextSeq]. apply wp_ignore, wp_setCardState. intros w2 Hv2. cbn [enacts]. by compose_views.
  - by eapply wp_enacts_after; [|apply wp_advanceOrComplete].
Qed.

(** The messages before the decision move nothing. *)
Lemma wp_dlr_notices {A} (event : CardEvent.t) (k : M World A) w Q :
  (forall w', view w w' (hot_of w) [] -> wp k w' Q) ->
  wp (do! _ <- mwhen (negb (bool_decide (CardEvent.MsgID event = "")))
        (publishLog (MessageLogAction.update (CardEvent.MsgID event)
           [("dlr_status", VStr (CardEvent.DLRStatus event));
            ("smpp_message_id", VStr (CardEvent.SMPPMessageID event))]));
      do! _ <- broadcast cfg (CardEvent.CampaignID event) {|
        WSEvent.Type_ := "dlr_update"; WSEvent.CampaignID := CardEvent.CampaignID event;
        WSEvent.CardID := CardEvent.CardID event;
        WSEvent.Data := [("msg_id", VStr (CardEvent.MsgID event));
                         ("dlr_status", VStr (CardEvent.DLRStatus event))] |}; k) w Q.
Proof.
  intros H. apply wp_bind. unfold mwhen.
  destruct (negb _); [apply wp_publishLog | apply wp_ret]; [intros w1 Hv1|].
  - apply wp_bind, wp_broadcast. intros w2 Hv2. apply H. by compose_views.
  - apply wp_bind, wp_broadcast. intros w2 Hv2. by apply H.
Qed.

(** The whole handler. *)
Lemma handleDLR_enacts event st cec w :
  hot_of w !! CardEvent.CardID event = Some st ->
  context_cached w (CardEvent.CampaignID event) cec ->
  uncancelled w -> hasCardState cfg = true ->
  exists w', handleDLR cfg event w = (Ok tt, w') /\
    enacts (CardEvent.CardID event) (CardEvent.CampaignID event) st event (dlr_verdict cec st event) w w'.
Proof.
  intros Hst Hctx Hu Hc.
  enough (wp (handleDLR cfg event) w (fun _ w' => enacts (CardEvent.CardID event) (CardEvent.CampaignID event)
            st event (dlr_verdict cec st event) w w')) as ([] & w' & H1 & H2) by eauto.
  unfold handleDLR, dlr_verdict. eapply wp_bind, wp_wrap, wp_getCardState; [exact Hst|]. intros w1 Hv1.
  cbv zeta. destruct (bool_decide (CardState.Status st ∈ ["awaiting_dlr"; "in_progress"; "awaiting_mo"])) eqn:E1;
    cbn [negb].
  2: { apply bool_decide_eq_false in E1. rewrite bool_decide_false by set_solver. by apply wp_ret. }
  apply wp_dlr_notices. intros w2 Hv2. apply bool_decide_eq_true in E1.
  assert (Hcond : (negb (bool_decide (CardState.Status st = "awaiting_dlr")) &&
                   negb (bool_decide (CardState.Status st = "in_progress")))
                  = negb (bool_decide (CardState.Status st ∈ ["awaiting_dlr"; "in_progress"]))).
  { repeat case_bool_decide; set_solver. }
  rewrite Hcond. destruct (bool_decide (CardState.Status st ∈ ["awaiting_dlr"; "in_progress"])); cbn [negb].
  2: { apply wp_ret. cbn [enacts]. by compose_views. }
  assert (Hu2 : uncancelled w2) by eauto using view_uncancelled.
  assert (Hctx2 : context_cached w2 (CardEvent.CampaignID event) cec) by eauto using view_context.
  assert (Hv : view w w2 (hot_of w) []) by (by compose_views). clear Hv1 Hv2.
  destruct (bool_decide (_ = "DELIVRD")).
  { eapply wp_enacts_after; [done|]. by apply wp_dlrDelivered. }
  destruct (bool_decide (_ = "FAILED_PARTIAL_SUBMIT")).
  { eapply wp_enacts_after; [done|]. by apply wp_failCard. }
  destruct (bool_decide (_ ∈ dlrFailureStatuses)).
  { eapply wp_enacts_after; [done|]. by apply wp_dlrFailed. }
  by apply wp_ret.
Qed.


Lemma dlr_verdict_no_answer cec st event :
  CardState.Status st ∈ ["awaiting_dlr"; "in_progress"] -> CardEvent.DLRStatus event = "DELIVRD" ->
  expects_response cec (CardState.CurrentStep st) = false ->
  dlr_verdict cec st event = after_step (cec_commands cec) (CardEvent.Step event).
Proof. intros Hs Hd He. unfold dlr_verdict. by rewrite bool_decide_true, Hd, bool_decide_true, He by done. Qed.

(** Delivery reports without a step do not advance the card.  [handleDLR] continues from the step of
    the event, not from the step of the card's state.  When the report carries step 0, as the reports
    of the gateway do, a delivered command numbered from 1 that expects no answer is followed by an
    activation of a step not above the current one: the card never completes, and the same commands are
    sent again. *)
Theorem dlr_step_zero_resends event st cec c w :
  hot_of w !! CardEvent.CardID event = Some st ->
  context_cached w (CardEvent.CampaignID event) cec ->
  uncancelled w -> hasCardState cfg = true ->
  CardState.Status st ∈ ["awaiting_dlr"; "in_progress"] ->
  CardEvent.DLRStatus event = "DELIVRD" -> CardEvent.Step event = 0 ->
  c ∈ cec_commands cec -> CampaignCommandCache.Sequence c = CardState.CurrentStep st ->
  1 <= CardState.CurrentStep st -> expects_response cec (CardState.CurrentStep st) = false ->
  exists w' step id at_, handleDLR cfg event w = (Ok tt, w') /\ 1 <= step <= CardState.CurrentStep st /\
    view w w' (hot_of w) [EEvent (CardEvent.activate id (CardEvent.CardID event)
                                    (CardEvent.CampaignID event) step 0 at_)].
Proof.
  intros Hst Hctx Hu Hc Hs Hd H0 Hin Hseq H1 He.
  destruct (handleDLR_enacts event st cec w) as (w' & Hrun & Hen); [done..|].
  rewrite dlr_verdict_no_answer in Hen by done. unfold after_step in Hen. rewrite H0 in Hen.
  destruct (nextStepLoop_spec 0 (-1) (cec_commands cec) ltac:(lia) ltac:(by left)) as [Hn1 Hn2].
  assert (Hab : c ∈ filter (fun c => 0 < CampaignCommandCache.Sequence c) (cec_commands cec))
    by (apply list_elem_of_filter; split; [lia | done]).
  destruct (nextStepLoop 0 (-1) (cec_commands cec) =? -1) eqn:E.
  - apply Z.eqb_eq, Hn1 in E as [_ E]. rewrite E in Hab. by apply not_elem_of_nil in Hab.
  - apply Z.eqb_neq in E. destruct (Hn2 E) as (Hlt & _ & _ & Hall). rewrite Forall_forall in Hall.
    specialize (Hall _ Hab). destruct Hen as (id & at_ & Hv). eexists w', _, id, at_.
    split; [exact Hrun|]. split; [|exact Hv]. lia.
Qed.

Lemma view_nil_keys w w' h : view w w' h [] -> cardKeyCache w' = cardKeyCache w.
Proof. intros [_ _ _ _ [[_ H] | [c Hc]]]; [done | by apply not_elem_of_nil in Hc]. Qed.

Lemma wp_loadCardKeys card keys w Q :
  Load card (cardKeyCache w) = Some keys -> Q keys w -> wp (loadCardKeys cfg card) w Q.
Proof. intros Hk HQ. unfold loadCardKeys. apply wp_bind, wp_gets. rewrite Hk. by apply wp_ret. Qed.

Lemma wp_publishLog_when b a w (Q : unit -> World -> Prop) :
  (forall w', view w w' (hot_of w) [] -> Q tt w') -> wp (mwhen b (publishLog a)) w Q.
Proof. intros H. destruct b; [by apply wp_publishLog | apply wp_ret, H, view_refl]. Qed.

(** The event as [handleMO] goes on with it. *)
Definition mo_event (st : CardState.t) (event : CardEvent.t) : CardEvent.t :=
  if bool_decide (CardEvent.CampaignID event = "")
  then CardEvent.set_CampaignID (CardState.CampaignID st) event else event.

Lemma enacts_after_step_event card campaign st e1 e2 cmds step w w' :
  enacts card campaign st e1 (after_step cmds step) w w' ->
  enacts card campaign st e2 (after_step cmds step) w w'.
Proof. unfold after_step. by destruct (_ =? -1). Qed.

Lemma wp_moEvaluate event st cec resp w :
  uncancelled w -> hasCardState cfg = true ->
  wp (moEvaluate cfg event st cec resp) w
     (fun _ w' => enacts (CardEvent.CardID event) (CardEvent.CampaignID event) st event
                    (mo_verdict cec st (resp_StatusCode resp)) w w').
Proof.
  intros Hu Hc. unfold moEvaluate, mo_verdict. destruct (_ =? RespOK); [|by apply wp_failCard].
  apply wp_bind, wp_broadcast. intros w1 Hv1. eapply wp_enacts_after; [exact Hv1|].
  match goal with |- wp (advanceOrComplete _ ?e _ _) _ _ =>
    destruct (wp_advanceOrComplete (CardEvent.CardID event) e (cec_commands cec) st w1)
      as (a & w' & Hrun & He); [done | eauto using view_uncancelled | done |] end.
  exists a, w'. split; [exact Hrun|]. by eapply enacts_after_step_event.
Qed.

Lemma handleMO_enacts event st keys payload cec cmd resp w :
  hot_of w !! CardEvent.CardID event = Some st ->
  CardState.Status st ∈ ["awaiting_mo"; "awaiting_dlr"] ->
  Load (CardEvent.CardID event) (cardKeyCache w) = Some keys ->
  Decode (CardEvent.PayloadHex event) = Ok payload ->
  context_cached w (CardEvent.CampaignID (mo_event st event)) cec ->
  cec_commandByStep cec !! CardState.CurrentStep st = Some cmd ->
  ParseResponsePacket (buildSecProfileFromCache cmd) payload (CardKeyMaterial.EncKey keys)
    (CardKeyMaterial.AuthKey keys) = Ok resp ->
  uncancelled w -> hasCardState cfg = true ->
  exists w', handleMO cfg event w = (Ok tt, w') /\
    enacts (CardEvent.CardID event) (CardEvent.CampaignID (mo_event st event)) st (mo_event st event)
      (mo_verdict cec st (resp_StatusCode resp)) w w'.
Proof.
  intros Hst Hstat Hk Hpay Hctx Hcmd Hresp Hu Hc.
  assert (Hid : CardEvent.CardID (mo_event st event) = CardEvent.CardID event)
    by (unfold mo_event; by case_bool_decide).
  assert (Hpl : CardEvent.PayloadHex (mo_event st event) = CardEvent.PayloadHex event)
    by (unfold mo_event; by case_bool_decide).
  enough (wp (handleMO cfg event) w (fun _ w' => enacts (CardEvent.CardID event)
            (CardEvent.CampaignID (mo_event st event)) st (mo_event st event)
            (mo_verdict cec st (resp_StatusCode resp)) w w')) as ([] & w' & H1 & H2) by eauto.
  unfold handleMO. eapply wp_bind, wp_wrap, wp_getCardState; [exact Hst|]. intros w1 Hv1.
  assert (Hif : negb (bool_decide (CardState.Status st = "awaiting_mo")) &&
                negb (bool_decide (CardState.Status st = "awaiting_dlr")) = false)
    by (repeat case_bool_decide; set_solver).
  rewrite Hif. cbv zeta. fold (mo_event st event). rewrite Hid, Hpl.
  eapply wp_bind, wp_wrap, wp_loadCardKeys; [by rewrite (view_nil_keys _ _ _ Hv1)|].
  apply wp_bind, wp_wrap. rewrite Hpay. apply (wp_ret (S := S) (C := C)).
  eapply wp_bind, wp_wrap, wp_loadCampaignContext; [eauto using view_context|]. intros w2 Hv2.
  rewrite Hcmd. apply wp_bind, wp_wrap. rewrite Hresp. apply (wp_ret (S := S) (C := C)).
  apply wp_bind, wp_newUUID. intros id w3 Hv3. apply wp_bind, wp_now. intros at_ w4 Hv4.
  apply wp_bind, wp_publishLog. intros w5 Hv5. apply wp_bind, wp_publishLog_when. intros w6 Hv6.
  assert (Hv : view w w6 (hot_of w) []) by (by compose_views).
  eapply wp_enacts_after; [exact Hv|]. rewrite <- Hid.
  apply wp_moEvaluate; [eauto using view_uncancelled | done].
Qed.

(** C6: answers of the card refine the decision table.  For a card that waits for an answer, with keys,
    campaign context and command at hand, a payload that is valid hex and that
    [ParseResponsePacket] accepts, [handleMO] returns without error and does exactly what
    [mo_verdict] prescribes for the status byte of the parsed packet: on success the next step above the
    card's own current step is activated or the card completes, any other status fails the card with
    the description of the code.  An empty campaign in the event is taken from the card's state. *)
Theorem mo_refines_table event st keys payload cec cmd resp w :
  hot_of w !! CardEvent.CardID event = Some st ->
  CardState.Status st ∈ ["awaiting_mo"; "awaiting_dlr"] ->
  Load (CardEvent.CardID event) (cardKeyCache w) = Some keys ->
  Decode (CardEvent.PayloadHex event) = Ok payload ->
  context_cached w (CardEvent.CampaignID (mo_event st event)) cec ->
  cec_commandByStep cec !! CardState.CurrentStep st = Some cmd ->
  ParseResponsePacket (buildSecProfileFromCache cmd) payload (CardKeyMaterial.EncKey keys)
    (CardKeyMaterial.AuthKey keys) = Ok resp ->
  uncancelled w -> hasCardState cfg = true ->
  exists w', handleMO cfg event w = (Ok tt, w') /\
    enacts (CardEvent.CardID event) (CardEvent.CampaignID (mo_event st event)) st (mo_event st event)
      (mo_verdict cec st (resp_StatusCode resp)) w w'.
Proof. apply handleMO_enacts. Qed.

(** Stale events.  Once the hot state of a card is terminal (completed, failed, skipped), delivery
    reports and answers for it return without error and change nothing: no message, no log line, no
    state; terminal states are absorbing until the card is evicted. *)
Theorem terminal_state_absorbs event st w :
  hot_of w !! CardEvent.CardID event = Some st ->
  CardState.Status st ∈ ["completed"; "failed"; "skipped"] ->
  (exists w', handleDLR cfg event w = (Ok tt, w') /\ w_trace w' = w_trace w /\ view w w' (hot_of w) []) /\
  (exists w', handleMO cfg event w = (Ok tt, w') /\ w_trace w' = w_trace w /\ view w w' (hot_of w) []).
Proof.
  intros Hst Hstat. rewrite !elem_of_cons, elem_of_nil in Hstat.
  assert (Hno : forall s, s ∈ ["awaiting_dlr"; "in_progress"; "awaiting_mo"] -> CardState.Status st <> s)
    by (intros s; rewrite !elem_of_cons, elem_of_nil; intuition congruence).
  destruct (get_card_state_hit (CardEvent.CardID event) st (w_sys w) (w_store w) Hst) as (y & s & Hrun & Hy & Hh).
  set (w' := set_w_store s (set_w_sys y w)).
  assert (Hget : forall fmt, mwrap fmt (on_store (GetCardState (CardEvent.CardID event))) w = (Ok (Some st), w'))
    by (intros; apply run_wrap; unfold on_store; by rewrite Hrun).
  assert (Hv : view w w' (hot_of w) [])
    by (split; [done | done | by rewrite app_nil_r | done | by left]).
  split; exists w'; (split; [|split; [done | exact Hv]]).
  - unfold handleDLR. rewrite (run_bind _ _ _ _ _ (Hget _)). cbv zeta.
    rewrite (bool_decide_false (CardState.Status st ∈ ["awaiting_dlr"; "in_progress"; "awaiting_mo"]))
      by (intros Hin; by apply (Hno _ Hin)). done.
  - unfold handleMO. rewrite (run_bind _ _ _ _ _ (Hget _)).
    rewrite (bool_decide_false (CardState.Status st = "awaiting_mo")) by (apply Hno; set_solver).
    rewrite (bool_decide_false (CardState.Status st = "awaiting_dlr")) by (apply Hno; set_solver). done.
Qed.

End Handlers.

(** ** Witnesses *)

Lemma next_step_least_witness :
  nextStepLoop 1 (-1) [Scenario.cmd1; Scenario.cmd2] = 2 /\
  forall c, c ∈ [Scenario.cmd1; Scenario.cmd2] -> 1 < CampaignCommandCache.Sequence c ->
            2 <= CampaignCommandCache.Sequence c.
Proof.
  split; [reflexivity|].
  destruct (next_step_least 1 [Scenario.cmd1; Scenario.cmd2] ltac:(lia)) as [_ H].
  destruct (H ltac:(vm_compute; congruence)) as (_ & _ & Hall). exact Hall.
Defined.


Lemma scenario_context throttle status hot y :
  (forall n, sys_now y n = 1000) ->
  context_cached (Scenario.world_with y throttle status hot) "camp-1" (Scenario.context throttle).
Proof. intros Hn. split; [apply lookup_singleton_eq|]. intros n. cbn. rewrite Hn. done. Qed.


(** A delivered second step, reported with step 0: step 1 is sent again. *)
Lemma dlr_step_zero_resends_witness :
  let w := Scenario.world {[ "card-1" := Scenario.state "awaiting_dlr" 2 0 ]} in
  exists w' step id at_, handleDLR Scenario.cfg (Scenario.dlr "DELIVRD" 0) w = (Ok tt, w') /\ 1 <= step <= 2 /\
    ctl w' = [EEvent (CardEvent.activate id "card-1" "camp-1" step 0 at_)].
Proof.
  intros w.
  destruct (dlr_step_zero_resends Scenario.cfg (Scenario.dlr "DELIVRD" 0) (Scenario.state "awaiting_dlr" 2 0)
              (Scenario.context None) Scenario.cmd2 w) as (w' & step & id & at_ & Hrun & Hs & Hv);
    [reflexivity | by apply scenario_context | done | done | by left | done | done | by right; left | done | done | done |].
  exists w', step, id, at_. split; [exact Hrun|]. split; [exact Hs | by rewrite (view_ctl _ _ _ _ Hv)].
Defined.

(** A positive receipt for step 1 activates step 2. *)
Lemma mo_refines_table_witness :
  let w := Scenario.world {[ "card-1" := Scenario.state "awaiting_mo" 1 0 ]} in
  exists w' id at_, handleMO Scenario.cfg Scenario.mo w = (Ok tt, w') /\
    ctl w' = [EEvent (CardEvent.activate id "card-1" "camp-1" 2 0 at_)].
Proof.
  intros w.
  destruct (mo_refines_table Scenario.cfg Scenario.mo (Scenario.state "awaiting_mo" 1 0) Scenario.keys
              (response_bytes Scenario.receipt (resp_Data Scenario.receipt)) (Scenario.context None)
              Scenario.cmd1 Scenario.receipt w) as (w' & Hrun & id & at_ & Hv);
    [reflexivity | by left | vm_compute; reflexivity | vm_compute; reflexivity | by apply scenario_context
    | reflexivity | vm_compute; reflexivity | done | done |].
  exists w', id, at_. split; [exact Hrun | by rewrite (view_ctl _ _ _ _ Hv)].
Defined.

Lemma terminal_state_absorbs_witness :
  let w := Scenario.world {[ "card-1" := Scenario.state "completed" 2 0 ]} in
  exists w', handleDLR Scenario.cfg (Scenario.dlr "DELIVRD" 0) w = (Ok tt, w') /\ w_trace w' = [] /\
    hot_of w' = {[ "card-1" := Scenario.state "completed" 2 0 ]}.
Proof.
  intros w.
  destruct (terminal_state_absorbs Scenario.cfg (Scenario.dlr "DELIVRD" 0) (Scenario.state "completed" 2 0) w)
    as [(w' & Hrun & Ht & Hv) _]; [reflexivity | by left |].
  exists w'. split; [exact Hrun|]. split; [exact Ht | by rewrite (view_hot _ _ _ _ Hv)].
Defined.
