(* ===== verification/ActivateProps.v ===== *)
(** * Properties of an activation

    [handleActivate] from the cached campaign to the published SMS: an
    activation that has everything at hand sends exactly one message, its parts
    carry a packet that the card unwraps to the script of the step with the
    counter's current value, the counter moves on, and the hot state of the card is
    recorded before the message goes out. *)

From S2P Require Import Prelude Effects Models Pipeline Store HexUtil Crypto Gsm0348 SmsFrame ShardedCache Executor Scenario ExecutorLogic.

(** ** The security profile of a command *)

(** The parsers of helpers.go map every string to a legal mode. *)
Lemma parseCertificationMode_range s : 0 <= parseCertificationMode s < 4.
Proof. unfold parseCertificationMode. repeat case_bool_decide; done. Qed.

Lemma parseCipherMode_range s : 0 <= parseCipherMode s < 4.
Proof. unfold parseCipherMode. repeat case_bool_decide; done. Qed.

Lemma parseCipherMode_AES s : s <> "AES_CBC" -> parseCipherMode s < 3.
Proof. intros. unfold parseCipherMode. repeat case_bool_decide; done. Qed.

Lemma secProfile_modes cmd :
  CampaignCommandCache.Ciphered cmd = false \/ CampaignCommandCache.KIcMode cmd <> "AES_CBC" ->
  card_modes_ok (buildSecProfileFromCache cmd) = true.
Proof.
  intros Hc. unfold card_modes_ok, buildSecProfileFromCache. cbn [CertMode KIDMode KIcMode Ciphered].
  pose proof (parseCertificationMode_range (CampaignCommandCache.CertMode cmd)).
  pose proof (parseCipherMode_range (CampaignCommandCache.KIdMode cmd)).
  pose proof (parseCipherMode_range (CampaignCommandCache.KIcMode cmd)).
  rewrite !andb_true_iff, orb_true_iff, negb_true_iff, !Z.leb_le, !Z.ltb_lt.
  split; [lia|]. destruct Hc as [Hc | Hc]; [by left | right; by apply parseCipherMode_AES].
Qed.

Lemma counterBytes_ok v : length (counterBytes v) = 5%nat /\ bytes_ok (counterBytes v).
Proof.
  split; [done|]. unfold counterBytes, bytes_ok. rewrite !Forall_cons.
  split_and!; try apply u8_is_byte. constructor.
Qed.

(** What [handleActivate] needs of a command and of the keys to build its packet. *)
Definition command_bytes_ok (cmd : CampaignCommandCache.t) (keys : CardKeyMaterial.t) : Prop :=
  bytes_ok (CampaignCommandCache.TAR cmd) /\ bytes_ok (CampaignCommandCache.Script cmd) /\
  bytes_ok (CardKeyMaterial.EncKey keys) /\ bytes_ok (CardKeyMaterial.AuthKey keys).

Definition max_concat (cec : campaignExecutionContext) (profile : Profile.t) : Z :=
  match CampaignParams.MaxConcatOverride (cec_params cec) with
  | Some n => n
  | None => Profile.MaxConcatSMS profile
  end.

Section Activate.
Context {S C : Type} `{!CoordinationStore S, !CoordinationLaws S, !CounterStore C, !CounterLaws C}.
Context (cfg : Config).
Abbreviation World := (World S C).
Implicit Types w : World.

(** ** Steps that only ask the environment *)

Definition quiet (w w' : World) : Prop := exists n, w' = set_w_sys (set_tick n (w_sys w)) w.

#[local] Instance quiet_preorder : PreOrder quiet.
Proof.
  split.
  - intros [[] ? ? ? ? ? ? ? ? ?]. by eexists.
  - intros w1 w2 w3 [n ->] [m ->]. by exists m.
Qed.

Lemma quiet_view w w' : quiet w w' -> view w w' (hot_of w) [].
Proof.
  intros [n ->]. split; [by exists n | done | | done | by left]. unfold ctl. cbn. by rewrite app_nil_r.
Qed.

Lemma wp_ask_quiet {A} (f : Sys -> nat -> A) w Q :
  (forall w', quiet w w' -> Q (f (w_sys w) (tick (w_sys w))) w') -> wp (ask f) w Q.
Proof. intros H. eexists _, _. split; [reflexivity|]. apply H. by eexists. Qed.

Lemma wp_context_quiet c cec w Q :
  context_cached w c cec -> (forall w', quiet w w' -> Q cec w') -> wp (loadCampaignContext c) w Q.
Proof.
  intros [Hc Hf] H. unfold loadCampaignContext, freshContext.
  apply wp_bind, wp_bind, wp_gets. rewrite Hc. apply wp_bind, wp_ask_quiet. intros w1 Hv1.
  rewrite (proj2 (Z.ltb_lt _ _) (Hf _)). by apply wp_ret, wp_ret, H.
Qed.

(** The status of the campaign is cached and does not expire during the run. *)
Definition status_cached (w : World) (campaignID status : string) : Prop :=
  exists cs, campaignStatusCache w !! campaignID = Some cs /\ cst_status cs = status /\
             forall n, sys_now (w_sys w) n - cst_cachedAt cs < campaignStatusCacheTTL.

Lemma wp_status_quiet c status w Q :
  status_cached w c status -> (forall w', quiet w w' -> Q status w') -> wp (getCampaignStatusCached c) w Q.
Proof.
  intros (cs & Hc & <- & Hf) H. unfold getCampaignStatusCached.
  apply wp_bind, wp_gets. rewrite Hc. apply wp_bind, wp_bind, wp_ask_quiet. intros w1 Hv1.
  rewrite (proj2 (Z.ltb_lt _ _) (Hf _)). by apply wp_ret, wp_ret, H.
Qed.

(** ** Preparing the packet *)

(** Everything an activation reads is cached. *)
Record ready (event : CardEvent.t) (w : World) (cec : campaignExecutionContext)
    (cmd : CampaignCommandCache.t) (keys : CardKeyMaterial.t) (profile : Profile.t) : Prop := {
  rd_context : context_cached w (CardEvent.CampaignID event) cec;
  rd_command : cec_commandByStep cec !! CardEvent.Step event = Some cmd;
  rd_keys : Load (CardEvent.CardID event) (cardKeyCache w) = Some keys;
  rd_profile : profile_of (w_store w) (CardKeyMaterial.ProfileID keys) = Some profile
}.

Lemma quiet_ready event w w' cec cmd keys profile :
  quiet w w' -> ready event w cec cmd keys profile -> ready event w' cec cmd keys profile.
Proof. intros [n ->] [[Hc1 Hc2] H2 H3 H4]. by split. Qed.

(** What [prepareActivate] computes from them when the counter stands at [v]. *)
Definition prepares (event : CardEvent.t) (cec : campaignExecutionContext) (cmd : CampaignCommandCache.t)
    (keys : CardKeyMaterial.t) (profile : Profile.t) (v : Z) (p : prepared) : Prop :=
  p = {| pr_cmd := cmd; pr_ctx := cec; pr_keys := keys; pr_profile := profile;
         pr_counter := counterBytes v; pr_packet := pr_packet p; pr_parts := pr_parts p |} /\
  BuildCommandPacket (buildSecProfileFromCache cmd) (packetInput cfg event cmd keys (counterBytes v))
  = Ok (pr_packet p) /\
  exists rnd, SplitForConcat rnd (pr_packet p) (Profile.BufferSize profile) (max_concat cec profile)
              = Ok (pr_parts p).

(** The counter of the step moved on, nothing else did. *)
Definition counted (card app : string) (w w' : World) : Prop :=
  exists n c, w' = set_w_sys (set_tick n (w_sys w)) (set_w_counter c w) /\
    counter_of c card app = i64 (counter_of (w_counter w) card app + 1).

Lemma wp_loadProfile p pr w Q :
  profile_of (w_store w) p = Some pr -> Q pr w -> wp (loadProfileCached p) w Q.
Proof.
  intros Hp HQ. unfold loadProfileCached. apply wp_bind, wp_try.
  exists pr, w. split; [|by apply wp_ret]. unfold on_store. rewrite (profile_hit _ _ _ _ Hp). by destruct w.
Qed.

Lemma wp_prepareActivate event cec cmd keys profile packet w :
  let v := counter_of (w_counter w) (CardEvent.CardID event) (CampaignCommandCache.ApplicationID cmd) in
  ready event w cec cmd keys profile ->
  BuildCommandPacket (buildSecProfileFromCache cmd) (packetInput cfg event cmd keys (counterBytes v)) = Ok packet ->
  split_ok packet (Profile.BufferSize profile) (max_concat cec profile) = true ->
  wp (prepareActivate cfg event) w
     (fun p w' => prepares event cec cmd keys profile v p /\
                  counted (CardEvent.CardID event) (CampaignCommandCache.ApplicationID cmd) w w').
Proof.
  intros v [Hctx Hcmd Hk Hpr] Hb Hs. unfold prepareActivate.
  eapply wp_bind, wp_wrap, wp_context_quiet; [exact Hctx|]. intros w1 [n1 ->]. rewrite Hcmd.
  apply wp_bind, wp_wrap. eexists _, _. split; [unfold loadCardKeys, bindM, gets; cbn; rewrite Hk; reflexivity|].
  apply wp_bind, wp_wrap. eexists _, _. split; [unfold on_counter; rewrite get_counter; reflexivity|].
  destruct (incr_counter (CardEvent.CardID event) (CampaignCommandCache.ApplicationID cmd) (w_counter w))
    as (c' & Hi & Hc').
  apply wp_bind, wp_wrap. eexists _, _. split; [unfold on_counter; cbn; rewrite Hi; reflexivity|].
  cbv zeta. apply wp_bind, wp_wrap. cbn [w_counter set_w_counter set_w_sys]. fold v.
  eexists _, _. split; [unfold mres; rewrite Hb; reflexivity|].
  eapply wp_bind, wp_wrap, wp_loadProfile; [exact Hpr|]. fold (max_concat cec profile).
  apply wp_bind, wp_ask_quiet. intros w2 [n2 ->].
  match goal with |- context [SplitForConcat ?r packet _ _] => set (rnd := r) end.
  destruct (SplitForConcat_frames rnd packet (Profile.BufferSize profile) (max_concat cec profile)) as (_ & Hok & _).
  rewrite Hs in Hok. destruct (SplitForConcat rnd packet _ _) as [parts| |] eqn:Esp; [|done|done].
  apply wp_bind, wp_wrap. eexists _, _. split; [reflexivity|]. apply wp_ret. split.
  - split; [done|]. split; [exact Hb|]. by exists rnd.
  - exists n2, c'. split; [done | exact Hc'].
Qed.

(** ** Publishing it *)

(** The effects of a complete activation, in order. *)
Definition activation_effects (event : CardEvent.t) (p : prepared) (msgID : string) (ts : Z) : list effect :=
  [ESetCardState (CardEvent.CardID event) (activateStateOf event msgID);
   ESendSMS (smsMsgOf event p msgID);
   EState (activateChange event msgID ts)].

(** [m] ends, normally or with an error, in a state that satisfies [Q]. *)
Definition runs {A} (m : M World A) w (Q : res A -> World -> Prop) : Prop :=
  exists r w', m w = (r, w') /\ Q r w'.

Lemma runs_bind {A B} (m : M World A) (k : A -> M World B) w Q :
  runs m w (fun r w1 => match r with
                        | Ok a => runs (k a) w1 Q
                        | Err e => Q (Err e) w1
                        | Panic s => Q (Panic s) w1
                        end) -> runs (bindM m k) w Q.
Proof.
  intros (r & w1 & Hm & HQ). unfold runs, bindM. rewrite Hm.
  destruct r as [a|e|s]; [exact HQ | by exists (Err e), w1 | by exists (Panic s), w1].
Qed.

Lemma runs_wp {A} (m : M World A) w Q : wp m w (fun a w' => Q (Ok a) w') -> runs m w Q.
Proof. intros (a & w' & Hm & HQ). by exists (Ok a), w'. Qed.

Lemma runs_wrap {A} s (m : M World A) w Q : runs m w (fun r w' => Q (rwrap s r) w') -> runs (mwrap s m) w Q.
Proof. intros (r & w' & Hm & HQ). exists (rwrap s r), w'. unfold mwrap. by rewrite Hm. Qed.

Lemma runs_select_send e w Q :
  control e = true ->
  (forall w', view w w' (hot_of w) [e] -> Q (Ok (ResolvedFuture None)) w') ->
  (forall err w', ~ uncancelled w -> view w w' (hot_of w) [] -> Q (Err err) w') -> runs (select_send e) w Q.
Proof.
  intros He Hok Herr. unfold select_send. apply runs_bind, runs_wp, wp_ask. intros w1 Hv1.
  destruct (sys_ctx _ _) as [err|] eqn:E.
  - eexists _, _. split; [reflexivity|]. apply Herr; [|done]. intros Hu. by rewrite Hu in E.
  - apply runs_wp, wp_bind, wp_tell. rewrite He. intros w2 Hv2. apply wp_ret, Hok. by compose_views.
Qed.

Lemma wp_try_runs {A} (m : M World A) w (Q : res A -> World -> Prop) :
  runs m w (fun r w' => no_panic r /\ Q r w') -> wp (try m) w Q.
Proof. intros (r & w' & Hm & Hn & HQ). exists r, w'. unfold try. rewrite Hm. by destruct r. Qed.

(** What publishing leaves: a prefix of the activation's effects, the whole of
    them exactly when it returns without error. *)
Definition published (event : CardEvent.t) (p : prepared) w (r : res unit) w' : Prop :=
  no_panic r /\ exists msgID ts k, (1 <= k <= 3)%nat /\ (is_ok r = true <-> k = 3%nat) /\
    (uncancelled w -> k = 3%nat) /\
    view w w' (<[CardEvent.CardID event := activateStateOf event msgID]> (hot_of w))
         (take k (activation_effects event p msgID ts)).

Lemma publishActivate_runs event p w :
  hasCardState cfg = true -> runs (publishActivate cfg event p) w (published event p w).
Proof.
  intros Hc. unfold publishActivate.
  apply runs_bind, runs_wp, wp_newUUID. intros msgID w1 Hv1. apply runs_bind, runs_wp, wp_now.
  intros createdAt w2 Hv2. apply runs_bind, runs_wp, wp_now. intros ts w3 Hv3.
  apply runs_bind, runs_wp, wp_ignore, wp_setCardState. intros w4 Hv4.
  assert (Hv : view w w4 (<[CardEvent.CardID event := activateStateOf event msgID]> (hot_of w))
                 [ESetCardState (CardEvent.CardID event) (activateStateOf event msgID)]) by (by compose_views).
  clear Hv1 Hv2 Hv3 Hv4. assert (Hu4 : uncancelled w -> uncancelled w4) by eauto using view_uncancelled.
  apply runs_bind, runs_wp, wp_try_runs. unfold SMSProducer_Publish.
  apply runs_select_send; [done | intros w5 Hv5 | intros err w5 Hn Hv5]; (split; [done|]).
  - apply runs_bind, runs_wp, wp_publishLog. intros w6 Hv6.
    assert (Hv' : view w w6 (<[CardEvent.CardID event := activateStateOf event msgID]> (hot_of w))
       (take 2 (activation_effects event p msgID ts))) by (compose_views; exact Hv6).
    assert (Hu6 : uncancelled w -> uncancelled w6) by eauto using view_uncancelled. clear Hv Hv5 Hv6.
    unfold writeCardState, mwhen, WriteCardState. rewrite Hc. apply runs_bind, runs_bind, runs_wrap, runs_select_send;
      [done | intros w7 Hv7 | intros err w7 Hn Hv7]; cbn [rwrap].
    + apply runs_wp, wp_ret, runs_wp, wp_broadcast. intros w8 Hv8. split; [done|].
      exists msgID, ts, 3%nat. split; [lia|]. split; [done|]. split; [done|]. compose_views. exact Hv8.
    + split; [done|]. exists msgID, ts, 2%nat. split; [lia|]. split; [done|]. split; [tauto|].
      compose_views. exact Hv7.
  - apply runs_bind, runs_wp, wp_publishLog. intros w6 Hv6. eexists _, _. split; [reflexivity|]. split; [done|].
    exists msgID, ts, 1%nat. split; [lia|]. split; [done|]. split; [tauto|]. compose_views. exact Hv6.
Qed.

(** State before send.  Whatever the environment does, [publishActivate] leaves a prefix of
    its three effects -- the card's hot state awaiting_dlr with the new message id, then the SMS, then
    the in_progress transition -- and returns without error exactly when all three happened.  So the hot
    state is always in place before the SMS, no SMS goes out without it, and a failed
    publication sends no state change. *)
Theorem state_recorded_before_send event p w r w' :
  hasCardState cfg = true -> publishActivate cfg event p w = (r, w') -> published event p w r w'.
Proof.
  intros Hc Hrun. destruct (publishActivate_runs event p w Hc) as (r1 & w1 & H1 & H2). congruence.
Qed.

Lemma view_no_evict_counter w w' h t :
  view w w' h t -> (forall c, EEvict c ∉ t) -> w_counter w' = w_counter w.
Proof. intros [_ _ _ _ [[H _] | [c Hc]]] Hn; [done | by apply Hn in Hc]. Qed.

Lemma smsMsgOf_payloads event p msgID :
  SMSPart.Payload <$> SendSMSMessage.Parts (smsMsgOf event p msgID) = pr_parts p.
Proof.
  unfold smsMsgOf. cbn [SendSMSMessage.Parts]. apply list_eq. intros i.
  rewrite list_lookup_fmap, list_lookup_imap. by destruct (pr_parts p !! i).
Qed.

(** ** The whole activation *)

(** The parts of [m] fit the card's buffer, and carry a packet that the card
    unwraps to the script of [cmd], with counter value [v]. *)
Definition delivers (keys : CardKeyMaterial.t) (cmd : CampaignCommandCache.t) (profile : Profile.t) (v : Z)
    (m : SendSMSMessage.t) : Prop :=
  let payloads := SMSPart.Payload <$> SendSMSMessage.Parts m in
  Forall (fun sms => zlen sms <= Profile.BufferSize profile) payloads /\
  card_unwrap (CardKeyMaterial.EncKey keys) (CardKeyMaterial.AuthKey keys) (concat (sms_payload <$> payloads))
  = Some (to_array 3 (CampaignCommandCache.TAR cmd), counterBytes v, CampaignCommandCache.Script cmd).

Lemma prepares_delivers event cec cmd keys profile v p msgID :
  cryptoProvider cfg = None -> command_bytes_ok cmd keys ->
  CampaignCommandCache.Ciphered cmd = false \/ CampaignCommandCache.KIcMode cmd <> "AES_CBC" ->
  zlen (pr_packet p) < 65538 -> prepares event cec cmd keys profile v p ->
  delivers keys cmd profile v (smsMsgOf event p msgID).
Proof.
  intros Hprov (Htar & Hscr & Henc & Hauth) Hmode Hlen (Hp & Hb & rnd & Hs).
  unfold delivers. rewrite smsMsgOf_payloads.
  destruct (SplitForConcat_frames rnd (pr_packet p) (Profile.BufferSize profile) (max_concat cec profile))
    as (_ & _ & Hfr). destruct (Hfr _ Hs) as (Hsz & Hcat & _). split; [exact Hsz|]. rewrite Hcat.
  assert (Hin : packetInput cfg event cmd keys (counterBytes v) = {|
      TAR := to_array 3 (CampaignCommandCache.TAR cmd); Counter := counterBytes v;
      CipheringKey := CardKeyMaterial.EncKey keys; SigningKey := CardKeyMaterial.AuthKey keys;
      UserData := CampaignCommandCache.Script cmd; Provider := None; CardID := "" |})
    by (unfold packetInput; by rewrite Hprov).
  rewrite Hin in Hb. clear Hin. destruct (counterBytes_ok v) as [Hc1 Hc2].
  eapply BuildCommandPacket_unwraps in Hb as Hun; [exact Hun | done | | by apply secProfile_modes | done].
  split_and!; [apply length_to_array | done | by apply bytes_ok_to_array | done | done | done | done].
Qed.

Lemma wp_prepared_activation event cec cmd keys profile packet w Q :
  let v := counter_of (w_counter w) (CardEvent.CardID event) (CampaignCommandCache.ApplicationID cmd) in
  status_cached w (CardEvent.CampaignID event) "running" ->
  ready event w cec cmd keys profile ->
  BuildCommandPacket (buildSecProfileFromCache cmd) (packetInput cfg event cmd keys (counterBytes v)) = Ok packet ->
  split_ok packet (Profile.BufferSize profile) (max_concat cec profile) = true ->
  (forall p w1, prepares event cec cmd keys profile v p ->
     counted (CardEvent.CardID event) (CampaignCommandCache.ApplicationID cmd) w w1 ->
     wp (do! postponed <- throttleActivate cfg event p;
         if postponed : bool then ret tt else publishActivate cfg event p) w1 Q) ->
  wp (handleActivate cfg event) w Q.
Proof.
  intros v Hst Hr Hb Hs Hk. unfold handleActivate.
  eapply wp_bind, wp_wrap, wp_status_quiet; [exact Hst|]. intros w0 Hq.
  rewrite bool_decide_true by done. cbn [negb].
  assert (Hcnt : w_counter w0 = w_counter w) by (destruct Hq as [n ->]; done).
  apply wp_bind. pose proof (wp_prepareActivate event cec cmd keys profile packet w0) as Hp. cbv zeta in Hp.
  rewrite Hcnt in Hp. fold v in Hp. destruct Hp as (p & w1 & Hrun & Hprep & Hcd); [by eapply quiet_ready | done | done |].
  exists p, w1. split; [exact Hrun|]. apply Hk; [done|].
  destruct Hq as [n ->], Hcd as (m & c & -> & Hc). exists m, c. split; [done | exact Hc].
Qed.

(** What an activation with everything at hand does: its counter moves, then its effects. *)
Lemma activation_runs event cec cmd keys profile packet w :
  let card := CardEvent.CardID event in
  let app := CampaignCommandCache.ApplicationID cmd in
  let v := counter_of (w_counter w) card app in
  status_cached w (CardEvent.CampaignID event) "running" ->
  ready event w cec cmd keys profile ->
  CampaignParams.ThrottleSMSPerSec (cec_params cec) = None -> hasCardState cfg = true -> uncancelled w ->
  BuildCommandPacket (buildSecProfileFromCache cmd) (packetInput cfg event cmd keys (counterBytes v)) = Ok packet ->
  split_ok packet (Profile.BufferSize profile) (max_concat cec profile) = true ->
  exists w1 w' msgID ts p, handleActivate cfg event w = (Ok tt, w') /\ counted card app w w1 /\
    prepares event cec cmd keys profile v p /\
    view w1 w' (<[card := activateStateOf event msgID]> (hot_of w)) (activation_effects event p msgID ts).
Proof.
  intros card app v Hst Hr Hth Hcs Hu Hb Hs.
  enough (wp (handleActivate cfg event) w (fun _ w' => exists w1 msgID ts p, counted card app w w1 /\
    prepares event cec cmd keys profile v p /\
    view w1 w' (<[card := activateStateOf event msgID]> (hot_of w)) (activation_effects event p msgID ts)))
    as ([] & w' & H1 & w1 & msgID & ts & p & H2) by (by exists w1, w', msgID, ts, p).
  eapply wp_prepared_activation; [done | done | done | done |]. fold card app v.
  intros p w1 Hp Hcd. assert (Hctx : pr_ctx p = cec) by (destruct Hp as [-> _]; done).
  apply wp_bind. unfold throttleActivate. rewrite Hctx, Hth. apply wp_ret.
  destruct (publishActivate_runs event p w1 Hcs) as (r & w' & Hrun & Hnp & msgID & ts & k & Hk & Hok & Hk3 & Hv).
  assert (Hw1 : uncancelled w1 /\ hot_of w1 = hot_of w) by (by destruct Hcd as (n & c & -> & _)).
  destruct Hw1 as [Hu1 Hhot]. rewrite (Hk3 Hu1) in Hok, Hv. rewrite Hhot in Hv.
  destruct r as [[]| |]; [|by apply proj2 in Hok; specialize (Hok eq_refl)..].
  exists tt, w'. split; [exact Hrun|]. by exists w1, msgID, ts, p.
Qed.


(** ** Activations that send nothing *)

(** A campaign that is not running.  While the cached status of a campaign is anything but running,
    an activation returns without error, emits nothing at all, leaves hot states and counters alone,
    and drops both cached entries of the campaign, so that the next activation sees a fresh status. *)
Theorem paused_campaign_sends_nothing event status w :
  status_cached w (CardEvent.CampaignID event) status -> status <> "running" ->
  exists w', handleActivate cfg event w = (Ok tt, w') /\
    w_trace w' = w_trace w /\ hot_of w' = hot_of w /\ w_counter w' = w_counter w /\
    w_retries w' = w_retries w /\
    campaignCache w' = delete (CardEvent.CampaignID event) (campaignCache w) /\
    campaignStatusCache w' = delete (CardEvent.CampaignID event) (campaignStatusCache w).
Proof.
  intros Hst Hne. enough (wp (handleActivate cfg event) w (fun _ w' =>
    w_trace w' = w_trace w /\ hot_of w' = hot_of w /\ w_counter w' = w_counter w /\
    w_retries w' = w_retries w /\
    campaignCache w' = delete (CardEvent.CampaignID event) (campaignCache w) /\
    campaignStatusCache w' = delete (CardEvent.CampaignID event) (campaignStatusCache w)))
    as ([] & w' & H1 & H2) by eauto.
  unfold handleActivate. eapply wp_bind, wp_wrap, wp_status_quiet; [exact Hst|]. intros w1 [n ->].
  rewrite bool_decide_false by done. cbn [negb]. eexists _, _. split; [reflexivity|]. done.
Qed.

(** The limiter refuses the campaign at this point of the run. *)
Definition throttled (w : World) (campaignID : string) (rate : Z) : Prop :=
  forall y c, sys_le (w_sys w) y -> fst (on_store (AcquireThrottle campaignID rate) (set_w_sys y (set_w_counter c w))) = Ok false.

Lemma wp_throttled campaignID rate w w1 c Q :
  throttled w campaignID rate -> w1 = set_w_sys (w_sys w1) (set_w_counter c w) -> sys_le (w_sys w) (w_sys w1) ->
  (forall w2, w_trace w2 = w_trace w1 -> hot_of w2 = hot_of w1 -> w_counter w2 = w_counter w1 ->
     w_retries w2 = w_retries w1 -> retrySem w2 = retrySem w1 -> Q false w2) ->
  wp (on_store (AcquireThrottle campaignID rate)) w1 Q.
Proof.
  intros Ht Hw Hle HQ. specialize (Ht (w_sys w1) c Hle). rewrite <- Hw in Ht.
  destruct (throttle_hot campaignID rate (w_sys w1) (w_store w1)) as (r & y & s & Hrun & _ & _ & Hh).
  unfold wp, on_store in *. rewrite Hrun in *. cbn in Ht. subst r. eexists _, _. split; [reflexivity|].
  by apply HQ.
Qed.

(** A throttled activation is put off, not lost.  When the limiter refuses and the retry scheduler
    has room, nothing is sent and no state changes; exactly one retry is scheduled, an activation of the
    same card, campaign, step and retry count under a fresh event id, after a delay that grows with
    the retry count from 100 ms and is capped at one second.  (The counter value is spent.) *)
Theorem throttled_activation_put_off event cec cmd keys profile packet rate w :
  let card := CardEvent.CardID event in
  let v := counter_of (w_counter w) card (CampaignCommandCache.ApplicationID cmd) in
  status_cached w (CardEvent.CampaignID event) "running" ->
  ready event w cec cmd keys profile ->
  CampaignParams.ThrottleSMSPerSec (cec_params cec) = Some rate -> 0 < rate ->
  throttled w (CardEvent.CampaignID event) rate -> retrySem w < retrySemCap ->
  0 <= CardEvent.RetryCount event ->
  BuildCommandPacket (buildSecProfileFromCache cmd) (packetInput cfg event cmd keys (counterBytes v)) = Ok packet ->
  split_ok packet (Profile.BufferSize profile) (max_concat cec profile) = true ->
  exists w' id at_ delay, handleActivate cfg event w = (Ok tt, w') /\
    w_trace w' = w_trace w /\ hot_of w' = hot_of w /\
    w_retries w' = w_retries w ++ [(CardEvent.activate id card (CardEvent.CampaignID event)
                                      (CardEvent.Step event) (CardEvent.RetryCount event) at_, delay)] /\
    retrySem w' = retrySem w + 1 /\ delay = Z.min ((CardEvent.RetryCount event + 1) * 100000000) 1000000000 /\
    counter_of (w_counter w') card (CampaignCommandCache.ApplicationID cmd) = i64 (v + 1).
Proof.
  intros card v Hst Hr Hth Hrate Hthr Hsem Hrc Hb Hs.
  enough (wp (handleActivate cfg event) w (fun _ w' => exists id at_ delay,
    w_trace w' = w_trace w /\ hot_of w' = hot_of w /\
    w_retries w' = w_retries w ++ [(CardEvent.activate id card (CardEvent.CampaignID event)
                                      (CardEvent.Step event) (CardEvent.RetryCount event) at_, delay)] /\
    retrySem w' = retrySem w + 1 /\ delay = Z.min ((CardEvent.RetryCount event + 1) * 100000000) 1000000000 /\
    counter_of (w_counter w') card (CampaignCommandCache.ApplicationID cmd) = i64 (v + 1)))
    as ([] & w' & H1 & id & at_ & delay & H2) by eauto 10.
  eapply wp_prepared_activation; [done | done | done | done |]. fold card v.
  intros p w1 Hp (n & c & -> & Hc). assert (Hctx : pr_ctx p = cec) by (destruct Hp as [-> _]; done).
  apply wp_bind. unfold throttleActivate. rewrite Hctx, Hth, (proj2 (Z.ltb_lt 0 rate) Hrate).
  eapply wp_bind, wp_try, wp_throttled; [exact Hthr | reflexivity | by exists n |].
  intros w2 Ht2 Hh2 Hc2 Hr2 Hs2. cbv zeta. apply wp_bind, wp_ask_quiet. intros w3 [n3 ->].
  apply wp_bind, wp_ask_quiet. intros w4 [n4 ->].
  assert (Hlt : (retrySem w2 <? retrySemCap) = true) by (rewrite Hs2; by apply Z.ltb_lt).
  apply wp_bind. eexists tt, _. split.
  { unfold scheduleActivateRetry, bindM, gets. cbn [retrySem set_w_sys]. rewrite Hlt. reflexivity. }
  apply wp_ret, wp_ret. eexists _, _, _. split_and!.
  - exact Ht2.
  - exact Hh2.
  - cbn [w_retries set_retries set_w_sys]. rewrite Hr2. reflexivity.
  - cbn [retrySem set_retries set_w_sys]. rewrite Hs2. reflexivity.
  - destruct (1000000000 <? _) eqn:E; lia.
  - cbn [w_counter set_retries set_w_sys]. rewrite Hc2. exact Hc.
Qed.

End Activate.

(** ** Witnesses *)

Lemma scenario_ready throttle status y :
  (forall n, sys_now y n = 1000) ->
  ready Scenario.activate (Scenario.world_with y throttle status ∅) (Scenario.context throttle)
    Scenario.cmd1 Scenario.keys Scenario.profile.
Proof.
  intros Hn. split; [|reflexivity | vm_compute; reflexivity | reflexivity].
  split; [apply lookup_singleton_eq|]. intros n. cbn. rewrite Hn. done.
Qed.

Lemma scenario_status throttle status y :
  (forall n, sys_now y n = 1000) ->
  status_cached (Scenario.world_with y throttle status ∅) "camp-1" status.
Proof.
  intros Hn. eexists. split; [apply lookup_singleton_eq|]. split; [done|]. intros n. cbn. rewrite Hn. done.
Qed.

Lemma scenario_bytes : command_bytes_ok Scenario.cmd1 Scenario.keys.
Proof. apply (bool_decide_unpack _). vm_compute. exact I. Qed.


Definition scenario_prepared : prepared := {|
  pr_cmd := Scenario.cmd1; pr_ctx := Scenario.context None; pr_keys := Scenario.keys;
  pr_profile := Scenario.profile; pr_counter := counterBytes 41; pr_packet := Scenario.packet;
  pr_parts := [FrameOTASMS Scenario.packet None] |}.

Lemma state_recorded_before_send_witness :
  let out := publishActivate Scenario.cfg Scenario.activate scenario_prepared (Scenario.world ∅) in
  published Scenario.activate scenario_prepared (Scenario.world ∅) out.1 out.2.
Proof.
  intros out. apply (state_recorded_before_send Scenario.cfg); [done|]. apply surjective_pairing.
Defined.

Lemma paused_campaign_sends_nothing_witness :
  let w := Scenario.world_with (quiet_sys empty_db) None "paused" ∅ in
  exists w', handleActivate Scenario.cfg Scenario.activate w = (Ok tt, w') /\ w_trace w' = [] /\
    w_counter w' = Scenario.counters /\ campaignStatusCache w' = ∅.
Proof.
  intros w. destruct (paused_campaign_sends_nothing Scenario.cfg Scenario.activate "paused" w)
    as (w' & Hrun & Ht & _ & Hc & _ & _ & Hs); [by apply scenario_status | done |].
  exists w'. split; [exact Hrun|]. split; [exact Ht|]. split; [exact Hc|]. rewrite Hs. reflexivity.
Defined.

Lemma throttled_activation_put_off_witness :
  let w := Scenario.world_with Scenario.deny_sys (Some 10) "running" ∅ in
  exists w' id at_, handleActivate Scenario.cfg Scenario.activate w = (Ok tt, w') /\ w_trace w' = [] /\
    w_retries w' = [(CardEvent.activate id "card-1" "camp-1" 1 0 at_, 100000000)].
Proof.
  intros w. destruct (throttled_activation_put_off Scenario.cfg Scenario.activate (Scenario.context (Some 10))
    Scenario.cmd1 Scenario.keys Scenario.profile Scenario.packet 10 w)
    as (w' & id & at_ & delay & Hrun & Ht & _ & Hr & _ & Hd & _);
    [by apply scenario_status | by apply scenario_ready | done | lia | by intros y c [n ->]
    | done | done | vm_compute; reflexivity | vm_compute; reflexivity |].
  exists w', id, at_. split; [exact Hrun|]. split; [exact Ht|]. rewrite Hr, Hd. reflexivity.
Defined.
