(* ===== verification/Gateway.v ===== *)
(** * internal/transport: the in-process SMPP gateway

    [InProcessGateway] (inprocess_gateway.go) takes messages off the bus, submits
    their parts through the SMPP pool, remembers which SMPP message id belongs to
    which card, and turns delivery receipts and mobile-originated messages
    into card events.

    The SMPP library is not part of the repository: [Submit], [IsDLR] and
    [ParseDLRReceipt] are parameters.  The answer of the pool may depend on
    the number of earlier submits.  [gw_submits] is the history of the requests
    handed to the pool.  Telemetry and log lines are not modelled. *)

From S2P Require Import Prelude Effects Models Pipeline Store HexUtil.

(** ** Types of the SMPP library *)

Module SubmitRequest.
Record t := mk {
  MSISDN : string;
  DestTON : Z;
  DestNPI : Z;
  ESMClass : Z;
  ProtocolID : Z;
  DataCoding : Z;
  Payload : list Z;
  RegisterDLR : bool
}.
End SubmitRequest.

Module SubmitResponse.
Record t := mk { MessageID : string; Error : option goerr }.
End SubmitResponse.

Module DLRReceipt.
Record t := mk { MessageID : string; Status : string; ErrorCode : string }.
End DLRReceipt.

(** ** State *)

Definition correlationTTL : Z := 5 * 60 * 1000000000.

Record correlationEntry := { ce_mapping : SMPPMapping.t; ce_expiresAt : Z }.

Record multipartState := { mp_total : Z; mp_resolved : Z; mp_anyFailed : bool }.

Definition errNoMultipartTracking : goerr := Errorf "no multipart tracking" [].

#[global] Instance is_errNoMultipartTracking e : Decision (e = errNoMultipartTracking).
Proof.
  destruct e as [f args]. unfold errNoMultipartTracking.
  destruct (decide (f = "no multipart tracking")) as [->|]; [|right; congruence].
  destruct args; [left; done | right; congruence].
Defined.

Section Gateway.
Context {S : Type} `{!CoordinationStore S}.
Context (Submit : nat -> SubmitRequest.t -> res SubmitResponse.t).
Context (ParseDLRReceipt : list Z -> option DLRReceipt.t).

Record InProcessGateway := mkGateway {
  gw_sys : Sys;
  coordination : S;
  msisdnResolver : MSISDNResolver.t;
  correlations : gmap string correlationEntry;
  multipart : gmap string multipartState;
  gw_submits : list SubmitRequest.t;
  gw_trace : list effect;
  gw_logp : LogProducer.t
}.

Definition set_gw_sys y g := mkGateway y (coordination g) (msisdnResolver g) (correlations g) (multipart g)
  (gw_submits g) (gw_trace g) (gw_logp g).
Definition set_coordination s g := mkGateway (gw_sys g) s (msisdnResolver g) (correlations g) (multipart g)
  (gw_submits g) (gw_trace g) (gw_logp g).
Definition set_msisdnResolver r g := mkGateway (gw_sys g) (coordination g) r (correlations g) (multipart g)
  (gw_submits g) (gw_trace g) (gw_logp g).
Definition set_correlations c g := mkGateway (gw_sys g) (coordination g) (msisdnResolver g) c (multipart g)
  (gw_submits g) (gw_trace g) (gw_logp g).
Definition set_multipart m g := mkGateway (gw_sys g) (coordination g) (msisdnResolver g) (correlations g) m
  (gw_submits g) (gw_trace g) (gw_logp g).
Definition set_submits l g := mkGateway (gw_sys g) (coordination g) (msisdnResolver g) (correlations g) (multipart g)
  l (gw_trace g) (gw_logp g).

#[export] Instance Gateway_bus : HasBus InProcessGateway := {|
  bus_sys := {| sys := gw_sys; set_sys := set_gw_sys |};
  trace := gw_trace;
  emit e g := mkGateway (gw_sys g) (coordination g) (msisdnResolver g) (correlations g) (multipart g)
                (gw_submits g) (gw_trace g ++ [e]) (gw_logp g);
  logp := gw_logp;
  set_logp p g := mkGateway (gw_sys g) (coordination g) (msisdnResolver g) (correlations g) (multipart g)
                (gw_submits g) (gw_trace g) p
|}.

#[export] Instance Gateway_bus_laws : BusLaws InProcessGateway.
Proof. split; done. Qed.

Abbreviation G := (M InProcessGateway).

Definition on_coordination {A} (m : M (Sys * S) A) : G A :=
  fun g => let '(r, (y, s)) := m (gw_sys g, coordination g) in (r, set_coordination s (set_gw_sys y g)).
Definition on_resolver {A} (m : M (Sys * MSISDNResolver.t) A) : G A :=
  fun g => let '(r, (y, t)) := m (gw_sys g, msisdnResolver g) in (r, set_msisdnResolver t (set_gw_sys y g)).

(** [g.smppPool.Submit(req)]: the answer and its error are inspected by the caller. *)
Definition submit (req : SubmitRequest.t) : G (res SubmitResponse.t) :=
  fun g => (Ok (Submit (length (gw_submits g)) req), set_submits (gw_submits g ++ [req]) g).

(** ** HandleSendSMS *)

Definition requestOf (msg : SendSMSMessage.t) (part : SMSPart.t) : SubmitRequest.t := {|
  SubmitRequest.MSISDN := SendSMSMessage.MSISDN msg;
  SubmitRequest.DestTON := SendSMSMessage.TON msg;
  SubmitRequest.DestNPI := SendSMSMessage.NPI msg;
  SubmitRequest.ESMClass := SendSMSMessage.ESMClass msg;
  SubmitRequest.ProtocolID := SendSMSMessage.ProtocolID msg;
  SubmitRequest.DataCoding := SendSMSMessage.DataCoding msg;
  SubmitRequest.Payload := SMSPart.Payload part;
  SubmitRequest.RegisterDLR := true |}.

Definition mappingOf (msg : SendSMSMessage.t) : SMPPMapping.t := {|
  SMPPMapping.MsgID := SendSMSMessage.MsgID msg;
  SMPPMapping.CampaignID := SendSMSMessage.CampaignID msg;
  SMPPMapping.CardID := SendSMSMessage.CardID msg;
  SMPPMapping.MSISDN := SendSMSMessage.MSISDN msg |}.

(** The fields of a delivery event; the composite literals leave the others zero. *)
Definition dlrEvent (eventID cardID campaignID msgID smppID status errorCode : string) (ts : Z) : CardEvent.t := {|
  CardEvent.Type_ := "card.dlr_received"; CardEvent.EventID := eventID; CardEvent.CardID := cardID;
  CardEvent.CampaignID := campaignID; CardEvent.Step := 0; CardEvent.RetryCount := 0;
  CardEvent.MsgID := msgID; CardEvent.SMPPMessageID := smppID; CardEvent.DLRStatus := status;
  CardEvent.ErrorCode := errorCode; CardEvent.SourceMSISDN := ""; CardEvent.PayloadHex := "";
  CardEvent.Timestamp := ts |}.

Definition handleSubmitFailure (msg : SendSMSMessage.t) (submittedParts : Z) (submitErr : goerr) : G unit :=
  let status := if 0 <? submittedParts then "FAILED_PARTIAL_SUBMIT" else "FAILED_SUBMIT" in
  do! id <- newUUID;
  do! ts <- now;
  do! _ <- select_send (EDLR (dlrEvent id (SendSMSMessage.CardID msg) (SendSMSMessage.CampaignID msg)
                                (SendSMSMessage.MsgID msg) "" status (Error submitErr) ts));
  ret tt.

(** The loop over the parts. *)
Fixpoint submitParts (msg : SendSMSMessage.t) (submittedParts : Z) (parts : list SMSPart.t) : G unit :=
  match parts with
  | [] => ret tt
  | part :: parts =>
      do! resp <- submit (requestOf msg part);
      match resp with
      | Err e => handleSubmitFailure msg submittedParts
                   (Errorf "submit part %d: %w" [ArgInt (SMSPart.Sequence part); ArgErr e])
      | Panic s => mres (Panic s)
      | Ok resp =>
          match SubmitResponse.Error resp with
          | Some e => handleSubmitFailure msg submittedParts
                        (Errorf "submit part %d error: %w" [ArgInt (SMSPart.Sequence part); ArgErr e])
          | None =>
              do! at_ <- now;
              do! _ <- modify (fun g => set_correlations
                (<[SubmitResponse.MessageID resp :=
                     {| ce_mapping := mappingOf msg; ce_expiresAt := at_ + correlationTTL |}]> (correlations g)) g);
              submitParts msg (submittedParts + 1) parts
          end
      end
  end.

Definition HandleSendSMS (msg : SendSMSMessage.t) : G unit :=
  do! _ <- mwhen (1 <? zlen (SendSMSMessage.Parts msg))
    (modify (fun g => set_multipart
       (<[SendSMSMessage.MsgID msg := {| mp_total := zlen (SendSMSMessage.Parts msg); mp_resolved := 0;
                                         mp_anyFailed := false |}]> (multipart g)) g));
  submitParts msg 0 (SendSMSMessage.Parts msg).

(** ** Delivery receipts *)

Definition recordPartDLR (msgID : string) (delivered : bool) : G (bool * bool) :=
  do! val <- gets (fun g => multipart g !! msgID);
  match val with
  | None => merr errNoMultipartTracking
  | Some state =>
      let state := {| mp_total := mp_total state; mp_resolved := mp_resolved state + 1;
                      mp_anyFailed := if delivered then mp_anyFailed state else true |} in
      do! _ <- modify (fun g => set_multipart (<[msgID := state]> (multipart g)) g);
      if mp_total state <=? mp_resolved state then
        do! _ <- modify (fun g => set_multipart (delete msgID (multipart g)) g);
        ret (true, mp_anyFailed state)
      else ret (false, false)
  end.

(** The correlation lookup: the mapping, or nothing when it is absent or
    expired; the entry is deleted either way. *)
Definition takeCorrelation (smppID : string) : G (option SMPPMapping.t) :=
  do! entry <- gets (fun g => correlations g !! smppID);
  match entry with
  | None => ret None
  | Some corr =>
      do! n <- now;
      do! _ <- modify (fun g => set_correlations (delete smppID (correlations g)) g);
      ret (if n <? ce_expiresAt corr then Some (ce_mapping corr) else None)
  end.

Definition publishDLR (m : SMPPMapping.t) (smppID status errorCode : string) : G unit :=
  do! id <- newUUID;
  do! ts <- now;
  modify (emit (EDLR (dlrEvent id (SMPPMapping.CardID m) (SMPPMapping.CampaignID m) (SMPPMapping.MsgID m)
                        smppID status errorCode ts))).

Definition handleDLR (sourceAddr : string) (payload : list Z) : G unit :=
  match ParseDLRReceipt payload with
  | None => ret tt
  | Some receipt =>
      do! corr <- takeCorrelation (DLRReceipt.MessageID receipt);
      match corr with
      | None => ret tt
      | Some m =>
          if bool_decide (SMPPMapping.CardID m = "") then ret tt
          else
            do! tracked <- try (recordPartDLR (SMPPMapping.MsgID m)
                                  (bool_decide (DLRReceipt.Status receipt = "DELIVRD")));
            match tracked with
            | Err e =>
                if bool_decide (e = errNoMultipartTracking) then
                  publishDLR m (DLRReceipt.MessageID receipt) (DLRReceipt.Status receipt)
                    (DLRReceipt.ErrorCode receipt)
                else ret tt
            | Panic s => mres (Panic s)
            | Ok (allResolved, anyFailed) =>
                if negb allResolved then ret tt
                else if anyFailed : bool then
                  publishDLR m (DLRReceipt.MessageID receipt) "UNDELIV" "multipart_partial_failure"
                else publishDLR m (DLRReceipt.MessageID receipt) "DELIVRD" ""
            end
      end
  end.

(** ** Mobile-originated messages *)

Definition moEvent (eventID cardID campaignID sourceAddr payloadHex : string) (ts : Z) : CardEvent.t := {|
  CardEvent.Type_ := "card.mo_received"; CardEvent.EventID := eventID; CardEvent.CardID := cardID;
  CardEvent.CampaignID := campaignID; CardEvent.Step := 0; CardEvent.RetryCount := 0;
  CardEvent.MsgID := ""; CardEvent.SMPPMessageID := ""; CardEvent.DLRStatus := "";
  CardEvent.ErrorCode := ""; CardEvent.SourceMSISDN := sourceAddr; CardEvent.PayloadHex := payloadHex;
  CardEvent.Timestamp := ts |}.

Definition handleMO (sourceAddr destAddr : string) (payload : list Z) : G unit :=
  do! looked <- try (on_resolver (MSISDNResolver.LookupCardByMSISDN sourceAddr));
  match looked with
  | Ok cardID =>
      if bool_decide (cardID = "") then ret tt
      else
        do! state <- try (on_coordination (GetCardState cardID));
        let campaignID := match state with Ok (Some st) => CardState.CampaignID st | _ => "" end in
        do! id <- newUUID;
        do! ts <- now;
        modify (emit (EMO (moEvent id cardID campaignID sourceAddr (EncodeToString payload) ts)))
  | _ => ret tt
  end.

Definition deliverHandler (IsDLR : Z -> bool) (sourceAddr destAddr : string) (esmClass : Z) (payload : list Z) : G unit :=
  if IsDLR esmClass then handleDLR sourceAddr payload else handleMO sourceAddr destAddr payload.

(** One tick of the cleanup loop; multipart entries are visited and left. *)
Definition cleanupCorrelations : G unit :=
  do! n <- now;
  modify (fun g => set_correlations (filter (fun kv => ~ (ce_expiresAt (snd kv) < n)) (correlations g)) g).

(** ** Sending *)

Implicit Types g : InProcessGateway.

(** The pool accepts [parts], starting with the [n]-th submit, under [ids]. *)
Fixpoint accepts (n : nat) (msg : SendSMSMessage.t) (parts : list SMSPart.t) (ids : list string) : Prop :=
  match parts, ids with
  | [], [] => True
  | part :: parts, id :: ids =>
      Submit n (requestOf msg part) = Ok (SubmitResponse.mk id None) /\ accepts (Datatypes.S n) msg parts ids
  | _, _ => False
  end.

(** Receipts come within the lifetime of a correlation. *)
Definition within_ttl (y : Sys) : Prop := forall n m, sys_now y m < sys_now y n + correlationTTL.

(** An unexpired correlation of [id] with [msg]. *)
Definition live g (id : string) (msg : SendSMSMessage.t) : Prop :=
  exists e, correlations g !! id = Some e /\ ce_mapping e = mappingOf msg /\
            forall n, sys_now (gw_sys g) n < ce_expiresAt e.

(** What [g'] did beyond [g]: the same environment and trackers, [reqs] submitted, [evs] emitted. *)
Definition grows g g' (reqs : list SubmitRequest.t) (evs : list effect) : Prop :=
  sys_le (gw_sys g) (gw_sys g') /\ gw_submits g' = gw_submits g ++ reqs /\ gw_trace g' = gw_trace g ++ evs.

Lemma grows_refl g : grows g g [] [].
Proof. split; [reflexivity|]. by rewrite !app_nil_r. Qed.

Lemma grows_trans g1 g2 g3 r1 r2 e1 e2 : grows g1 g2 r1 e1 -> grows g2 g3 r2 e2 -> grows g1 g3 (r1 ++ r2) (e1 ++ e2).
Proof.
  intros (S1 & R1 & E1) (S2 & R2 & E2). split; [by etrans|]. by rewrite R2, R1, E2, E1, !app_assoc.
Qed.

Lemma submitParts_accepted msg parts ids k g :
  accepts (length (gw_submits g)) msg parts ids -> within_ttl (gw_sys g) ->
  exists g', (forall rest, submitParts msg k (parts ++ rest) g = submitParts msg (k + zlen parts) rest g') /\
    grows g g' (requestOf msg <$> parts) [] /\
    multipart g' = multipart g /\
    (forall id, id ∈ ids -> live g' id msg) /\
    (forall id, id ∉ ids -> correlations g' !! id = correlations g !! id).
Proof.
  revert ids k g. induction parts as [|part parts IH]; intros [|id ids] k g Hacc Httl; try done.
  { exists g. split; [intros rest; by rewrite Z.add_0_r|]. split; [apply grows_refl|]. split; [done|]. split; [set_solver | done]. }
  destruct Hacc as [Hsub Hacc].
  set (n := tick (gw_sys g)). set (at_ := sys_now (gw_sys g) n).
  set (g1 := set_correlations (<[id := {| ce_mapping := mappingOf msg; ce_expiresAt := at_ + correlationTTL |}]>
               (correlations g)) (set_gw_sys (set_tick (Datatypes.S n) (gw_sys g))
               (set_submits (gw_submits g ++ [requestOf msg part]) g))).
  destruct (IH ids (k + 1) g1) as (g' & Hrun & Hgr & Hm & Hlive & Hrest).
  { cbn [gw_submits g1 set_correlations set_gw_sys set_submits]. rewrite length_app. cbn [length].
    by rewrite Nat.add_1_r. }
  { exact Httl. }
  exists g'. split; [|split; [|split; [exact Hm|]]].
  - intros rest. rewrite zlen_cons. replace (k + (1 + zlen parts)) with (k + 1 + zlen parts) by lia.
    rewrite <- Hrun. cbn [app submitParts]. unfold bindM at 1, submit. rewrite Hsub.
    cbn [SubmitResponse.Error SubmitResponse.MessageID]. reflexivity.
  - apply (grows_trans g g1 g' [requestOf msg part] _ [] []); [|exact Hgr].
    split; [by eexists|]. cbn. by rewrite app_nil_r.
  - split; [|intros id' Hn; rewrite Hrest by set_solver; cbn; rewrite lookup_insert_ne by set_solver; done].
    intros id' Hin. destruct (decide (id' ∈ ids)) as [Hin'|Hn]; [by apply Hlive|].
    assert (id' = id) as -> by set_solver. eexists.
    rewrite Hrest by done. cbn [correlations g1 set_correlations]. split; [apply lookup_insert_eq|].
    split; [done|]. intros m. destruct Hgr as [[t Ht] _]. rewrite Ht. apply Httl.
Qed.

(** ** Receipts *)

(** What a receipt means for a message whose parts are tracked by [mp]: the
    status and error code published, if any, and the tracking left. *)
Definition dlr_outcome (mp : option multipartState) (r : DLRReceipt.t)
    : option (string * string) * option multipartState :=
  match mp with
  | None => (Some (DLRReceipt.Status r, DLRReceipt.ErrorCode r), None)
  | Some s =>
      let failed := if bool_decide (DLRReceipt.Status r = "DELIVRD") then mp_anyFailed s else true in
      if mp_total s <=? mp_resolved s + 1 then
        (Some (if failed then ("UNDELIV", "multipart_partial_failure") else ("DELIVRD", "")), None)
      else (None, Some {| mp_total := mp_total s; mp_resolved := mp_resolved s + 1; mp_anyFailed := failed |})
  end.

(** The event published for [msg], up to its id and timestamp. *)
Definition publishes (msg : SendSMSMessage.t) (smppID : string) (o : option (string * string))
    (evs : list effect) : Prop :=
  match o with
  | None => evs = []
  | Some (status, code) => exists id ts,
      evs = [EDLR (dlrEvent id (SendSMSMessage.CardID msg) (SendSMSMessage.CampaignID msg)
                     (SendSMSMessage.MsgID msg) smppID status code ts)]
  end.

Lemma takeCorrelation_live id msg g :
  live g id msg ->
  exists y, sys_le (gw_sys g) y /\
    takeCorrelation id g
    = (Ok (Some (mappingOf msg)), set_gw_sys y (set_correlations (delete id (correlations g)) g)).
Proof.
  intros (e & He & Hm & Hexp). exists (set_tick (Datatypes.S (tick (gw_sys g))) (gw_sys g)).
  split; [by eexists|]. unfold takeCorrelation, bindM, gets. rewrite He. cbn [ask now].
  unfold ask. cbn. by rewrite (proj2 (Z.ltb_lt _ _) (Hexp _)), Hm.
Qed.

Lemma handleDLR_live src payload r msg g :
  ParseDLRReceipt payload = Some r -> live g (DLRReceipt.MessageID r) msg -> SendSMSMessage.CardID msg <> "" ->
  let o := dlr_outcome (multipart g !! SendSMSMessage.MsgID msg) r in
  exists g' evs, handleDLR src payload g = (Ok tt, g') /\ grows g g' [] evs /\
    publishes msg (DLRReceipt.MessageID r) (fst o) evs /\
    multipart g' !! SendSMSMessage.MsgID msg = snd o /\
    correlations g' = delete (DLRReceipt.MessageID r) (correlations g).
Proof.
  intros Hparse Hlive Hcard o. unfold handleDLR. rewrite Hparse.
  destruct (takeCorrelation_live _ _ _ Hlive) as (y & [t ->] & Htake).
  rewrite (run_bind _ _ _ _ _ Htake). cbn [SMPPMapping.CardID SMPPMapping.MsgID mappingOf].
  rewrite bool_decide_false by done. unfold o, dlr_outcome. clear o.
  unfold bindM at 1, try, recordPartDLR, bindM, gets.
  cbn [multipart set_gw_sys set_correlations].
  destruct (multipart g !! SendSMSMessage.MsgID msg) as [s|] eqn:Emp.
  - cbn [modify mp_total mp_resolved mp_anyFailed]. destruct (mp_total s <=? mp_resolved s + 1) eqn:Elast.
    + destruct (if bool_decide _ then mp_anyFailed s else true) eqn:Ef; cbn [modify ret negb fst snd];
        (eexists _, _; split; [reflexivity|]; split; [split; [by eexists|]; cbn; by rewrite app_nil_r|];
         split; [by eexists _, _|]; cbn; split; [apply lookup_delete_eq | done]).
    + cbn [ret negb fst snd]. eexists _, []. split; [reflexivity|].
      split; [split; [by eexists|]; cbn; by rewrite !app_nil_r|]. split; [done|]. cbn.
      split; [apply lookup_insert_eq | done].
  - cbn [merr]. rewrite bool_decide_true by done. eexists _, _. split; [reflexivity|].
    split; [split; [by eexists|]; cbn; by rewrite app_nil_r|]. split; [by eexists _, _|]. cbn. done.
Qed.

(** Receipts one after the other. *)
Fixpoint handleDLRs (payloads : list (list Z)) : G unit :=
  match payloads with
  | [] => ret tt
  | payload :: payloads => do! _ <- handleDLR "" payload; handleDLRs payloads
  end.

Definition parses (payload : list Z) (r : DLRReceipt.t) : Prop := ParseDLRReceipt payload = Some r.

Definition failed_receipt (r : DLRReceipt.t) : bool := negb (bool_decide (DLRReceipt.Status r = "DELIVRD")).

Lemma live_after g g' id id' msg reqs evs :
  grows g g' reqs evs -> correlations g' = delete id' (correlations g) -> id <> id' ->
  live g id msg -> live g' id msg.
Proof.
  intros ([t Ht] & _) Hc Hne (e & He & Hm & Hx). exists e. rewrite Hc, lookup_delete_ne, Ht by done. done.
Qed.

Lemma handleDLRs_partial msg ps rs g total resolved failed :
  Forall2 parses ps rs -> NoDup (DLRReceipt.MessageID <$> rs) -> SendSMSMessage.CardID msg <> "" ->
  (forall r, r ∈ rs -> live g (DLRReceipt.MessageID r) msg) ->
  multipart g !! SendSMSMessage.MsgID msg
    = Some {| mp_total := total; mp_resolved := resolved; mp_anyFailed := failed |} ->
  resolved + zlen rs < total ->
  exists g', handleDLRs ps g = (Ok tt, g') /\ grows g g' [] [] /\
    multipart g' !! SendSMSMessage.MsgID msg
      = Some {| mp_total := total; mp_resolved := resolved + zlen rs;
                mp_anyFailed := failed || existsb failed_receipt rs |} /\
    (forall id, id ∈ DLRReceipt.MessageID <$> rs -> correlations g' !! id = None) /\
    (forall id, id ∉ DLRReceipt.MessageID <$> rs -> correlations g' !! id = correlations g !! id).
Proof.
  intros Hps. revert g resolved failed. induction Hps as [|p r ps rs Hp Hps IH];
    intros g resolved failed Hnd Hcard Hlive Hmp Hlt; cbn [fmap list_fmap] in *.
  - exists g. split; [done|]. split; [apply grows_refl|]. rewrite Hmp. cbn [existsb]. unfold zlen. cbn [length].
    rewrite Z.add_0_r, orb_false_r. split; [done|]. split; [set_solver | done].
  - rewrite zlen_cons in *. pose proof (zlen_nonneg rs). apply NoDup_cons in Hnd as [Hnin Hnd].
    destruct (handleDLR_live "" p r msg g Hp (Hlive r ltac:(by left)) Hcard)
      as (g1 & evs & Hrun & Hgr & Hpub & Hm1 & Hc1).
    rewrite Hmp in Hpub, Hm1. unfold dlr_outcome in Hpub, Hm1. cbn [mp_total mp_resolved mp_anyFailed] in Hpub, Hm1.
    rewrite (proj2 (Z.leb_gt total (resolved + 1))) in Hpub, Hm1 by lia. cbn [fst snd publishes] in Hpub, Hm1. subst evs.
    assert (Hlive1 : forall r', r' ∈ rs -> live g1 (DLRReceipt.MessageID r') msg).
    { intros r' Hr'. eapply live_after; [exact Hgr | exact Hc1 | | apply Hlive; by right].
      intros Heq. apply Hnin. rewrite <- Heq. by apply list_elem_of_fmap_2. }
    destruct (IH g1 _ _ Hnd Hcard Hlive1 Hm1 ltac:(lia)) as (g' & Hrun' & Hgr' & Hm' & Hnone & Hrest).
    exists g'. cbn [handleDLRs]. rewrite (run_bind _ _ _ _ _ Hrun). split; [done|].
    split; [by apply (grows_trans _ _ _ _ _ _ _ Hgr)|]. split; [|split].
    + rewrite Hm'. f_equal. f_equal; [lia|]. unfold failed_receipt at 2. cbn [existsb]. fold failed_receipt.
      destruct (bool_decide _), failed; done.
    + intros id [->|Hin]%elem_of_cons; [|by apply Hnone]. rewrite Hrest, Hc1 by done. apply lookup_delete_eq.
    + intros id [Hne Hin]%not_elem_of_cons. by rewrite Hrest, Hc1, lookup_delete_ne.
Qed.

(** The verdict on a message from the receipts of its parts. *)
Definition aggregate (rs : list DLRReceipt.t) : string * string :=
  match rs with
  | [r] => (DLRReceipt.Status r, DLRReceipt.ErrorCode r)
  | _ => if existsb failed_receipt rs then ("UNDELIV", "multipart_partial_failure") else ("DELIVRD", "")
  end.

Lemma aggregate_snoc rs r :
  rs <> [] -> aggregate (rs ++ [r])
  = if existsb failed_receipt (rs ++ [r]) then ("UNDELIV", "multipart_partial_failure") else ("DELIVRD", "").
Proof. destruct rs as [|r0 [|r1 rs]]; done. Qed.

Lemma HandleSendSMS_accepted msg ids g :
  accepts (length (gw_submits g)) msg (SendSMSMessage.Parts msg) ids -> within_ttl (gw_sys g) ->
  exists g', HandleSendSMS msg g = (Ok tt, g') /\
    grows g g' (requestOf msg <$> SendSMSMessage.Parts msg) [] /\
    (forall id, id ∈ ids -> live g' id msg) /\
    multipart g' !! SendSMSMessage.MsgID msg
    = if 1 <? zlen (SendSMSMessage.Parts msg)
      then Some {| mp_total := zlen (SendSMSMessage.Parts msg); mp_resolved := 0; mp_anyFailed := false |}
      else multipart g !! SendSMSMessage.MsgID msg.
Proof.
  intros Hacc Httl. unfold HandleSendSMS, mwhen. destruct (1 <? _) eqn:E.
  - set (g1 := set_multipart (<[SendSMSMessage.MsgID msg := {| mp_total := zlen (SendSMSMessage.Parts msg);
                 mp_resolved := 0; mp_anyFailed := false |}]> (multipart g)) g).
    destruct (submitParts_accepted msg (SendSMSMessage.Parts msg) ids 0 g1 Hacc Httl)
      as (g' & Hrun & Hgr & Hm & Hl & _).
    specialize (Hrun []). rewrite app_nil_r in Hrun.
    exists g'. rewrite (run_bind _ _ g tt g1) by done. split; [exact Hrun|]. split; [exact Hgr|]. split; [exact Hl|].
    rewrite Hm. apply lookup_insert_eq.
  - destruct (submitParts_accepted msg (SendSMSMessage.Parts msg) ids 0 g Hacc Httl)
      as (g' & Hrun & Hgr & Hm & Hl & _).
    specialize (Hrun []). rewrite app_nil_r in Hrun.
    exists g'. rewrite (run_bind _ _ g tt g) by done. split; [exact Hrun|]. split; [exact Hgr|]. split; [exact Hl|].
    by rewrite Hm.
Qed.

Lemma accepts_length n msg parts ids : accepts n msg parts ids -> length parts = length ids.
Proof. revert n ids. induction parts as [|p ps IH]; intros n [|id ids] H; try done. cbn. f_equal. apply (IH _ _ (proj2 H)). Qed.

Lemma verdict_of_receipts msg g ps p rs r :
  Forall2 parses ps rs -> parses p r -> NoDup (DLRReceipt.MessageID <$> rs ++ [r]) ->
  SendSMSMessage.CardID msg <> "" ->
  (forall r', r' ∈ rs ++ [r] -> live g (DLRReceipt.MessageID r') msg) ->
  multipart g !! SendSMSMessage.MsgID msg
    = (if 1 <? zlen rs + 1 then Some {| mp_total := zlen rs + 1; mp_resolved := 0; mp_anyFailed := false |}
       else None) ->
  exists g2 g3 evs, handleDLRs ps g = (Ok tt, g2) /\ handleDLR "" p g2 = (Ok tt, g3) /\
    grows g g2 [] [] /\ grows g2 g3 [] evs /\
    publishes msg (DLRReceipt.MessageID r) (Some (aggregate (rs ++ [r]))) evs /\
    multipart g3 !! SendSMSMessage.MsgID msg = None /\
    (forall id, id ∈ DLRReceipt.MessageID <$> rs ++ [r] -> correlations g3 !! id = None).
Proof.
  intros Hps Hp Hnd Hcard Hl Hmp. rewrite fmap_app in *. apply NoDup_app in Hnd as (Hnd & Hdisj & _).
  assert (Hr : DLRReceipt.MessageID r ∉ DLRReceipt.MessageID <$> rs) by set_solver.
  destruct rs as [|r0 rs0].
  - inversion Hps; subst ps. cbn in Hmp.
    destruct (handleDLR_live "" p r msg g Hp (Hl r ltac:(set_solver)) Hcard) as (g3 & evs & Hrun & Hgr & Hpub & Hm & Hc).
    rewrite Hmp in Hpub, Hm. exists g, g3, evs. split; [done|]. split; [done|]. split; [apply grows_refl|].
    split; [exact Hgr|]. split; [exact Hpub|]. split; [exact Hm|].
    intros id Hid%list_elem_of_singleton. rewrite Hid, Hc. apply lookup_delete_eq.
  - set (rs := r0 :: rs0) in *.
    assert (Hpos : 1 <= zlen rs) by (unfold rs; rewrite zlen_cons; pose proof (zlen_nonneg rs0); lia).
    rewrite (proj2 (Z.ltb_lt 1 _)) in Hmp by lia.
    destruct (handleDLRs_partial msg ps rs g (zlen rs + 1) 0 false Hps Hnd Hcard)
      as (g2 & Hrun2 & Hgr2 & Hm2 & Hc2 & Hr2); [intros r' Hr'; apply Hl; set_solver | exact Hmp | lia |].
    assert (Hlr : live g2 (DLRReceipt.MessageID r) msg).
    { destruct (Hl r ltac:(set_solver)) as (e & He & Hme & Hx). exists e. rewrite Hr2 by done.
      destruct Hgr2 as ([t Ht] & _). by rewrite Ht. }
    destruct (handleDLR_live "" p r msg g2 Hp Hlr Hcard) as (g3 & evs & Hrun & Hgr3 & Hpub & Hm3 & Hc3).
    rewrite Hm2 in Hpub, Hm3. unfold dlr_outcome in Hpub, Hm3. cbn [mp_total mp_resolved mp_anyFailed orb] in Hpub, Hm3.
    rewrite (proj2 (Z.leb_le (zlen rs + 1) _)) in Hpub, Hm3 by lia.
    exists g2, g3, evs. split; [done|]. split; [done|]. split; [exact Hgr2|]. split; [exact Hgr3|].
    split; [|split; [exact Hm3|]].
    + rewrite aggregate_snoc, existsb_app by done. cbn [existsb]. rewrite orb_false_r. unfold failed_receipt at 2.
      destruct (bool_decide _); cbn [negb]; [by rewrite orb_false_r | by rewrite orb_true_r].
    + intros id [Hid|Hid%list_elem_of_singleton]%elem_of_app; rewrite Hc3.
      * rewrite lookup_delete_ne by set_solver. by apply Hc2.
      * rewrite Hid. apply lookup_delete_eq.
Qed.

(** C8: one message, one verdict.  When the pool accepts all parts of a message, each part is submitted
    once, in order, with the message's addressing; the receipts of the parts, in whatever order
    they arrive, publish nothing until the last one, which publishes exactly one delivery event, for
    the message's card, campaign and message id.  Its status is the receipt's own for a single part,
    and for several parts DELIVRD exactly when every part was delivered.  All tracking is gone
    afterwards. *)
Theorem one_verdict_per_message msg ids g ps p rs r :
  accepts (length (gw_submits g)) msg (SendSMSMessage.Parts msg) ids -> within_ttl (gw_sys g) ->
  NoDup ids -> SendSMSMessage.CardID msg <> "" ->
  multipart g !! SendSMSMessage.MsgID msg = None ->
  Forall2 parses ps rs -> parses p r -> DLRReceipt.MessageID <$> rs ++ [r] ≡ₚ ids ->
  exists g1 g2 g3 evs,
    HandleSendSMS msg g = (Ok tt, g1) /\ handleDLRs ps g1 = (Ok tt, g2) /\ handleDLR "" p g2 = (Ok tt, g3) /\
    gw_submits g3 = gw_submits g ++ (requestOf msg <$> SendSMSMessage.Parts msg) /\
    gw_trace g2 = gw_trace g /\ gw_trace g3 = gw_trace g ++ evs /\
    publishes msg (DLRReceipt.MessageID r) (Some (aggregate (rs ++ [r]))) evs /\
    multipart g3 !! SendSMSMessage.MsgID msg = None /\ (forall id, id ∈ ids -> correlations g3 !! id = None).
Proof.
  intros Hacc Httl Hnd Hcard Hfresh Hps Hp Hperm. pose proof (accepts_length _ _ _ _ Hacc) as Hlen.
  destruct (HandleSendSMS_accepted msg ids g Hacc Httl) as (g1 & Hsend & Hgr1 & Hlive & Hm1).
  assert (Hn : zlen (SendSMSMessage.Parts msg) = zlen rs + 1).
  { unfold zlen. rewrite Hlen, <- (Permutation_length Hperm), length_fmap, length_app. cbn. lia. }
  rewrite Hn, Hfresh in Hm1. rewrite <- Hperm in Hnd.
  destruct (verdict_of_receipts msg g1 ps p rs r Hps Hp Hnd Hcard)
    as (g2 & g3 & evs & Hrun2 & Hrun3 & Hgr2 & Hgr3 & Hpub & Hm3 & Hc3); [|exact Hm1|].
  { intros r' Hr'. apply Hlive. rewrite <- Hperm. by apply list_elem_of_fmap_2. }
  pose proof (grows_trans _ _ _ _ _ _ _ Hgr1 Hgr2) as H12.
  destruct (grows_trans _ _ _ _ _ _ _ H12 Hgr3) as (_ & Hs & Ht). rewrite !app_nil_r in Hs.
  exists g1, g2, g3, evs. split_and!; try done.
  - by destruct H12 as (_ & _ & ->); rewrite app_nil_r.
  - intros id Hid. apply Hc3. by rewrite Hperm.
Qed.

(** ** Refused submits *)

(** The error [HandleSendSMS] reports for a part, when the pool refuses it. *)
Definition submit_error (part : SMSPart.t) (resp : res SubmitResponse.t) : option goerr :=
  match resp with
  | Err e => Some (Errorf "submit part %d: %w" [ArgInt (SMSPart.Sequence part); ArgErr e])
  | Ok resp => match SubmitResponse.Error resp with
               | Some e => Some (Errorf "submit part %d error: %w" [ArgInt (SMSPart.Sequence part); ArgErr e])
               | None => None
               end
  | Panic _ => None
  end.

Lemma handleSubmitFailure_run msg k e g :
  (forall n, sys_ctx (gw_sys g) n = None) ->
  exists g' id ts, handleSubmitFailure msg k e g = (Ok tt, g') /\
    grows g g' [] [EDLR (dlrEvent id (SendSMSMessage.CardID msg) (SendSMSMessage.CampaignID msg)
                          (SendSMSMessage.MsgID msg) "" (if 0 <? k then "FAILED_PARTIAL_SUBMIT" else "FAILED_SUBMIT")
                          (Error e) ts)] /\
    multipart g' = multipart g /\ correlations g' = correlations g.
Proof.
  intros Hctx. eexists _, _, _. unfold handleSubmitFailure, select_send, bindM, newUUID, now, ask. cbn.
  rewrite Hctx. cbn. split; [reflexivity|]. split; [|done]. split; [by eexists|]. cbn. by rewrite app_nil_r.
Qed.

Lemma submitParts_refused msg pre ids part post err k g :
  accepts (length (gw_submits g)) msg pre ids -> within_ttl (gw_sys g) ->
  (forall n, sys_ctx (gw_sys g) n = None) ->
  submit_error part (Submit (length (gw_submits g) + length pre) (requestOf msg part)) = Some err ->
  exists g' id ts, submitParts msg k (pre ++ part :: post) g = (Ok tt, g') /\
    grows g g' (requestOf msg <$> pre ++ [part])
      [EDLR (dlrEvent id (SendSMSMessage.CardID msg) (SendSMSMessage.CampaignID msg)
               (SendSMSMessage.MsgID msg) "" (if 0 <? k + zlen pre then "FAILED_PARTIAL_SUBMIT" else "FAILED_SUBMIT")
               (Error err) ts)] /\
    multipart g' = multipart g /\ (forall id, id ∈ ids -> live g' id msg).
Proof.
  intros Hacc Httl Hctx Herr.
  destruct (submitParts_accepted msg pre ids k g Hacc Httl) as (g0 & Hrun0 & Hgr0 & Hm0 & Hlive & _).
  assert (Hlen : length (gw_submits g0) = (length (gw_submits g) + length pre)%nat).
  { destruct Hgr0 as (_ & -> & _). by rewrite length_app, length_fmap. }
  set (g1 := set_submits (gw_submits g0 ++ [requestOf msg part]) g0).
  destruct (handleSubmitFailure_run msg (k + zlen pre) err g1) as (g' & id & ts & Hrun & Hgr & Hm & Hc).
  { intros n. destruct Hgr0 as ([t Ht] & _). cbn. rewrite Ht. apply Hctx. }
  exists g', id, ts. split; [|split; [|split; [by rewrite Hm|]]].
  - rewrite Hrun0. cbn [submitParts]. unfold bindM at 1, submit. rewrite Hlen. fold g1. unfold submit_error in Herr.
    destruct (Submit _ _) as [[mid [e|]]|e|]; [|done| |done]; injection Herr as <-; exact Hrun.
  - rewrite fmap_app. assert (H01 : grows g0 g1 [requestOf msg part] [])
      by (split; [reflexivity|]; cbn; by rewrite app_nil_r).
    pose proof (grows_trans _ _ _ _ _ _ _ (grows_trans _ _ _ _ _ _ _ Hgr0 H01) Hgr) as H.
    by rewrite app_nil_r in H.
  - intros i Hi. destruct (Hlive i Hi) as (e & He & Hme & Hx). exists e. rewrite Hc. split; [done|]. split; [done|].
    intros n. destruct Hgr as ([t Ht] & _). rewrite Ht. apply Hx.
Qed.

(** C33: a refused part.  When the pool refuses a part, the parts after it are not submitted, the failure is
    reported by exactly one delivery event for the message's card, FAILED_SUBMIT when nothing had been
    accepted and FAILED_PARTIAL_SUBMIT otherwise, carrying the pool's error; and the receipts of
    the parts accepted before, in whatever order they arrive, publish no second verdict. *)
Theorem refused_part_one_verdict msg pre ids part post err g ps rs :
  SendSMSMessage.Parts msg = pre ++ part :: post ->
  accepts (length (gw_submits g)) msg pre ids -> within_ttl (gw_sys g) ->
  (forall n, sys_ctx (gw_sys g) n = None) ->
  submit_error part (Submit (length (gw_submits g) + length pre) (requestOf msg part)) = Some err ->
  NoDup ids -> SendSMSMessage.CardID msg <> "" ->
  Forall2 parses ps rs -> DLRReceipt.MessageID <$> rs ≡ₚ ids ->
  exists g1 g2 id ts, HandleSendSMS msg g = (Ok tt, g1) /\ handleDLRs ps g1 = (Ok tt, g2) /\
    gw_submits g2 = gw_submits g ++ (requestOf msg <$> pre ++ [part]) /\
    gw_trace g2 = gw_trace g ++
      [EDLR (dlrEvent id (SendSMSMessage.CardID msg) (SendSMSMessage.CampaignID msg)
               (SendSMSMessage.MsgID msg) "" (if 0 <? zlen pre then "FAILED_PARTIAL_SUBMIT" else "FAILED_SUBMIT")
               (Error err) ts)].
Proof.
  intros Hparts Hacc Httl Hctx Herr Hnd Hcard Hps Hperm.
  unfold HandleSendSMS. set (big := 1 <? zlen (SendSMSMessage.Parts msg)).
  set (g0 := if big then set_multipart (<[SendSMSMessage.MsgID msg := {| mp_total := zlen (SendSMSMessage.Parts msg);
                 mp_resolved := 0; mp_anyFailed := false |}]> (multipart g)) g else g).
  assert (Hsame : gw_submits g0 = gw_submits g /\ gw_sys g0 = gw_sys g /\ gw_trace g0 = gw_trace g)
    by (unfold g0; by destruct big).
  destruct Hsame as (Hsub & Hsys & Htr).
  destruct (submitParts_refused msg pre ids part post err 0 g0)
    as (g1 & id & ts & Hrun & (Hle & Hs & Ht) & Hm & Hlive); [by rewrite ?Hsub, ?Hsys..|].
  rewrite Hsub in Hs. rewrite Htr, Z.add_0_l in Ht.
  assert (Hrest : exists g2, handleDLRs ps g1 = (Ok tt, g2) /\ grows g1 g2 [] []).
  { destruct rs as [|r0 rs]; [inversion Hps; exists g1; split; [done | apply grows_refl]|].
    assert (Hz : zlen (r0 :: rs) = zlen pre).
    { unfold zlen. by rewrite (accepts_length _ _ _ _ Hacc), <- (Permutation_length Hperm), length_fmap. }
    assert (Hl : zlen (SendSMSMessage.Parts msg) = zlen pre + 1 + zlen post)
      by (rewrite Hparts, zlen_app, zlen_cons; lia).
    rewrite zlen_cons in Hz. pose proof (zlen_nonneg rs). pose proof (zlen_nonneg post).
    assert (Hbig : big = true) by (apply Z.ltb_lt; lia). unfold g0 in Hm. rewrite Hbig in Hm.
    destruct (handleDLRs_partial msg ps (r0 :: rs) g1 (zlen (SendSMSMessage.Parts msg)) 0 false Hps)
      as (g2 & H1 & H2 & _); [by rewrite Hperm | done | | | rewrite zlen_cons; lia |].
    - intros r Hr. apply Hlive. rewrite <- Hperm. by apply list_elem_of_fmap_2.
    - rewrite Hm. apply lookup_insert_eq.
    - by exists g2. }
  destruct Hrest as (g2 & Hrun2 & _ & Hs2 & Ht2). rewrite app_nil_r in Hs2, Ht2.
  exists g1, g2, id, ts. split; [|split; [exact Hrun2 | split; [by rewrite Hs2 | by rewrite Ht2]]].
  rewrite (run_bind _ _ g tt g0); [by rewrite Hparts|].
  unfold g0. fold big. by destruct big.
Qed.

(** ** Answers of cards *)

(** A mobile-originated message.  A message from a known number becomes exactly one event for the card
    of that number, in the campaign of the card's hot state; its payload travels as hex and
    is recovered byte for byte by the decoder the worker uses. *)
Theorem mo_event_for_card `{!CoordinationLaws S} src dst payload card st g :
  msisdnResolver g !! src = Some card -> card <> "" ->
  hot (coordination g) !! card = Some st -> bytes_ok payload ->
  exists g' id ts, handleMO src dst payload g = (Ok tt, g') /\
    gw_trace g' = gw_trace g ++ [EMO (moEvent id card (CardState.CampaignID st) src (EncodeToString payload) ts)] /\
    Decode (EncodeToString payload) = Ok payload.
Proof.
  intros Hsrc Hcard Hst Hb.
  destruct (get_card_state_hit card st (gw_sys g) (coordination g) Hst) as (y & s & Hget & _ & _).
  eexists _, _, _. split; [|split].
  - unfold handleMO, bindM at 1, try, on_resolver, MSISDNResolver.LookupCardByMSISDN, bindM at 1, gets.
    cbn [snd]. rewrite Hsrc. cbn [ret]. rewrite bool_decide_false by done.
    unfold bindM at 1, try, on_coordination.
    cbn [gw_sys coordination set_msisdnResolver set_gw_sys]. rewrite Hget. reflexivity.
  - reflexivity.
  - unfold EncodeToString. rewrite <- (list_fmap_id (hex_encode payload)).
    apply (decode_hex_string id); [apply from_hex_digit | done].
Qed.



End Gateway.
Arguments InProcessGateway : clear implicits.

(** ** Witnesses *)

(** A pool that names messages after the submit number and refuses those from [limit] on. *)
Definition wit_pool (limit : nat) (n : nat) (_ : SubmitRequest.t) : res SubmitResponse.t :=
  if (n <? limit)%nat then Ok (SubmitResponse.mk ("id-" +:+ pretty n) None) else Err (Errorf "window full" []).

(** A receipt format: the submit number and a delivered flag. *)
Definition wit_parse (payload : list Z) : option DLRReceipt.t :=
  match payload with
  | [k; ok] => Some (DLRReceipt.mk ("id-" +:+ pretty k) (if ok =? 1 then "DELIVRD" else "EXPIRED") "")
  | _ => None
  end.

Definition wit_msg : SendSMSMessage.t := {|
  SendSMSMessage.MsgID := "msg-1"; SendSMSMessage.CampaignID := "camp-1"; SendSMSMessage.CardID := "card-1";
  SendSMSMessage.MSISDN := "32470000001"; SendSMSMessage.TON := 1; SendSMSMessage.NPI := 1;
  SendSMSMessage.DataCoding := 246; SendSMSMessage.ProtocolID := 127; SendSMSMessage.ESMClass := 64;
  SendSMSMessage.Parts := [SMSPart.mk 1 2 0 [1; 2]; SMSPart.mk 2 2 0 [3]] |}.

Definition wit_state : CardState.t := {|
  CardState.CampaignID := "camp-1"; CardState.CurrentStep := 1; CardState.Status := "awaiting_mo";
  CardState.RetryCount := 0; CardState.LastMsgID := "msg-1"; CardState.LastEventID := "";
  CardState.TransitionSeq := 1 |}.

Definition wit_gateway : InProcessGateway Coordination.t := {|
  gw_sys := quiet_sys empty_db;
  coordination := snd (snd (Coordination.SetCardState "card-1" wit_state (quiet_sys empty_db, Coordination.NewCoordinationStore)));
  msisdnResolver := {[ "32470000001" := "card-1" ]};
  correlations := ∅; multipart := ∅; gw_submits := []; gw_trace := [];
  gw_logp := {| LogProducer.dropped := 0; LogProducer.disabled := false |} |}.

(** Both parts accepted, the second one reported first and expired. *)
Lemma one_verdict_per_message_witness :
  exists g1 g2 g3 id ts,
    HandleSendSMS (wit_pool 2) wit_msg wit_gateway = (Ok tt, g1) /\
    handleDLRs wit_parse [[1; 0]] g1 = (Ok tt, g2) /\ handleDLR wit_parse "" [0; 1] g2 = (Ok tt, g3) /\
    gw_trace g2 = [] /\
    gw_trace g3 = [EDLR (dlrEvent id "card-1" "camp-1" "msg-1" "id-0" "UNDELIV" "multipart_partial_failure" ts)].
Proof.
  destruct (one_verdict_per_message (wit_pool 2) wit_parse wit_msg ["id-0"; "id-1"] wit_gateway
    [[1; 0]] [0; 1] [DLRReceipt.mk "id-1" "EXPIRED" ""] (DLRReceipt.mk "id-0" "DELIVRD" ""))
    as (g1 & g2 & g3 & evs & H1 & H2 & H3 & _ & H4 & H5 & (id & ts & H6) & _);
    [done | done | apply (bool_decide_unpack _); vm_compute; exact I | done | done | by repeat constructor
    | done | apply perm_swap |].
  exists g1, g2, g3, id, ts. split; [exact H1|]. split; [exact H2|]. split; [exact H3|]. split; [exact H4|].
  by rewrite H5, H6.
Defined.

(** The second part refused, then the receipt of the first arrives. *)
Lemma refused_part_one_verdict_witness :
  exists g1 g2 id ts, HandleSendSMS (wit_pool 1) wit_msg wit_gateway = (Ok tt, g1) /\
    handleDLRs wit_parse [[0; 1]] g1 = (Ok tt, g2) /\
    gw_trace g2 = [EDLR (dlrEvent id "card-1" "camp-1" "msg-1" "" "FAILED_PARTIAL_SUBMIT"
                           "submit part 2: window full" ts)].
Proof.
  destruct (refused_part_one_verdict (wit_pool 1) wit_parse wit_msg [SMSPart.mk 1 2 0 [1; 2]] ["id-0"]
    (SMSPart.mk 2 2 0 [3]) [] (Errorf "submit part %d: %w" [ArgInt 2; ArgErr (Errorf "window full" [])])
    wit_gateway [[0; 1]] [DLRReceipt.mk "id-0" "DELIVRD" ""]) as (g1 & g2 & id & ts & H1 & H2 & _ & H3);
    [done | done | done | done | done | apply (bool_decide_unpack _); vm_compute; exact I | done
    | by repeat constructor | done |].
  exists g1, g2, id, ts. split; [exact H1|]. split; [exact H2|]. exact H3.
Defined.

Lemma mo_event_for_card_witness :
  exists g' id ts, handleMO "32470000001" "1234" [2; 113; 0] wit_gateway = (Ok tt, g') /\
    gw_trace g' = [EMO (moEvent id "card-1" "camp-1" "32470000001" "027100" ts)].
Proof.
  destruct (mo_event_for_card "32470000001" "1234" [2; 113; 0] "card-1" wit_state wit_gateway)
    as (g' & id & ts & H1 & H2 & _); [reflexivity | done | reflexivity | by repeat constructor |].
  exists g', id, ts. split; [exact H1 | exact H2].
Defined.
