(* ===== verification/StateWriter.v ===== *)
(** * internal/pgstore: the batched card state writer

    card_state_writer.go drains the channel of [CardStateChange]s into the
    append-only table card_execution_states and the counters of campaign_stats.
    The loop over the channel is the step function [writerStep]; a step is what the
    select of the loop may choose.  Maps are [gmap]s and a range over a
    map visits [map_to_list]; the deltas of a batch are bounded by its length and
    kept as plain integers.

    [uuid.Parse] is a third-party function: the parameter [parse] gives the canonical
    text of a UUID.  Whether the driver connection is pgx's is the parameter
    [pgxConn].  Metrics and log lines are not modelled. *)

From S2P Require Import Prelude Effects Models Pipeline Store.

(** ** Counter deltas *)

Record statsDelta := { d_pending : Z; d_inProgress : Z; d_completed : Z; d_failed : Z; d_skipped : Z }.

Definition zeroDelta : statsDelta :=
  {| d_pending := 0; d_inProgress := 0; d_completed := 0; d_failed := 0; d_skipped := 0 |}.

Definition statusColumn (status : string) : string :=
  if bool_decide (status = "pending" \/ status = "activating") then "pending"
  else if bool_decide (status = "in_progress" \/ status = "awaiting_dlr" \/ status = "awaiting_mo") then "in_progress"
  else if bool_decide (status = "completed") then "completed"
  else if bool_decide (status = "failed") then "failed"
  else if bool_decide (status = "skipped") then "skipped"
  else "".

Definition applyDelta (d : statsDelta) (status : string) (adj : Z) : statsDelta :=
  let col := statusColumn status in
  if bool_decide (col = "pending") then
    {| d_pending := d_pending d + adj; d_inProgress := d_inProgress d; d_completed := d_completed d;
       d_failed := d_failed d; d_skipped := d_skipped d |}
  else if bool_decide (col = "in_progress") then
    {| d_pending := d_pending d; d_inProgress := d_inProgress d + adj; d_completed := d_completed d;
       d_failed := d_failed d; d_skipped := d_skipped d |}
  else if bool_decide (col = "completed") then
    {| d_pending := d_pending d; d_inProgress := d_inProgress d; d_completed := d_completed d + adj;
       d_failed := d_failed d; d_skipped := d_skipped d |}
  else if bool_decide (col = "failed") then
    {| d_pending := d_pending d; d_inProgress := d_inProgress d; d_completed := d_completed d;
       d_failed := d_failed d + adj; d_skipped := d_skipped d |}
  else if bool_decide (col = "skipped") then
    {| d_pending := d_pending d; d_inProgress := d_inProgress d; d_completed := d_completed d;
       d_failed := d_failed d; d_skipped := d_skipped d + adj |}
  else d.

(** The [SET] list of the UPDATE: the columns with a non-zero delta. *)
Definition buildStatsUpdateSQL (d : statsDelta) : list (string * Z) :=
  filter (fun cv => snd cv <> 0)
    [("pending", d_pending d); ("in_progress", d_inProgress d); ("completed", d_completed d);
     ("failed", d_failed d); ("skipped", d_skipped d)].

(** [column = column + value] on a row. *)
Definition addColumn (row : CampaignStatsRow.t) (cv : string * Z) : CampaignStatsRow.t :=
  let '(col, v) := cv in
  let bump c x := if bool_decide (col = c) then x + v else x in
  {| CampaignStatsRow.Total := CampaignStatsRow.Total row;
     CampaignStatsRow.Pending := bump "pending" (CampaignStatsRow.Pending row);
     CampaignStatsRow.InProgress := bump "in_progress" (CampaignStatsRow.InProgress row);
     CampaignStatsRow.Completed := bump "completed" (CampaignStatsRow.Completed row);
     CampaignStatsRow.Failed := bump "failed" (CampaignStatsRow.Failed row);
     CampaignStatsRow.Skipped := bump "skipped" (CampaignStatsRow.Skipped row) |}.

(** ** Deduplication and aggregation of a batch *)

(** The loop that keeps the latest event per card and campaign. *)
Definition keepLatest (latest : gmap (string * string) CardStateChange.t) (ev : CardStateChange.t)
    : gmap (string * string) CardStateChange.t :=
  let k := (CardStateChange.CardID ev, CardStateChange.CampaignID ev) in
  match latest !! k with
  | None => <[k := ev]> latest
  | Some existing =>
      if (CardStateChange.TransitionSeq existing <? CardStateChange.TransitionSeq ev) ||
         ((CardStateChange.TransitionSeq ev =? CardStateChange.TransitionSeq existing) &&
          (CardStateChange.Timestamp existing <? CardStateChange.Timestamp ev))
      then <[k := ev]> latest else latest
  end.

Definition latestOf (events : list CardStateChange.t) : gmap (string * string) CardStateChange.t :=
  foldl keepLatest ∅ events.

(** The loop that sums the counter deltas of all events. *)
Definition addDeltas (deltas : gmap string statsDelta) (ev : CardStateChange.t) : gmap string statsDelta :=
  if bool_decide (CardStateChange.StatsFrom ev = "" /\ CardStateChange.StatsTo ev = "") then deltas
  else
    let d := default zeroDelta (deltas !! CardStateChange.CampaignID ev) in
    let d := applyDelta d (CardStateChange.StatsFrom ev) (-1) in
    let d := applyDelta d (CardStateChange.StatsTo ev) 1 in
    <[CardStateChange.CampaignID ev := d]> deltas.

Definition deltasOf (events : list CardStateChange.t) : gmap string statsDelta := foldl addDeltas ∅ events.

(** ** The table *)

(** PRIMARY KEY (card_id, campaign_id, transition_seq). *)
Definition rowKey (row : CardExecutionState.t) : string * string * Z :=
  (CardExecutionState.CardID row, CardExecutionState.CampaignID row, CardExecutionState.TransitionSeq row).

(** INSERT ... ON CONFLICT DO NOTHING, one row. *)
Definition insertRow (table : list CardExecutionState.t) (row : CardExecutionState.t) : list CardExecutionState.t :=
  if bool_decide (rowKey row ∈ rowKey <$> table) then table else table ++ [row].

Definition duplicateKey : goerr := Errorf "duplicate key value violates unique constraint" [].

Section Writer.
Context (parse : string -> option string) (pgxConn : bool).

Definition copyRow (ev : CardStateChange.t) : option CardExecutionState.t :=
  match parse (CardStateChange.CardID ev), parse (CardStateChange.CampaignID ev) with
  | Some cardID, Some campID => Some {|
      CardExecutionState.CardID := cardID;
      CardExecutionState.CampaignID := campID;
      CardExecutionState.Status := CardStateChange.Status ev;
      CardExecutionState.CurrentStep := CardStateChange.CurrentStep ev;
      CardExecutionState.RetryCount := CardStateChange.RetryCount ev;
      CardExecutionState.LastMsgID := if bool_decide (CardStateChange.LastMsgID ev = "") then None
                                      else parse (CardStateChange.LastMsgID ev);
      CardExecutionState.LastSMPPID := CardStateChange.LastSMPPID ev;
      CardExecutionState.LastError := CardStateChange.LastError ev;
      CardExecutionState.TransitionSeq := CardStateChange.TransitionSeq ev;
      CardExecutionState.UpdatedAt := CardStateChange.Timestamp ev |}
  | _, _ => None
  end.

(** COPY is one statement: all rows, or an error and none. *)
Definition copyFrom (rows : list CardExecutionState.t) : M Sys unit :=
  do! table <- query card_execution_states;
  if bool_decide (NoDup (rowKey <$> table ++ rows)) then
    modify (fun y => set_db (set_card_execution_states (fun t => t ++ rows) (db y)) y)
  else merr duplicateKey.

(** 65535 bind parameters, ten columns. *)
Definition maxRows : nat := Z.to_nat (65535 / 10).

(** The loop over the chunks; one statement each. *)
Fixpoint insertChunks (pieces : list (list CardExecutionState.t)) : M Sys unit :=
  match pieces with
  | [] => ret tt
  | chunk :: pieces =>
      do! _ <- exec (set_card_execution_states (fun t => foldl insertRow t chunk));
      insertChunks pieces
  end.

Definition flushCardStatesFallback (copyRows : list CardExecutionState.t) : M Sys unit :=
  insertChunks (chunks maxRows copyRows).

Definition flushCardStatesCopy (copyRows : list CardExecutionState.t) : M Sys unit :=
  do! _ <- mwrap "get sql.DB: %w" (query (fun _ => tt));
  do! _ <- mwrap "get conn: %w" (query (fun _ => tt));
  if negb pgxConn then flushCardStatesFallback copyRows
  else
    do! copied <- try (copyFrom copyRows);
    match copied with
    | Ok _ => ret tt
    | _ => flushCardStatesFallback copyRows
    end.

(** One UPDATE of campaign_stats. *)
Definition updateStats (campID : string) (sets : list (string * Z)) : M Sys unit :=
  exec (set_campaign_stats (alter (fun row => foldl addColumn row sets) campID)).

Fixpoint updateCounters (deltas : list (string * statsDelta)) : M Sys unit :=
  match deltas with
  | [] => ret tt
  | (campIDStr, d) :: deltas =>
      do! _ <- (match parse campIDStr with
                | None => ret tt
                | Some campID =>
                    match buildStatsUpdateSQL d with
                    | [] => ret tt
                    | sets => ignore (updateStats campID sets)
                    end
                end);
      updateCounters deltas
  end.

Definition writeCardStateBatch (events : list CardStateChange.t) : M Sys unit :=
  let latest := latestOf events in
  let counterDeltas := deltasOf events in
  let copyRows := omap copyRow (map_to_list latest).*2 in
  if bool_decide (copyRows = []) && bool_decide (counterDeltas = ∅) then ret tt
  else
    do! _ <- (if bool_decide (copyRows = []) then ret tt else flushCardStatesCopy copyRows);
    updateCounters (map_to_list counterDeltas).

(** ** The loop *)

Record CardStateWriterConfig := { MaxBatch : Z; FlushInterval : Z }.
Context (cfg : CardStateWriterConfig).

(** What the select picks: an event, the closed channel, the ticker, a
    cancelled context. *)
Inductive select_case := Recv (ev : CardStateChange.t) | Closed | Tick | Done.

Record Writer := { wr_sys : Sys; wr_batch : list CardStateChange.t; wr_returned : bool }.

Definition flush (w : Writer) : Writer :=
  match wr_batch w with
  | [] => w
  | batch => {| wr_sys := snd (writeCardStateBatch batch (wr_sys w)); wr_batch := []; wr_returned := wr_returned w |}
  end.

Definition returning (w : Writer) : Writer :=
  {| wr_sys := wr_sys w; wr_batch := wr_batch w; wr_returned := true |}.

Definition writerStep (w : Writer) (c : select_case) : Writer :=
  if wr_returned w then w
  else match c with
       | Recv ev =>
           let w := {| wr_sys := wr_sys w; wr_batch := wr_batch w ++ [ev]; wr_returned := false |} in
           if MaxBatch cfg <=? zlen (wr_batch w) then flush w else w
       | Closed => returning (flush w)
       | Tick => flush w
       | Done => returning (flush w)
       end.

Definition RunCardStateWriter (y : Sys) (cases : list select_case) : Writer :=
  foldl writerStep {| wr_sys := y; wr_batch := []; wr_returned := false |} cases.

End Writer.
