(* ===== verification/StateWriterProps.v ===== *)
(** * Properties of the card state writer

    The latest event of a batch wins; rows are only ever appended and keep the
    primary key; the counters of a campaign end up as the sum of all transitions,
    however the stream was cut into batches; what was written last is what a
    restarted coordination store reads back. *)

From S2P Require Import Prelude Effects Models Pipeline Store ShardedCache Executor Scenario StateWriter.

(** ** Deduplication *)

Definition keyOf (ev : CardStateChange.t) : string * string :=
  (CardStateChange.CardID ev, CardStateChange.CampaignID ev).

(** [a] is not newer than [b]. *)
Definition not_newer (a b : CardStateChange.t) : Prop :=
  CardStateChange.TransitionSeq a < CardStateChange.TransitionSeq b \/
  (CardStateChange.TransitionSeq a = CardStateChange.TransitionSeq b /\
   CardStateChange.Timestamp a <= CardStateChange.Timestamp b).

Lemma latestOf_snoc l ev : latestOf (l ++ [ev]) = keepLatest (latestOf l) ev.
Proof. unfold latestOf. by rewrite foldl_app. Qed.

Lemma keepLatest_lookup m ev k :
  keepLatest m ev !! k
  = if bool_decide (k = keyOf ev) then
      match m !! k with
      | None => Some ev
      | Some old => if bool_decide (not_newer ev old) then Some old else Some ev
      end
    else m !! k.
Proof.
  unfold keepLatest. fold (keyOf ev). case_bool_decide as Hk; [subst k|].
  - destruct (m !! keyOf ev) as [old|] eqn:E; [|apply lookup_insert_eq].
    destruct (_ || _) eqn:Ec.
    + rewrite lookup_insert_eq, bool_decide_false; [done|]. unfold not_newer. lia.
    + rewrite E, bool_decide_true; [done|]. unfold not_newer. lia.
  - destruct (m !! keyOf ev); [destruct (_ || _)|]; rewrite ?lookup_insert_ne by done; done.
Qed.

(** A batch is reduced to at most one event per card and campaign: the one with the greatest
    transition number, the latest timestamp among equals; every pair that occurs keeps one. *)
Lemma latestOf_spec events k :
  match latestOf events !! k with
  | None => forall ev, ev ∈ events -> keyOf ev <> k
  | Some best => best ∈ events /\ keyOf best = k /\
                 forall ev, ev ∈ events -> keyOf ev = k -> not_newer ev best
  end.
Proof.
  induction events as [|ev events IH] using rev_ind; [cbn; set_solver|].
  rewrite latestOf_snoc, keepLatest_lookup. case_bool_decide as Hk.
  - destruct (latestOf events !! k) as [old|].
    + destruct IH as (Hin & Hkey & Hmax). case_bool_decide as Hn.
      * split; [set_solver|]. split; [done|]. intros ev' [H|H%list_elem_of_singleton]%elem_of_app Hk'; [by apply Hmax|].
        by subst ev'.
      * split; [set_solver|]. split; [done|]. intros ev' [H|H%list_elem_of_singleton]%elem_of_app Hk'.
        -- specialize (Hmax _ H Hk'). unfold not_newer in *. lia.
        -- subst ev'. unfold not_newer. lia.
    + split; [set_solver|]. split; [done|]. intros ev' [H|H%list_elem_of_singleton]%elem_of_app Hk'.
      * by apply IH in H.
      * subst ev'. unfold not_newer. lia.
  - destruct (latestOf events !! k) as [old|].
    + destruct IH as (Hin & Hkey & Hmax). split; [set_solver|]. split; [done|].
      intros ev' [H|H%list_elem_of_singleton]%elem_of_app Hk'; [by apply Hmax | congruence].
    + intros ev' [H|H%list_elem_of_singleton]%elem_of_app; [by apply IH | congruence].
Qed.


(** ** Append-only rows with a primary key *)

(** The table grew at the end and kept its key. *)
Definition table_grows (y y' : Sys) : Prop :=
  let t := card_execution_states (db y) in
  let t' := card_execution_states (db y') in
  (exists new, t' = t ++ new) /\ (NoDup (rowKey <$> t) -> NoDup (rowKey <$> t')).

#[local] Instance table_grows_preorder : PreOrder table_grows.
Proof.
  split.
  - intros y. split; [exists []; by rewrite app_nil_r | done].
  - intros y1 y2 y3 [[n1 H1] K1] [[n2 H2] K2]. split; [|by auto].
    exists (n1 ++ n2). by rewrite H2, H1, app_assoc.
Qed.

Lemma table_grows_same y y' :
  card_execution_states (db y') = card_execution_states (db y) -> table_grows y y'.
Proof. intros H. unfold table_grows. rewrite H. split; [exists []; by rewrite app_nil_r | done]. Qed.

Lemma insertRow_grows t row :
  (exists new, insertRow t row = t ++ new) /\ (NoDup (rowKey <$> t) -> NoDup (rowKey <$> insertRow t row)).
Proof.
  unfold insertRow. case_bool_decide as Hin; [split; [exists []; by rewrite app_nil_r | done]|].
  split; [by eexists|]. intros Hnd. rewrite fmap_app. apply NoDup_app. split; [done|].
  split; [intros k Hk Hk'; apply list_elem_of_singleton in Hk'; by subst k | apply NoDup_singleton].
Qed.

Lemma foldl_insertRow_grows rows t :
  (exists new, foldl insertRow t rows = t ++ new) /\
  (NoDup (rowKey <$> t) -> NoDup (rowKey <$> foldl insertRow t rows)).
Proof.
  revert t. induction rows as [|r rows IH]; intros t; cbn [foldl]; [split; [exists []; by rewrite app_nil_r | done]|].
  destruct (insertRow_grows t r) as [[n1 H1] K1], (IH (insertRow t r)) as [[n2 H2] K2].
  split; [|by auto]. exists (n1 ++ n2). by rewrite H2, H1, app_assoc.
Qed.

Lemma preserves_ask {A} (f : Sys -> nat -> A) : preserves table_grows (ask f).
Proof. intros y. by apply table_grows_same. Qed.

Lemma preserves_query {A} (f : Database -> A) : preserves table_grows (query f).
Proof.
  apply preserves_bind; [apply _ | apply preserves_ask|]. intros [e|]; [apply preserves_err, _ | apply preserves_gets, _].
Qed.

Lemma preserves_exec (P : Sys -> Sys -> Prop) `{!PreOrder P} f :
  (forall (n : nat) y, P y (set_tick n y)) -> (forall y, P y (set_db (f (db y)) y)) -> preserves P (exec f).
Proof.
  intros Ht Hf. apply preserves_bind; [done | intros y; apply Ht|].
  intros [e|]; [by apply preserves_err | apply preserves_modify, Hf].
Qed.

Section Growth.
Context (parse : string -> option string) (pgxConn : bool).

Lemma preserves_insertChunks pieces : preserves table_grows (insertChunks pieces).
Proof.
  induction pieces as [|c pieces IH]; cbn [insertChunks]; [apply preserves_ret, _|].
  apply preserves_bind; [apply _ | | intros; apply IH]. apply preserves_exec; [apply _ | |].
  - intros n y. by apply table_grows_same.
  - intros y. unfold table_grows. cbn. apply foldl_insertRow_grows.
Qed.

Lemma preserves_copyFrom rows : preserves table_grows (copyFrom rows).
Proof.
  intros y. unfold copyFrom, query, bindM, ask, gets. cbn. destruct (sys_fault y (tick y)); [by apply table_grows_same|].
  cbn. case_bool_decide as Hnd; [|by apply table_grows_same]. cbn.
  split; [by exists rows | done].
Qed.

Lemma preserves_flushCopy rows : preserves table_grows (flushCardStatesCopy pgxConn rows).
Proof.
  unfold flushCardStatesCopy. apply preserves_bind; [apply _ | apply preserves_wrap, preserves_query|]. intros _.
  apply preserves_bind; [apply _ | apply preserves_wrap, preserves_query|]. intros _.
  apply preserves_if; [apply preserves_insertChunks|].
  apply preserves_bind; [apply _ | apply preserves_try, preserves_copyFrom|].
  intros [?|?|?]; [apply preserves_ret, _ | apply preserves_insertChunks | apply preserves_insertChunks].
Qed.

Lemma preserves_updateCounters l : preserves table_grows (updateCounters parse l).
Proof.
  induction l as [|[c d] l IH]; cbn [updateCounters]; [apply preserves_ret, _|].
  apply preserves_bind; [apply _ | | intros; apply IH].
  destruct (parse c); [|apply preserves_ret, _]. destruct (buildStatsUpdateSQL d); [apply preserves_ret, _|].
  apply preserves_ignore; [apply _|]. unfold updateStats. apply preserves_exec; [apply _ | |]; intros; by apply table_grows_same.
Qed.

Lemma preserves_writeBatch events : preserves table_grows (writeCardStateBatch parse pgxConn events).
Proof.
  unfold writeCardStateBatch. cbv zeta. apply preserves_if; [apply preserves_ret, _|].
  apply preserves_bind; [apply _ | | intros; apply preserves_updateCounters].
  apply preserves_if; [apply preserves_ret, _ | apply preserves_flushCopy].
Qed.

Lemma flush_grows w : table_grows (wr_sys w) (wr_sys (flush parse pgxConn w)).
Proof. unfold flush. destruct (wr_batch w) as [|e l] eqn:E; [done | apply preserves_writeBatch]. Qed.

Lemma writerStep_grows cfg w c : table_grows (wr_sys w) (wr_sys (writerStep parse pgxConn cfg w c)).
Proof.
  unfold writerStep. destruct (wr_returned w); [done|]. destruct c as [ev| | |]; try apply flush_grows.
  cbv zeta. destruct (_ <=? _); [|done]. apply (flush_grows {| wr_sys := wr_sys w; wr_batch := _; wr_returned := _ |}).
Qed.

(** The state history is append-only.  Whatever events arrive, however they are batched and whatever
    statements fail -- COPY refused and replaced by INSERT included -- a run of the writer only appends
    rows: rows already in the table stay, unchanged and in place, and the primary key (card, campaign,
    transition number) stays unique. *)
Theorem state_history_append_only cfg y cases :
  table_grows y (wr_sys (RunCardStateWriter parse pgxConn cfg y cases)).
Proof.
  unfold RunCardStateWriter. change y with (wr_sys {| wr_sys := y; wr_batch := []; wr_returned := false |}) at 1.
  generalize {| wr_sys := y; wr_batch := []; wr_returned := false |}.
  induction cases as [|c cases IH]; intros w; cbn [foldl]; [done|].
  etrans; [apply writerStep_grows | apply IH].
Qed.

End Growth.

(** ** Counters *)

Definition dplus (a b : statsDelta) : statsDelta :=
  {| d_pending := d_pending a + d_pending b; d_inProgress := d_inProgress a + d_inProgress b;
     d_completed := d_completed a + d_completed b; d_failed := d_failed a + d_failed b;
     d_skipped := d_skipped a + d_skipped b |}.

Definition addRow (row : CampaignStatsRow.t) (d : statsDelta) : CampaignStatsRow.t :=
  {| CampaignStatsRow.Total := CampaignStatsRow.Total row;
     CampaignStatsRow.Pending := CampaignStatsRow.Pending row + d_pending d;
     CampaignStatsRow.InProgress := CampaignStatsRow.InProgress row + d_inProgress d;
     CampaignStatsRow.Completed := CampaignStatsRow.Completed row + d_completed d;
     CampaignStatsRow.Failed := CampaignStatsRow.Failed row + d_failed d;
     CampaignStatsRow.Skipped := CampaignStatsRow.Skipped row + d_skipped d |}.

Lemma dplus_assoc a b c : dplus (dplus a b) c = dplus a (dplus b c).
Proof. unfold dplus. cbn. f_equal; lia. Qed.
Lemma dplus_comm a b : dplus a b = dplus b a.
Proof. unfold dplus. f_equal; lia. Qed.
Lemma dplus_zero_r d : dplus d zeroDelta = d.
Proof. destruct d. unfold dplus, zeroDelta. cbn. f_equal; lia. Qed.
Lemma dplus_zero_l d : dplus zeroDelta d = d.
Proof. by destruct d. Qed.
Lemma addRow_zero row : addRow row zeroDelta = row.
Proof. destruct row. unfold addRow. cbn. f_equal; lia. Qed.
Lemma addRow_plus row a b : addRow (addRow row a) b = addRow row (dplus a b).
Proof. unfold addRow, dplus. cbn. f_equal; lia. Qed.

Lemma filter_nonzero col z (l : list (string * Z)) :
  filter (fun cv => snd cv <> 0) ((col, z) :: l)
  = if z =? 0 then filter (fun cv => snd cv <> 0) l else (col, z) :: filter (fun cv => snd cv <> 0) l.
Proof.
  rewrite filter_cons. destruct (z =? 0) eqn:E; [rewrite decide_False | rewrite decide_True]; cbn; [done | lia | done | lia].
Qed.

(** The delta of a single column. *)
Definition colDelta (col : string) (v : Z) : statsDelta :=
  let at_ c := if bool_decide (col = c) then v else 0 in
  {| d_pending := at_ "pending"; d_inProgress := at_ "in_progress"; d_completed := at_ "completed";
     d_failed := at_ "failed"; d_skipped := at_ "skipped" |}.

Lemma addColumn_delta row col v : addColumn row (col, v) = addRow row (colDelta col v).
Proof. unfold addColumn, addRow, colDelta. cbn. f_equal; case_bool_decide; lia. Qed.

Lemma foldl_nonzero row col z l :
  foldl addColumn row (filter (fun cv => snd cv <> 0) ((col, z) :: l))
  = foldl addColumn (addRow row (colDelta col z)) (filter (fun cv => snd cv <> 0) l).
Proof.
  rewrite filter_nonzero. destruct (z =? 0) eqn:E; [|cbn [foldl]; by rewrite addColumn_delta].
  apply Z.eqb_eq in E as ->. f_equal. assert (Hz : colDelta col 0 = zeroDelta).
  { unfold colDelta, zeroDelta. f_equal; by case_bool_decide. }
  by rewrite Hz, addRow_zero.
Qed.

Lemma buildStats_adds row d : foldl addColumn row (buildStatsUpdateSQL d) = addRow row d.
Proof.
  unfold buildStatsUpdateSQL. rewrite !foldl_nonzero, filter_nil, !addRow_plus. cbn [foldl]. f_equal.
  destruct d as [p i c f s]. unfold dplus, colDelta. cbn [d_pending d_inProgress d_completed d_failed d_skipped].
  f_equal; repeat case_bool_decide; try congruence; lia.
Qed.

Lemma applyDelta_plus d status adj : applyDelta d status adj = dplus d (applyDelta zeroDelta status adj).
Proof.
  unfold applyDelta. cbv zeta. destruct d, (bool_decide _); [unfold dplus; cbn; f_equal; lia|].
  repeat (destruct (bool_decide _); [unfold dplus; cbn; f_equal; lia|]). unfold dplus. cbn. f_equal; lia.
Qed.

(** What one event adds to the counters of its campaign. *)
Definition evDelta (ev : CardStateChange.t) : statsDelta :=
  dplus (applyDelta zeroDelta (CardStateChange.StatsFrom ev) (-1))
        (applyDelta zeroDelta (CardStateChange.StatsTo ev) 1).

(** The sum over the events of a campaign. *)
Fixpoint netDelta (campaign : string) (events : list CardStateChange.t) : statsDelta :=
  match events with
  | [] => zeroDelta
  | ev :: events =>
      dplus (if bool_decide (CardStateChange.CampaignID ev = campaign) then evDelta ev else zeroDelta)
            (netDelta campaign events)
  end.

Lemma netDelta_app c l1 l2 : netDelta c (l1 ++ l2) = dplus (netDelta c l1) (netDelta c l2).
Proof.
  induction l1 as [|ev l1 IH]; cbn [app netDelta]; [by rewrite dplus_zero_l | by rewrite IH, dplus_assoc].
Qed.

Lemma addDeltas_lookup m ev c :
  default zeroDelta (addDeltas m ev !! c)
  = dplus (default zeroDelta (m !! c))
          (if bool_decide (CardStateChange.CampaignID ev = c) then evDelta ev else zeroDelta).
Proof.
  unfold addDeltas. case_bool_decide as H0.
  - assert (Hz : evDelta ev = zeroDelta) by (destruct H0 as [H1 H2]; unfold evDelta; by rewrite H1, H2).
    rewrite Hz. by destruct (bool_decide _); rewrite dplus_zero_r.
  - case_bool_decide as Hc; [|by rewrite lookup_insert_ne, dplus_zero_r].
    rewrite Hc, lookup_insert_eq. cbn [default]. rewrite applyDelta_plus, (applyDelta_plus (default _ _)).
    by rewrite dplus_assoc.
Qed.

Lemma deltasOf_net events c : default zeroDelta (deltasOf events !! c) = netDelta c events.
Proof.
  induction events as [|ev events IH] using rev_ind; [done|].
  unfold deltasOf in *. rewrite foldl_app. cbn [foldl]. rewrite addDeltas_lookup, IH, netDelta_app.
  cbn [netDelta]. by rewrite dplus_zero_r.
Qed.

Lemma deltasOf_campaign events c d : deltasOf events !! c = Some d -> exists ev, ev ∈ events /\ CardStateChange.CampaignID ev = c.
Proof.
  revert d. induction events as [|ev events IH] using rev_ind; intros d; [done|].
  unfold deltasOf in *. rewrite foldl_app. cbn [foldl]. unfold addDeltas at 1.
  destruct (bool_decide _); [intros H; destruct (IH _ H) as (e & He & Hc); exists e; set_solver|].
  destruct (decide (CardStateChange.CampaignID ev = c)) as [<-|Hne]; [intros _; exists ev; set_solver|].
  rewrite lookup_insert_ne by done. intros H. destruct (IH _ H) as (e & He & Hc). exists e. set_solver.
Qed.

(** No statement fails. *)
Definition faultless (y : Sys) : Prop := forall n, sys_fault y n = None.

(** [y'] is faultless like [y] and its counters are those of [y] plus [net]. *)
Definition counts (y y' : Sys) (net : string -> statsDelta) : Prop :=
  faultless y' /\
  forall c, campaign_stats (db y') !! c = (fun row => addRow row (net c)) <$> campaign_stats (db y) !! c.

Lemma counts_same y y' :
  faultless y' -> campaign_stats (db y') = campaign_stats (db y) -> counts y y' (fun _ => zeroDelta).
Proof.
  intros Hf Hs. split; [done|]. intros c. rewrite Hs. destruct (_ !! c); [cbn; by rewrite addRow_zero | done].
Qed.

Lemma counts_trans y1 y2 y3 n1 n2 :
  counts y1 y2 n1 -> counts y2 y3 n2 -> counts y1 y3 (fun c => dplus (n1 c) (n2 c)).
Proof.
  intros [_ H1] [Hf H2]. split; [done|]. intros c. rewrite H2, H1, <- option_fmap_compose.
  destruct (_ !! c); [cbn; by rewrite addRow_plus | done].
Qed.

Lemma counts_ext y y' n n' : (forall c, n c = n' c) -> counts y y' n -> counts y y' n'.
Proof. intros He [Hf H]. split; [done|]. intros c. by rewrite H, He. Qed.

Section Counting.
Context (parse : string -> option string) (pgxConn : bool).

Lemma exec_run f y :
  faultless y -> exec f y = (Ok tt, set_db (f (db y)) (set_tick (Datatypes.S (tick y)) y)).
Proof. intros Hf. unfold exec, bindM, ask. cbn. by rewrite Hf. Qed.

Lemma query_run {A} (f : Database -> A) y :
  faultless y -> query f y = (Ok (f (db y)), set_tick (Datatypes.S (tick y)) y).
Proof. intros Hf. unfold query, bindM, ask. cbn. by rewrite Hf. Qed.

(** Writing rows leaves the counters and succeeds. *)
Lemma insertChunks_run pieces y :
  faultless y -> exists y', insertChunks pieces y = (Ok tt, y') /\ faultless y' /\
    campaign_stats (db y') = campaign_stats (db y) /\
    card_execution_states (db y') = foldl insertRow (card_execution_states (db y)) (concat pieces).
Proof.
  revert y. induction pieces as [|c pieces IH]; intros y Hf; cbn [insertChunks]; [by exists y|].
  rewrite (run_bind _ _ _ _ _ (exec_run _ _ Hf)). set (y1 := set_db _ _).
  destruct (IH y1) as (y' & Hrun & Hf' & Hs & Ht); [exact Hf|]. exists y'. split; [exact Hrun|]. split; [done|].
  split; [exact Hs|]. rewrite Ht. cbn [concat]. rewrite foldl_app. reflexivity.
Qed.

Lemma foldl_insertRow_fresh rows t :
  NoDup (rowKey <$> t ++ rows) -> foldl insertRow t rows = t ++ rows.
Proof.
  revert t. induction rows as [|r rows IH]; intros t Hnd; cbn [foldl]; [by rewrite app_nil_r|].
  unfold insertRow at 2. rewrite bool_decide_false.
  - rewrite IH; rewrite <- app_assoc; done.
  - rewrite fmap_app, fmap_cons in Hnd. apply NoDup_app in Hnd as (_ & Hd & _). intros Hin.
    apply (Hd _ Hin). by left.
Qed.

Lemma flushCopy_run rows y :
  faultless y -> exists y', flushCardStatesCopy pgxConn rows y = (Ok tt, y') /\ faultless y' /\
    campaign_stats (db y') = campaign_stats (db y) /\
    card_execution_states (db y') = foldl insertRow (card_execution_states (db y)) rows.
Proof.
  intros Hf. unfold flushCardStatesCopy.
  assert (Hins : forall y0, faultless y0 -> exists y', flushCardStatesFallback rows y0 = (Ok tt, y') /\ faultless y' /\
    campaign_stats (db y') = campaign_stats (db y0) /\
    card_execution_states (db y') = foldl insertRow (card_execution_states (db y0)) rows).
  { intros y0 H0. destruct (insertChunks_run (chunks maxRows rows) y0 H0) as (y' & H1 & H2 & H3 & H4).
    exists y'. split; [exact H1|]. rewrite H4, concat_chunks by (change maxRows with (Z.to_nat 6553); lia). done. }
  rewrite (run_bind _ _ _ _ _ (run_wrap _ _ _ _ _ (query_run _ _ Hf))).
  set (y1 := set_tick _ y). assert (Hf1 : faultless y1) by exact Hf.
  rewrite (run_bind _ _ _ _ _ (run_wrap _ _ _ _ _ (query_run _ _ Hf1))).
  set (y2 := set_tick _ y1). assert (Hf2 : faultless y2) by exact Hf.
  destruct pgxConn; cbn [negb]; [|exact (Hins y2 Hf2)].
  unfold bindM at 1, try, copyFrom. rewrite (run_bind _ _ _ _ _ (query_run _ _ Hf2)).
  case_bool_decide as Hnd; [|cbn [merr]; exact (Hins (set_tick (Datatypes.S (tick y2)) y2) Hf2)].
  cbn [modify]. eexists. split; [reflexivity|]. split; [exact Hf|]. split; [done|].
  rewrite foldl_insertRow_fresh; [done | exact Hnd].
Qed.

Lemma updateCounters_run l y :
  faultless y -> NoDup l.*1 -> Forall (fun c => parse c = Some c) l.*1 ->
  exists y', updateCounters parse l y = (Ok tt, y') /\
    counts y y' (fun c => default zeroDelta ((list_to_map l : gmap string statsDelta) !! c)) /\
    card_execution_states (db y') = card_execution_states (db y).
Proof.
  revert y. induction l as [|[c d] l IH]; intros y Hf Hnd Hp; cbn [updateCounters].
  { exists y. split; [done|]. split; [by apply (counts_same y y) | done]. }
  cbn [fmap list_fmap fst] in Hnd, Hp. apply NoDup_cons in Hnd as [Hnin Hnd]. apply Forall_cons in Hp as [Hc Hp].
  rewrite Hc.
  assert (Hstep : exists y1, (match buildStatsUpdateSQL d with
      | [] => ret tt | sets => ignore (updateStats c sets) end) y = (Ok tt, y1) /\
      counts y y1 (fun c' => if bool_decide (c' = c) then d else zeroDelta) /\
      card_execution_states (db y1) = card_execution_states (db y)).
  { pose proof (buildStats_adds) as Hadd. destruct (buildStatsUpdateSQL d) as [|s0 sets] eqn:E.
    - exists y. split; [done|]. split; [|done]. split; [done|]. intros c'. destruct (campaign_stats _ !! c') as [row|] eqn:Er; [|done].
      cbn. f_equal. case_bool_decide; [|by rewrite addRow_zero]. specialize (Hadd row d). by rewrite E in Hadd.
    - eexists. split; [eapply run_ignore; [apply (exec_run _ _ Hf) | done]|]. split; [|done]. split; [exact Hf|].
      intros c'. cbn. case_bool_decide as Hcc; [subst c'; rewrite lookup_alter_eq|].
      + destruct (campaign_stats _ !! c) as [row|]; [|done]. cbn [fmap option_fmap option_map]. f_equal.
        specialize (Hadd row d). rewrite E in Hadd. exact Hadd.
      + rewrite lookup_alter_ne by done. destruct (campaign_stats _ !! c'); [cbn; by rewrite addRow_zero | done]. }
  destruct Hstep as (y1 & Hrun1 & Hc1 & Ht1). rewrite (run_bind _ _ _ _ _ Hrun1).
  destruct (IH y1) as (y' & Hrun & Hc2 & Ht2); [apply Hc1 | done | done |].
  exists y'. split; [exact Hrun|]. split; [|by rewrite Ht2].
  eapply counts_ext; [|exact (counts_trans _ _ _ _ _ Hc1 Hc2)]. intros c'. cbn [list_to_map foldr].
  case_bool_decide as Hcc.
  - subst c'. rewrite lookup_insert_eq, not_elem_of_list_to_map_1 by done. cbn. apply dplus_zero_r.
  - rewrite lookup_insert_ne by done. by rewrite dplus_zero_l.
Qed.

(** A batch: the rows of the latest events, and the sum of all transitions. *)
Lemma writeBatch_run events y :
  faultless y -> Forall (fun ev => parse (CardStateChange.CampaignID ev) = Some (CardStateChange.CampaignID ev)) events ->
  exists y', writeCardStateBatch parse pgxConn events y = (Ok tt, y') /\
    counts y y' (fun c => netDelta c events) /\
    card_execution_states (db y')
    = foldl insertRow (card_execution_states (db y)) (omap (copyRow parse) (map_to_list (latestOf events)).*2).
Proof.
  intros Hf Hp. unfold writeCardStateBatch. cbv zeta. set (rows := omap _ _).
  destruct (bool_decide (rows = []) && bool_decide (deltasOf events = ∅)) eqn:E.
  { apply andb_true_iff in E as [E1%bool_decide_eq_true E2%bool_decide_eq_true].
    exists y. rewrite E1. split; [done|]. split; [|done].
    eapply counts_ext; [|by apply (counts_same y y)]. intros c. rewrite <- deltasOf_net, E2. by rewrite lookup_empty. }
  assert (Hrows : exists y1, (if bool_decide (rows = []) then ret tt else flushCardStatesCopy pgxConn rows) y = (Ok tt, y1) /\
    faultless y1 /\ campaign_stats (db y1) = campaign_stats (db y) /\
    card_execution_states (db y1) = foldl insertRow (card_execution_states (db y)) rows).
  { case_bool_decide as Hr; [exists y; by rewrite Hr | by apply flushCopy_run]. }
  destruct Hrows as (y1 & Hrun1 & Hf1 & Hs1 & Ht1). rewrite (run_bind _ _ _ _ _ Hrun1).
  destruct (updateCounters_run (map_to_list (deltasOf events)) y1 Hf1) as (y' & Hrun & Hc & Ht).
  - apply NoDup_fst_map_to_list.
  - rewrite Forall_forall in Hp. apply Forall_forall. intros c Hc. apply list_elem_of_fmap in Hc as ([c' d] & -> & Hin).
    apply elem_of_map_to_list, deltasOf_campaign in Hin as (ev & Hev & <-). by apply Hp.
  - exists y'. split; [exact Hrun|]. split; [|by rewrite Ht].
    pose proof (counts_trans _ _ _ _ _ (counts_same y y1 Hf1 Hs1) Hc) as H. eapply counts_ext; [|exact H].
    intros c. cbn beta. rewrite dplus_zero_l, list_to_map_to_list. apply deltasOf_net.
Qed.


(** ** The whole run *)

(** The events received before the loop returns, and whether it returns. *)
Fixpoint received (cases : list select_case) : list CardStateChange.t :=
  match cases with
  | Recv ev :: cases => ev :: received cases
  | Tick :: cases => received cases
  | _ => []
  end.

Definition canonical (ev : CardStateChange.t) : Prop :=
  parse (CardStateChange.CampaignID ev) = Some (CardStateChange.CampaignID ev).

Definition ends (c : select_case) : bool := match c with Closed | Done => true | _ => false end.

Lemma flush_run w :
  faultless (wr_sys w) -> Forall canonical (wr_batch w) ->
  counts (wr_sys w) (wr_sys (flush parse pgxConn w)) (fun c => netDelta c (wr_batch w)) /\
  wr_batch (flush parse pgxConn w) = [] /\ wr_returned (flush parse pgxConn w) = wr_returned w.
Proof.
  intros Hf Hp. unfold flush. destruct (wr_batch w) as [|ev b] eqn:E.
  - split; [by apply counts_same | by rewrite E].
  - destruct (writeBatch_run (ev :: b) (wr_sys w) Hf Hp) as (y' & Hrun & Hc & _). cbn [wr_sys wr_batch wr_returned].
    by rewrite Hrun.
Qed.

Lemma returned_stays cfg cases w :
  wr_returned w = true -> foldl (writerStep parse pgxConn cfg) w cases = w.
Proof. intros H. induction cases as [|c cases IH]; [done|]. cbn [foldl]. unfold writerStep at 2. by rewrite H. Qed.

Lemma run_counts cfg cases w :
  faultless (wr_sys w) -> wr_returned w = false -> Forall canonical (wr_batch w ++ received cases) ->
  existsb ends cases = true ->
  let w' := foldl (writerStep parse pgxConn cfg) w cases in
  wr_returned w' = true /\ wr_batch w' = [] /\
  counts (wr_sys w) (wr_sys w') (fun c => netDelta c (wr_batch w ++ received cases)).
Proof.
  revert w. induction cases as [|c cases IH]; intros w Hf Hr Hp He; [done|]. cbn [foldl].
  (* one flush, then the rest *)
  assert (Hflush : forall w1, wr_returned w1 = false -> faultless (wr_sys w1) -> existsb ends cases = true ->
    Forall canonical (wr_batch w1 ++ received cases) ->
    let w' := foldl (writerStep parse pgxConn cfg) (flush parse pgxConn w1) cases in
    wr_returned w' = true /\ wr_batch w' = [] /\
    counts (wr_sys w1) (wr_sys w') (fun c => netDelta c (wr_batch w1 ++ received cases))).
  { intros w1 Hr1 Hf1 He1 Hp1. apply Forall_app in Hp1 as [Hp1 Hp2].
    destruct (flush_run w1 Hf1 Hp1) as (Hc & Hb & Hrw).
    destruct (IH (flush parse pgxConn w1)) as (H1 & H2 & H3); [apply Hc | by rewrite Hrw | by rewrite Hb | done |].
    split; [done|]. split; [done|]. eapply counts_ext; [|exact (counts_trans _ _ _ _ _ Hc H3)].
    intros c'. by rewrite (netDelta_app c' (wr_batch w1)), Hb. }
  assert (Hend : forall c', ends c' = true -> writerStep parse pgxConn cfg w c' = returning (flush parse pgxConn w))
    by (intros [] Hc'; unfold writerStep; rewrite Hr; done).
  destruct c as [ev| | |]; cbn [received existsb ends orb] in *.
  - set (w1 := {| wr_sys := wr_sys w; wr_batch := wr_batch w ++ [ev]; wr_returned := false |}).
    assert (Hw1 : writerStep parse pgxConn cfg w (Recv ev)
                  = if MaxBatch cfg <=? zlen (wr_batch w1) then flush parse pgxConn w1 else w1)
      by (unfold writerStep; by rewrite Hr).
    assert (Hb : wr_batch w ++ ev :: received cases = wr_batch w1 ++ received cases)
      by (cbn; by rewrite <- app_assoc).
    rewrite Hw1. rewrite Hb in Hp |- *.
    destruct (MaxBatch cfg <=? zlen (wr_batch w1)); [by apply (Hflush w1) | by apply (IH w1)].
  - rewrite (Hend Closed eq_refl), returned_stays by done. rewrite app_nil_r in *.
    by destruct (flush_run w Hf Hp) as (Hc & Hb1 & Hr1).
  - assert (Hw1 : writerStep parse pgxConn cfg w Tick = flush parse pgxConn w)
      by (unfold writerStep; by rewrite Hr). rewrite Hw1. by apply Hflush.
  - rewrite (Hend Done eq_refl), returned_stays by done. rewrite app_nil_r in *.
    by destruct (flush_run w Hf Hp) as (Hc & Hb1 & Hr1).
Qed.

Lemma RunCardStateWriter_counts cfg y cases :
  faultless y -> Forall canonical (received cases) -> existsb ends cases = true ->
  let w := RunCardStateWriter parse pgxConn cfg y cases in
  wr_returned w = true /\ wr_batch w = [] /\ counts y (wr_sys w) (fun c => netDelta c (received cases)).
Proof.
  intros Hf Hp He. apply (run_counts cfg cases {| wr_sys := y; wr_batch := []; wr_returned := false |}); done.
Qed.


(** The cards a row accounts for. *)
Definition row_cards (row : CampaignStatsRow.t) : Z :=
  CampaignStatsRow.Pending row + CampaignStatsRow.InProgress row + CampaignStatsRow.Completed row +
  CampaignStatsRow.Failed row + CampaignStatsRow.Skipped row.

Definition delta_cards (d : statsDelta) : Z :=
  d_pending d + d_inProgress d + d_completed d + d_failed d + d_skipped d.

Lemma applyDelta_cards d status adj :
  statusColumn status <> "" -> delta_cards (applyDelta d status adj) = delta_cards d + adj.
Proof.
  unfold applyDelta, statusColumn, delta_cards. intros H. repeat case_bool_decide; cbn; try congruence; lia.
Qed.

Lemma netDelta_cards c events :
  Forall (fun ev => statusColumn (CardStateChange.StatsFrom ev) <> "" /\ statusColumn (CardStateChange.StatsTo ev) <> "") events ->
  delta_cards (netDelta c events) = 0.
Proof.
  induction 1 as [|ev events [H1 H2] _ IH]; [done|]. cbn [netDelta].
  assert (Hz : delta_cards (evDelta ev) = 0).
  { unfold evDelta. rewrite <- applyDelta_plus. by rewrite !applyDelta_cards. }
  destruct (bool_decide _); unfold delta_cards, dplus in *; cbn in *; lia.
Qed.

(** No card is lost from the counters.  When every event moves a card between two known statuses, a run
    without database errors leaves the number of cards a campaign accounts for unchanged. *)
Theorem counters_conserve_cards cfg y cases campaign row :
  faultless y -> Forall canonical (received cases) -> existsb ends cases = true ->
  Forall (fun ev => statusColumn (CardStateChange.StatsFrom ev) <> "" /\
                    statusColumn (CardStateChange.StatsTo ev) <> "") (received cases) ->
  campaign_stats (db y) !! campaign = Some row ->
  exists row', campaign_stats (db (wr_sys (RunCardStateWriter parse pgxConn cfg y cases))) !! campaign = Some row' /\
               row_cards row' = row_cards row /\ CampaignStatsRow.Total row' = CampaignStatsRow.Total row.
Proof.
  intros Hf Hp He Hst Hrow. destruct (RunCardStateWriter_counts cfg y cases Hf Hp He) as (_ & _ & _ & H3).
  eexists. rewrite H3, Hrow. split; [reflexivity|]. split; [|done].
  pose proof (netDelta_cards campaign _ Hst) as Hz. unfold row_cards, delta_cards in *. cbn. lia.
Qed.

End Counting.

(** ** Reading back *)

Lemma latestRow_in card rows r : Coordination.latestRow card rows = Some r -> r ∈ rows /\ CardExecutionState.CardID r = card.
Proof.
  revert r. induction rows as [|r0 rows IH]; intros r; cbn [Coordination.latestRow]; [done|].
  case_bool_decide as Hc.
  - destruct (Coordination.latestRow card rows) as [b|].
    + destruct (_ <? _); intros [= <-]; [|split; [by left | done]].
      destruct (IH b eq_refl). split; [by right | done].
    + intros [= <-]. split; [by left | done].
  - intros H. destruct (IH _ H). split; [by right | done].
Qed.

Lemma latestRow_max card rows r :
  r ∈ rows -> CardExecutionState.CardID r = card ->
  (forall r', r' ∈ rows -> CardExecutionState.CardID r' = card ->
     r' = r \/ CardExecutionState.TransitionSeq r' < CardExecutionState.TransitionSeq r) ->
  Coordination.latestRow card rows = Some r.
Proof.
  induction rows as [|r0 rows IH]; intros Hin Hc Hmax; [by apply not_elem_of_nil in Hin|].
  cbn [Coordination.latestRow].
  assert (Hrest : r ∈ rows -> Coordination.latestRow card rows = Some r)
    by (intros H; apply IH; [done | done | intros r' Hr'; apply Hmax; by right]).
  destruct (Coordination.latestRow card rows) as [b|] eqn:E.
  - destruct (latestRow_in _ _ _ E) as [Hb Hbc].
    destruct (Hmax b ltac:(by right) Hbc) as [-> | Hlt].
    + case_bool_decide as H0; [|done]. destruct (_ <? _) eqn:El; [done|].
      destruct (Hmax r0 ltac:(by left) H0) as [->|]; [done | lia].
    + apply elem_of_cons in Hin as [<- | Hin]; [|by specialize (Hrest Hin) as [= ->]; lia].
      rewrite bool_decide_true by done. by rewrite (proj2 (Z.ltb_ge _ _)) by lia.
  - apply elem_of_cons in Hin as [<- | Hin]; [|by specialize (Hrest Hin)]. by rewrite bool_decide_true.
Qed.

Lemma insertRow_elem t r x : x ∈ insertRow t r -> x ∈ t \/ x = r.
Proof. unfold insertRow. case_bool_decide; [by left|]. rewrite elem_of_app, list_elem_of_singleton. tauto. Qed.

Lemma foldl_insertRow_elem rows t x : x ∈ foldl insertRow t rows -> x ∈ t \/ x ∈ rows.
Proof.
  revert t. induction rows as [|r rows IH]; intros t; cbn [foldl]; [by left|].
  intros [H|H]%IH; [|right; by right]. apply insertRow_elem in H as [H| ->]; [by left | right; by left].
Qed.

Lemma foldl_insertRow_key rows t r : r ∈ rows -> rowKey r ∈ rowKey <$> foldl insertRow t rows.
Proof.
  revert t. induction rows as [|r0 rows IH]; intros t Hin; [by apply not_elem_of_nil in Hin|].
  cbn [foldl]. apply elem_of_cons in Hin as [<- | Hin]; [|by apply IH].
  assert (H0 : rowKey r ∈ rowKey <$> insertRow t r).
  { unfold insertRow. case_bool_decide; [done|]. rewrite fmap_app, elem_of_app. right. by left. }
  destruct (foldl_insertRow_grows rows (insertRow t r)) as [[new ->] _]. rewrite fmap_app, elem_of_app. by left.
Qed.

Lemma copyRow_inv parse ev r :
  parse (CardStateChange.CardID ev) = Some (CardStateChange.CardID ev) -> canonical parse ev ->
  copyRow parse ev = Some r ->
  rowKey r = (CardStateChange.CardID ev, CardStateChange.CampaignID ev, CardStateChange.TransitionSeq ev).
Proof. unfold copyRow, canonical. intros -> -> [= <-]. done. Qed.

Lemma latestOf_unique events ev :
  ev ∈ events -> (forall ev', ev' ∈ events -> keyOf ev' = keyOf ev -> ev' = ev \/ ~ not_newer ev ev') ->
  latestOf events !! keyOf ev = Some ev.
Proof.
  intros Hin Hmax. pose proof (latestOf_spec events (keyOf ev)) as H.
  destruct (latestOf events !! keyOf ev) as [best|]; [|by destruct (H ev Hin)].
  destruct H as (Hb & Hk & Hall). destruct (Hmax best Hb Hk) as [-> | Hn]; [done|].
  destruct Hn. by apply Hall.
Qed.

(** C32: what was written last is read back.  When a batch holds the newest transition of a card, newer than
    every row the table has for it, then after a batch write without database errors the coordination
    store finds exactly the state of that transition: a restarted engine resumes where the card was. *)
Theorem written_state_read_back parse pgxConn events ev row y :
  faultless y -> ev ∈ events ->
  Forall (fun e => parse (CardStateChange.CardID e) = Some (CardStateChange.CardID e) /\ canonical parse e) events ->
  copyRow parse ev = Some row ->
  (forall r, r ∈ card_execution_states (db y) -> CardExecutionState.CardID r = CardStateChange.CardID ev ->
     CardExecutionState.TransitionSeq r < CardStateChange.TransitionSeq ev) ->
  (forall e, e ∈ events -> CardStateChange.CardID e = CardStateChange.CardID ev ->
     e = ev \/ CardStateChange.TransitionSeq e < CardStateChange.TransitionSeq ev) ->
  exists y1 y2, writeCardStateBatch parse pgxConn events y = (Ok tt, y1) /\
    Coordination.loadCardRow (CardStateChange.CardID ev) y1 = (Ok (Some (Coordination.rowState row)), y2).
Proof.
  intros Hf Hin Hp Hrow Hold Hnew. rewrite Forall_forall in Hp.
  destruct (writeBatch_run parse pgxConn events y Hf) as (y1 & Hrun & [Hf1 _] & Ht).
  { apply Forall_forall. intros e He. apply (proj2 (Hp e He)). }
  assert (Hkey : forall e r, e ∈ events -> copyRow parse e = Some r ->
    rowKey r = (CardStateChange.CardID e, CardStateChange.CampaignID e, CardStateChange.TransitionSeq e)).
  { intros e r He. destruct (Hp e He). by apply copyRow_inv. }
  pose proof (Hkey _ _ Hin Hrow) as Hrk. injection Hrk as Hc1 Hc2 Hc3.
  set (rows := omap (copyRow parse) (map_to_list (latestOf events)).*2) in *.
  assert (Hrows : forall r, r ∈ rows -> exists e, e ∈ events /\ copyRow parse e = Some r).
  { intros r Hr. apply list_elem_of_omap in Hr as (e & He & Hcr). apply list_elem_of_fmap in He as ([k e'] & -> & He).
    apply elem_of_map_to_list in He. pose proof (latestOf_spec events k) as Hsp. rewrite He in Hsp.
    exists e'. split; [apply Hsp | done]. }
  assert (Hr : row ∈ rows).
  { apply list_elem_of_omap. exists ev. split; [|done]. apply list_elem_of_fmap. exists (keyOf ev, ev).
    split; [done|]. apply elem_of_map_to_list, latestOf_unique; [done|].
    intros e He Hk. injection Hk as Hk1 _. destruct (Hnew e He Hk1) as [->|Hlt]; [by left|]. right. unfold not_newer. lia. }
  assert (Hmax : forall r', r' ∈ foldl insertRow (card_execution_states (db y)) rows ->
    CardExecutionState.CardID r' = CardStateChange.CardID ev ->
    r' = row \/ CardExecutionState.TransitionSeq r' < CardExecutionState.TransitionSeq row).
  { intros r' Hr' Hcard. apply foldl_insertRow_elem in Hr' as [Hr'|Hr']; [right; rewrite Hc3; by apply Hold|].
    destruct (Hrows r' Hr') as (e & He & Hcr). pose proof (Hkey _ _ He Hcr) as Hk. injection Hk as Hk1 Hk2 Hk3.
    destruct (Hnew e He ltac:(congruence)) as [->|Hlt]; [left; congruence | right; lia]. }
  assert (Hlatest : Coordination.latestRow (CardStateChange.CardID ev) (card_execution_states (db y1)) = Some row).
  { rewrite Ht. apply latestRow_max; [|done|done].
    pose proof (foldl_insertRow_key rows (card_execution_states (db y)) row Hr) as Hk.
    apply list_elem_of_fmap in Hk as (r' & Hk & Hr'). injection Hk as Hk1 Hk2 Hk3.
    destruct (Hmax r' Hr' ltac:(congruence)) as [->|]; [done | lia]. }
  exists y1. eexists. split; [exact Hrun|]. unfold Coordination.loadCardRow, bindM at 1, try, bindM at 1.
  rewrite (query_run _ _ Hf1), Hlatest. reflexivity.
Qed.

(** ** Transition numbers of activations *)

Lemma write_one parse pgxConn ev row y :
  faultless y -> canonical parse ev -> copyRow parse ev = Some row ->
  exists y', writeCardStateBatch parse pgxConn [ev] y = (Ok tt, y') /\ faultless y' /\
    card_execution_states (db y') = insertRow (card_execution_states (db y)) row.
Proof.
  intros Hf Hp Hrow. destruct (writeBatch_run parse pgxConn [ev] y Hf) as (y' & Hrun & [Hf' _] & Ht);
    [by constructor|].
  exists y'. split; [done|]. split; [done|]. rewrite Ht. unfold latestOf. cbn [foldl]. unfold keepLatest.
  rewrite lookup_empty, insert_empty, map_to_list_singleton. cbn [fmap list_fmap snd omap list_omap].
  by rewrite Hrow.
Qed.

Lemma insertRow_present t row row' : rowKey row' = rowKey row -> insertRow (insertRow t row) row' = insertRow t row.
Proof.
  intros Hk. unfold insertRow at 1. rewrite bool_decide_true; [done|]. rewrite Hk. unfold insertRow.
  case_bool_decide; [done|]. rewrite fmap_app, elem_of_app. right. by left.
Qed.

(** Only the first activation of a card reaches the table.  Every activation is written with transition
    number 1.  The state of a second one -- a later step, a retry -- therefore meets the primary key
    of the first and is dropped without an error: the table keeps the step and message id of
    the first activation. *)
Theorem second_activation_not_persisted parse pgxConn e1 e2 msg1 msg2 ts1 ts2 y :
  faultless y ->
  CardEvent.CardID e2 = CardEvent.CardID e1 -> CardEvent.CampaignID e2 = CardEvent.CampaignID e1 ->
  parse (CardEvent.CardID e1) = Some (CardEvent.CardID e1) ->
  parse (CardEvent.CampaignID e1) = Some (CardEvent.CampaignID e1) ->
  exists y1 y2, writeCardStateBatch parse pgxConn [activateChange e1 msg1 ts1] y = (Ok tt, y1) /\
    writeCardStateBatch parse pgxConn [activateChange e2 msg2 ts2] y1 = (Ok tt, y2) /\
    card_execution_states (db y2) = card_execution_states (db y1).
Proof.
  intros Hf Hcard Hcamp Hp1 Hp2.
  assert (Hrow : forall e msg ts, CardEvent.CardID e = CardEvent.CardID e1 ->
    CardEvent.CampaignID e = CardEvent.CampaignID e1 ->
    exists row, copyRow parse (activateChange e msg ts) = Some row /\
                rowKey row = (CardEvent.CardID e1, CardEvent.CampaignID e1, 1)).
  { intros e msg ts H1 H2. unfold copyRow. cbn. rewrite H1, H2, Hp1, Hp2. by eexists. }
  destruct (Hrow e1 msg1 ts1 eq_refl eq_refl) as (r1 & Hr1 & Hk1), (Hrow e2 msg2 ts2 Hcard Hcamp) as (r2 & Hr2 & Hk2).
  destruct (write_one parse pgxConn (activateChange e1 msg1 ts1) r1 y Hf Hp2 Hr1) as (y1 & Hrun1 & Hf1 & Ht1).
  assert (Hcan : canonical parse (activateChange e2 msg2 ts2)) by (unfold canonical; cbn; by rewrite Hcamp).
  destruct (write_one parse pgxConn _ r2 y1 Hf1 Hcan Hr2) as (y2 & Hrun2 & _ & Ht2).
  exists y1, y2. split; [done|]. split; [done|]. rewrite Ht2, Ht1. apply insertRow_present. congruence.
Qed.

(** ** Witnesses *)

Definition wit_change (seq : Z) (status from to_ : string) : CardStateChange.t := {|
  CardStateChange.CampaignID := "camp-1"; CardStateChange.CardID := "card-1"; CardStateChange.Status := status;
  CardStateChange.CurrentStep := 1; CardStateChange.RetryCount := 0; CardStateChange.LastMsgID := "msg-1";
  CardStateChange.LastSMPPID := ""; CardStateChange.LastError := ""; CardStateChange.LastErrCode := "";
  CardStateChange.Timestamp := 0; CardStateChange.TransitionSeq := seq;
  CardStateChange.StatsFrom := from; CardStateChange.StatsTo := to_ |}.

Definition wit_sys : Sys := quiet_sys {|
  campaigns := ∅; profiles_tbl := ∅; campaign_commands := []; cards := ∅; card_execution_states := [];
  campaign_stats := {[ "camp-1" := CampaignStatsRow.mk 10 10 0 0 0 0 ]} |}.

(** An activation and a completion, flushed one by one. *)
Definition wit_cases : list select_case :=
  [Recv (wit_change 1 "in_progress" "pending" "in_progress"); Tick;
   Recv (wit_change 2 "completed" "in_progress" "completed"); Closed].


Lemma counters_conserve_cards_witness :
  exists row', campaign_stats (db (wr_sys (RunCardStateWriter Some true {| MaxBatch := 1; FlushInterval := 2000 |}
                 wit_sys wit_cases))) !! "camp-1" = Some row' /\ row_cards row' = 10.
Proof.
  destruct (counters_conserve_cards Some true {| MaxBatch := 1; FlushInterval := 2000 |} wit_sys wit_cases
    "camp-1" (CampaignStatsRow.mk 10 10 0 0 0 0)) as (row' & H & Hc & _);
    [done | by repeat constructor | done | by repeat constructor | done |].
  exists row'. split; [exact H | exact Hc].
Defined.

Lemma written_state_read_back_witness :
  exists y1 y2, writeCardStateBatch Some true
      [wit_change 2 "completed" "in_progress" "completed"; wit_change 1 "in_progress" "pending" "in_progress"] wit_sys
      = (Ok tt, y1) /\
    Coordination.loadCardRow "card-1" y1 = (Ok (Some (CardState.mk "camp-1" 1 "completed" 0 "msg-1" "" 2)), y2).
Proof.
  apply (written_state_read_back Some true
    [wit_change 2 "completed" "in_progress" "completed"; wit_change 1 "in_progress" "pending" "in_progress"]
    (wit_change 2 "completed" "in_progress" "completed")
    (CardExecutionState.mk "card-1" "camp-1" "completed" 1 0 (Some "msg-1") "" "" 2 0) wit_sys);
    [done | by left | by repeat constructor | reflexivity | intros r Hr; by apply not_elem_of_nil in Hr |].
  intros e He _. apply elem_of_cons in He as [-> | He]; [by left | right]. apply list_elem_of_singleton in He as ->. done.
Defined.

(** Step 1, then step 2 of the same card. *)
Lemma second_activation_not_persisted_witness :
  exists y1 y2, writeCardStateBatch Some true [activateChange Scenario.activate "msg-1" 0] wit_sys = (Ok tt, y1) /\
    writeCardStateBatch Some true
      [activateChange (CardEvent.activate "ev-9" "card-1" "camp-1" 2 0 0) "msg-2" 5] y1 = (Ok tt, y2) /\
    card_execution_states (db y2) = card_execution_states (db y1).
Proof. apply (second_activation_not_persisted Some true); done. Defined.
