(* ===== verification/ProbeProps.v ===== *)
(** * What the probe SMSC promises

    The bodies it builds are what a receiver of SMPP 3.4 reads back, the loop over a connection handles exactly the PDUs that were
    sent, the capture store lists every captured message once, and a receipt asked for over HTTP reaches a client. *)

From S2P Require Import Prelude Effects Models Pipeline StateWriter StateWriterProps HexUtil ProbeSMSC.

(** ** deliver_sm, as SMPP 3.4 lays it out *)

(** A C-octet string and what follows it. *)
Fixpoint cstring (l : list Z) : option (list Z * list Z) :=
  match l with
  | [] => None
  | b :: l => if b =? 0 then Some ([], l) else '(s, r) ← cstring l; Some (b :: s, r)
  end.

(** short_message, or the message_payload parameter when sm_length is 0 and there is one. *)
Definition messageOf (l : list Z) : option (list Z) :=
  match l with
  | 0 :: 0x04 :: 0x24 :: hi :: lo :: payload =>
      if zlen payload <? 256 * hi + lo then None else Some (take (Z.to_nat (256 * hi + lo)) payload)
  | n :: text => if zlen text <? n then None else Some (take (Z.to_nat n) text)
  | [] => None
  end.

(** Source, destination, esm_class and message of a body. *)
Definition decodeDeliverSM (body : list Z) : option (list Z * list Z * Z * list Z) :=
  '(_, body) ← cstring body;
  match body with
  | _ :: _ :: body =>
      '(source, body) ← cstring body;
      match body with
      | _ :: _ :: body =>
          '(dest, body) ← cstring body;
          match body with
          | esm :: _ :: _ :: body =>
              '(_, body) ← cstring body;
              '(_, body) ← cstring body;
              message ← messageOf (drop 4 body);
              Some (source, dest, esm, message)
          | _ => None
          end
      | _ => None
      end
  | _ => None
  end.

Lemma cstring_app s l : 0 ∉ s -> cstring (s ++ 0 :: l) = Some (s, l).
Proof.
  induction s as [|b s IH]; intros Hs; [done|]. cbn. apply not_elem_of_cons in Hs as [Hb Hs].
  rewrite (proj2 (Z.eqb_neq b 0)) by congruence. by rewrite IH.
Qed.

Lemma be16_value n : 0 <= n < 65536 -> 256 * u8 (Z.shiftr n 8) + u8 n = n.
Proof.
  intros Hn. unfold u8. rewrite Z.shiftr_div_pow2 by lia. change (2 ^ 8) with 256.
  rewrite (Z.mod_small (n / 256)) by (split; [apply Z.div_pos | apply Z.div_lt_upper_bound]; lia). pose proof (Z.div_mod n 256). lia.
Qed.

Lemma decode_build source dest esm message :
  0 ∉ string_bytes source -> 0 ∉ string_bytes dest -> zlen message < 65536 ->
  decodeDeliverSM (buildDeliverSMBody source dest esm message) = Some (string_bytes source, string_bytes dest, esm, message).
Proof.
  intros Hs Hd Hm. unfold buildDeliverSMBody, decodeDeliverSM. cbn [app cstring]. cbn [Z.eqb mbind option_bind].
  rewrite (cstring_app _ _ Hs). cbn [mbind option_bind]. rewrite (cstring_app _ _ Hd). cbn -[messageOf Z.ltb u8 Z.shiftr].
  pose proof (zlen_nonneg message). destruct (254 <? zlen message) eqn:E.
  - cbn [app be16 messageOf]. change (u8 (Z.shiftr 1060 8)) with 4. change (u8 1060) with 36. cbn -[Z.ltb u8 Z.shiftr Z.mul Z.add].
    rewrite be16_value by lia. rewrite Z.ltb_irrefl. unfold zlen at 1. by rewrite Nat2Z.id, firstn_all.
  - apply Z.ltb_ge in E. assert (Hu : u8 (zlen message) = zlen message) by (unfold u8; apply Z.mod_small; lia). rewrite Hu.
    cbn [app]. assert (Hmsg : messageOf (zlen message :: message) = Some message); [|by rewrite drop_0, Hmsg].
    destruct message as [|b message]; [done|]. set (text := b :: message).
    assert (Hpos : 0 < zlen text) by (unfold zlen; cbn; lia). destruct (zlen text) as [|p|p] eqn:En; [lia| |lia].
    unfold messageOf. rewrite En, Z.ltb_irrefl. replace (Z.to_nat (Z.pos p)) with (length text) by (unfold zlen in En; lia).
    by rewrite firstn_all.
Qed.

(** A deliver_sm carries what it was built from.  For addresses without a NUL and messages below 64 KiB, a receiver that reads the body
    by the layout of SMPP 3.4 -- short_message or, above 254 bytes, the message_payload parameter -- gets back the two addresses,
    the esm_class and the message. *)
Theorem deliver_body_roundtrip source dest esm message :
  0 ∉ string_bytes source -> 0 ∉ string_bytes dest -> zlen message < 65536 ->
  decodeDeliverSM (buildDeliverSMBody source dest esm message) = Some (string_bytes source, string_bytes dest, esm, message).
Proof. apply decode_build. Qed.

(** From 64 KiB on the length is cut to sixteen bits: the receiver sees an empty message. *)
Lemma deliver_body_cut source dest esm message :
  0 ∉ string_bytes source -> 0 ∉ string_bytes dest -> zlen message = 65536 ->
  decodeDeliverSM (buildDeliverSMBody source dest esm message) = Some (string_bytes source, string_bytes dest, esm, []).
Proof.
  intros Hs Hd Hm. unfold buildDeliverSMBody, decodeDeliverSM. cbn [app cstring]. cbn [Z.eqb mbind option_bind].
  rewrite (cstring_app _ _ Hs). cbn [mbind option_bind]. rewrite (cstring_app _ _ Hd). rewrite Hm. cbn -[zlen]. by rewrite Hm.
Qed.

(** ** The stream of a connection *)

Section Probe.
Context {smpp : Smpp} {smpp_laws : SmppLaws}.
Context (rfc3339 shortDate : Z -> string) (iteration : gset nat -> list nat).

Lemma readPDU_encode p rest : wellFormed p -> readPDU (EncodePDU p ++ rest) = Some (p, rest).
Proof.
  intros Hp. destruct (encode_length p Hp) as (Hl & H16). unfold readPDU.
  assert (Hz : zlen (EncodePDU p ++ rest) = zlen (EncodePDU p) + zlen rest) by (unfold zlen; rewrite length_app; lia).
  pose proof (zlen_nonneg rest). rewrite Hz, take_app_le by (unfold zlen in H16; lia). rewrite Hl.
  rewrite !(proj2 (Z.ltb_ge _ _)) by lia. unfold zlen. rewrite Nat2Z.id, take_app_length, drop_app_length. by rewrite decode_encode.
Qed.

(** The PDUs in order, up to the one that ends the connection. *)
Fixpoint handleAll (conn : nat) (pdus : list PDU.t) : PM unit :=
  match pdus with
  | [] => ret tt
  | pdu :: pdus => do! go_on <- handlePDU rfc3339 conn pdu; if go_on : bool then handleAll conn pdus else ret tt
  end.

(** A stream of encoded PDUs, cut anywhere in the last one. *)
Lemma serveStream_pdus fuel conn pdus tail s :
  Forall wellFormed pdus -> (length (concat (EncodePDU <$> pdus)) < fuel)%nat -> readPDU tail = None ->
  serveStream rfc3339 fuel conn (concat (EncodePDU <$> pdus) ++ tail) s = handleAll conn pdus s.
Proof.
  intros Hwf Hfuel Htail. revert fuel s Hfuel. induction Hwf as [|p pdus Hp _ IH]; intros [|fuel] s Hfuel; cbn [concat fmap list_fmap app length] in *; try lia.
  - cbn [serveStream]. by rewrite Htail.
  - cbn [serveStream handleAll]. rewrite <- app_assoc, readPDU_encode by done. unfold bindM. destruct (handlePDU _ _ _ s) as [[[]| |] s1]; try done.
    apply IH. rewrite length_app in Hfuel. destruct (encode_length p Hp) as (_ & H16). unfold zlen in H16. lia.
Qed.

(** A connection is served PDU by PDU.  Of a stream that is a sequence of encoded PDUs followed by less than a whole one, the loop of handleConnection
    handles exactly these PDUs in their order, up to an unbind, and then leaves; the bytes it was given always suffice for the
    turns it needs. *)
Theorem stream_served_pdu_by_pdu conn pdus tail s :
  Forall wellFormed pdus -> zlen tail < 16 ->
  handleConnection rfc3339 conn (concat (EncodePDU <$> pdus) ++ tail) s = (do! _ <- handleAll conn pdus; unregister conn) s.
Proof.
  intros Hp Ht. unfold handleConnection, bindM. rewrite serveStream_pdus; [done | done | rewrite length_app; lia|].
  unfold readPDU. by rewrite (proj2 (Z.ltb_lt _ _) Ht).
Qed.

(** ** The capture store *)

(** One step of the server: a PDU handled, an HTTP request served, a connection coming or going. *)
Inductive pstep (s : ProbeServer) : ProbeServer -> Prop :=
  | step_pdu conn pdu : pstep s (snd (handlePDU rfc3339 conn pdu s))
  | step_register conn : pstep s (snd (register conn s))
  | step_unregister conn : pstep s (snd (unregister conn s))
  | step_stop : pstep s (snd (Stop s))
  | step_clear : pstep s (snd (clearCaptures s))
  | step_dlr body : pstep s (snd (postDLR shortDate iteration body s))
  | step_mo body : pstep s (snd (postMO iteration body s))
  | step_config body : pstep s (snd (postConfig body s)).

Definition idOf (n : Z) : string := "PROBE-" +:+ pretty n.

(** The ids listed are those of the captures, each once, and were all given out. *)
Record tidy (s : ProbeServer) : Prop := {
  ti_once : NoDup (order (pr_store s));
  ti_listed id : id ∈ order (pr_store s) <-> is_Some (captures (pr_store s) !! id);
  ti_keyed : map_Forall (fun id c => Capture.MessageID c = id) (captures (pr_store s));
  ti_given : Forall (fun id => exists n, 0 < n <= pr_seqNum s /\ id = idOf n) (order (pr_store s))
}.

(** Steps that leave the store alone and give out at most one number. *)
Definition numbers (s s' : ProbeServer) : Prop :=
  pr_store s' = pr_store s /\ (pr_seqNum s' = pr_seqNum s \/ pr_seqNum s' = (pr_seqNum s + 1) mod 2 ^ 32).

Definition same (s s' : ProbeServer) : Prop := pr_store s' = pr_store s /\ pr_seqNum s' = pr_seqNum s.
#[local] Instance same_preorder : PreOrder same.
Proof. split; [done|]. intros s1 s2 s3 [] []. split; congruence. Qed.

Lemma same_writePDU conn pdu : preserves same (writePDU conn pdu).
Proof.
  apply preserves_bind; [apply _ | by apply preserves_gets; apply _|]. intros conns. apply preserves_if; [by apply preserves_err; apply _|].
  apply preserves_bind; [apply _ | done|]. intros [e|]; [by apply preserves_err; apply _ | by apply preserves_modify].
Qed.

Lemma numbers_sendDeliverSM source dest esm payload s : numbers s (snd (sendDeliverSM iteration source dest esm payload s)).
Proof.
  unfold sendDeliverSM, bindM at 1, gets. destruct (iteration (pr_conns s)) as [|conn l]; [split; [done | by left]|].
  unfold bindM, nextSeq. set (s1 := set_pr_seqNum _ s). set (pdu := PDU.mk _ _ _ _). destruct (same_writePDU conn pdu s1) as [Hs Hq].
  destruct (writePDU conn pdu s1) as [[] s2]; cbn in *; (split; [done | right; exact Hq]).
Qed.

Lemma numbers_refl s : numbers s s.
Proof. split; [done | by left]. Qed.

(** What a request to emit a message does to the store: nothing. *)
Lemma numbers_sent {A} (m : PM A) (k : res A -> PM answer) s :
  numbers s (snd (m s)) -> (forall r s1, snd (k r s1) = s1) -> numbers s (snd ((do! r <- try m; k r) s)).
Proof. intros Hm Hk. unfold bindM, try. destruct (m s) as [[a|e|p] s1]; cbn in *; by rewrite ?Hk. Qed.

Lemma numbers_postDLR body s : numbers s (snd (postDLR shortDate iteration body s)).
Proof.
  unfold postDLR. destruct body as [e|req]; [apply numbers_refl|]. destruct (bool_decide _); [apply numbers_refl|].
  unfold bindM at 1, getCapture, gets. destruct (Get _ _) as [c|]; [|apply numbers_refl]. unfold bindM at 1, now, ask. cbn -[sendDeliverSM].
  set (s1 := set_pr_sys _ s). apply (numbers_sent (sendDeliverSM iteration _ _ _ _) _ s1); [apply (numbers_sendDeliverSM _ _ _ _ s1) | by intros []].
Qed.

Lemma numbers_postMO body s : numbers s (snd (postMO iteration body s)).
Proof.
  unfold postMO. destruct body as [e|req]; [apply numbers_refl|]. destruct (bool_decide _); [apply numbers_refl|].
  destruct (moPayload req) as [text|payload]; [apply numbers_refl|].
  apply numbers_sent; [apply numbers_sendDeliverSM | by intros []].
Qed.

(** A submitted message is added under the next number. *)
Lemma submit_adds conn pdu s :
  let n := (pr_seqNum s + 1) mod 2 ^ 32 in
  let s' := snd (handleSubmitSM rfc3339 conn pdu s) in
  pr_seqNum s' = n /\ exists c, Capture.MessageID c = idOf n /\ Capture.RawBody c = PDU.Body pdu /\ pr_store s' = Add c (pr_store s).
Proof.
  unfold handleSubmitSM. destruct (ParseDeliverSM (PDU.Body pdu)) as [source dest]. cbn zeta.
  set (n := (_ + 1) mod _). set (s0 := set_pr_seqNum n s). rewrite (run_bind nextSeq _ s n s0) by done.
  erewrite (run_bind now) by reflexivity. erewrite (run_bind (modify _)) by reflexivity. erewrite (run_bind (gets pr_config)) by reflexivity.
  set (s1 := set_pr_store _ _). set (k := if bool_decide _ then _ else _).
  assert (Hk : preserves same k).
  { unfold k. repeat apply preserves_if; try (apply preserves_ignore; [apply _ | apply same_writePDU]). by apply preserves_ret; apply _. }
  destruct (Hk s1) as [Hs Hn]. rewrite Hn, Hs. split; [done|]. by eexists (Capture.mk (idOf n) source dest (PDU.Body pdu) _ _).
Qed.

Lemma handlePDU_store conn pdu s :
  same s (snd (handlePDU rfc3339 conn pdu s)) \/ snd (handlePDU rfc3339 conn pdu s) = snd (handleSubmitSM rfc3339 conn pdu s).
Proof.
  assert (Ha : forall id st body (b : bool), same s (snd ((do! _ <- ignore (writePDU conn (PDU.mk id st (PDU.SequenceNumber pdu) body)); ret b) s))).
  { intros id st body b. apply preserves_bind; [apply _ | apply preserves_ignore; [apply _ | apply same_writePDU] | intros; by apply preserves_ret; apply _]. }
  unfold handlePDU. destruct (_ =? CmdBindTransceiver); [left; apply Ha|]. destruct (_ =? CmdSubmitSM).
  { right. unfold bindM. by destruct (handleSubmitSM _ _ _ s) as [[] ]. }
  left. destruct (_ =? CmdEnquireLink); [apply Ha|]. destruct (_ =? CmdDeliverSMResp); [done|]. destruct (_ =? CmdUnbind); apply Ha.
Qed.

Lemma idOf_inj n m : idOf n = idOf m -> n = m.
Proof. intros E. apply (inj (String.append "PROBE-")) in E. by apply (inj pretty) in E. Qed.

Lemma tidy_numbers s s' : tidy s -> pr_store s' = pr_store s -> pr_seqNum s <= pr_seqNum s' -> tidy s'.
Proof.
  intros [H1 H2 H3 H4] Hs Hq. split; rewrite ?Hs; try done. eapply Forall_impl; [exact H4|]. intros id (n & Hn & ->). exists n. split; [lia | done].
Qed.

Lemma tidy_add s s' c :
  tidy s -> pr_seqNum s' = pr_seqNum s + 1 -> 0 <= pr_seqNum s -> Capture.MessageID c = idOf (pr_seqNum s') -> pr_store s' = Add c (pr_store s) -> tidy s'.
Proof.
  intros [H1 H2 H3 H4] Hq H0 Hid Hs. rewrite Forall_forall in H4.
  assert (Hnew : Capture.MessageID c ∉ order (pr_store s)).
  { intros Hin. destruct (H4 _ Hin) as (n & Hn & E). rewrite Hid in E. apply idOf_inj in E. lia. }
  split; rewrite Hs; cbn.
  - apply NoDup_app. split; [done|]. split; [|apply NoDup_singleton]. intros id Hin ->%list_elem_of_singleton. done.
  - intros id. rewrite elem_of_app, list_elem_of_singleton, lookup_insert_is_Some', H2. split; intros [?|?]; auto.
  - by apply map_Forall_insert_2.
  - apply Forall_app. split; [|constructor; [exists (pr_seqNum s'); split; [lia | done] | constructor]].
    apply Forall_forall. intros id Hin. destruct (H4 id Hin) as (n & Hn & ->). exists n. split; [lia | done].
Qed.

Lemma tidy_empty s : pr_store s = NewCaptureStore -> tidy s.
Proof.
  intros E. split; rewrite E; cbn; [constructor| |apply map_Forall_empty|constructor].
  intros id. rewrite lookup_empty. split; [by intros ?%not_elem_of_nil | by intros []].
Qed.

(** Up to [n] numbers have been given out. *)
Definition upTo (n : nat) (s : ProbeServer) : Prop := tidy s /\ 0 <= pr_seqNum s <= Z.of_nat n.

Lemma upTo_numbers n s s' : upTo n s -> Z.of_nat (S n) < 2 ^ 32 -> numbers s s' -> upTo (S n) s'.
Proof.
  intros [Ht Hn] Hb [Hs Hq]. assert (Hm : (pr_seqNum s + 1) mod 2 ^ 32 = pr_seqNum s + 1) by (apply Z.mod_small; lia). rewrite Hm in Hq.
  split; [|lia]. apply (tidy_numbers s); [done | done | lia].
Qed.

Lemma upTo_step n s s' : upTo n s -> Z.of_nat (S n) < 2 ^ 32 -> pstep s s' -> upTo (S n) s'.
Proof.
  intros Hu Hb Hstep. destruct Hstep as [conn pdu|conn|conn| | |body|body|body].
  - destruct (handlePDU_store conn pdu s) as [[Hs Hq]|E]; [apply (upTo_numbers n s); [done | done | split; auto]|]. rewrite E.
    destruct Hu as [Ht Hn]. destruct (submit_adds conn pdu s) as (Hq & c & Hid & _ & Hs).
    assert (Hm : (pr_seqNum s + 1) mod 2 ^ 32 = pr_seqNum s + 1) by (apply Z.mod_small; lia). rewrite Hm in *. split; [|lia].
    by apply (tidy_add s _ c); [done | done | lia | rewrite Hq|].
  - apply (upTo_numbers n s); [done | done | split; [done | by left]].
  - apply (upTo_numbers n s); [done | done | split; [done | by left]].
  - apply (upTo_numbers n s); [done | done | split; [done | by left]].
  - destruct Hu as [_ Hn]. split; [by apply tidy_empty | cbn; lia].
  - apply (upTo_numbers n s); [done | done | apply numbers_postDLR].
  - apply (upTo_numbers n s); [done | done | apply numbers_postMO].
  - apply (upTo_numbers n s); [done | done|]. unfold postConfig. destruct body; [apply numbers_refl|]. destruct (negb _); (split; [done | by left]).
Qed.

Lemma upTo_later m n s s' : upTo m s -> Z.of_nat (m + n) < 2 ^ 32 -> nsteps pstep n s s' -> upTo (m + n) s'.
Proof.
  intros Hu Hb Hsteps. revert m Hu Hb. induction Hsteps as [s|n s s1 s' Hstep _ IH]; intros m Hu Hb; [by rewrite Nat.add_0_r|].
  replace (m + S n)%nat with (S m + n)%nat by lia. apply IH; [|lia]. apply (upTo_step m s); [done | lia | done].
Qed.

Lemma upTo_new y : upTo 0 (NewProbeServer y).
Proof.
  split; [by apply tidy_empty | cbn; lia].
Qed.


(** ** From a submission to its receipt *)

Lemma writePDU_run conn pdu s :
  faultless (pr_sys s) -> conn ∈ pr_conns s ->
  exists n, writePDU conn pdu s = (Ok tt, set_pr_written (pr_written s ++ [(conn, EncodePDU pdu)]) (set_pr_sys (set_tick n (pr_sys s)) s)).
Proof. intros Hf Hc. unfold writePDU, bindM, gets, ask. rewrite bool_decide_true by done. cbn. rewrite Hf. by eexists. Qed.

Lemma submit_run conn pdu s :
  faultless (pr_sys s) -> conn ∈ pr_conns s -> mode (pr_config s) = "accept" -> 0 <= pr_seqNum s < 2 ^ 32 - 1 ->
  let id := idOf (pr_seqNum s + 1) in
  exists s1 c, handleSubmitSM rfc3339 conn pdu s = (Ok tt, s1) /\
    pr_written s1 = pr_written s ++ [(conn, EncodePDU (PDU.mk CmdSubmitSMResp StatusOK (PDU.SequenceNumber pdu) (writeCStringBytes id)))] /\
    Get id (pr_store s1) = Some c /\ Capture.DestAddr c = snd (ParseDeliverSM (PDU.Body pdu)) /\
    pr_conns s1 = pr_conns s /\ faultless (pr_sys s1).
Proof.
  intros Hf Hc Hm Hn id. unfold handleSubmitSM. destruct (ParseDeliverSM (PDU.Body pdu)) as [source dest] eqn:Ep.
  assert (Hq : (pr_seqNum s + 1) mod 2 ^ 32 = pr_seqNum s + 1) by (apply Z.mod_small; lia).
  rewrite (run_bind nextSeq _ s (pr_seqNum s + 1) (set_pr_seqNum (pr_seqNum s + 1) s)) by (unfold nextSeq; by rewrite Hq).
  erewrite (run_bind now) by reflexivity. erewrite (run_bind (modify _)) by reflexivity. erewrite (run_bind (gets pr_config)) by reflexivity.
  set (s1 := set_pr_store _ _). change (pr_config s1) with (pr_config s). rewrite Hm, !bool_decide_false by done.
  destruct (writePDU_run conn (PDU.mk CmdSubmitSMResp StatusOK (PDU.SequenceNumber pdu) (writeCStringBytes id)) s1) as (n & Hw); [done | done|].
  exists (snd (writePDU conn (PDU.mk CmdSubmitSMResp StatusOK (PDU.SequenceNumber pdu) (writeCStringBytes id)) s1)).
  eexists (Capture.mk id source dest (PDU.Body pdu) _ _). unfold ignore, bindM, try. unfold id, idOf in *. rewrite Hw. cbn.
  repeat split; [apply lookup_insert_eq | exact Hf].
Qed.

End Probe.

(** ** Witnesses: a codec of the PDU layout *)

Module ProbeScenario.

Definition be32 (z : Z) : list Z := [u8 (z / 2 ^ 24); u8 (z / 2 ^ 16); u8 (z / 2 ^ 8); u8 z].

Lemma be32_value z : uint32 z -> beValue (be32 z) = z.
Proof.
  intros Hz. unfold uint32 in Hz. cbn -[Z.mul Z.add Z.div u8 Z.pow]. unfold u8.
  change (2 ^ 24) with 16777216. change (2 ^ 16) with 65536. change (2 ^ 8) with 256. change (2 ^ 32) with 4294967296 in Hz.
  Z.to_euclidean_division_equations. lia.
Qed.

#[global] Instance codec : Smpp := {|
  EncodePDU p := be32 (16 + zlen (PDU.Body p)) ++ be32 (PDU.CommandID p) ++ be32 (PDU.CommandStatus p) ++ be32 (PDU.SequenceNumber p) ++ PDU.Body p;
  DecodePDU l := Ok (PDU.mk (beValue (take 4 (drop 4 l))) (beValue (take 4 (drop 8 l))) (beValue (take 4 (drop 12 l))) (drop 16 l));
  ParseDeliverSM body := ("", match decodeDeliverSM body with Some (_, dest, _, _) => bytes_string dest | None => "" end);
  CmdBindTransceiver := 9; CmdBindTransceiverResp := 0x80000009; CmdSubmitSM := 4; CmdSubmitSMResp := 0x80000004; CmdDeliverSM := 5;
  CmdDeliverSMResp := 0x80000005; CmdEnquireLink := 0x15; CmdEnquireLinkResp := 0x80000015; CmdUnbind := 6; CmdUnbindResp := 0x80000006;
  CmdGenericNack := 0x80000000; StatusOK := 0; StatusSysErr := 8; StatusInvCmdID := 3 |}.

#[global] Instance codec_laws : SmppLaws.
Proof.
  split; intros [id st seq body] (Hi & Hs & Hq & _ & Hl); cbn in Hi, Hs, Hq, Hl.
  - split.
    + change (beValue (be32 (16 + zlen body)) = zlen (be32 (16 + zlen body) ++ be32 id ++ be32 st ++ be32 seq ++ body)).
      rewrite be32_value by done. unfold zlen. rewrite !length_app. cbn. lia.
    + unfold zlen. cbn. lia.
  - change (DecodePDU (EncodePDU (PDU.mk id st seq body))) with (Ok (PDU.mk (beValue (be32 id)) (beValue (be32 st)) (beValue (be32 seq)) body)).
    by rewrite !be32_value.
Qed.

Definition y : Sys := quiet_sys empty_db.
Definition submit : PDU.t := PDU.mk 4 0 7 (buildDeliverSMBody "1234" "32470000001" 0 [1; 2; 3]).
Definition date (_ : Z) : string := "2401011200".
Definition connected : ProbeServer := snd (register 1 (NewProbeServer y)).
Definition captured : ProbeServer := snd (handlePDU date 1 submit connected).
End ProbeScenario.

Lemma deliver_body_roundtrip_witness :
  decodeDeliverSM (buildDeliverSMBody "1234" "32470000001" 0 (replicate 300 65)) = Some (string_bytes "1234", string_bytes "32470000001", 0, replicate 300 65).
Proof.
  apply deliver_body_roundtrip; [apply (bool_decide_unpack _); vm_compute; exact I..|]. done.
Defined.

Lemma stream_served_pdu_by_pdu_witness :
  let stream := concat (EncodePDU <$> [ProbeScenario.submit; PDU.mk 6 0 8 []]) ++ [0; 0] in
  handleConnection ProbeScenario.date 1 stream ProbeScenario.connected
    = (do! _ <- handleAll ProbeScenario.date 1 [ProbeScenario.submit; PDU.mk 6 0 8 []]; unregister 1) ProbeScenario.connected /\
  length (pr_written (snd (handleConnection ProbeScenario.date 1 stream ProbeScenario.connected))) = 2%nat.
Proof.
  split; [|vm_compute; reflexivity]. apply stream_served_pdu_by_pdu; [|done].
  repeat constructor; try (vm_compute; congruence).
Defined.


