(* ===== verification/WebSocketHub.v ===== *)
(** * internal/controlplane/websocket.go: the hub of the live view

    Several goroutines share the hub: its loop [Run], one goroutine per call of
    BroadcastToCampaign, a reader and a writer per connection, and short-lived ones that
    wait to unregister a client.  An [action] is a step of one of them, chosen by
    the scheduler; [hubStep] performs it ([None]: it is not enabled, the goroutine
    blocks).  Every theorem about all lists of actions covers all interleavings.

    A channel is the list of what it holds; [close] sets a flag, after which a send
    panics and a receive drains what is left.  The mutex is written only by [Run]:
    while it waits for the lock (program counters [Registering] and [Unregistering])
    it proceeds once no read-locked loop is under way.  A message is represented by
    the event it encodes: [json.Marshal] does not fail on the strings, numbers and maps of
    [WSEvent.Data].  What was written to a connection is its list of frames. *)

From S2P Require Import Prelude Effects Models Pipeline HexUtil.

(** ** State *)

(** The write pump: not running, waiting in its select, or writing a frame. *)
Inductive writer := Off | Waiting | Writing (frame : list WSEvent.t).

Record WSClient := mkClient {
  send : list WSEvent.t;
  closed : bool;
  topics : gset string;
  reading : bool;
  writing : writer;
  frames : list (list WSEvent.t)
}.

(** Where [Run] is. *)
Inductive hub_pc :=
| Select
| Registering (c : nat)
| Unregistering (c : nat)
| Broadcasting (e : WSEvent.t) (rest : list nat)
| Returned.

(** A call of BroadcastToCampaign inside its loop. *)
Record campaignLoop := mkLoop { lp_campaign : string; lp_event : WSEvent.t; lp_rest : list nat }.

Record WSHub := mkHub {
  clients : gset nat;
  broadcast : list WSEvent.t;
  register : list nat;      (** clients whose HandleWebSocket waits on [register] *)
  unregister : list nat;    (** goroutines that wait on [unregister] *)
  conns : gmap nat WSClient;
  pc : hub_pc;
  loops : list campaignLoop
}.

Definition set_clients x h := mkHub x (broadcast h) (register h) (unregister h) (conns h) (pc h) (loops h).
Definition set_broadcast x h := mkHub (clients h) x (register h) (unregister h) (conns h) (pc h) (loops h).
Definition set_register x h := mkHub (clients h) (broadcast h) x (unregister h) (conns h) (pc h) (loops h).
Definition set_unregister x h := mkHub (clients h) (broadcast h) (register h) x (conns h) (pc h) (loops h).
Definition set_conns x h := mkHub (clients h) (broadcast h) (register h) (unregister h) x (pc h) (loops h).
Definition set_pc x h := mkHub (clients h) (broadcast h) (register h) (unregister h) (conns h) x (loops h).
Definition set_loops x h := mkHub (clients h) (broadcast h) (register h) (unregister h) (conns h) (pc h) x.

Definition set_send x cl := mkClient x (closed cl) (topics cl) (reading cl) (writing cl) (frames cl).
Definition set_closed x cl := mkClient (send cl) x (topics cl) (reading cl) (writing cl) (frames cl).
Definition set_topics x cl := mkClient (send cl) (closed cl) x (reading cl) (writing cl) (frames cl).
Definition set_reading x cl := mkClient (send cl) (closed cl) (topics cl) x (writing cl) (frames cl).
Definition set_writing x cl := mkClient (send cl) (closed cl) (topics cl) (reading cl) x (frames cl).
Definition set_frames x cl := mkClient (send cl) (closed cl) (topics cl) (reading cl) (writing cl) x.

Definition NewWSHub : WSHub := mkHub ∅ [] [] [] ∅ Select [].

(** The capacity of [broadcast] and of each [send]. *)
Definition broadcastCap : Z := 256.
Definition sendCap : Z := 256.

(** ** Origin check of the upgrader *)

Fixpoint splitComma (s : string) : list string :=
  match s with
  | EmptyString => [EmptyString]
  | String c s' =>
      if (Ascii.N_of_ascii c =? 44)%N then EmptyString :: splitComma s'
      else match splitComma s' with
           | w :: ws => String c w :: ws
           | [] => [String c EmptyString]
           end
  end.

Definition CheckOrigin (getenv : string -> string) (origin : string) : bool :=
  if bool_decide (origin = "") then true
  else
    let allowed := getenv "ALLOWED_ORIGINS" in
    let allowed := if bool_decide (allowed = "") then "http://localhost:3001" else allowed in
    existsb (fun o => bool_decide (TrimSpace o = origin)) (splitComma allowed).

(** ** Sends *)

(** [select { case client.send <- data: default: go func() { h.unregister <- c }() }] *)
Definition trySend (c : nat) (e : WSEvent.t) (h : WSHub) : res WSHub :=
  match conns h !! c with
  | None => Panic "invalid memory address or nil pointer dereference"
  | Some cl =>
      if closed cl then Panic "send on closed channel"
      else if zlen (send cl) <? sendCap then Ok (set_conns (<[c := set_send (send cl ++ [e]) cl]> (conns h)) h)
      else Ok (set_unregister (unregister h ++ [c]) h)
  end.

(** [Broadcast]: dropped when the channel is full. *)
Definition Broadcast (e : WSEvent.t) (h : WSHub) : WSHub :=
  if zlen (broadcast h) <? broadcastCap then set_broadcast (broadcast h ++ [e]) h else h.

(** The test of BroadcastToCampaign. *)
Definition watches (campaignID : string) (cl : WSClient) : bool :=
  bool_decide (topics cl = ∅) || bool_decide (("campaign:" +:+ campaignID) ∈ topics cl).

Definition campaignSend (l : campaignLoop) (c : nat) (h : WSHub) : res WSHub :=
  match conns h !! c with
  | None => Panic "invalid memory address or nil pointer dereference"
  | Some cl => if watches (lp_campaign l) cl then trySend c (lp_event l) h else Ok h
  end.

(** ** The loop of [Run] *)

Definition newClient : WSClient := mkClient [] false ∅ false Off [].

(** The receive on [register]: HandleWebSocket goes on and starts the pumps. *)
Definition startPumps (cl : WSClient) : WSClient := set_writing Waiting (set_reading true cl).

(** The part of a register or unregister case that holds the lock. *)
Definition runLocked (h : WSHub) : option (res WSHub) :=
  match pc h with
  | Registering c => Some (Ok (set_pc Select (set_clients ({[c]} ∪ clients h) h)))
  | Unregistering c =>
      Some (if bool_decide (c ∈ clients h) then
              match conns h !! c with
              | None => Panic "close of nil channel"
              | Some cl =>
                  if closed cl then Panic "close of closed channel"
                  else Ok (set_pc Select (set_conns (<[c := set_closed true cl]> (conns h)) (set_clients (clients h ∖ {[c]}) h)))
              end
            else Ok (set_pc Select h))
  | _ => None
  end.

(** The next client of the range over [h.clients]. *)
Definition runDeliver (h : WSHub) : option (res WSHub) :=
  match pc h with
  | Broadcasting e (c :: rest) => Some (trySend c e (set_pc (Broadcasting e rest) h))
  | Broadcasting _ [] => Some (Ok (set_pc Select h))
  | _ => None
  end.

(** A map is visited in some order, each key once. *)
Definition visits (order : list nat) (h : WSHub) : Prop := NoDup order /\ list_to_set order = clients h.
#[global] Instance visits_dec order h : Decision (visits order h).
Proof. unfold visits. apply _. Defined.

(** One occurrence less. *)
Fixpoint remove1 (c : nat) (l : list nat) : list nat :=
  match l with
  | [] => []
  | x :: l => if decide (x = c) then l else x :: remove1 c l
  end.

(** ** The pumps of a connection *)

Record subscribeMessage := { Action : string; Topic : string }.

(** A message that was read; [None] does not unmarshal and is skipped. *)
Definition onMessage (msg : option subscribeMessage) (cl : WSClient) : WSClient :=
  match msg with
  | None => cl
  | Some m =>
      if bool_decide (Action m = "subscribe") then
        if bool_decide (Topic m = "") then cl else set_topics ({[Topic m]} ∪ topics cl) cl
      else if bool_decide (Action m = "unsubscribe") then set_topics (topics cl ∖ {[Topic m]}) cl
      else cl
  end.

(** The receive of the write pump: a message opens a frame; a closed and empty channel ends the pump. *)
Definition writeNext (cl : WSClient) : option WSClient :=
  match writing cl, send cl with
  | Waiting, e :: rest => Some (set_writing (Writing [e]) (set_send rest cl))
  | Waiting, [] => if closed cl then Some (set_writing Off cl) else None
  | _, _ => None
  end.

(** What becomes of a frame: written, refused by [NextWriter], or failed at [Close]. *)
Inductive frame_result := Written | NoWriter | NotClosed.

(** The rest of the receive case: [NextWriter], the drain of what is queued, [Close]. *)
Definition writeFrame (r : frame_result) (cl : WSClient) : option WSClient :=
  match writing cl with
  | Writing frame =>
      Some (match r with
            | Written => set_writing Waiting (set_frames (frames cl ++ [frame ++ send cl]) (set_send [] cl))
            | NoWriter => set_writing Off cl
            | NotClosed => set_writing Off (set_send [] cl)
            end)
  | _ => None
  end.

Definition ping (ok : bool) (cl : WSClient) : option WSClient :=
  match writing cl with
  | Waiting => Some (if ok then cl else set_writing Off cl)
  | _ => None
  end.

(** ** Actions *)

Inductive action :=
| Connect (c : nat)                       (** HandleWebSocket, a new client *)
| RunRegister (c : nat)
| RunUnregister (c : nat)
| RunLocked
| RunBroadcast (order : list nat)
| RunDeliver
| RunDone                                 (** [<-ctx.Done()] *)
| Publish (e : WSEvent.t)
| PublishTo (campaignID : string) (e : WSEvent.t) (order : list nat)
| LoopStep (i : nat)
| ReadMessage (c : nat) (msg : option subscribeMessage)
| ReadError (c : nat)
| WriteNext (c : nat)
| WriteFrame (c : nat) (r : frame_result)
| Ping (c : nat) (ok : bool).

(** A step of one connection's goroutine. *)
Definition onClient (c : nat) (f : WSClient -> option WSClient) (h : WSHub) : option (res WSHub) :=
  cl ← conns h !! c; cl' ← f cl; Some (Ok (set_conns (<[c := cl']> (conns h)) h)).

Definition guarded (P : Prop) `{!Decision P} (r : res WSHub) : option (res WSHub) := if decide P then Some r else None.

(** A case of the select of [Run]. *)
Definition selecting (r : option (res WSHub)) (h : WSHub) : option (res WSHub) :=
  match pc h with Select => r | _ => None end.

Definition hubStep (a : action) (h : WSHub) : option (res WSHub) :=
  match a with
  | Connect c => guarded (conns h !! c = None) (Ok (set_register (register h ++ [c]) (set_conns (<[c := newClient]> (conns h)) h)))
  | RunRegister c =>
      selecting (guarded (c ∈ register h)
        (Ok (set_pc (Registering c) (set_register (remove1 c (register h)) (set_conns (alter startPumps c (conns h)) h))))) h
  | RunUnregister c =>
      selecting (guarded (c ∈ unregister h)
        (Ok (set_pc (Unregistering c) (set_unregister (remove1 c (unregister h)) h)))) h
  | RunLocked => if decide (loops h = []) then runLocked h else None
  | RunBroadcast order =>
      selecting (match broadcast h with
                 | [] => None
                 | e :: rest => guarded (visits order h) (Ok (set_pc (Broadcasting e order) (set_broadcast rest h)))
                 end) h
  | RunDeliver => runDeliver h
  | RunDone => selecting (Some (Ok (set_pc Returned h))) h
  | Publish e => Some (Ok (Broadcast e h))
  | PublishTo campaignID e order => guarded (visits order h) (Ok (set_loops (loops h ++ [mkLoop campaignID e order]) h))
  | LoopStep i =>
      l ← loops h !! i;
      Some (match lp_rest l with
            | [] => Ok (set_loops (delete i (loops h)) h)
            | c :: rest => campaignSend l c (set_loops (<[i := mkLoop (lp_campaign l) (lp_event l) rest]> (loops h)) h)
            end)
  | ReadMessage c msg => onClient c (fun cl => if reading cl then Some (onMessage msg cl) else None) h
  | ReadError c =>
      onClient c (fun cl => if reading cl then Some (set_reading false cl) else None)
        (set_unregister (unregister h ++ [c]) h)
  | WriteNext c => onClient c writeNext h
  | WriteFrame c r => onClient c (writeFrame r) h
  | Ping c ok => onClient c (ping ok) h
  end.

(** A schedule; it ends early at a panic, and is [None] when an action is not enabled. *)
Fixpoint hubRun (acts : list action) (h : WSHub) : option (res WSHub) :=
  match acts with
  | [] => Some (Ok h)
  | a :: acts =>
      match hubStep a h with
      | Some (Ok h) => hubRun acts h
      | r => r
      end
  end.

(** ** The hub never panics *)

(** HandleWebSocket of [c] waits, or the hub is about to enter it. *)
Definition entering (c : nat) (h : WSHub) : Prop := c ∈ register h \/ pc h = Registering c.

Definition isOpen (c : nat) (h : WSHub) : Prop := exists cl, conns h !! c = Some cl /\ closed cl = false.

Record hub_ok (h : WSHub) : Prop := {
  ok_member c : c ∈ clients h -> isOpen c h;
  ok_entering c : entering c h -> c ∉ clients h /\ isOpen c h;
  ok_register : NoDup (register h);
  ok_once c : pc h = Registering c -> c ∉ register h;
  ok_visit e rest c : pc h = Broadcasting e rest -> c ∈ rest -> c ∈ clients h;
  ok_loops l c : l ∈ loops h -> c ∈ lp_rest l -> c ∈ clients h;
  ok_cap c cl : conns h !! c = Some cl -> zlen (send cl) <= sendCap;
  ok_broadcast : zlen (broadcast h) <= broadcastCap
}.

Lemma remove1_elem x c l : x ∈ remove1 c l -> x ∈ l.
Proof. induction l as [|y l IH]; cbn; [done|]. case_decide; set_solver. Qed.

Lemma remove1_NoDup c l : NoDup l -> NoDup (remove1 c l) /\ c ∉ remove1 c l.
Proof.
  induction 1 as [|y l Hy Hl [IH1 IH2]]; cbn; [split; [constructor | apply not_elem_of_nil]|].
  case_decide as E; [by subst|]. split; [constructor; [|done]; by intros ?%remove1_elem | set_solver].
Qed.

(** Changing one connection without closing it or growing its buffer. *)
Lemma isOpen_insert c x cl h :
  isOpen x h -> closed cl = false \/ x <> c -> isOpen x (set_conns (<[c := cl]> (conns h)) h).
Proof.
  intros (cl0 & H0 & Ho) H. unfold isOpen. cbn. destruct (decide (x = c)) as [->|Hne].
  - exists cl. rewrite lookup_insert_eq. destruct H; done.
  - exists cl0. by rewrite lookup_insert_ne.
Qed.

Lemma hub_ok_conn c cl cl' h :
  hub_ok h -> conns h !! c = Some cl -> (closed cl = false -> closed cl' = false) -> zlen (send cl') <= sendCap ->
  hub_ok (set_conns (<[c := cl']> (conns h)) h).
Proof.
  intros H Hc Hclosed Hsend.
  assert (Ho : forall x, isOpen x h -> isOpen x (set_conns (<[c := cl']> (conns h)) h)).
  { intros x Hx. apply isOpen_insert; [done|]. destruct (decide (x = c)) as [->|]; [|by right]. left.
    destruct Hx as (cl0 & H0 & Hop). apply Hclosed. congruence. }
  split; cbn; try apply H.
  - intros x Hx. by apply Ho, H.
  - intros x Hx. destruct (ok_entering h H x Hx). split; [done | by apply Ho].
  - intros x cl0. destruct (decide (x = c)) as [->|Hne].
    + rewrite lookup_insert_eq. by intros [= <-].
    + rewrite lookup_insert_ne by done. apply H.
Qed.

Lemma hub_ok_unregister l h : hub_ok h -> hub_ok (set_unregister l h).
Proof. intros []. by split. Qed.

Lemma trySend_ok c e h : hub_ok h -> c ∈ clients h -> exists h', trySend c e h = Ok h' /\ hub_ok h'.
Proof.
  intros H Hc. destruct (ok_member h H c Hc) as (cl & Hcl & Ho). unfold trySend. rewrite Hcl, Ho.
  destruct (zlen (send cl) <? sendCap) eqn:E; eexists; (split; [reflexivity|]); [|by apply hub_ok_unregister].
  apply Z.ltb_lt in E. apply (hub_ok_conn c cl); [done | done | done |].
  cbn [send set_send]. rewrite zlen_app. change (zlen [e]) with 1. lia.
Qed.

Lemma campaignSend_ok l c h : hub_ok h -> c ∈ clients h -> exists h', campaignSend l c h = Ok h' /\ hub_ok h'.
Proof.
  intros H Hc. destruct (ok_member h H c Hc) as (cl & Hcl & _). unfold campaignSend. rewrite Hcl.
  destruct (watches _ _); [by apply trySend_ok | by exists h].
Qed.

(** The fields a step does not touch. *)
Ltac untouched H := split; cbn; try apply H.

(** The loops advance over registered clients. *)
Lemma hub_ok_visit e c rest h : hub_ok h -> pc h = Broadcasting e (c :: rest) -> hub_ok (set_pc (Broadcasting e rest) h) /\ c ∈ clients h.
Proof.
  intros H Epc. split; [|apply (ok_visit h H e (c :: rest) c Epc); left]. untouched H.
  - intros x [Hx|[=]]. apply H. by left.
  - intros; discriminate.
  - intros e' rest' x [= <- <-] Hx. apply (ok_visit h H e (c :: rest) x Epc). by right.
Qed.

Lemma hub_ok_loop i l c rest h :
  hub_ok h -> loops h !! i = Some l -> lp_rest l = c :: rest ->
  hub_ok (set_loops (<[i := mkLoop (lp_campaign l) (lp_event l) rest]> (loops h)) h) /\ c ∈ clients h.
Proof.
  intros H El Er. apply list_elem_of_lookup_2 in El as Hl. split; [|apply (ok_loops h H l c Hl); rewrite Er; left]. untouched H.
  intros l' x [j Hj]%list_elem_of_lookup Hx. destruct (decide (i = j)) as [<-|Hne].
  - rewrite list_lookup_insert_eq in Hj by (by eapply lookup_lt_Some). injection Hj as <-.
    apply (ok_loops h H l x Hl). rewrite Er. by right.
  - rewrite list_lookup_insert_ne in Hj by done. apply (ok_loops h H l'); [by eapply list_elem_of_lookup_2 | done].
Qed.

Lemma runDeliver_ok h r : hub_ok h -> runDeliver h = Some r -> exists h', r = Ok h' /\ hub_ok h'.
Proof.
  unfold runDeliver. intros H E. destruct (pc h) as [| | |e [|c rest]|] eqn:Epc; try done.
  - injection E as <-. eexists. split; [done|]. untouched H.
    intros c [Hc|[=]]. apply H. by left. all: intros; discriminate.
  - injection E as <-. destruct (hub_ok_visit e c rest h H Epc). by apply trySend_ok.
Qed.

Lemma runLocked_ok h r : hub_ok h -> loops h = [] -> runLocked h = Some r -> exists h', r = Ok h' /\ hub_ok h'.
Proof.
  unfold runLocked. intros H Hl E. destruct (pc h) as [|c|c| |] eqn:Epc; try done; injection E as <-.
  - eexists. split; [done|]. destruct (ok_entering h H c (or_intror Epc)) as [Hnc Ho].
    untouched H.
    + intros x [->%elem_of_singleton|Hx]%elem_of_union; [exact Ho | by apply H].
    + intros x [Hx|[=]]. destruct (ok_entering h H x (or_introl Hx)) as [Hx' Hxo]. split; [|exact Hxo].
      intros [->%elem_of_singleton|]%elem_of_union; [|done]. by apply (ok_once h H c).
    + intros; discriminate.
    + intros; discriminate.
    + intros l x. rewrite Hl. by intros ?%not_elem_of_nil.
  - case_bool_decide as Hc; [|eexists; split; [done|]; untouched H;
      [intros x [Hx|[=]]; apply H; by left | intros; discriminate | intros; discriminate]].
    destruct (ok_member h H c Hc) as (cl & Hcl & Ho). rewrite Hcl, Ho. eexists. split; [done|].
    assert (Hop : forall x, isOpen x h -> x <> c -> isOpen x (set_pc Select (set_conns (<[c := set_closed true cl]> (conns h)) (set_clients (clients h ∖ {[c]}) h)))).
    { intros x Hx Hne. apply (isOpen_insert c x (set_closed true cl) h Hx). by right. }
    untouched H.
    + intros x [Hx Hne]%elem_of_difference. apply Hop; [by apply H | set_solver].
    + intros x [Hx|[=]]. destruct (ok_entering h H x (or_introl Hx)) as [Hx' Hxo]. split; [set_solver|].
      apply Hop; [done|]. by intros ->.
    + intros; discriminate.
    + intros; discriminate.
    + intros l x. rewrite Hl. by intros ?%not_elem_of_nil.
    + intros x cl0. destruct (decide (x = c)) as [->|Hne].
      * rewrite lookup_insert_eq. intros [= <-]. cbn. by apply (ok_cap h H c).
      * rewrite lookup_insert_ne by done. apply H.
Qed.

(** The steps of a connection's own goroutines neither close its channel nor fill it. *)
Definition harmless (f : WSClient -> option WSClient) : Prop :=
  forall cl cl', f cl = Some cl' -> closed cl' = closed cl /\ zlen (send cl') <= zlen (send cl).

Lemma onClient_ok c f h r :
  hub_ok h -> harmless f -> onClient c f h = Some r -> exists h', r = Ok h' /\ hub_ok h'.
Proof.
  unfold onClient. intros H Hf E. destruct (conns h !! c) as [cl|] eqn:Hcl; [|done]. cbn in E.
  destruct (f cl) as [cl'|] eqn:Ef; [|done]. injection E as <-. eexists. split; [done|].
  destruct (Hf _ _ Ef) as [H1 H2]. apply (hub_ok_conn c cl); [done | done | congruence |].
  pose proof (ok_cap h H c cl Hcl). lia.
Qed.

Lemma harmless_read msg : harmless (fun cl => if reading cl then Some (onMessage msg cl) else None).
Proof.
  intros cl cl'. destruct (reading cl); [|done]. intros [= <-]. unfold onMessage.
  destruct msg; [|done]. by repeat case_bool_decide.
Qed.
Lemma harmless_error : harmless (fun cl => if reading cl then Some (set_reading false cl) else None).
Proof. intros cl cl'. destruct (reading cl); [|done]. by intros [= <-]. Qed.
Lemma harmless_next : harmless writeNext.
Proof.
  intros cl cl'. unfold writeNext. destruct (writing cl), (send cl) as [|e rest] eqn:E; try done.
  - destruct (closed cl) eqn:Ec; [|done]. intros [= <-]. cbn. by rewrite E, Ec.
  - intros [= <-]. cbn. split; [done|]. rewrite zlen_cons. lia.
Qed.
Lemma harmless_frame r : harmless (writeFrame r).
Proof.
  intros cl cl'. unfold writeFrame. pose proof (zlen_nonneg (send cl)).
  destruct (writing cl), r; try done; intros [= <-];
    cbn [send closed set_writing set_frames set_send]; (split; [done | rewrite ?zlen_nil; lia]).
Qed.
Lemma harmless_ping ok : harmless (ping ok).
Proof. intros cl cl'. unfold ping. destruct (writing cl), ok; try done; by intros [= <-]. Qed.
#[local] Hint Resolve harmless_read harmless_error harmless_next harmless_frame harmless_ping hub_ok_unregister : core.

Lemma selecting_inv x h r : selecting x h = Some r -> pc h = Select /\ x = Some r.
Proof. unfold selecting. by destruct (pc h). Qed.

Lemma guarded_inv P `{!Decision P} x r : guarded P x = Some r -> P /\ r = x.
Proof. unfold guarded. case_decide; [|done]. by intros [= <-]. Qed.

(** Leaving the select for a case that neither registers nor broadcasts. *)
Lemma hub_ok_pc p h :
  hub_ok h -> (forall c, p <> Registering c) -> (forall e rest, p <> Broadcasting e rest) -> hub_ok (set_pc p h).
Proof.
  intros H Hr Hb. untouched H.
  - intros c [Hc|Hc]; [apply H; by left | by apply Hr in Hc].
  - intros c Hc. by apply Hr in Hc.
  - intros e rest c Hc. by apply Hb in Hc.
Qed.

Lemma connect_ok c h :
  hub_ok h -> conns h !! c = None -> hub_ok (set_register (register h ++ [c]) (set_conns (<[c := newClient]> (conns h)) h)).
Proof.
  intros H Hc.
  assert (Hold : forall x, isOpen x h -> x <> c) by (intros x (cl & E & _) ->; congruence).
  assert (Ho : forall x, isOpen x h \/ x = c -> isOpen x (set_register (register h ++ [c]) (set_conns (<[c := newClient]> (conns h)) h))).
  { intros x [Hx| ->]; unfold isOpen; cbn; [|exists newClient; by rewrite lookup_insert_eq].
    rewrite lookup_insert_ne; [exact Hx|]. intros <-. by apply (Hold c). }
  assert (Hent : forall x, entering x h -> x <> c) by (intros x Hx; by apply Hold, (ok_entering h H)).
  untouched H.
  - intros x Hx. apply Ho. left. by apply H.
  - intros x [[Hx| ->%list_elem_of_singleton]%elem_of_app|Hx].
    + destruct (ok_entering h H x (or_introl Hx)). split; [done | apply Ho; by left].
    + split; [intros Hx; by apply (Hold c); [apply H|] | apply Ho; by right].
    + destruct (ok_entering h H x (or_intror Hx)). split; [done | apply Ho; by left].
  - apply NoDup_app. split; [apply H|]. split; [|apply NoDup_singleton].
    intros x Hx ->%list_elem_of_singleton. by apply (Hent c); [left|].
  - intros x Hx [Hin| ->%list_elem_of_singleton]%elem_of_app; [by apply (ok_once h H x) | by apply (Hent c); [right|]].
  - intros x cl. destruct (decide (x = c)) as [->|Hne].
    + rewrite lookup_insert_eq. by intros [= <-].
    + rewrite lookup_insert_ne by done. apply H.
Qed.

Lemma enter_ok c h :
  hub_ok h -> pc h = Select -> c ∈ register h ->
  hub_ok (set_pc (Registering c) (set_register (remove1 c (register h)) (set_conns (alter startPumps c (conns h)) h))).
Proof.
  intros H Hpc Hc. destruct (remove1_NoDup c (register h) (ok_register h H)) as [Hnd Hnc].
  set (h' := set_pc _ _).
  assert (Ho : forall x, isOpen x h -> isOpen x h').
  { intros x (cl & E & Hcl). unfold isOpen. cbn. destruct (decide (x = c)) as [->|Hne].
    - exists (startPumps cl). by rewrite lookup_alter_eq, E.
    - exists cl. by rewrite lookup_alter_ne. }
  untouched H.
  - intros x Hx. by apply Ho, H.
  - intros x Hx. assert (Hx' : entering x h) by (destruct Hx as [Hx|[= <-]]; [left; exact (remove1_elem _ _ _ Hx) | by left]).
    destruct (ok_entering h H x Hx'). split; [done | by apply Ho].
  - done.
  - by intros x [= <-].
  - intros; discriminate.
  - intros x cl. destruct (decide (x = c)) as [->|Hne].
    + rewrite lookup_alter_eq. destruct (conns h !! c) as [cl0|] eqn:E; [|done]. intros [= <-]. exact (ok_cap h H c cl0 E).
    + rewrite lookup_alter_ne by done. apply H.
Qed.

Lemma visits_sub order h c : visits order h -> c ∈ order -> c ∈ clients h.
Proof. intros [_ <-]. by rewrite elem_of_list_to_set. Qed.

Lemma step_ok a h r : hub_ok h -> hubStep a h = Some r -> exists h', r = Ok h' /\ hub_ok h'.
Proof.
  intros H. destruct a as [c|c|c| |order| | |e|campaign e order|i|c msg|c|c|c fr|c ok]; cbn [hubStep].
  - intros [Hc ->]%guarded_inv. eexists. split; [done | by apply connect_ok].
  - intros [Hpc [Hc ->]%guarded_inv]%selecting_inv. eexists. split; [done | by apply enter_ok].
  - intros [Hpc [Hc ->]%guarded_inv]%selecting_inv. eexists. split; [done|]. apply hub_ok_pc; auto; discriminate.
  - destruct (decide (loops h = [])); [|done]. by apply runLocked_ok.
  - intros [Hpc E]%selecting_inv. destruct (broadcast h) as [|e rest] eqn:Eb; [done|].
    apply guarded_inv in E as [Hv ->]. eexists. split; [done|]. untouched H.
    + intros c [Hc|[=]]. apply H. by left.
    + intros; discriminate.
    + intros e' rest' c [= <- <-] Hc. by apply (visits_sub order).
    + pose proof (ok_broadcast h H) as Hb. rewrite Eb, zlen_cons in Hb. lia.
  - by apply runDeliver_ok.
  - intros [Hpc [= <-]]%selecting_inv. eexists. split; [done|]. apply hub_ok_pc; auto; discriminate.
  - intros [= <-]. eexists. split; [done|]. unfold Broadcast. destruct (_ <? _) eqn:E; [|done]. untouched H.
    rewrite zlen_app. change (zlen [e]) with 1. lia.
  - intros [Hv ->]%guarded_inv. eexists. split; [done|]. untouched H.
    intros l c [Hl| ->%list_elem_of_singleton]%elem_of_app Hc; [by apply (ok_loops h H l) | by apply (visits_sub order)].
  - destruct (loops h !! i) as [l|] eqn:El; [|done]. cbn. intros [= <-].
    destruct (lp_rest l) as [|c rest] eqn:Er.
    + eexists. split; [done|]. untouched H. intros l' c Hl'. apply (ok_loops h H).
      eapply elem_of_submseteq; [exact Hl' | apply sublist_submseteq, sublist_delete].
    + destruct (hub_ok_loop i l c rest h H El Er). by apply campaignSend_ok.
  - apply onClient_ok; auto.
  - apply onClient_ok; auto.
  - apply onClient_ok; auto.
  - apply onClient_ok; auto.
  - apply onClient_ok; auto.
Qed.

Lemma NewWSHub_ok : hub_ok NewWSHub.
Proof.
  split; cbn; try done; try (intros; set_solver).
  - by intros c [?%not_elem_of_nil|[=]].
  - constructor.
Qed.

Lemma run_ok acts h r : hub_ok h -> hubRun acts h = Some r -> exists h', r = Ok h' /\ hub_ok h'.
Proof.
  revert h. induction acts as [|a acts IH]; intros h H E; cbn in E; [injection E as <-; by exists h|].
  destruct (hubStep a h) as [r0|] eqn:Es; [|done]. destruct (step_ok a h r0 H Es) as (h' & -> & H'). by apply (IH h').
Qed.

(** C13: the hub never panics.  However the goroutines are scheduled, no step sends on a closed channel, closes a
    channel twice or follows a nil pointer, no buffer exceeds its capacity, and a client is registered
    only while its channel is open. *)
Theorem hub_never_panics acts r : hubRun acts NewWSHub = Some r -> exists h, r = Ok h /\ hub_ok h.
Proof. apply run_ok, NewWSHub_ok. Qed.

(** ** What a client receives *)

(** The event a step tries to put in a client's channel. *)
Definition offer (a : action) (h : WSHub) : list (nat * WSEvent.t) :=
  match a with
  | RunDeliver => match pc h with Broadcasting e (c :: _) => [(c, e)] | _ => [] end
  | LoopStep i =>
      match loops h !! i with
      | Some (mkLoop campaign e (c :: _)) =>
          match conns h !! c with
          | Some cl => if watches campaign cl then [(c, e)] else []
          | None => []
          end
      | _ => []
      end
  | _ => []
  end.

Fixpoint offers (acts : list action) (h : WSHub) : list (nat * WSEvent.t) :=
  match acts with
  | [] => []
  | a :: acts => offer a h ++ match hubStep a h with Some (Ok h) => offers acts h | _ => [] end
  end.

Definition offeredTo (c : nat) (os : list (nat * WSEvent.t)) : list WSEvent.t := snd <$> filter (fun o => fst o = c) os.

(** What went through the client's channel so far. *)
Definition handed (cl : WSClient) : list WSEvent.t :=
  concat (frames cl) ++ (match writing cl with Writing frame => frame | _ => [] end) ++ send cl.

(** On its way out: somebody waits to unregister it, or its channel is closed. *)
Definition leaving (c : nat) (cl : WSClient) (h : WSHub) : Prop :=
  c ∈ unregister h \/ pc h = Unregistering c \/ closed cl = true.

Record tally (h : WSHub) (os : list (nat * WSEvent.t)) : Prop := {
  ta_none c : conns h !! c = None -> offeredTo c os = [];
  ta_new c cl : c ∈ register h -> conns h !! c = Some cl -> cl = newClient /\ offeredTo c os = [];
  ta_known c cl : conns h !! c = Some cl -> closed cl = false -> entering c h \/ c ∈ clients h;
  ta_gone c : c ∈ unregister h \/ pc h = Unregistering c -> c ∉ register h /\ is_Some (conns h !! c);
  ta_log c cl : conns h !! c = Some cl -> writing cl <> Off ->
    handed cl `sublist_of` offeredTo c os /\ (handed cl = offeredTo c os \/ leaving c cl h)
}.

Lemma offeredTo_app c os os' : offeredTo c (os ++ os') = offeredTo c os ++ offeredTo c os'.
Proof. unfold offeredTo. by rewrite filter_app, fmap_app. Qed.

Lemma offeredTo_self c e : offeredTo c [(c, e)] = [e].
Proof. unfold offeredTo. by rewrite filter_cons_True. Qed.

Lemma offeredTo_other c x e : x <> c -> offeredTo x [(c, e)] = [].
Proof. intros H. unfold offeredTo. by rewrite filter_cons_False by (cbn; congruence). Qed.

(** Steps that touch neither channels nor registrations. *)
Lemma tally_frame h h' os :
  conns h' = conns h -> register h' = register h -> unregister h' = unregister h -> clients h' = clients h ->
  (forall c, pc h = Registering c <-> pc h' = Registering c) -> (forall c, pc h = Unregistering c <-> pc h' = Unregistering c) ->
  tally h os -> tally h' os.
Proof.
  intros Hc Hr Hu Hcl Hp1 Hp2 [T1 T2 T3 T4 T5]. unfold entering, leaving in *.
  split; unfold entering, leaving; rewrite ?Hc, ?Hr, ?Hu, ?Hcl; try done.
  - intros c cl. rewrite <- Hp1. apply T3.
  - intros c. rewrite <- Hp2. apply T4.
  - intros c cl. rewrite <- Hp2. apply T5.
Qed.

(** A change of one connection by its own goroutines. *)
Definition quiet_pump (f : WSClient -> option WSClient) : Prop :=
  f newClient = None /\
  forall cl cl', f cl = Some cl' -> closed cl' = closed cl /\ (writing cl' <> Off -> writing cl <> Off /\ handed cl' = handed cl).

Lemma tally_onClient c f h h' os :
  quiet_pump f -> tally h os -> onClient c f h = Some (Ok h') -> tally h' os /\ c ∉ register h.
Proof.
  intros [Hnew Hf] T. unfold onClient. destruct (conns h !! c) as [cl|] eqn:Hcl; [|done]. cbn.
  destruct (f cl) as [cl'|] eqn:Ef; [|done]. intros [= <-]. destruct (Hf _ _ Ef) as [Hclosed Hh].
  assert (Hreg : c ∉ register h) by (intros Hr; destruct (ta_new h os T c cl Hr Hcl) as [-> _]; congruence).
  split; [|done]. split; cbn.
  - intros x. destruct (decide (x = c)) as [->|Hne]; [by rewrite lookup_insert_eq|]. rewrite lookup_insert_ne by done. apply T.
  - intros x cl0 Hx. rewrite lookup_insert_ne by (by intros <-). by apply T.
  - intros x cl0. destruct (decide (x = c)) as [->|Hne].
    + rewrite lookup_insert_eq. intros [= <-] Ho. apply (ta_known h os T c cl Hcl). congruence.
    + rewrite lookup_insert_ne by done. apply T.
  - intros x Hx. destruct (ta_gone h os T x Hx) as [H1 H2]. split; [done|]. destruct (decide (x = c)) as [->|Hne].
    + rewrite lookup_insert_eq. by eexists.
    + by rewrite lookup_insert_ne.
  - intros x cl0. destruct (decide (x = c)) as [->|Hne].
    + rewrite lookup_insert_eq. intros [= <-] Hw. destruct (Hh Hw) as [Hw' ->].
      destruct (ta_log h os T c cl Hcl Hw') as [H1 H2]. split; [done|]. unfold leaving in *. cbn. by rewrite Hclosed.
    + rewrite lookup_insert_ne by done. apply T.
Qed.

Lemma quiet_read msg : quiet_pump (fun cl => if reading cl then Some (onMessage msg cl) else None).
Proof.
  split; [done|]. intros cl cl'. destruct (reading cl); [|done]. intros [= <-]. unfold onMessage.
  destruct msg; [|done]. by repeat case_bool_decide.
Qed.
Lemma quiet_error : quiet_pump (fun cl => if reading cl then Some (set_reading false cl) else None).
Proof. split; [done|]. intros cl cl'. destruct (reading cl); [|done]. by intros [= <-]. Qed.
Lemma quiet_next : quiet_pump writeNext.
Proof.
  split; [done|]. intros [buf cd tp rd [| |fr] frs] cl'; unfold writeNext; cbn; destruct buf as [|e rest]; try done.
  - destruct cd; [|done]. by intros [= <-].
  - by intros [= <-].
Qed.
Lemma quiet_frame r : quiet_pump (writeFrame r).
Proof.
  split; [done|]. intros [buf cd tp rd [| |fr] frs] cl'; unfold writeFrame, handed; cbn; try done.
  destruct r; intros [= <-]; cbn; (split; [done|]); try done.
  intros _. split; [done|]. rewrite concat_app. cbn. by rewrite !app_nil_r.
Qed.
Lemma quiet_ping ok : quiet_pump (ping ok).
Proof. split; [done|]. intros [buf cd tp rd [| |fr] frs] cl'; unfold ping; cbn; try done. destruct ok; by intros [= <-]. Qed.
#[local] Hint Resolve quiet_read quiet_error quiet_next quiet_frame quiet_ping : core.

Lemma tally_unregister c h os : c ∉ register h -> is_Some (conns h !! c) -> tally h os -> tally (set_unregister (unregister h ++ [c]) h) os.
Proof.
  intros Hr Hs [T1 T2 T3 T4 T5]. split; cbn; try done.
  - intros x [[Hx| ->%list_elem_of_singleton]%elem_of_app|Hx]; [apply T4; by left | done | apply T4; by right].
  - intros x cl Hx Hw. destruct (T5 x cl Hx Hw) as [H1 [H2|H2]]; (split; [done|]); [by left|].
    right. unfold leaving in *. cbn. rewrite elem_of_app. tauto.
Qed.

Lemma tally_trySend c e h h' os :
  hub_ok h -> c ∈ clients h -> tally h os -> trySend c e h = Ok h' -> tally h' (os ++ [(c, e)]).
Proof.
  intros H Hc T. destruct (ok_member h H c Hc) as (cl & Hcl & Ho).
  assert (Hreg : c ∉ register h) by (intros Hr; by apply (ok_entering h H c (or_introl Hr))).
  unfold trySend. rewrite Hcl, Ho. destruct (zlen (send cl) <? sendCap); intros [= <-].
  - split; cbn.
    + intros x. destruct (decide (x = c)) as [->|Hne]; [by rewrite lookup_insert_eq|]. rewrite lookup_insert_ne by done.
      intros Hx. rewrite offeredTo_app, offeredTo_other, app_nil_r by done. by apply T.
    + intros x cl0 Hx. assert (x <> c) by (by intros ->). rewrite lookup_insert_ne by done.
      rewrite offeredTo_app, offeredTo_other, app_nil_r by done. by apply T.
    + intros x cl0. destruct (decide (x = c)) as [->|Hne]; [rewrite lookup_insert_eq; intros _ _; by right|].
      rewrite lookup_insert_ne by done. apply T.
    + intros x Hx. destruct (ta_gone h os T x Hx) as [H1 H2]. split; [done|]. destruct (decide (x = c)) as [->|Hne].
      * rewrite lookup_insert_eq. by eexists.
      * by rewrite lookup_insert_ne.
    + intros x cl0. destruct (decide (x = c)) as [->|Hne].
      * rewrite lookup_insert_eq. intros [= <-] Hw. destruct (ta_log h os T c cl Hcl Hw) as [H1 H2].
        assert (Hh : handed (set_send (send cl ++ [e]) cl) = handed cl ++ [e]) by (unfold handed; cbn; by rewrite !app_assoc).
        rewrite Hh, offeredTo_app, offeredTo_self. split; [by apply sublist_app|].
        destruct H2 as [->|H2]; [by left | by right].
      * rewrite lookup_insert_ne by done. rewrite offeredTo_app, offeredTo_other, app_nil_r by done. apply T.
  - assert (T' := tally_unregister c h os Hreg (ex_intro _ cl Hcl) T). destruct T' as [T1 T2 T3 T4 T5]. split; [| |exact T3|exact T4|].
    + intros x Hx. rewrite offeredTo_app, offeredTo_other, app_nil_r by (intros ->; cbn in Hx; congruence). by apply T1.
    + intros x cl0 Hx Hx'. assert (x <> c) by (intros ->; cbn in Hx; done).
      rewrite offeredTo_app, offeredTo_other, app_nil_r by done. by apply T2.
    + intros x cl0 Hx Hw. destruct (T5 x cl0 Hx Hw) as [H1 H2]. rewrite offeredTo_app.
      destruct (decide (x = c)) as [->|Hne].
      * split; [by apply sublist_inserts_r|]. right. left. cbn. set_solver.
      * rewrite offeredTo_other, app_nil_r by done. done.
Qed.

Lemma remove1_keep x c l : x ∈ l -> x <> c -> x ∈ remove1 c l.
Proof. induction l as [|y l IH]; cbn; [done|]. case_decide; set_solver. Qed.

Lemma tally_connect c h os :
  hub_ok h -> conns h !! c = None -> tally h os ->
  tally (set_register (register h ++ [c]) (set_conns (<[c := newClient]> (conns h)) h)) os.
Proof.
  intros H Hc T.
  assert (Hreg : c ∉ register h) by (intros Hr; destruct (ok_entering h H c (or_introl Hr)) as [_ (cl & E & _)]; congruence).
  split; cbn.
  - intros x. destruct (decide (x = c)) as [->|Hne]; [by rewrite lookup_insert_eq|]. rewrite lookup_insert_ne by done. apply T.
  - intros x cl [Hx| ->%list_elem_of_singleton]%elem_of_app.
    + rewrite lookup_insert_ne by (by intros <-). by apply T.
    + rewrite lookup_insert_eq. intros [= <-]. split; [done | by apply T].
  - intros x cl. unfold entering. cbn. destruct (decide (x = c)) as [->|Hne]; [intros _ _; left; left; set_solver|].
    rewrite lookup_insert_ne by done. intros Hx Ho. destruct (ta_known h os T x cl Hx Ho) as [[?|?]|?]; [left; left; set_solver | by left; right | by right].
  - intros x Hx. destruct (ta_gone h os T x Hx) as [H1 [cl H2]]. assert (x <> c) by (intros ->; congruence).
    rewrite lookup_insert_ne by done. split; [set_solver | by exists cl].
  - intros x cl. destruct (decide (x = c)) as [->|Hne]; [rewrite lookup_insert_eq; by intros [= <-]|].
    rewrite lookup_insert_ne by done. apply T.
Qed.

Lemma tally_enter c h os :
  hub_ok h -> pc h = Select -> c ∈ register h -> tally h os ->
  tally (set_pc (Registering c) (set_register (remove1 c (register h)) (set_conns (alter startPumps c (conns h)) h))) os.
Proof.
  intros H Hpc Hc T. destruct (remove1_NoDup c (register h) (ok_register h H)) as [_ Hnc].
  destruct (ok_entering h H c (or_introl Hc)) as [_ (cl0 & Hcl & _)]. destruct (ta_new h os T c cl0 Hc Hcl) as [-> Hnil].
  split; cbn.
  - intros x. destruct (decide (x = c)) as [->|Hne]; [by rewrite lookup_alter_eq, Hcl|]. rewrite lookup_alter_ne by done. apply T.
  - intros x cl Hx. rewrite lookup_alter_ne by (by intros <-). apply T. by eapply remove1_elem.
  - intros x cl. unfold entering. cbn. destruct (decide (x = c)) as [->|Hne]; [intros _ _; by left; right|].
    rewrite lookup_alter_ne by done. intros Hx Ho.
    destruct (ta_known h os T x cl Hx Ho) as [[?|?]|?]; [left; left; by apply remove1_keep | congruence | by right].
  - intros x [Hx|[=]]. destruct (ta_gone h os T x (or_introl Hx)) as [H1 H2]. split; [by intros ?%remove1_elem|].
    rewrite lookup_alter_ne by (by intros <-). done.
  - intros x cl. destruct (decide (x = c)) as [->|Hne].
    + rewrite lookup_alter_eq, Hcl. intros [= <-] _. rewrite Hnil. split; [done | by left].
    + rewrite lookup_alter_ne by done. intros Hx Hw. destruct (ta_log h os T x cl Hx Hw) as [H1 H2]. split; [done|].
      unfold leaving in *. cbn. destruct H2 as [?|[?|[?|?]]]; [by left | by right; left | congruence | by right; right; right].
Qed.

Lemma tally_leave c h os :
  pc h = Select -> c ∈ unregister h -> tally h os ->
  tally (set_pc (Unregistering c) (set_unregister (remove1 c (unregister h)) h)) os.
Proof.
  intros Hpc Hc [T1 T2 T3 T4 T5]. split; cbn; try done.
  - intros x cl Hx Ho. destruct (T3 x cl Hx Ho) as [[?|?]|?]; [by left; left | congruence | by right].
  - intros x [Hx|[= <-]]; [apply T4; left; by eapply remove1_elem | apply T4; by left].
  - intros x cl Hx Hw. destruct (T5 x cl Hx Hw) as [H1 H2]. split; [done|]. unfold leaving in *. cbn.
    destruct H2 as [?|[?|[?|?]]]; [by left | | congruence | by right; right; right]. right.
    destruct (decide (x = c)) as [->|]; [by right; left | left; by apply remove1_keep].
Qed.

Lemma tally_locked h h' os : tally h os -> runLocked h = Some (Ok h') -> tally h' os.
Proof.
  intros T. unfold runLocked. destruct (pc h) as [|c|c| |] eqn:Epc; try done.
  - intros [= <-]. destruct T as [T1 T2 T3 T4 T5]. split; cbn; try done.
    + intros x cl Hx Ho. destruct (T3 x cl Hx Ho) as [[?|E]|?]; [by left; left | right | right; set_solver].
      rewrite Epc in E. injection E as ->. set_solver.
    + intros x [Hx|[=]]. apply T4. by left.
    + intros x cl Hx Hw. destruct (T5 x cl Hx Hw) as [H1 [?|[?|[?|?]]]]; (split; [done|]);
        [by left | right; by left | congruence | right; by right; right].
  - case_bool_decide as Hc.
    + destruct (conns h !! c) as [cl0|] eqn:Hcl; [|done]. destruct (closed cl0) eqn:Ho; [done|]. intros [= <-].
      split; cbn.
      * intros x. destruct (decide (x = c)) as [->|Hne]; [by rewrite lookup_insert_eq|]. rewrite lookup_insert_ne by done. apply T.
      * intros x cl Hx. assert (x <> c) by (intros ->; by apply (ta_gone h os T c (or_intror Epc))).
        rewrite lookup_insert_ne by done. by apply T.
      * intros x cl. destruct (decide (x = c)) as [->|Hne]; [rewrite lookup_insert_eq; by intros [= <-]|].
        rewrite lookup_insert_ne by done. intros Hx Ho'. unfold entering. cbn.
        destruct (ta_known h os T x cl Hx Ho') as [[?|?]|?]; [by left; left | congruence | right; set_solver].
      * intros x [Hx|[=]]. destruct (ta_gone h os T x (or_introl Hx)) as [H1 H2]. split; [done|].
        destruct (decide (x = c)) as [->|Hne]; [rewrite lookup_insert_eq; by eexists | by rewrite lookup_insert_ne].
      * intros x cl. destruct (decide (x = c)) as [->|Hne].
        -- rewrite lookup_insert_eq. intros [= <-] Hw. destruct (ta_log h os T c cl0 Hcl Hw) as [H1 _].
           split; [exact H1 | right; by right; right].
        -- rewrite lookup_insert_ne by done. intros Hx Hw.
           destruct (ta_log h os T x cl Hx Hw) as [H1 [?|[?|[?|?]]]]; (split; [done|]);
             [by left | right; by left | congruence | right; by right; right].
    + intros [= <-]. pose proof T as [T1 T2 T3 T4 T5]. split; cbn; try done.
      * intros x cl Hx Ho. destruct (T3 x cl Hx Ho) as [[?|?]|?]; [by left; left | congruence | by right].
      * intros x [Hx|[=]]. apply T4. by left.
      * intros x cl Hx Hw. destruct (T5 x cl Hx Hw) as [H1 H2]. split; [done|].
        destruct H2 as [?|[?|[E|?]]]; [by left | right; by left | | right; by right; right].
        right. right. right. rewrite Epc in E. injection E as <-. destruct (closed cl) eqn:Ho; [done|].
        destruct (T3 c cl Hx Ho) as [[?|?]|?]; [|congruence|done]. by destruct (T4 c (or_intror Epc)).
Qed.

Lemma step_tally a h h' os : hub_ok h -> tally h os -> hubStep a h = Some (Ok h') -> tally h' (os ++ offer a h).
Proof.
  intros H T. destruct a as [c|c|c| |order| | |e|campaign e order|i|c msg|c|c|c fr|c ok]; cbn [hubStep offer];
    rewrite ?app_nil_r.
  - intros [Hc [= ->]]%guarded_inv. by apply tally_connect.
  - intros [Hpc [Hc [= ->]]%guarded_inv]%selecting_inv. by apply tally_enter.
  - intros [Hpc [Hc [= ->]]%guarded_inv]%selecting_inv. by apply tally_leave.
  - destruct (decide (loops h = [])); [|done]. by apply tally_locked.
  - intros [Hpc E]%selecting_inv. destruct (broadcast h) as [|e rest] eqn:Eb; [done|].
    apply guarded_inv in E as [Hv [= ->]]. by eapply tally_frame; [.. | exact T]; try done; intros c; cbn; rewrite Hpc.
  - unfold runDeliver. destruct (pc h) as [| | |e [|c rest]|] eqn:Epc; try done.
    + intros [= <-]. rewrite app_nil_r. by eapply tally_frame; [.. | exact T]; try done; intros c; cbn; rewrite Epc.
    + intros [= E]. destruct (hub_ok_visit e c rest h H Epc) as [H1 Hc]. eapply tally_trySend; [exact H1 | done | | exact E].
      by eapply tally_frame; [.. | exact T]; try done; intros x; cbn; rewrite Epc.
  - intros [Hpc [= <-]]%selecting_inv. by eapply tally_frame; [.. | exact T]; try done; intros c; cbn; rewrite Hpc.
  - intros [= <-]. unfold Broadcast. destruct (_ <? _); [|done]. by eapply tally_frame; [.. | exact T].
  - intros [Hv [= ->]]%guarded_inv. by eapply tally_frame; [.. | exact T].
  - destruct (loops h !! i) as [l|] eqn:El; [|done]. cbn. destruct (lp_rest l) as [|c rest] eqn:Er.
    + intros [= <-]. destruct l as [camp e r]. cbn in Er. subst r. rewrite app_nil_r. by eapply tally_frame; [.. | exact T].
    + intros [= E]. destruct (hub_ok_loop i l c rest h H El Er) as [H1 Hc].
      assert (T1 : tally (set_loops (<[i := mkLoop (lp_campaign l) (lp_event l) rest]> (loops h)) h) os) by (by eapply tally_frame; [.. | exact T]).
      revert E. unfold campaignSend. cbn [conns set_loops]. destruct l as [camp e r]. cbn in Er. subst r. cbn [lp_campaign lp_event] in *.
      destruct (conns h !! c) as [cl|]; [|done]. destruct (watches camp cl).
      * intros E. by eapply tally_trySend; [exact H1 | | | exact E].
      * intros [= <-]. by rewrite app_nil_r.
  - intros E. by eapply tally_onClient in E as [? _].
  - intros E. destruct (onClient c (fun cl => if reading cl then Some (set_reading false cl) else None) h) as [r|] eqn:E1;
      unfold onClient in E, E1; cbn [conns set_unregister] in E; destruct (conns h !! c) as [cl|] eqn:Hcl; try done; cbn in E, E1;
      destruct (reading cl) eqn:Hr; try done. injection E as <-.
    destruct (tally_onClient c _ h (set_conns (<[c := set_reading false cl]> (conns h)) h) os quiet_error T) as [T1 Hreg].
    { unfold onClient. rewrite Hcl. cbn. by rewrite Hr. }
    refine (tally_unregister c (set_conns (<[c := set_reading false cl]> (conns h)) h) os Hreg _ T1). cbn. rewrite lookup_insert_eq. by eexists.
  - intros E. by eapply tally_onClient in E as [? _].
  - intros E. by eapply tally_onClient in E as [? _].
  - intros E. by eapply tally_onClient in E as [? _].
Qed.

Lemma NewWSHub_tally : tally NewWSHub [].
Proof. split; cbn; try done. by intros c [?%not_elem_of_nil|[=]]. Qed.

Lemma run_tally acts h0 h os : hub_ok h0 -> tally h0 os -> hubRun acts h0 = Some (Ok h) -> tally h (os ++ offers acts h0).
Proof.
  revert h0 os. induction acts as [|a acts IH]; intros h0 os H T E; cbn in *.
  { injection E as <-. by rewrite app_nil_r. }
  destruct (hubStep a h0) as [[h1|e|p]|] eqn:Es; [|done..]. destruct (step_ok a h0 _ H Es) as (h2 & [= <-] & H1).
  rewrite app_assoc. apply IH; [done | by eapply step_tally | done].
Qed.

(** C35: delivery is in order and complete.  However the goroutines are scheduled, what went through the channel of a
    connected client is a subsequence of the events the broadcasting loops offered it, in their order; and it is all
    of them unless the client is already on its way out, waiting to be unregistered or closed.  So a client
    that stays connected misses nothing, and one that cannot keep up is disconnected. *)
Theorem connected_client_misses_nothing acts h c cl :
  hubRun acts NewWSHub = Some (Ok h) -> conns h !! c = Some cl -> writing cl <> Off ->
  handed cl `sublist_of` offeredTo c (offers acts NewWSHub) /\
  (handed cl = offeredTo c (offers acts NewWSHub) \/ leaving c cl h).
Proof.
  intros E Hc Hw. pose proof (run_tally acts NewWSHub h [] NewWSHub_ok NewWSHub_tally E) as T.
  exact (ta_log _ _ T c cl Hc Hw).
Qed.

(** ** A client on its way out is closed *)

(** What the delivery loops leave alone. *)
Definition delivers (h h' : WSHub) : Prop :=
  pc h' = pc h /\ loops h' = loops h /\ (forall c, c ∈ unregister h -> c ∈ unregister h').

Lemma trySend_delivers c e h h' : trySend c e h = Ok h' -> delivers h h'.
Proof.
  unfold trySend, delivers. destruct (conns h !! c) as [cl|]; [|done]. destruct (closed cl); [done|].
  destruct (_ <? _); intros [= <-]; (split; [done|]); (split; [done|]); intros x Hx; [done | cbn; set_solver].
Qed.

Lemma campaignSend_delivers l c h h' : campaignSend l c h = Ok h' -> delivers h h'.
Proof.
  unfold campaignSend. destruct (conns h !! c) as [cl|]; [|done]. destruct (watches _ _); [apply trySend_delivers|].
  by intros [= <-].
Qed.

Lemma run_cons a acts h h1 r : hubStep a h = Some (Ok h1) -> hubRun acts h1 = r -> hubRun (a :: acts) h = r.
Proof. intros E <-. cbn. by rewrite E. Qed.

Lemma run_app acts acts' h h1 r : hubRun acts h = Some (Ok h1) -> hubRun acts' h1 = r -> hubRun (acts ++ acts') h = r.
Proof.
  revert h. induction acts as [|a acts IH]; intros h E Hr; cbn in *; [by injection E as ->|].
  destruct (hubStep a h) as [[h2| |]|]; [by apply IH | done..].
Qed.

Lemma loop_ends h l ls :
  hub_ok h -> loops h = l :: ls ->
  exists acts h', hubRun acts h = Some (Ok h') /\ loops h' = ls /\ pc h' = pc h /\ (forall c, c ∈ unregister h -> c ∈ unregister h').
Proof.
  destruct l as [camp e rest]. revert h. induction rest as [|c rest IH]; intros h H El.
  - exists [LoopStep 0], (set_loops ls h). split; [|done]. cbn. by rewrite El.
  - assert (Hl : loops h !! 0%nat = Some (mkLoop camp e (c :: rest))) by (by rewrite El).
    destruct (hub_ok_loop 0 _ c rest h H Hl eq_refl) as [H1 Hc].
    destruct (campaignSend_ok (mkLoop camp e (c :: rest)) c _ H1 Hc) as (h1 & Hs & H2).
    pose proof (campaignSend_delivers _ _ _ _ Hs) as (Hpc & Hlo & Hu).
    destruct (IH h1 H2) as (acts & h' & Hrun & Hl' & Hp' & Hu'); [rewrite Hlo; cbn; by rewrite El|].
    exists (LoopStep 0 :: acts), h'. split; [|split; [done|]; split; [by rewrite Hp', Hpc | auto]].
    eapply run_cons; [|exact Hrun]. cbn [hubStep]. rewrite Hl. cbn [mbind option_bind lp_rest]. by f_equal.
Qed.

Lemma loops_end h :
  hub_ok h -> exists acts h', hubRun acts h = Some (Ok h') /\ loops h' = [] /\ pc h' = pc h /\ (forall c, c ∈ unregister h -> c ∈ unregister h').
Proof.
  remember (loops h) as ls eqn:El. revert h El. induction ls as [|l ls IH]; intros h El H; [by exists [], h|].
  destruct (loop_ends h l ls H (eq_sym El)) as (acts & h1 & Hrun & Hl & Hp & Hu).
  destruct (run_ok acts h _ H Hrun) as (? & [= <-] & H1).
  destruct (IH h1 (eq_sym Hl) H1) as (acts' & h' & Hrun' & Hl' & Hp' & Hu').
  exists (acts ++ acts'), h'. split; [by eapply run_app|]. split; [done|]. split; [congruence | auto].
Qed.

(** The loop of [Run] comes back to its select. *)
Lemma run_selects h :
  hub_ok h -> loops h = [] -> pc h <> Returned -> (forall c, pc h <> Unregistering c) ->
  exists acts h', hubRun acts h = Some (Ok h') /\ loops h' = [] /\ pc h' = Select /\ (forall c, c ∈ unregister h -> c ∈ unregister h').
Proof.
  intros H Hl Hr Hu. destruct (pc h) as [|c|c|e rest|] eqn:Epc; [by exists [], h | | by apply Hu in Epc || by destruct (Hu c) | | done].
  - exists [RunLocked], (set_pc Select (set_clients ({[c]} ∪ clients h) h)). split; [|done]. cbn. rewrite Hl. unfold runLocked. by rewrite Epc.
  - clear Hu Hr. revert h H Hl Epc. induction rest as [|c rest IH]; intros h H Hl Epc.
    + exists [RunDeliver], (set_pc Select h). split; [|done]. cbn. unfold runDeliver. by rewrite Epc.
    + destruct (hub_ok_visit e c rest h H Epc) as [H1 Hc]. destruct (trySend_ok c e _ H1 Hc) as (h1 & Hs & H2).
      pose proof (trySend_delivers _ _ _ _ Hs) as (Hp & Hlo & Hu).
      destruct (IH h1 H2) as (acts & h' & Hrun & Hrest); [by rewrite Hlo | by rewrite Hp|].
      exists (RunDeliver :: acts), h'. split; [|by destruct Hrest as (? & ? & ?); auto].
      eapply run_cons; [|exact Hrun]. cbn. unfold runDeliver. rewrite Epc. by f_equal.
Qed.

Lemma unregister_closes c h os :
  hub_ok h -> tally h os -> loops h = [] -> pc h = Unregistering c ->
  exists h' cl', hubStep RunLocked h = Some (Ok h') /\ conns h' !! c = Some cl' /\ closed cl' = true /\
    loops h' = [] /\ pc h' = Select /\ unregister h' = unregister h.
Proof.
  intros H T Hl Epc. cbn [hubStep]. rewrite Hl. unfold runLocked. rewrite Epc. cbn [decide]. case_bool_decide as Hc.
  - destruct (ok_member h H c Hc) as (cl & Hcl & Ho). rewrite Hcl, Ho. eexists _, (set_closed true cl). split; [reflexivity|].
    cbn. by rewrite lookup_insert_eq.
  - destruct (ta_gone h os T c (or_intror Epc)) as [Hreg [cl Hcl]]. exists (set_pc Select h), cl.
    split; [reflexivity|]. split; [done|]. split; [|done]. destruct (closed cl) eqn:Ho; [done|].
    destruct (ta_known h os T c cl Hcl Ho) as [[?|?]|?]; [done | congruence | done].
Qed.

(** From the select on: [c] is taken and closed. *)
Lemma select_closes c h os :
  hub_ok h -> tally h os -> loops h = [] -> pc h = Select -> c ∈ unregister h ->
  exists acts h' cl', hubRun acts h = Some (Ok h') /\ conns h' !! c = Some cl' /\ closed cl' = true.
Proof.
  intros H T Hl Epc Hc. set (h1 := set_pc (Unregistering c) (set_unregister (remove1 c (unregister h)) h)).
  assert (Hs : hubStep (RunUnregister c) h = Some (Ok h1)).
  { cbn [hubStep]. unfold selecting, guarded. rewrite Epc. by rewrite decide_True. }
  destruct (step_ok _ _ _ H Hs) as (? & [= <-] & H1).
  destruct (unregister_closes c h1 os H1 (tally_leave c h os Epc Hc T) Hl eq_refl) as (h' & cl' & Hs' & Hcl & Hcd & _).
  exists [RunUnregister c; RunLocked], h', cl'. split; [|done]. eapply run_cons; [exact Hs|]. by eapply run_cons; [exact Hs'|].
Qed.

(** A client on its way out can always be closed.  From every state the hub reaches, unless its context was
    cancelled, some further steps of the hub and of the broadcasting loops, which never block, close the channel of
    any given client that is waiting to be unregistered. *)
Theorem leaving_client_closes acts0 h c cl :
  hubRun acts0 NewWSHub = Some (Ok h) -> pc h <> Returned -> conns h !! c = Some cl -> leaving c cl h ->
  exists acts h' cl', hubRun acts h = Some (Ok h') /\ conns h' !! c = Some cl' /\ closed cl' = true.
Proof.
  intros E0 Hr Hc Hlv. destruct (run_ok _ _ _ NewWSHub_ok E0) as (? & [= <-] & H).
  pose proof (run_tally _ _ _ [] NewWSHub_ok NewWSHub_tally E0) as T. set (os := [] ++ offers acts0 NewWSHub) in T.
  destruct Hlv as [Hu|Hlv]; [|destruct (decide (closed cl = true)) as [Hcd|Hcd]; [by exists [], h, cl|]].
  - destruct (loops_end h H) as (acts1 & h1 & E1 & Hl1 & Hp1 & Hu1).
    destruct (run_ok _ _ _ H E1) as (? & [= <-] & H1). pose proof (run_tally _ _ _ os H T E1) as T1.
    assert (Hsel : exists acts2 h2, hubRun acts2 h1 = Some (Ok h2) /\ loops h2 = [] /\ pc h2 = Select /\ c ∈ unregister h2).
    { assert (Hother : (forall x, pc h1 <> Unregistering x) ->
        exists acts2 h2, hubRun acts2 h1 = Some (Ok h2) /\ loops h2 = [] /\ pc h2 = Select /\ c ∈ unregister h2).
      { intros Hno. destruct (run_selects h1 H1 Hl1) as (acts2 & h2 & E2 & Hl2 & Hp2 & Hu2); [by rewrite Hp1 | done|].
        exists acts2, h2. split_and!; [done..|]. by apply Hu2, Hu1. }
      destruct (pc h1) as [|x|x|e rest|] eqn:Ep; [by apply Hother..| |by apply Hother|by apply Hother].
      destruct (unregister_closes x h1 _ H1 T1 Hl1 Ep) as (h2 & cl2 & Hs & _ & _ & Hl2 & Hp2 & Hu2).
      exists [RunLocked], h2. split; [by eapply run_cons; [exact Hs|]|]. rewrite Hu2. split_and!; [done..|]. by apply Hu1. }
    destruct Hsel as (acts2 & h2 & E2 & Hl2 & Hp2 & Hu2).
    destruct (run_ok _ _ _ H1 E2) as (? & [= <-] & H2). pose proof (run_tally _ _ _ _ H1 T1 E2) as T2.
    destruct (select_closes c h2 _ H2 T2 Hl2 Hp2 Hu2) as (acts3 & h3 & cl3 & E3 & Hcl3).
    exists (acts1 ++ acts2 ++ acts3), h3, cl3. split; [|done]. eapply run_app; [exact E1|]. by eapply run_app.
  - destruct Hlv as [Epc|Hcd']; [|done]. destruct (loops_end h H) as (acts1 & h1 & E1 & Hl1 & Hp1 & _).
    destruct (run_ok _ _ _ H E1) as (? & [= <-] & H1). pose proof (run_tally _ _ _ os H T E1) as T1.
    destruct (unregister_closes c h1 _ H1 T1 Hl1) as (h2 & cl2 & Hs & Hcl2 & Hcd2 & _); [by rewrite Hp1|].
    exists (acts1 ++ [RunLocked]), h2, cl2. split; [|done]. eapply run_app; [exact E1|]. by eapply run_cons; [exact Hs|].
Qed.

(** *** Witnesses: one client reads, another never does and is overrun. *)

Module HubWitness.
Definition event (campaignID : string) : WSEvent.t := WSEvent.mk "campaign_progress" campaignID "" [].
Definition connect (c : nat) : list action := [Connect c; RunRegister c; RunLocked].
(** The event goes to both clients; client 0 writes it to its connection. *)
Definition round : list action :=
  [Publish (event "camp-1"); RunBroadcast [0; 1]%nat; RunDeliver; RunDeliver; RunDeliver; WriteNext 0; WriteFrame 0 Written].
Definition schedule : list action :=
  connect 0 ++ connect 1 ++ [ReadMessage 0 (Some {| Action := "subscribe"; Topic := "campaign:camp-2" |})] ++
  concat (replicate 257 round) ++
  [PublishTo "camp-2" (event "camp-2") [1; 0]%nat; LoopStep 0; LoopStep 0; PublishTo "camp-3" (event "camp-3") [0; 1]%nat; LoopStep 0; LoopStep 0].
Definition hub : WSHub := match hubRun schedule NewWSHub with Some (Ok h) => h | _ => NewWSHub end.
Definition client (c : nat) : WSClient := default newClient (conns hub !! c).
End HubWitness.

Lemma hub_never_panics_witness :
  (exists h, hubRun HubWitness.schedule NewWSHub = Some (Ok h) /\ hub_ok h) /\ zlen (send (HubWitness.client 1)) = sendCap.
Proof.
  split; [|by vm_compute].
  assert (E : hubRun HubWitness.schedule NewWSHub = Some (Ok HubWitness.hub)) by (by vm_compute).
  destruct (hub_never_panics HubWitness.schedule _ E) as (h & Hh & Hok). exists h. rewrite E, Hh. by split.
Defined.

Lemma connected_client_misses_nothing_witness :
  handed (HubWitness.client 0) = offeredTo 0 (offers HubWitness.schedule NewWSHub) /\
  zlen (handed (HubWitness.client 0)) = 258 /\ leaving 1 (HubWitness.client 1) HubWitness.hub.
Proof.
  assert (E : hubRun HubWitness.schedule NewWSHub = Some (Ok HubWitness.hub)) by (by vm_compute).
  split; [|split; [by vm_compute|left; vm_compute; by left]].
  destruct (connected_client_misses_nothing HubWitness.schedule HubWitness.hub 0 (HubWitness.client 0) E) as [_ [H|H]];
    [by vm_compute | by vm_compute | exact H |].
  exfalso. destruct H as [H|[H|H]]; [|by vm_compute in H..].
  by apply (bool_decide_unpack (0%nat ∉ unregister HubWitness.hub)) in H; [|vm_compute].
Defined.

Lemma leaving_client_closes_witness :
  exists acts h' cl', hubRun acts HubWitness.hub = Some (Ok h') /\ conns h' !! 1%nat = Some cl' /\ closed cl' = true.
Proof.
  apply (leaving_client_closes HubWitness.schedule HubWitness.hub 1 (HubWitness.client 1)).
  - by vm_compute.
  - by vm_compute.
  - by vm_compute.
  - left. vm_compute. by left.
Defined.
