(* ===== verification/Sql.v ===== *)
(** * Tables, statements and transactions

    What the stores of internal/pgstore, the control plane and the planner
    share of the database: the order of UUIDs, [SELECT DISTINCT ON], plain INSERT,
    gorm's [Transaction], and the table campaign_shards.

    UUIDs are their canonical text; comparing the text byte by byte is the order of
    the database on the values. *)

From S2P Require Import Prelude Effects Models Pipeline Store StateWriter.

(** ** The order of UUIDs *)

Fixpoint id_ltb (s t : string) : bool :=
  match s, t with
  | _, EmptyString => false
  | EmptyString, String _ _ => true
  | String a s, String b t =>
      (Ascii.N_of_ascii a <? Ascii.N_of_ascii b)%N ||
      ((Ascii.N_of_ascii a =? Ascii.N_of_ascii b)%N && id_ltb s t)
  end.

Definition id_lt (s t : string) : Prop := id_ltb s t = true.
Definition id_le (s t : string) : Prop := id_ltb t s = false.
#[global] Instance id_lt_dec s t : Decision (id_lt s t).
Proof. unfold id_lt. apply _. Defined.
#[global] Instance id_le_dec s t : Decision (id_le s t).
Proof. unfold id_le. apply _. Defined.

Lemma id_lt_irrefl s : ~ id_lt s s.
Proof.
  unfold id_lt. induction s as [|a s IH]; [done|]. cbn [id_ltb].
  rewrite N.ltb_irrefl, N.eqb_refl. done.
Qed.

Lemma id_lt_trans s t u : id_lt s t -> id_lt t u -> id_lt s u.
Proof.
  unfold id_lt. revert t u. induction s as [|a s IH]; intros [|b t] [|c u] H1 H2; cbn [id_ltb] in *; try done.
  apply orb_true_iff in H1, H2. rewrite !andb_true_iff, !N.ltb_lt, !N.eqb_eq in *. apply orb_true_iff.
  rewrite andb_true_iff, N.ltb_lt, N.eqb_eq.
  destruct H1 as [H1|[H1 H1']], H2 as [H2|[H2 H2']]; [left; lia..|]. right. split; [lia | eauto].
Qed.

Lemma id_trichotomy s t : id_lt s t \/ s = t \/ id_lt t s.
Proof.
  unfold id_lt. revert t. induction s as [|a s IH]; intros [|b t]; cbn [id_ltb]; [by right; left | by left | by right; right |].
  destruct (N.lt_trichotomy (Ascii.N_of_ascii a) (Ascii.N_of_ascii b)) as [H|[H|H]].
  - left. by rewrite (proj2 (N.ltb_lt _ _) H).
  - assert (a = b) as -> by (by rewrite <- (Ascii.ascii_N_embedding a), H, Ascii.ascii_N_embedding).
    rewrite N.ltb_irrefl, N.eqb_refl. cbn. destruct (IH t) as [?|[->|?]]; [by left | by right; left | by right; right].
  - right. right. by rewrite (proj2 (N.ltb_lt _ _) H).
Qed.

Lemma id_le_lteq s t : id_le s t <-> id_lt s t \/ s = t.
Proof.
  unfold id_le. split.
  - intros H. destruct (id_trichotomy s t) as [?|[?|Ht]]; [by left | by right | unfold id_lt in Ht; congruence].
  - intros [H| ->]; destruct (id_ltb t _) eqn:E; try done.
    + destruct (id_lt_irrefl s). by apply (id_lt_trans _ t).
    + by destruct (id_lt_irrefl t).
Qed.

#[global] Instance id_le_trans : Transitive id_le.
Proof. intros s t u. rewrite !id_le_lteq. intros [?| ->] [?| ->]; eauto using id_lt_trans. Qed.
#[global] Instance id_le_total : Total id_le.
Proof. intros s t. rewrite !id_le_lteq. destruct (id_trichotomy s t) as [?|[?|?]]; eauto. Qed.
#[global] Instance id_le_antisymm : AntiSymm (=) id_le.
Proof.
  intros s t. rewrite !id_le_lteq. intros [H| ->] [H'|]; try done.
  destruct (id_lt_irrefl s). by apply (id_lt_trans _ t).
Qed.

(** The distinct ids of a list, in ascending order. *)
Definition sortedIDs (l : list string) : list string := merge_sort id_le (remove_dups l).

Lemma sortedIDs_elem l x : x ∈ sortedIDs l <-> x ∈ l.
Proof. unfold sortedIDs. by rewrite merge_sort_Permutation, elem_of_remove_dups. Qed.

Lemma sortedIDs_NoDup l : NoDup (sortedIDs l).
Proof. unfold sortedIDs. rewrite merge_sort_Permutation. apply NoDup_remove_dups. Qed.

Lemma sortedIDs_sorted l : StronglySorted id_le (sortedIDs l).
Proof. apply StronglySorted_merge_sort; apply _. Qed.

(** The result depends on the set of ids only. *)
Lemma sortedIDs_ext l1 l2 : (forall x, x ∈ l1 <-> x ∈ l2) -> sortedIDs l1 = sortedIDs l2.
Proof.
  intros H. apply (StronglySorted_unique id_le); [apply sortedIDs_sorted..|].
  apply NoDup_Permutation; [apply sortedIDs_NoDup..|]. intros x. by rewrite !sortedIDs_elem.
Qed.

Lemma sortedIDs_perm l : NoDup l -> sortedIDs l ≡ₚ l.
Proof. intros Hn. apply NoDup_Permutation; [apply sortedIDs_NoDup | done | apply sortedIDs_elem]. Qed.

(** Strictly ascending: what keyset pagination relies on. *)
Lemma sortedIDs_strict l : StronglySorted id_lt (sortedIDs l).
Proof.
  pose proof (sortedIDs_NoDup l) as Hn. pose proof (sortedIDs_sorted l) as Hs.
  induction (sortedIDs l) as [|x r IH]; [constructor|].
  apply StronglySorted_inv in Hs as [Hs Hx]. apply NoDup_cons in Hn as [Hx' Hn]. constructor; [by apply IH|].
  rewrite Forall_forall in Hx |- *. intros y Hy. destruct (proj1 (id_le_lteq x y) (Hx y Hy)) as [?| ->]; done.
Qed.

(** ** SELECT DISTINCT ON (card_id) ... WHERE campaign_id = ? ORDER BY card_id, transition_seq DESC *)

Definition inCampaign (campaignID : string) (rows : list CardExecutionState.t) : list CardExecutionState.t :=
  filter (fun r => CardExecutionState.CampaignID r = campaignID) rows.

Definition latestPerCard (campaignID : string) (rows : list CardExecutionState.t) : list CardExecutionState.t :=
  omap (fun card => Coordination.latestRow card (inCampaign campaignID rows))
       (sortedIDs (CardExecutionState.CardID <$> inCampaign campaignID rows)).

(** ** INSERT and transactions *)

Section Insert.
Context {S : Type} `{!HasSys S}.

(** A plain INSERT of rows: all of them, or an error and none. *)
Definition insertRows (rows : list CardExecutionState.t) : M S Z :=
  do! table <- query card_execution_states;
  if bool_decide (NoDup (rowKey <$> table ++ rows)) then
    do! _ <- modify (fun s => set_sys (set_db (set_card_execution_states (fun t => t ++ rows) (db (sys s))) (sys s)) s);
    ret (zlen rows)
  else merr duplicateKey.
End Insert.

(** What a rollback restores. *)
Class Transactional (S : Type) := {
  tx_sys :: HasSys S;
  tables : Type;
  snapshot : S -> tables;
  restore : tables -> S -> S
}.

Section Transaction.
Context {S : Type} `{!Transactional S}.

Definition finish {A} (saved : tables) (r : res A) : M S A :=
  match r with
  | Ok a =>
      do! commit <- ask sys_fault;
      match commit with
      | None => ret a
      | Some e => do! _ <- modify (restore saved); merr e
      end
  | r => do! _ <- modify (restore saved); mres r
  end.

(** [db.Transaction(func(tx) error)]: BEGIN, the body, COMMIT or ROLLBACK. *)
Definition transaction {A} (body : M S A) : M S A :=
  do! begin <- ask sys_fault;
  match begin with
  | Some e => merr e
  | None =>
      do! saved <- gets snapshot;
      fun s => let '(r, s) := body s in finish saved r s
  end.

Class TransactionalLaws := {
  snapshot_restore t s : snapshot (restore t s) = t;
  snapshot_tick n s : snapshot (set_sys (set_tick n (sys s)) s) = snapshot s
}.

(** A transaction that does not return normally leaves the tables as they were. *)
Lemma transaction_atomic `{!TransactionalLaws} {A} (body : M S A) s r s' :
  transaction body s = (r, s') -> is_ok r = false -> snapshot s' = snapshot s.
Proof.
  unfold transaction, bindM, ask, gets. destruct (sys_fault _ _) as [e|].
  { intros [= <- <-] _. apply snapshot_tick. }
  set (s0 := set_sys _ s). assert (H0 : snapshot s0 = snapshot s) by apply snapshot_tick.
  destruct (body s0) as [[a|e|p] s1]; cbn [finish]; unfold bindM, ask, modify, mres, merr, ret.
  - destruct (sys_fault _ _) as [e|]; intros [= <- <-]; [|done]. intros _. by rewrite snapshot_restore.
  - intros [= <- <-] _. by rewrite snapshot_restore.
  - intros [= <- <-] _. by rewrite snapshot_restore.
Qed.

End Transaction.
Arguments TransactionalLaws S {_}.

#[global] Instance tx_Sys : Transactional Sys := {|
  tx_sys := HasSys_Sys; tables := Database; snapshot := db; restore := set_db
|}.
#[global] Instance tx_Sys_laws : TransactionalLaws Sys.
Proof. split; done. Qed.

(** ** Statements do not panic *)

Lemma calm_ask {S A} `{!HasSys S} (f : Sys -> nat -> A) : calm (ask f : M S A).
Proof. done. Qed.
Lemma calm_query {S A} `{!HasSys S} (f : Database -> A) : calm (query f : M S A).
Proof. apply calm_bind; [done | by intros []]. Qed.
Lemma calm_exec {S} `{!HasSys S} f : calm (exec f : M S unit).
Proof. apply calm_bind; [done | by intros []]. Qed.
Lemma calm_insertRows {S} `{!HasSys S} rows : calm (insertRows rows : M S Z).
Proof.
  apply calm_bind; [apply calm_query|]. intros t. apply calm_if; [|done]. by apply calm_bind.
Qed.
Lemma calm_transaction {S A} `{!Transactional S} (body : M S A) : calm body -> calm (transaction body).
Proof.
  intros Hb. apply calm_bind; [done|]. intros [e|]; [done|]. apply calm_bind; [done|]. intros saved s.
  specialize (Hb s). destruct (body s) as [[a|e|p] s1]; cbn in *; [|done|done].
  unfold bindM, ask. by destruct (sys_fault _ _).
Qed.
#[export] Hint Resolve calm_ask calm_query calm_exec calm_insertRows calm_transaction : calm.

(** ** A transaction without faults commits *)

Lemma transaction_run {S A} `{!Transactional S} (body : M S A) s a s1 :
  (forall n, sys_fault (sys s) n = None) -> (forall n, sys_fault (sys s1) n = None) ->
  body (set_sys (set_tick (Datatypes.S (tick (sys s))) (sys s)) s) = (Ok a, s1) ->
  transaction body s = (Ok a, set_sys (set_tick (Datatypes.S (tick (sys s1))) (sys s1)) s1).
Proof.
  intros Hf Hf1 Hb. unfold transaction, bindM, ask, gets. rewrite Hf, Hb. cbn [finish].
  unfold bindM, ask. by rewrite Hf1.
Qed.

(** ** Statements that returned normally *)

Section Inversion.
Context {S : Type} `{!Transactional S}.

Lemma transaction_inv {A} (body : M S A) s a s' :
  transaction body s = (Ok a, s') ->
  exists s1 n m, body (set_sys (set_tick n (sys s)) s) = (Ok a, s1) /\ s' = set_sys (set_tick m (sys s1)) s1.
Proof.
  unfold transaction, bindM, ask, gets. destruct (sys_fault _ _); [done|].
  set (s0 := set_sys _ s). destruct (body s0) as [[b|e|p] s1] eqn:E; cbn [finish]; unfold bindM, ask, modify, mres, merr, ret; [|done..].
  destruct (sys_fault _ _); [done|]. intros [= <- <-]. by exists s1, (Datatypes.S (tick (sys s))), (Datatypes.S (tick (sys s1))).
Qed.
End Inversion.

Lemma exec_inv f (y y' : Sys) : exec f y = (Ok tt, y') -> db y' = f (db y).
Proof. unfold exec, bindM, ask. destruct (sys_fault _ _); [done|]. by intros [= <-]. Qed.

Lemma query_inv {A} (f : Database -> A) (y : Sys) a y' : query f y = (Ok a, y') -> a = f (db y) /\ db y' = db y.
Proof. unfold query, bindM, ask. destruct (sys_fault _ _); [done|]. by intros [= <- <-]. Qed.

Lemma insertRows_inv rows (y : Sys) n y' :
  insertRows rows y = (Ok n, y') ->
  n = zlen rows /\ NoDup (rowKey <$> card_execution_states (db y) ++ rows) /\
  db y' = set_card_execution_states (fun t => t ++ rows) (db y).
Proof.
  unfold insertRows. intros H. apply bind_inv in H as (table & y1 & Hq & H).
  apply query_inv in Hq as [-> Hdb].
  destruct (bool_decide _) eqn:E; [|done]. apply bool_decide_eq_true in E.
  unfold bindM, modify, ret in H. injection H as <- <-. cbn. by rewrite Hdb.
Qed.

Lemma ask_inv {A} (f : Sys -> nat -> A) (y : Sys) a y' : ask f y = (Ok a, y') -> db y' = db y.
Proof. by intros [= <- <-]. Qed.

(** ** campaign_shards *)

(** The JSON column is represented by what [json.Unmarshal] makes of it; what
    [json.Marshal] wrote is read back. *)
Module CampaignShard.
Record t := mk {
  ID : string;
  CampaignID : string;
  Sequence : Z;
  Status : string;
  ItemCount : Z;
  Items : res (list CardEvent.t);
  ClaimedAt : option Z;
  PublishedAt : option Z;
  CreatedAt : Z;
  UpdatedAt : Z
}.
End CampaignShard.

(** UNIQUE (campaign_id, sequence), beside the primary key. *)
Definition shardKey (s : CampaignShard.t) : string * Z := (CampaignShard.CampaignID s, CampaignShard.Sequence s).

Definition shardsUnique (table : list CampaignShard.t) : Prop :=
  NoDup (CampaignShard.ID <$> table) /\ NoDup (shardKey <$> table).
#[global] Instance shardsUnique_dec table : Decision (shardsUnique table).
Proof. unfold shardsUnique. apply _. Defined.

(** [SELECT COALESCE(MAX(sequence), 0) FROM campaign_shards WHERE campaign_id = ?] *)
Definition maxSequence (campaignID : string) (table : list CampaignShard.t) : Z :=
  match CampaignShard.Sequence <$> filter (fun s => CampaignShard.CampaignID s = campaignID) table with
  | [] => 0
  | n :: l => foldl Z.max n l
  end.
