(* ===== verification/QueryStore.v ===== *)
(** * internal/pgstore: campaign state in the database

    query_store.go (the campaign part: what the control plane reads and the
    three transactions it runs on the state history) and execution_store.go.
    Both keep two tables in step: the append-only history
    card_execution_states, whose latest row per card is the card's state, and
    the counters of campaign_stats.  The message queries are in
    [MessageHistory]. *)

From S2P Require Import Prelude Effects Models Pipeline Store StateWriter Sql.

(** ** internal/store/types.go *)

Module CampaignStats.
Record t := mk {
  Total : Z;
  Pending : Z;
  InProgress : Z;
  Completed : Z;
  Failed : Z;
  Skipped : Z
}.
Definition zero : t := mk 0 0 0 0 0 0.
End CampaignStats.

Module CampaignCardView.
Record t := mk {
  CardID : string;
  Status : string;
  CurrentStep : Z;
  RetryCount : Z;
  LastMsgID : string;
  LastError : string;
  UpdatedAt : Z
}.
End CampaignCardView.

Module CardStateRecord.
Record t := mk {
  CardID : string;
  CampaignID : option string;
  Status : string;
  CurrentStep : Z;
  RetryCount : Z;
  LastMsgID : option string;
  LastSMPPMessageID : string;
  LastErrorText : string;
  UpdatedAt : Z
}.
End CardStateRecord.

(** ** Reads *)

Definition statsOfRow (row : CampaignStatsRow.t) : CampaignStats.t :=
  CampaignStats.mk (CampaignStatsRow.Total row) (CampaignStatsRow.Pending row) (CampaignStatsRow.InProgress row)
    (CampaignStatsRow.Completed row) (CampaignStatsRow.Failed row) (CampaignStatsRow.Skipped row).

Definition QueryStore_CampaignStats (campaignID : string) : M Sys CampaignStats.t :=
  do! row <- try (do! o <- query (fun d => campaign_stats d !! campaignID); first o);
  match row with
  | Err e => if bool_decide (e = ErrRecordNotFound) then ret CampaignStats.zero
             else merr (Errorf "read campaign stats: %w" [ArgErr e])
  | Panic p => mres (Panic p)
  | Ok row => ret (statsOfRow row)
  end.

(** [campaign_id IN ?]; the loop that fills the map. *)
Definition CampaignStatsBatch (campaignIDs : list string) : M Sys (gmap string CampaignStats.t) :=
  match campaignIDs with
  | [] => ret ∅
  | _ =>
      do! rows <- mwrap "batch read campaign stats: %w"
        (query (fun d => filter (fun kv => fst kv ∈ campaignIDs) (map_to_list (campaign_stats d))));
      ret (foldl (fun out kv => <[fst kv := statsOfRow (snd kv)]> out) ∅ rows)
  end.

Definition viewOfRow (r : CardExecutionState.t) : CampaignCardView.t :=
  CampaignCardView.mk (CardExecutionState.CardID r) (CardExecutionState.Status r)
    (CardExecutionState.CurrentStep r) (CardExecutionState.RetryCount r)
    (default "" (CardExecutionState.LastMsgID r)) (CardExecutionState.LastError r)
    (CardExecutionState.UpdatedAt r).

Definition newer_first (a b : CardExecutionState.t) : Prop :=
  CardExecutionState.UpdatedAt b <= CardExecutionState.UpdatedAt a.
#[global] Instance newer_first_dec a b : Decision (newer_first a b).
Proof. unfold newer_first. apply _. Defined.

Definition ListCampaignCards (campaignID statusFilter : string) : M Sys (list CampaignCardView.t) :=
  do! rows <- mwrap "list campaign cards: %w" (query (fun d =>
    let latest := latestPerCard campaignID (card_execution_states d) in
    let latest := if bool_decide (statusFilter = "") then latest
                  else filter (fun r => CardExecutionState.Status r = statusFilter) latest in
    merge_sort newer_first latest));
  ret (viewOfRow <$> rows).

Definition ListFailedCardIDs (campaignID : string) : M Sys (list string) :=
  mwrap "list failed card IDs: %w" (query (fun d =>
    CardExecutionState.CardID <$>
      filter (fun r => CardExecutionState.Status r = "failed") (latestPerCard campaignID (card_execution_states d)))).

Definition QueryStore_GetCardState (cardID : string) : M Sys (option CardStateRecord.t) :=
  do! row <- try (do! o <- query (fun d => Coordination.latestRow cardID (card_execution_states d)); first o);
  match row with
  | Err e => if bool_decide (e = ErrRecordNotFound) then ret None
             else merr (Errorf "get card state: %w" [ArgErr e])
  | Panic p => mres (Panic p)
  | Ok row =>
      ret (Some (CardStateRecord.mk (CardExecutionState.CardID row) (Some (CardExecutionState.CampaignID row))
        (CardExecutionState.Status row) (CardExecutionState.CurrentStep row) (CardExecutionState.RetryCount row)
        (CardExecutionState.LastMsgID row) (CardExecutionState.LastSMPPID row) (CardExecutionState.LastError row)
        (CardExecutionState.UpdatedAt row)))
  end.

(** ** ResetFailedCards *)

(** The row the INSERT ... SELECT appends for the latest row of a card; columns
    it does not name get their defaults. *)
Definition resetRow (step updatedAt : Z) (r : CardExecutionState.t) : CardExecutionState.t := {|
  CardExecutionState.CardID := CardExecutionState.CardID r;
  CardExecutionState.CampaignID := CardExecutionState.CampaignID r;
  CardExecutionState.Status := "pending";
  CardExecutionState.CurrentStep := step;
  CardExecutionState.RetryCount := 0;
  CardExecutionState.LastMsgID := None;
  CardExecutionState.LastSMPPID := "";
  CardExecutionState.LastError := "";
  CardExecutionState.TransitionSeq := CardExecutionState.TransitionSeq r + 1;
  CardExecutionState.UpdatedAt := updatedAt |}.

Definition resetStats (resetCount : Z) (row : CampaignStatsRow.t) : CampaignStatsRow.t :=
  {| CampaignStatsRow.Total := CampaignStatsRow.Total row;
     CampaignStatsRow.Pending := CampaignStatsRow.Pending row + resetCount;
     CampaignStatsRow.InProgress := CampaignStatsRow.InProgress row;
     CampaignStatsRow.Completed := CampaignStatsRow.Completed row;
     CampaignStatsRow.Failed := CampaignStatsRow.Failed row - resetCount;
     CampaignStatsRow.Skipped := CampaignStatsRow.Skipped row |}.

(** [WHERE campaign_id = ? AND card_id IN ?] selects the same cards before and after
    taking the latest row of each. *)
Definition resetTx (campaignID : string) (cardIDs : list string) (step updatedAt : Z) : M Sys unit :=
  do! table <- gets (fun y => card_execution_states (db y));
  let latest := filter (fun r => CardExecutionState.CardID r ∈ cardIDs) (latestPerCard campaignID table) in
  do! resetCount <- mwrap "reset card states: %w" (insertRows (resetRow step updatedAt <$> latest));
  if resetCount =? 0 then ret tt
  else mwrap "update campaign stats for reset: %w"
         (exec (set_campaign_stats (alter (resetStats resetCount) campaignID))).

Definition ResetFailedCards (campaignID : string) (cardIDs : list string) (step updatedAt : Z) : M Sys unit :=
  match cardIDs with
  | [] => ret tt
  | _ => transaction (resetTx campaignID cardIDs step updatedAt)
  end.

(** ** InitializeCampaign *)

Definition initialRow (campaignID : string) (initialStep updatedAt : Z) (cardID : string) : CardExecutionState.t := {|
  CardExecutionState.CardID := cardID;
  CardExecutionState.CampaignID := campaignID;
  CardExecutionState.Status := "pending";
  CardExecutionState.CurrentStep := initialStep;
  CardExecutionState.RetryCount := 0;
  CardExecutionState.LastMsgID := None;
  CardExecutionState.LastSMPPID := "";
  CardExecutionState.LastError := "";
  CardExecutionState.TransitionSeq := 0;
  CardExecutionState.UpdatedAt := updatedAt |}.

Definition initBatchSize : nat := 500.

Fixpoint insertInitial (campaignID : string) (initialStep updatedAt : Z) (pieces : list (list string)) : M Sys unit :=
  match pieces with
  | [] => ret tt
  | chunk :: pieces =>
      do! _ <- mwrap "batch insert card execution states: %w"
        (exec (set_card_execution_states
           (fun t => foldl insertRow t (initialRow campaignID initialStep updatedAt <$> chunk))));
      insertInitial campaignID initialStep updatedAt pieces
  end.

(** INSERT ... ON CONFLICT (campaign_id) DO UPDATE SET total, pending. *)
Definition upsertStats (campaignID : string) (d : Database) : Database :=
  let n := zlen (filter (fun r => CardExecutionState.CampaignID r = campaignID /\ CardExecutionState.TransitionSeq r = 0)
                        (card_execution_states d)) in
  set_campaign_stats (fun stats =>
    <[campaignID := match stats !! campaignID with
                    | Some row => {| CampaignStatsRow.Total := n; CampaignStatsRow.Pending := n;
                                     CampaignStatsRow.InProgress := CampaignStatsRow.InProgress row;
                                     CampaignStatsRow.Completed := CampaignStatsRow.Completed row;
                                     CampaignStatsRow.Failed := CampaignStatsRow.Failed row;
                                     CampaignStatsRow.Skipped := CampaignStatsRow.Skipped row |}
                    | None => {| CampaignStatsRow.Total := n; CampaignStatsRow.Pending := n;
                                 CampaignStatsRow.InProgress := 0; CampaignStatsRow.Completed := 0;
                                 CampaignStatsRow.Failed := 0; CampaignStatsRow.Skipped := 0 |}
                    end]> stats) d.

Definition initializeTx (campaignID : string) (cardIDs : list string) (initialStep updatedAt : Z) : M Sys unit :=
  do! _ <- insertInitial campaignID initialStep updatedAt (chunks initBatchSize cardIDs);
  mwrap "upsert campaign stats: %w" (exec (upsertStats campaignID)).

Definition InitializeCampaign (campaignID : string) (cardIDs : list string) (initialStep updatedAt : Z) : M Sys unit :=
  match cardIDs with
  | [] => ret tt
  | _ => transaction (initializeTx campaignID cardIDs initialStep updatedAt)
  end.

(** ** AbortCampaign *)

Definition terminal (status : string) : Prop := status ∈ ["completed"; "failed"; "skipped"].
#[global] Instance terminal_dec status : Decision (terminal status).
Proof. unfold terminal. apply _. Defined.

Definition skipRow (updatedAt : Z) (r : CardExecutionState.t) : CardExecutionState.t := {|
  CardExecutionState.CardID := CardExecutionState.CardID r;
  CardExecutionState.CampaignID := CardExecutionState.CampaignID r;
  CardExecutionState.Status := "skipped";
  CardExecutionState.CurrentStep := CardExecutionState.CurrentStep r;
  CardExecutionState.RetryCount := CardExecutionState.RetryCount r;
  CardExecutionState.LastMsgID := None;
  CardExecutionState.LastSMPPID := "";
  CardExecutionState.LastError := "";
  CardExecutionState.TransitionSeq := CardExecutionState.TransitionSeq r + 1;
  CardExecutionState.UpdatedAt := updatedAt |}.

(** [SET skipped = skipped + pending + in_progress, pending = 0, in_progress = 0] *)
Definition abortStats (row : CampaignStatsRow.t) : CampaignStatsRow.t :=
  {| CampaignStatsRow.Total := CampaignStatsRow.Total row;
     CampaignStatsRow.Pending := 0;
     CampaignStatsRow.InProgress := 0;
     CampaignStatsRow.Completed := CampaignStatsRow.Completed row;
     CampaignStatsRow.Failed := CampaignStatsRow.Failed row;
     CampaignStatsRow.Skipped := CampaignStatsRow.Skipped row + CampaignStatsRow.Pending row
                                 + CampaignStatsRow.InProgress row |}.

Definition abortTx (campaignID : string) (updatedAt : Z) : M Sys Z :=
  do! table <- gets (fun y => card_execution_states (db y));
  let latest := filter (fun r => ~ terminal (CardExecutionState.Status r)) (latestPerCard campaignID table) in
  do! skipped <- mwrap "abort card states: %w" (insertRows (skipRow updatedAt <$> latest));
  if skipped =? 0 then ret skipped
  else
    do! _ <- mwrap "update campaign stats for abort: %w"
      (exec (set_campaign_stats (alter abortStats campaignID)));
    ret skipped.

(** [skipped] is assigned inside the transaction; the caller of the error case
    drops it. *)
Definition QueryStore_AbortCampaign (campaignID : string) (updatedAt : Z) : M Sys Z :=
  transaction (abortTx campaignID updatedAt).

(** ** execution_store.go *)

Definition statusColumnOrPending (status : string) : string :=
  let col := statusColumn status in if bool_decide (col = "") then "pending" else col.

(** [updates["k"].(string)] and [updates["k"].(int)] *)
Definition lookupStr (updates : list (string * value)) (k : string) : option string :=
  match (list_to_map updates : gmap string value) !! k with Some (VStr s) => Some s | _ => None end.
Definition lookupInt (updates : list (string * value)) (k : string) : option Z :=
  match (list_to_map updates : gmap string value) !! k with Some (VInt z) => Some z | _ => None end.

Definition nilUUID : string := "00000000-0000-0000-0000-000000000000".

(** The zero value of the Go struct, with the status the code sets. *)
Definition freshState : CardExecutionState.t := {|
  CardExecutionState.CardID := nilUUID;
  CardExecutionState.CampaignID := nilUUID;
  CardExecutionState.Status := "pending";
  CardExecutionState.CurrentStep := 0;
  CardExecutionState.RetryCount := 0;
  CardExecutionState.LastMsgID := None;
  CardExecutionState.LastSMPPID := "";
  CardExecutionState.LastError := "";
  CardExecutionState.TransitionSeq := 0;
  CardExecutionState.UpdatedAt := 0 |}.

(** [current] with the updates; the clock's time unless they name one. *)
Definition updatedRow (current : CardExecutionState.t) (updates : list (string * value)) (at_ : Z)
    (updated_at : option Z) : CardExecutionState.t := {|
  CardExecutionState.CardID := CardExecutionState.CardID current;
  CardExecutionState.CampaignID := CardExecutionState.CampaignID current;
  CardExecutionState.Status := default (CardExecutionState.Status current) (lookupStr updates "status");
  CardExecutionState.CurrentStep := default (CardExecutionState.CurrentStep current) (lookupInt updates "current_step");
  CardExecutionState.RetryCount := default (CardExecutionState.RetryCount current) (lookupInt updates "retry_count");
  CardExecutionState.LastMsgID := CardExecutionState.LastMsgID current;
  CardExecutionState.LastSMPPID := default (CardExecutionState.LastSMPPID current) (lookupStr updates "last_smpp_id");
  CardExecutionState.LastError := default (CardExecutionState.LastError current) (lookupStr updates "last_error");
  CardExecutionState.TransitionSeq := CardExecutionState.TransitionSeq current + 1;
  CardExecutionState.UpdatedAt := default at_ updated_at |}.

(** [updates] without the key updated_at, whose [time.Time] is [updated_at]. *)
Definition updateCardTx (campaignID cardID : string) (updates : list (string * value)) (updated_at : option Z)
    : M Sys unit :=
  do! found <- try (do! o <- query (fun d => Coordination.latestRow cardID (inCampaign campaignID (card_execution_states d))); first o);
  do! current <- (match found with
                  | Ok row => ret row
                  | Err e => if bool_decide (e = ErrRecordNotFound) then ret freshState
                             else merr (Errorf "read current card state: %w" [ArgErr e])
                  | Panic p => mres (Panic p)
                  end);
  let oldCol := statusColumnOrPending (CardExecutionState.Status current) in
  do! at_ <- now;
  let newRow := updatedRow current updates at_ updated_at in
  do! _ <- mwrap "insert card execution state: %w" (insertRows [newRow]);
  let newCol := statusColumnOrPending (CardExecutionState.Status newRow) in
  if bool_decide (oldCol = newCol) then ret tt
  else mwrap "update campaign stats counters: %w" (updateStats campaignID [(oldCol, -1); (newCol, 1)]).

Section ExecutionStore.
Context (parse : string -> option string).

Definition parseID (what id : string) : M Sys string :=
  match parse id with
  | Some u => ret u
  | None => merr (Errorf (what +:+ ": %w") [ArgErr (Errorf "invalid UUID" [])])
  end.

Definition UpdateCampaignCard (campaignID cardID : string) (updates : list (string * value)) (updated_at : option Z)
    : M Sys unit :=
  do! campUUID <- parseID "parse campaign_id" campaignID;
  do! cardUUID <- parseID "parse card_id" cardID;
  transaction (updateCardTx campUUID cardUUID updates updated_at).

(** [UPDATE campaigns SET status, completed_at WHERE id = ? AND status = 'running'] *)
Definition completeCampaign (finalStatus : string) (completedAt : Z) (c : Campaign.t) : Campaign.t :=
  if bool_decide (Campaign.Status c = "running") then
    Campaign.mk (Campaign.ID c) finalStatus (Campaign.MaxRetries c) (Campaign.ThrottleSMSPerSec c)
      (Campaign.MaxConcatOverride c) (Campaign.StartedAt c) (Some completedAt) (Campaign.CAPFileID c) (Campaign.ScriptID c) (Campaign.Name c)
  else c.

(** The rows the UPDATE affects, and its effect. *)
Definition completeIfRunning (campaignID finalStatus : string) (completedAt : Z) : M Sys bool :=
  do! running <- gets (fun y => bool_decide ((Campaign.Status <$> campaigns (db y) !! campaignID) = Some "running"));
  do! _ <- exec (set_campaigns (alter (completeCampaign finalStatus completedAt) campaignID));
  ret running.

Definition CompleteCampaignIfRunning (campaignID finalStatus : string) (completedAt : Z) : M Sys bool :=
  do! campUUID <- parseID "parse campaign_id" campaignID;
  do! row <- try (do! o <- query (fun d => campaign_stats d !! campUUID); first o);
  match row with
  | Err e => if bool_decide (e = ErrRecordNotFound) then ret false
             else merr (Errorf "read campaign stats: %w" [ArgErr e])
  | Panic p => mres (Panic p)
  | Ok row =>
      if (0 <? CampaignStatsRow.Pending row) || (0 <? CampaignStatsRow.InProgress row) then ret false
      else completeIfRunning campUUID finalStatus completedAt
  end.

Definition ExecutionStore_CampaignStats (campaignID : string) : M Sys CampaignStats.t :=
  do! campUUID <- parseID "parse campaign_id" campaignID;
  QueryStore_CampaignStats campUUID.

End ExecutionStore.
