(* ===== verification/CampaignControl.v ===== *)
(** * internal/controlplane: the life of a campaign

    campaign.go starts, pauses, resumes and aborts campaigns.  Its state
    [Control] holds the environment with the tables, the coordination store
    ([cs.redis]), the tables campaign_shards and campaign_targets, and what it
    broadcast.  [redis], [query] and [wsHub] say which of the optional
    collaborators are present; [getenv] is [os.Getenv].  A gorm query with preloads
    is one read.  Variables that a callback of forEachCampaignTargetBatch captures
    and changes are an accumulator that the loop threads. *)

From S2P Require Import Prelude Effects Models Pipeline Store StateWriter Sql QueryStore Executor.

(** ** internal/config/env.go *)

Definition GetEnv (getenv : string -> string) (key fallback : string) : string :=
  let v := getenv key in if bool_decide (v = "") then fallback else v.

Definition GetEnvInt (getenv : string -> string) (key : string) (fallback : Z) : Z :=
  let v := getenv key in
  if bool_decide (v = "") then fallback
  else match Atoi v with Some n => n | None => fallback end.

Definition defaultCampaignShardSize : Z := 1000.

Definition campaignShardSize (getenv : string -> string) : Z :=
  let size := GetEnvInt getenv "CAMPAIGN_SHARD_SIZE" defaultCampaignShardSize in
  if size <=? 0 then defaultCampaignShardSize else size.

(** ** State *)

Module CampaignTarget.
Record t := mk { CampaignID : string; CardID : string }.
End CampaignTarget.

Record Control := mkControl {
  cp_sys : Sys;
  cp_store : Coordination.t;
  cp_shards : list CampaignShard.t;
  cp_targets : list CampaignTarget.t;
  cp_sent : list WSEvent.t
}.

Definition set_cp_sys y s := mkControl y (cp_store s) (cp_shards s) (cp_targets s) (cp_sent s).
Definition set_cp_shards l s := mkControl (cp_sys s) (cp_store s) l (cp_targets s) (cp_sent s).
Definition set_cp_targets l s := mkControl (cp_sys s) (cp_store s) (cp_shards s) l (cp_sent s).

#[global] Instance Control_tx : Transactional Control := {|
  tx_sys := {| sys := cp_sys; set_sys := set_cp_sys |};
  tables := Database * list CampaignShard.t * list CampaignTarget.t;
  snapshot s := (db (cp_sys s), cp_shards s, cp_targets s);
  restore t s := set_cp_targets (snd t) (set_cp_shards (snd (fst t)) (set_cp_sys (set_db (fst (fst t)) (cp_sys s)) s))
|}.
#[global] Instance Control_tx_laws : TransactionalLaws Control.
Proof. split; [by intros [[] ?] ? | done]. Qed.

Abbreviation C := (M Control).

Definition on_sys {A} (m : M Sys A) : C A :=
  fun s => let '(r, y) := m (cp_sys s) in (r, set_cp_sys y s).

Definition on_store {A} (m : M (Sys * Coordination.t) A) : C A :=
  fun s => let '(r, (y, st)) := m (cp_sys s, cp_store s) in
           (r, mkControl y st (cp_shards s) (cp_targets s) (cp_sent s)).

Definition Broadcast (e : WSEvent.t) : C unit :=
  modify (fun s => mkControl (cp_sys s) (cp_store s) (cp_shards s) (cp_targets s) (cp_sent s ++ [e])).

(** A read of campaign_shards or campaign_targets, which may fail. *)
Definition readTable {A} (f : Control -> A) : C A :=
  do! fault <- ask sys_fault;
  match fault with Some e => merr e | None => gets f end.

(** [tx.Create(&shard)] *)
Definition createShard (shard : CampaignShard.t) : C unit :=
  do! fault <- ask sys_fault;
  match fault with
  | Some e => merr e
  | None =>
      do! table <- gets cp_shards;
      if bool_decide (shardsUnique (table ++ [shard])) then modify (set_cp_shards (table ++ [shard]))
      else merr duplicateKey
  end.

Section CampaignService.
Context (getenv : string -> string) (redis query_ wsHub : bool).

(** ** forEachCampaignTargetBatch *)

(** One page: [card_id > last ORDER BY card_id LIMIT batchSize]. *)
Definition targetIDs (campaignID : string) (targets : list CampaignTarget.t) : list string :=
  sortedIDs (CampaignTarget.CardID <$> filter (fun t => CampaignTarget.CampaignID t = campaignID) targets).

Definition targetPage (campaignID : string) (last : option string) (batchSize : Z) (targets : list CampaignTarget.t)
    : list string :=
  take (Z.to_nat batchSize)
    (match last with
     | None => targetIDs campaignID targets
     | Some l => filter (id_lt l) (targetIDs campaignID targets)
     end).

Fixpoint targetLoop {A} (fuel : nat) (campaignID : string) (batchSize : Z) (fn : list string -> A -> C A)
    (lastCardID : option string) (acc : A) : C A :=
  match fuel with
  | O => mres (Panic "out of fuel")
  | S fuel =>
      do! cardIDs <- readTable (fun s => targetPage campaignID lastCardID batchSize (cp_targets s));
      match cardIDs with
      | [] => ret acc
      | _ =>
          do! acc <- fn cardIDs acc;
          if zlen cardIDs <? batchSize then ret acc
          else targetLoop fuel campaignID batchSize fn (last cardIDs) acc
      end
  end.

(** Each full page moves past at least one target. *)
Definition forEachCampaignTargetBatch {A} (campaignID : string) (batchSize : Z) (fn : list string -> A -> C A) (acc : A)
    : C A :=
  let batchSize := if batchSize <=? 0 then campaignShardSize getenv else batchSize in
  do! fuel <- gets (fun s => S (length (targetIDs campaignID (cp_targets s))));
  targetLoop fuel campaignID batchSize fn None acc.

(** ** StartCampaign *)

(** [First(&campaign, "id = ?")] with the commands by sequence. *)
Definition seqLe (a b : CampaignCommand.t) : Prop := CampaignCommand.Sequence a <= CampaignCommand.Sequence b.
#[global] Instance seqLe_dec a b : Decision (seqLe a b).
Proof. unfold seqLe. apply _. Defined.

Definition commandsOf (campaignID : string) (d : Database) : list CampaignCommand.t :=
  merge_sort seqLe (filter (fun c => CampaignCommand.CampaignID c = campaignID) (campaign_commands d)).

Definition loadCampaign (campaignID : string) (d : Database) : option (Campaign.t * list CampaignCommand.t) :=
  c ← campaigns d !! campaignID; Some (c, commandsOf campaignID d).

(** The loop that fills [cacheCommands]; the fields are those worker.go caches. *)
Definition cacheCommands (cmds : list CampaignCommand.t) : list CampaignCommandCache.t := commandOfRow <$> cmds.

(** One fresh event id per card. *)
Fixpoint activationEvents (campaignID : string) (step now_ : Z) (cards : list string) : C (list CardEvent.t) :=
  match cards with
  | [] => ret []
  | card :: cards =>
      do! id <- newUUID;
      do! events <- activationEvents campaignID step now_ cards;
      ret (CardEvent.activate id card campaignID step 0 now_ :: events)
  end.

Definition newShard (id campaignID : string) (sequence : Z) (events : list CardEvent.t) (at_ : Z) : CampaignShard.t := {|
  CampaignShard.ID := id;
  CampaignShard.CampaignID := campaignID;
  CampaignShard.Sequence := sequence;
  CampaignShard.Status := "pending";
  CampaignShard.ItemCount := zlen events;
  CampaignShard.Items := Ok events;
  CampaignShard.ClaimedAt := None;
  CampaignShard.PublishedAt := None;
  CampaignShard.CreatedAt := at_;
  CampaignShard.UpdatedAt := at_ |}.

(** The callback inside the transaction; [pendingCards] and [shardSequence]. *)
Definition startBatch (campaignID : string) (firstStep now_ : Z) (batch : list string) (acc : Z * Z) : C (Z * Z) :=
  let '(pendingCards, shardSequence) := acc in
  let pendingCards := pendingCards + zlen batch in
  do! events <- activationEvents campaignID firstStep now_ batch;
  do! id <- newUUID;
  do! at_ <- now;
  do! _ <- mwrap "create campaign shard: %w" (createShard (newShard id campaignID shardSequence events at_));
  ret (pendingCards, shardSequence + 1).

Definition startedCampaign (at_ : Z) (c : Campaign.t) : Campaign.t :=
  Campaign.mk (Campaign.ID c) "running" (Campaign.MaxRetries c) (Campaign.ThrottleSMSPerSec c)
    (Campaign.MaxConcatOverride c) (Some at_) (Campaign.CompletedAt c) (Campaign.CAPFileID c) (Campaign.ScriptID c) (Campaign.Name c).

Definition startTx (campaignID : string) (firstStep now_ : Z) : C Z :=
  do! _ <- exec (set_campaigns (alter (startedCampaign now_) campaignID));
  do! acc <- forEachCampaignTargetBatch campaignID (campaignShardSize getenv)
               (startBatch campaignID firstStep now_) (0, 1);
  let pendingCards := fst acc in
  if pendingCards =? 0 then merr (Errorf "campaign %s has no target cards" [ArgStr campaignID])
  else ret pendingCards.

Definition cacheForWorkers (campaignID : string) (cmds : list CampaignCommand.t) : C unit :=
  mwhen redis (ignore (on_store (CacheCampaignCommands campaignID (cacheCommands cmds)))).

Definition tellStatus (campaignID status : string) : C unit :=
  mwhen redis (ignore (on_store (SetCampaignStatus campaignID status))).

Definition tellHub (campaignID : string) (data : list (string * value)) : C unit :=
  mwhen wsHub (Broadcast {| WSEvent.Type_ := "campaign_progress"; WSEvent.CampaignID := campaignID;
                            WSEvent.CardID := ""; WSEvent.Data := data |}).

(** [WHERE status IN ('pending','publishing')], counted; an error leaves zero. *)
Definition pendingShardCount : C Z :=
  do! n <- try (readTable (fun s => zlen (filter (fun sh => CampaignShard.Status sh ∈ ["pending"; "publishing"]) (cp_shards s))));
  ret (match n with Ok n => n | _ => 0 end).

Definition initializeBatch (campaignID : string) (firstStep now_ : Z) (batch : list string) (_ : unit) : C unit :=
  mwrap "initialize campaign query state: %w" (on_sys (InitializeCampaign campaignID batch firstStep now_)).

Definition StartCampaign (campaignID : string) : C unit :=
  do! pendingShards <- pendingShardCount;
  let maxBacklog := GetEnvInt getenv "CAMPAIGN_START_MAX_SHARD_BACKLOG" 1000 in
  if maxBacklog <? pendingShards then
    merr (Errorf "shard backlog high: %d shards pending/publishing across campaigns (max %d) — try again later"
            [ArgInt pendingShards; ArgInt maxBacklog])
  else
    do! loaded <- mwrap ("load campaign " +:+ campaignID +:+ ": %w") (do! o <- query (loadCampaign campaignID); first o);
    let '(campaign, cmds) := loaded in
    if negb (bool_decide (Campaign.Status campaign = "pending")) then
      merr (Errorf "campaign %s is in status %q, expected 'pending'" [ArgStr campaignID; ArgStr (Campaign.Status campaign)])
    else
      match cmds with
      | [] => merr (Errorf "campaign %s has no commands" [ArgStr campaignID])
      | cmd :: _ =>
          do! now_ <- now;
          let firstStep := CampaignCommand.Sequence cmd in
          do! _ <- cacheForWorkers campaignID cmds;
          do! _ <- mwhen query_
            (forEachCampaignTargetBatch campaignID (campaignShardSize getenv)
               (initializeBatch campaignID firstStep now_) tt);
          do! pendingCards <- mwrap "start campaign transaction: %w" (transaction (startTx campaignID firstStep now_));
          do! _ <- tellStatus campaignID "running";
          tellHub campaignID [("status", VStr "running"); ("started_at", VInt now_); ("total_cards", VInt pendingCards)]
      end.

(** ** PauseCampaign *)

(** [Where("id = ? AND status = ?").Update("status", ...)]: the rows affected. *)
Definition updateStatusWhere (campaignID from to_ : string) : C bool :=
  do! hit <- gets (fun s => bool_decide ((Campaign.Status <$> campaigns (db (cp_sys s)) !! campaignID) = Some from));
  do! _ <- exec (set_campaigns (alter (fun c => if bool_decide (Campaign.Status c = from) then Campaign.set_Status to_ c else c)
                                  campaignID));
  ret hit.

Definition PauseCampaign (campaignID : string) : C unit :=
  do! hit <- mwrap "pause campaign: %w" (updateStatusWhere campaignID "running" "paused");
  if negb hit then merr (Errorf "campaign %s is not in 'running' status" [ArgStr campaignID])
  else
    do! _ <- tellStatus campaignID "paused";
    tellHub campaignID [("status", VStr "paused")].

(** ** ResumeCampaign *)

(** The cards that still need activation, with their step and retry count. *)
Definition needsActivation (cc : CampaignCardView.t) : Prop :=
  CampaignCardView.Status cc = "pending" \/ CampaignCardView.Status cc = "activating".
#[global] Instance needsActivation_dec cc : Decision (needsActivation cc).
Proof. unfold needsActivation. apply _. Defined.

Fixpoint resumeEvents (campaignID : string) (firstStep now_ : Z) (cards : list CampaignCardView.t) : C (list CardEvent.t) :=
  match cards with
  | [] => ret []
  | cc :: cards =>
      if bool_decide (needsActivation cc) then
        let step := if CampaignCardView.CurrentStep cc =? 0 then firstStep else CampaignCardView.CurrentStep cc in
        do! id <- newUUID;
        do! events <- resumeEvents campaignID firstStep now_ cards;
        ret (CardEvent.activate id (CampaignCardView.CardID cc) campaignID step (CampaignCardView.RetryCount cc) now_ :: events)
      else resumeEvents campaignID firstStep now_ cards
  end.

(** The shards of consecutive pieces, numbered from [seq]. *)
Fixpoint shardsFrom (campaignID : string) (seq : Z) (pieces : list (list CardEvent.t)) : C (list CampaignShard.t) :=
  match pieces with
  | [] => ret []
  | events :: pieces =>
      do! id <- newUUID;
      do! at_ <- now;
      do! shards <- shardsFrom campaignID (seq + 1) pieces;
      ret (newShard id campaignID seq events at_ :: shards)
  end.

(** One INSERT of several shards: all of them, or an error and none. *)
Definition createShards (shards : list CampaignShard.t) : C unit :=
  do! fault <- ask sys_fault;
  match fault with
  | Some e => merr e
  | None =>
      do! table <- gets cp_shards;
      if bool_decide (shardsUnique (table ++ shards)) then modify (set_cp_shards (table ++ shards))
      else merr duplicateKey
  end.

(** [CreateInBatches(&shards, 100)] *)
Fixpoint createInBatches (pieces : list (list CampaignShard.t)) : C unit :=
  match pieces with
  | [] => ret tt
  | chunk :: pieces => do! _ <- createShards chunk; createInBatches pieces
  end.

Definition resumeTx (campaignID : string) (firstStep now_ : Z) (cardStates : list CampaignCardView.t) : C Z :=
  do! _ <- exec (set_campaigns (alter (Campaign.set_Status "running") campaignID));
  do! shardEvents <- resumeEvents campaignID firstStep now_ cardStates;
  match shardEvents with
  | [] => ret 0
  | _ =>
      do! lastSequence <- mwrap "load last campaign shard sequence: %w"
        (readTable (fun s => maxSequence campaignID (cp_shards s)));
      let shardSize := campaignShardSize getenv in
      do! shards <- shardsFrom campaignID (lastSequence + 1) (chunks (Z.to_nat shardSize) shardEvents);
      do! _ <- mwrap "create resume campaign shards: %w" (createInBatches (chunks 100 shards));
      ret (zlen shardEvents)
  end.

Definition ResumeCampaign (campaignID : string) : C unit :=
  do! loaded <- mwrap ("load paused campaign " +:+ campaignID +:+ ": %w")
    (do! o <- query (fun d => p ← loadCampaign campaignID d;
                              if bool_decide (Campaign.Status (fst p) = "paused") then Some p else None); first o);
  let '(campaign, cmds) := loaded in
  match cmds with
  | [] => merr (Errorf "campaign %s has no commands" [ArgStr campaignID])
  | cmd :: _ =>
      if negb query_ then merr (Errorf "query store is required to resume campaign %s" [ArgStr campaignID])
      else
        do! now_ <- now;
        do! cardStates <- mwrap "load campaign state for resume: %w" (on_sys (ListCampaignCards campaignID ""));
        do! _ <- cacheForWorkers campaignID cmds;
        do! pendingCards <- mwrap "resume campaign transaction: %w"
          (transaction (resumeTx campaignID (CampaignCommand.Sequence cmd) now_ cardStates));
        do! _ <- tellStatus campaignID "running";
        tellHub campaignID [("status", VStr "running"); ("resumed_cards", VInt pendingCards)]
  end.

(** ** AbortCampaign *)

Definition abortedCampaign (at_ : Z) (c : Campaign.t) : Campaign.t :=
  Campaign.mk (Campaign.ID c) "aborted" (Campaign.MaxRetries c) (Campaign.ThrottleSMSPerSec c)
    (Campaign.MaxConcatOverride c) (Campaign.StartedAt c) (Some at_) (Campaign.CAPFileID c) (Campaign.ScriptID c) (Campaign.Name c).

Definition AbortCampaign (campaignID : string) : C unit :=
  do! campaign <- mwrap ("load campaign " +:+ campaignID +:+ ": %w") (do! o <- query (fun d => campaigns d !! campaignID); first o);
  if negb (bool_decide (Campaign.Status campaign = "running" \/ Campaign.Status campaign = "paused")) then
    merr (Errorf "campaign %s is in status %q, cannot abort" [ArgStr campaignID; ArgStr (Campaign.Status campaign)])
  else
    do! now_ <- now;
    do! _ <- transaction (mwrap "update campaign status: %w"
                            (exec (set_campaigns (alter (abortedCampaign now_) campaignID))));
    do! _ <- tellStatus campaignID "aborted";
    do! _ <- mwhen query_ (ignore (on_sys (QueryStore_AbortCampaign campaignID now_)));
    tellHub campaignID [("status", VStr "aborted"); ("completed_at", VInt now_)].

End CampaignService.
