(* ===== verification/ControlScenario.v ===== *)
(** * A concrete campaign for the control plane

    Two cards are targeted by the campaign camp-1, a third one by the campaign
    camp-2; each campaign has one command.  The witnesses of the theorems on campaign
    control, recovery, completion and the API start from these tables, over an
    environment in which nothing fails. *)

From S2P Require Import Prelude Effects Models Pipeline Store StateWriter Sql QueryStore Executor CampaignControl.

Module ControlScenario.

Definition application : Application.t := {|
  Application.ID := "app-1"; Application.ProfileID := "profile-1"; Application.Name := "RAM";
  Application.TAR := [0xB0; 0x00; 0x10];
  Application.KIcAlgo := "DES"; Application.KIcMode := "TRIPLE_DES_CBC_2_KEYS"; Application.KIcKeysetID := 1;
  Application.KIdAlgo := "DES"; Application.KIdMode := "TRIPLE_DES_CBC_2_KEYS"; Application.KIdKeysetID := 1;
  Application.CertificationMode := "CC"; Application.Ciphered := true;
  Application.CounterMode := "COUNTER_REPLAY_OR_CHECK"; Application.PORMode := "REPLY_ALWAYS";
  Application.PORProtocol := "SMS_SUBMIT"; Application.PORCiphered := false; Application.PORCertMode := "NO_SECURITY" |}.

Definition command (campaignID : string) : CampaignCommand.t := {|
  CampaignCommand.CampaignID := campaignID; CampaignCommand.Sequence := 1;
  CampaignCommand.ApplicationID := "app-1"; CampaignCommand.Script := [0xA0; 0xA4];
  CampaignCommand.ExpectResponse := true; CampaignCommand.Application := application |}.

Definition campaign (id status : string) : Campaign.t := {|
  Campaign.ID := id; Campaign.Status := status; Campaign.MaxRetries := 3;
  Campaign.ThrottleSMSPerSec := None; Campaign.MaxConcatOverride := None;
  Campaign.StartedAt := None; Campaign.CompletedAt := None; Campaign.CAPFileID := None; Campaign.ScriptID := None; Campaign.Name := "campaign" |}.

Definition card (id msisdn : string) : Card.t := {|
  Card.ID := id; Card.ICCID := "iccid-" +:+ id; Card.IMSI := "imsi-" +:+ id; Card.MSISDN := msisdn;
  Card.ProfileID := "profile-1"; Card.EncKey := Z.of_nat <$> seq 1 16; Card.AuthKey := Z.of_nat <$> seq 101 16;
  Card.KEK := []; Card.Status := "active" |}.

Definition profile : Profile.t := {|
  Profile.ID := "profile-1"; Profile.Name := "default"; Profile.MaxConcatSMS := 5; Profile.BufferSize := 140;
  Profile.PID := 127; Profile.DCS := 246; Profile.SecurityBytesType := "WITH_LENGTHS_AND_UDHL" |}.

Definition row (cardID status : string) (step seq_ : Z) : CardExecutionState.t := {|
  CardExecutionState.CardID := cardID; CardExecutionState.CampaignID := "camp-1";
  CardExecutionState.Status := status; CardExecutionState.CurrentStep := step; CardExecutionState.RetryCount := 0;
  CardExecutionState.LastMsgID := None; CardExecutionState.LastSMPPID := ""; CardExecutionState.LastError := "";
  CardExecutionState.TransitionSeq := seq_; CardExecutionState.UpdatedAt := 0 |}.

Definition database (status : string) (history : list CardExecutionState.t) (stats : gmap string CampaignStatsRow.t)
    : Database := {|
  campaigns := {[ "camp-1" := campaign "camp-1" status; "camp-2" := campaign "camp-2" "pending" ]};
  profiles_tbl := {[ "profile-1" := profile ]};
  campaign_commands := [command "camp-1"; command "camp-2"];
  cards := {[ "card-1" := card "card-1" "32470000001"; "card-2" := card "card-2" "32470000002";
              "card-3" := card "card-3" "32470000003" ]};
  card_execution_states := history;
  campaign_stats := stats |}.

Definition stats (pending inProgress completed failed : Z) : CampaignStatsRow.t :=
  CampaignStatsRow.mk (pending + inProgress + completed + failed) pending inProgress completed failed 0.

Definition target (campaignID cardID : string) : CampaignTarget.t :=
  {| CampaignTarget.CampaignID := campaignID; CampaignTarget.CardID := cardID |}.

Definition shard (id status : string) (seq_ : Z) (events : list CardEvent.t) : CampaignShard.t := {|
  CampaignShard.ID := id; CampaignShard.CampaignID := "camp-1"; CampaignShard.Sequence := seq_;
  CampaignShard.Status := status; CampaignShard.ItemCount := zlen events; CampaignShard.Items := Ok events;
  CampaignShard.ClaimedAt := None; CampaignShard.PublishedAt := None; CampaignShard.CreatedAt := 0;
  CampaignShard.UpdatedAt := 0 |}.

Definition store : Coordination.t := {|
  Coordination.profiles := ∅; Coordination.commands := ∅; Coordination.params := ∅;
  Coordination.statusCache := ∅; Coordination.cardStates := ∅; Coordination.throttles := ∅ |}.

Definition control (d : Database) (shards : list CampaignShard.t) : Control := {|
  cp_sys := quiet_sys d; cp_store := store; cp_shards := shards;
  cp_targets := [target "camp-1" "card-2"; target "camp-2" "card-3"; target "camp-1" "card-1"];
  cp_sent := [] |}.

(** Shards of one card each. *)
Definition getenv (key : string) : string := if bool_decide (key = "CAMPAIGN_SHARD_SIZE") then "1" else "".

(** The id of a test row, not a UUID text, is taken as it is. *)
Definition parse (s : string) : option string := if bool_decide (s = "") then None else Some s.

Lemma quiet_uuid_inj d i j : sys_uuid (quiet_sys d) i = sys_uuid (quiet_sys d) j -> i = j.
Proof. intros H. by apply (inj (String.append "uuid-")), (inj pretty) in H. Qed.

End ControlScenario.
