(* ===== verification/QueryStoreProps.v ===== *)
(** * Counters and history agree

    The latest rows of a campaign's cards, counted by status, are what
    campaign_stats says, through every transaction of the query and execution
    stores and whatever statement fails. *)

From S2P Require Import Prelude Effects Models Pipeline Store StateWriter StateWriterProps Sql QueryStore CampaignControl ControlScenario.

(** ** The latest row of a card *)

Lemma latestRow_app_other card A news :
  Forall (fun r => CardExecutionState.CardID r <> card) news ->
  Coordination.latestRow card (A ++ news) = Coordination.latestRow card A.
Proof.
  intros Hn. assert (H0 : Coordination.latestRow card news = None).
  { induction Hn as [|r news Hr Hn IH]; [done|]. cbn. by rewrite bool_decide_false. }
  induction A as [|r A IH]; [done|]. cbn [app Coordination.latestRow]. by rewrite IH.
Qed.

Lemma latestRow_some card rows r :
  r ∈ rows -> CardExecutionState.CardID r = card -> is_Some (Coordination.latestRow card rows).
Proof.
  intros Hin Hc. induction rows as [|x rows IH]; [by apply not_elem_of_nil in Hin|].
  cbn [Coordination.latestRow]. apply elem_of_cons in Hin as [<-|Hin].
  - rewrite bool_decide_true by done. destruct (Coordination.latestRow card rows); [|by eexists].
    destruct (_ <? _); by eexists.
  - destruct (IH Hin) as [b Hb]. rewrite Hb. destruct (bool_decide _); [|by eexists].
    destruct (_ <? _); by eexists.
Qed.

Lemma latestRow_bound card rows b x :
  Coordination.latestRow card rows = Some b -> x ∈ rows -> CardExecutionState.CardID x = card ->
  CardExecutionState.TransitionSeq x <= CardExecutionState.TransitionSeq b.
Proof.
  revert b. induction rows as [|r rows IH]; intros b Hb Hin Hc; [done|]. cbn [Coordination.latestRow] in Hb.
  apply elem_of_cons in Hin as [->|Hin].
  - rewrite bool_decide_true in Hb by done. destruct (Coordination.latestRow card rows) as [b'|].
    + destruct (_ <? _) eqn:E; injection Hb as <-; lia.
    + injection Hb as <-. lia.
  - destruct (latestRow_some card rows x Hin Hc) as [b' Hb']. rewrite Hb' in Hb.
    specialize (IH b' Hb' Hin Hc). destruct (bool_decide _); [|by injection Hb as <-].
    destruct (_ <? _) eqn:E; injection Hb as <-; lia.
Qed.

Lemma inCampaign_app c A B : inCampaign c (A ++ B) = inCampaign c A ++ inCampaign c B.
Proof. apply filter_app. Qed.

Lemma inCampaign_elem c rows r : r ∈ inCampaign c rows <-> CardExecutionState.CampaignID r = c /\ r ∈ rows.
Proof. unfold inCampaign. by rewrite list_elem_of_filter. Qed.

Lemma latestPerCard_elem c rows r :
  r ∈ latestPerCard c rows <->
  Coordination.latestRow (CardExecutionState.CardID r) (inCampaign c rows) = Some r.
Proof.
  unfold latestPerCard. rewrite list_elem_of_omap. split.
  - intros (card & _ & Hr). by destruct (latestRow_in _ _ _ Hr) as [_ ->].
  - intros Hr. destruct (latestRow_in _ _ _ Hr) as [Hin _]. exists (CardExecutionState.CardID r).
    split; [|done]. apply sortedIDs_elem, list_elem_of_fmap. eauto.
Qed.

Lemma latestPerCard_in c rows r : r ∈ latestPerCard c rows -> r ∈ rows /\ CardExecutionState.CampaignID r = c.
Proof.
  intros Hr%latestPerCard_elem. destruct (latestRow_in _ _ _ Hr) as [Hin _].
  apply inCampaign_elem in Hin. tauto.
Qed.

(** One row per card, in the order of the cards. *)
Lemma latestPerCard_cards c rows :
  CardExecutionState.CardID <$> latestPerCard c rows = sortedIDs (CardExecutionState.CardID <$> inCampaign c rows).
Proof.
  unfold latestPerCard. set (ids := sortedIDs _).
  assert (Hall : Forall (fun card => is_Some (Coordination.latestRow card (inCampaign c rows))) ids).
  { apply Forall_forall. intros card Hc. unfold ids in Hc. rewrite sortedIDs_elem, list_elem_of_fmap in Hc.
    destruct Hc as (r & -> & Hr). by apply (latestRow_some _ _ r). }
  induction Hall as [|card ids' [r Hr] _ IH]; [done|]. cbn [omap list_omap].
  rewrite Hr. cbn. rewrite IH. f_equal. by apply (latestRow_in _ _ _ Hr).
Qed.

Lemma latestPerCard_NoDup c rows : NoDup (CardExecutionState.CardID <$> latestPerCard c rows).
Proof. rewrite latestPerCard_cards. apply sortedIDs_NoDup. Qed.

Lemma latestPerCard_inj c rows r1 r2 :
  r1 ∈ latestPerCard c rows -> r2 ∈ latestPerCard c rows ->
  CardExecutionState.CardID r1 = CardExecutionState.CardID r2 -> r1 = r2.
Proof. rewrite !latestPerCard_elem. intros H1 H2 He. rewrite He in H1. congruence. Qed.

Lemma latestPerCard_other c c' rows news :
  Forall (fun r => CardExecutionState.CampaignID r = c) news -> c' <> c ->
  latestPerCard c' (rows ++ news) = latestPerCard c' rows.
Proof.
  intros Hn Hc. unfold latestPerCard. assert (inCampaign c' news = []) as E.
  { unfold inCampaign. induction Hn as [|r news Hr _ IH]; [done|]. by rewrite filter_cons_False by congruence. }
  by rewrite inCampaign_app, E, app_nil_r.
Qed.

(** ** Appending a successor row to some cards *)

Section Bump.
Context (c : string) (rows : list CardExecutionState.t).
Context (P : CardExecutionState.t -> Prop) `{!forall r, Decision (P r)}.
Context (f : CardExecutionState.t -> CardExecutionState.t).
Hypothesis f_card : forall r, CardExecutionState.CardID (f r) = CardExecutionState.CardID r.
Hypothesis f_camp : forall r, CardExecutionState.CampaignID (f r) = CardExecutionState.CampaignID r.
Hypothesis f_seq : forall r, CardExecutionState.TransitionSeq (f r) = CardExecutionState.TransitionSeq r + 1.

Let news := f <$> filter P (latestPerCard c rows).

Lemma bump_elem x : x ∈ news <-> exists r, x = f r /\ r ∈ latestPerCard c rows /\ P r.
Proof.
  unfold news. rewrite list_elem_of_fmap. setoid_rewrite list_elem_of_filter. naive_solver.
Qed.

Lemma bump_campaign : Forall (fun r => CardExecutionState.CampaignID r = c) news.
Proof.
  apply Forall_forall. intros x (r & -> & Hr & _)%bump_elem. rewrite f_camp. by apply latestPerCard_in in Hr as [_ ?].
Qed.

Lemma bump_inCampaign : inCampaign c (rows ++ news) = inCampaign c rows ++ news.
Proof.
  rewrite inCampaign_app. f_equal. unfold inCampaign.
  pose proof bump_campaign as Hcs. induction Hcs as [|x l Hx _ IH]; [done|]. by rewrite filter_cons_True, IH.
Qed.

Lemma bump_latestRow card r :
  Coordination.latestRow card (inCampaign c rows) = Some r ->
  Coordination.latestRow card (inCampaign c rows ++ news) = Some (if decide (P r) then f r else r).
Proof.
  intros Hr. destruct (latestRow_in _ _ _ Hr) as [Hin Hcard].
  assert (Hlat : r ∈ latestPerCard c rows) by (apply latestPerCard_elem; by rewrite Hcard).
  destruct (decide (P r)) as [HP|HP].
  - apply latestRow_max.
    + apply elem_of_app. right. apply bump_elem. eauto.
    + by rewrite f_card.
    + intros x Hx Hxc. apply elem_of_app in Hx as [Hx|(r' & -> & Hr' & _)%bump_elem].
      * right. rewrite f_seq. pose proof (latestRow_bound _ _ _ x Hr Hx Hxc). lia.
      * left. f_equal. apply (latestPerCard_inj c rows); [done..|]. by rewrite <- f_card, Hxc, Hcard.
  - rewrite latestRow_app_other; [done|]. apply Forall_forall. intros x (r' & -> & Hr' & HP')%bump_elem He.
    rewrite f_card in He. destruct HP. replace r with r'; [done|].
    apply (latestPerCard_inj c rows); [done..|]. by rewrite He, Hcard.
Qed.

(** The latest rows of the campaign after the INSERT. *)
Lemma latestPerCard_bump :
  latestPerCard c (rows ++ news) = (fun r => if decide (P r) then f r else r) <$> latestPerCard c rows.
Proof.
  unfold latestPerCard at 1. rewrite bump_inCampaign.
  rewrite (sortedIDs_ext _ (CardExecutionState.CardID <$> inCampaign c rows)).
  - unfold latestPerCard. set (ids := sortedIDs _).
    assert (Hall : Forall (fun card => is_Some (Coordination.latestRow card (inCampaign c rows))) ids).
    { apply Forall_forall. intros card Hc. unfold ids in Hc. rewrite sortedIDs_elem, list_elem_of_fmap in Hc.
      destruct Hc as (r & -> & Hr). by apply (latestRow_some _ _ r). }
    induction Hall as [|card ids' [r Hr] _ IH]; [done|]. cbn [omap list_omap].
    rewrite (bump_latestRow _ _ Hr), Hr. cbn. by rewrite IH.
  - intros x. rewrite fmap_app, elem_of_app. split; [|by left].
    intros [?|Hx]; [done|]. apply list_elem_of_fmap in Hx as (y & -> & (r & -> & Hr & _)%bump_elem).
    rewrite f_card. apply list_elem_of_fmap. exists r. split; [done|].
    apply latestPerCard_in in Hr. apply inCampaign_elem. tauto.
Qed.

End Bump.

(** ** Counting the latest rows *)

Definition colOf (r : CardExecutionState.t) : string := statusColumnOrPending (CardExecutionState.Status r).

Definition countCol (col : string) (l : list CardExecutionState.t) : Z := zlen (filter (fun r => colOf r = col) l).

(** The counters a campaign with these latest rows should show. *)
Definition rowFor (l : list CardExecutionState.t) : CampaignStatsRow.t :=
  {| CampaignStatsRow.Total := zlen l;
     CampaignStatsRow.Pending := countCol "pending" l;
     CampaignStatsRow.InProgress := countCol "in_progress" l;
     CampaignStatsRow.Completed := countCol "completed" l;
     CampaignStatsRow.Failed := countCol "failed" l;
     CampaignStatsRow.Skipped := countCol "skipped" l |}.

Definition oneMore (row : CampaignStatsRow.t) : CampaignStatsRow.t :=
  {| CampaignStatsRow.Total := 1 + CampaignStatsRow.Total row;
     CampaignStatsRow.Pending := CampaignStatsRow.Pending row;
     CampaignStatsRow.InProgress := CampaignStatsRow.InProgress row;
     CampaignStatsRow.Completed := CampaignStatsRow.Completed row;
     CampaignStatsRow.Failed := CampaignStatsRow.Failed row;
     CampaignStatsRow.Skipped := CampaignStatsRow.Skipped row |}.

Lemma countCol_cons col r l :
  countCol col (r :: l) = countCol col l + (if bool_decide (colOf r = col) then 1 else 0).
Proof.
  unfold countCol. rewrite filter_cons. destruct (decide (colOf r = col)) as [H|H].
  - rewrite bool_decide_true, zlen_cons by done. lia.
  - rewrite bool_decide_false by done. lia.
Qed.

Lemma rowFor_cons r l : rowFor (r :: l) = addRow (oneMore (rowFor l)) (colDelta (colOf r) 1).
Proof. unfold rowFor, addRow, oneMore, colDelta. cbn. by rewrite zlen_cons, !countCol_cons. Qed.

Lemma addRow_oneMore row d : addRow (oneMore row) d = oneMore (addRow row d).
Proof. done. Qed.

Lemma colDelta_cancel col : dplus (colDelta col (-1)) (colDelta col 1) = zeroDelta.
Proof. unfold dplus, colDelta, zeroDelta. cbn. f_equal; case_bool_decide; lia. Qed.

(** Moving one card from a column to another. *)
Definition moveDelta (r r' : CardExecutionState.t) : statsDelta :=
  dplus (colDelta (colOf r) (-1)) (colDelta (colOf r') 1).

Fixpoint moves (f : CardExecutionState.t -> CardExecutionState.t) (l : list CardExecutionState.t) : statsDelta :=
  match l with
  | [] => zeroDelta
  | r :: l => dplus (moveDelta r (f r)) (moves f l)
  end.

Lemma move_cancel r r' : dplus (colDelta (colOf r) 1) (moveDelta r r') = colDelta (colOf r') 1.
Proof.
  unfold moveDelta. by rewrite <- dplus_assoc, (dplus_comm _ (colDelta (colOf r) (-1))), colDelta_cancel, dplus_zero_l.
Qed.

Lemma rowFor_map P `{!forall r, Decision (P r)} f l :
  rowFor ((fun r => if decide (P r) then f r else r) <$> l) = addRow (rowFor l) (moves f (filter P l)).
Proof.
  induction l as [|r l IH]; [cbn; by rewrite addRow_zero|]. rewrite fmap_cons, !rowFor_cons, IH, filter_cons.
  rewrite <- addRow_oneMore, addRow_plus. destruct (decide (P r)); cbn [moves]; rewrite addRow_plus; f_equal.
  - by rewrite <- dplus_assoc, move_cancel, dplus_comm.
  - apply dplus_comm.
Qed.

(** The five columns, and which statuses are terminal. *)
Lemma colOf_cases r : colOf r ∈ ["pending"; "in_progress"; "completed"; "failed"; "skipped"].
Proof.
  unfold colOf, statusColumnOrPending, statusColumn. repeat case_bool_decide; set_solver.
Qed.

Lemma terminal_col r : terminal (CardExecutionState.Status r) <-> colOf r ∈ ["completed"; "failed"; "skipped"].
Proof.
  unfold terminal, colOf, statusColumnOrPending, statusColumn. cbv zeta.
  destruct (decide (CardExecutionState.Status r ∈ ["completed"; "failed"; "skipped"])) as [H|H].
  - split; [|done]. intros _. rewrite !elem_of_cons, elem_of_nil in H.
    destruct H as [->|[->|[->|[]]]]; set_solver.
  - split; [done|]. rewrite !elem_of_cons, elem_of_nil in H. intros Hc. exfalso. revert Hc.
    repeat case_bool_decide; rewrite !elem_of_cons, elem_of_nil; intuition congruence.
Qed.

Lemma terminal_skip at_ r : colOf (skipRow at_ r) = "skipped".
Proof. done. Qed.

(** Equality of counter rows, column by column. *)
Ltac row_arith :=
  unfold addRow, abortStats, resetStats, oneMore, dplus, colDelta; cbn;
  f_equal; repeat case_bool_decide; try congruence; lia.

(** Skipping every card that is not done empties the two open columns. *)
Lemma abortStats_moves at_ l :
  addRow (rowFor l) (moves (skipRow at_) (filter (fun r => ~ terminal (CardExecutionState.Status r)) l))
  = abortStats (rowFor l).
Proof.
  rewrite <- rowFor_map. induction l as [|r l IH]; [done|]. rewrite fmap_cons, !rowFor_cons, IH.
  pose proof (terminal_col r) as Ht. pose proof (colOf_cases r) as Hc.
  rewrite !elem_of_cons, elem_of_nil in Ht. rewrite !elem_of_cons, elem_of_nil in Hc.
  destruct (rowFor l) as [tot p i c f k].
  destruct (decide _) as [Hd|Hd]; [rewrite terminal_skip|].
  - assert (colOf r = "pending" \/ colOf r = "in_progress") as [-> | ->] by tauto;
      row_arith.
  - assert (Htm : terminal (CardExecutionState.Status r)) by (destruct (decide (terminal (CardExecutionState.Status r))); tauto).
    apply Ht in Htm as [->|[->|[->|[]]]]; row_arith.
Qed.

Lemma resetStats_moves step at_ l row :
  Forall (fun r => CardExecutionState.Status r = "failed") l ->
  addRow row (moves (resetRow step at_) l) = resetStats (zlen l) row.
Proof.
  intros Hl. revert row. induction Hl as [|r l Hr _ IH]; intros row.
  - cbn [moves]. rewrite addRow_zero. destruct row. unfold resetStats, zlen. cbn. f_equal; lia.
  - cbn [moves]. rewrite <- addRow_plus, IH, zlen_cons. unfold moveDelta.
    assert (colOf r = "failed") as -> by (unfold colOf; by rewrite Hr).
    change (colOf (resetRow step at_ r)) with "pending".
    row_arith.
Qed.

Lemma updateStats_moves row r r' :
  foldl addColumn row [(colOf r, -1); (colOf r', 1)] = addRow row (moveDelta r r').
Proof. cbn [foldl]. by rewrite !addColumn_delta, addRow_plus. Qed.

Lemma moveDelta_same r r' : colOf r = colOf r' -> moveDelta r r' = zeroDelta.
Proof. intros He. unfold moveDelta. rewrite He. apply colDelta_cancel. Qed.

(** ** The invariant *)

(** The history has its primary key, and every row of campaign_stats counts the
    latest rows of its campaign. *)
Definition agrees (d : Database) : Prop :=
  NoDup (rowKey <$> card_execution_states d) /\
  forall c row, campaign_stats d !! c = Some row -> row = rowFor (latestPerCard c (card_execution_states d)).

Lemma agrees_bump d d' c P `{!forall r, Decision (P r)} f g :
  (forall r, CardExecutionState.CardID (f r) = CardExecutionState.CardID r) ->
  (forall r, CardExecutionState.CampaignID (f r) = CardExecutionState.CampaignID r) ->
  (forall r, CardExecutionState.TransitionSeq (f r) = CardExecutionState.TransitionSeq r + 1) ->
  agrees d ->
  let latest := latestPerCard c (card_execution_states d) in
  NoDup (rowKey <$> card_execution_states d ++ (f <$> filter P latest)) ->
  card_execution_states d' = card_execution_states d ++ (f <$> filter P latest) ->
  campaign_stats d' = alter g c (campaign_stats d) ->
  g (rowFor latest) = addRow (rowFor latest) (moves f (filter P latest)) ->
  agrees d'.
Proof.
  intros Hcard Hcamp Hseq [_ Hag] latest Hnd Hces Hst Hg. split; [by rewrite Hces|].
  intros c' row. rewrite Hst, Hces. destruct (decide (c' = c)) as [->|Hne].
  - rewrite lookup_alter_eq. intros (row0 & Hrow0 & ->)%fmap_Some_1.
    rewrite latestPerCard_bump, rowFor_map by done. by rewrite (Hag _ _ Hrow0).
  - rewrite lookup_alter_ne by done. intros Hrow.
    rewrite (latestPerCard_other c); [by apply Hag | by apply bump_campaign | done].
Qed.

Lemma agrees_same d d' :
  card_execution_states d' = card_execution_states d -> campaign_stats d' = campaign_stats d -> agrees d -> agrees d'.
Proof. intros Hc Hs. unfold agrees. by rewrite Hc, Hs. Qed.

(** A transaction keeps the invariant when its body does, whatever fails. *)
Lemma agrees_transaction {A} (body : M Sys A) y :
  (forall n a y', body (set_tick n y) = (Ok a, y') -> agrees (db y')) -> agrees (db y) ->
  agrees (db (snd (transaction body y))).
Proof.
  intros Hbody Hag. destruct (transaction body y) as [r y'] eqn:E. cbn [snd]. destruct r as [a|e|p].
  - apply transaction_inv in E as (y1 & n & m & Hrun & ->). by apply (Hbody _ _ _ Hrun).
  - pose proof (transaction_atomic body y _ _ E eq_refl) as Hs. cbn in Hs. by rewrite Hs.
  - pose proof (transaction_atomic body y _ _ E eq_refl) as Hs. cbn in Hs. by rewrite Hs.
Qed.

Lemma abort_agrees c at_ y : agrees (db y) -> agrees (db (snd (QueryStore_AbortCampaign c at_ y))).
Proof.
  intros Hag. apply agrees_transaction; [|done]. intros n a y' H. unfold abortTx in H.
  apply bind_inv in H as (table & y0 & [= <- <-] & H). apply bind_inv in H as (k & y1 & Hins & H).
  apply wrap_inv, insertRows_inv in Hins as (-> & Hnd & Hdb). cbn in Hnd, Hdb, H.
  set (latest := latestPerCard c (card_execution_states (db y))) in *.
  set (open := filter (fun r => ~ terminal (CardExecutionState.Status r)) latest) in *.
  destruct (_ =? 0) eqn:E.
  - injection H as _ <-. apply Z.eqb_eq in E.
    assert (skipRow at_ <$> open = []) as Enil by (apply length_zero_iff_nil; unfold zlen in E; lia).
    rewrite Enil in Hdb. apply (agrees_same (db y)); rewrite ?Hdb; [apply app_nil_r | done | done].
  - apply bind_inv in H as (u & y2 & Hup & H). injection H as _ <-. destruct u.
    apply wrap_inv, exec_inv in Hup.
    apply (agrees_bump (db y) _ c (fun r => ~ terminal (CardExecutionState.Status r)) (skipRow at_) abortStats);
      rewrite ?Hup, ?Hdb; try done. symmetry. apply abortStats_moves.
Qed.

(** What the control plane passes: cards whose latest state is failed. *)
Definition allFailed (c : string) (cards : list string) (d : Database) : Prop :=
  forall r, r ∈ latestPerCard c (card_execution_states d) -> CardExecutionState.CardID r ∈ cards ->
            CardExecutionState.Status r = "failed".

Lemma reset_agrees c cards step at_ y :
  allFailed c cards (db y) -> agrees (db y) -> agrees (db (snd (ResetFailedCards c cards step at_ y))).
Proof.
  intros Hfail Hag. unfold ResetFailedCards. destruct cards as [|card0 cards0]; [done|]. set (cards := card0 :: cards0) in *.
  apply agrees_transaction; [|done]. intros n a y' H. unfold resetTx in H.
  apply bind_inv in H as (table & y0 & [= <- <-] & H). apply bind_inv in H as (k & y1 & Hins & H).
  apply wrap_inv, insertRows_inv in Hins as (-> & Hnd & Hdb). cbn in Hnd, Hdb, H.
  set (latest := latestPerCard c (card_execution_states (db y))) in *.
  set (sel := filter (fun r => CardExecutionState.CardID r ∈ cards) latest) in *.
  destruct (_ =? 0) eqn:E.
  - injection H as _ <-. apply Z.eqb_eq in E.
    assert (resetRow step at_ <$> sel = []) as Enil by (apply length_zero_iff_nil; unfold zlen in E; lia).
    rewrite Enil in Hdb. apply (agrees_same (db y)); rewrite ?Hdb; [apply app_nil_r | done | done].
  - destruct a. apply wrap_inv, exec_inv in H.
    apply (agrees_bump (db y) _ c (fun r => CardExecutionState.CardID r ∈ cards) (resetRow step at_)
             (resetStats (zlen (resetRow step at_ <$> sel)))); rewrite ?H, ?Hdb; try done.
    fold latest. fold sel. rewrite resetStats_moves.
    + unfold zlen. by rewrite length_fmap.
    + apply Forall_forall. intros r Hr. unfold sel in Hr. apply list_elem_of_filter in Hr as [Hin Hr]. by apply Hfail.
Qed.

Lemma latestPerCard_one c rows card r :
  Coordination.latestRow card (inCampaign c rows) = Some r ->
  filter (fun x => CardExecutionState.CardID x = card) (latestPerCard c rows) = [r].
Proof.
  intros Hr. destruct (latestRow_in _ _ _ Hr) as [_ Hc].
  apply Permutation_singleton_r, NoDup_Permutation; [|apply NoDup_singleton|].
  - apply (NoDup_fmap_1 CardExecutionState.CardID). eapply sublist_NoDup; [apply latestPerCard_NoDup|].
    apply fmap_sublist, sublist_filter.
  - intros x. rewrite list_elem_of_filter, list_elem_of_singleton, latestPerCard_elem. split.
    + intros [Hx Hl]. rewrite Hx in Hl. congruence.
    + intros ->. by rewrite Hc.
Qed.

(** The card is known in the campaign. *)
Definition knownCard (c card : string) (d : Database) : Prop :=
  exists r, r ∈ inCampaign c (card_execution_states d) /\ CardExecutionState.CardID r = card.

(** A failing statement reports something else than a missing row. *)
Definition honest (y : Sys) : Prop := forall n, sys_fault y n <> Some ErrRecordNotFound.

Lemma update_agrees c card updates at_ y :
  honest y -> knownCard c card (db y) -> agrees (db y) ->
  agrees (db (snd (transaction (updateCardTx c card updates at_) y))).
Proof.
  intros Hh (r0 & Hin0 & Hc0) Hag. destruct (latestRow_some _ _ _ Hin0 Hc0) as [current Hcur].
  apply agrees_transaction; [|done]. intros n a y' H. unfold updateCardTx in H.
  apply bind_inv in H as (found & y0 & Hfound & H). apply bind_inv in H as (cur & y1 & Hsel & H).
  assert (Hf : db y1 = db y /\ cur = current).
  { revert Hfound Hsel. unfold try, bindM, query, ask, gets, first. cbn.
    destruct (sys_fault y n) as [e|] eqn:Efault; cbn; [|rewrite Hcur]; intros [= <- <-].
    - assert (e <> ErrRecordNotFound) by (intros ->; by apply (Hh n)).
      by rewrite bool_decide_false.
    - by intros [= <- <-]. }
  destruct Hf as [Hdb1 ->]. apply bind_inv in H as (t & y2 & Hnow & H). apply ask_inv in Hnow as Hdb2.
  set (f := fun r => updatedRow r updates t at_). change (updatedRow current updates t at_) with (f current) in H.
  apply bind_inv in H as (k & y3 & Hins & H). apply wrap_inv, insertRows_inv in Hins as (_ & Hnd & Hdb3).
  rewrite Hdb2, Hdb1 in Hnd, Hdb3. change [f current] with (f <$> [current]) in Hnd, Hdb3.
  rewrite <- (latestPerCard_one _ _ _ _ Hcur) in Hnd, Hdb3.
  assert (Hmv : moves f (filter (fun x => CardExecutionState.CardID x = card) (latestPerCard c (card_execution_states (db y))))
                = moveDelta current (f current)).
  { rewrite (latestPerCard_one _ _ _ _ Hcur). cbn [moves]. apply dplus_zero_r. }
  cbv zeta in H. change (statusColumnOrPending (CardExecutionState.Status current)) with (colOf current) in H.
  change (statusColumnOrPending (CardExecutionState.Status (f current))) with (colOf (f current)) in H.
  destruct (bool_decide _) eqn:E.
  - apply bool_decide_eq_true in E. injection H as _ <-.
    apply (agrees_bump (db y) _ c (fun x => CardExecutionState.CardID x = card) f (fun row => row)); rewrite ?Hdb3; try done.
    + symmetry. apply alter_id. done.
    + by rewrite Hmv, moveDelta_same, addRow_zero.
  - destruct a. apply wrap_inv, exec_inv in H.
    apply (agrees_bump (db y) _ c (fun x => CardExecutionState.CardID x = card) f
             (fun row => foldl addColumn row [(colOf current, -1); (colOf (f current), 1)]));
      rewrite ?H, ?Hdb3; try done.
    by rewrite Hmv, updateStats_moves.
Qed.

(** ** Initialisation *)

(** No card of the campaign has moved yet. *)
Definition untouched (c : string) (rows : list CardExecutionState.t) : Prop :=
  Forall (fun r => CardExecutionState.TransitionSeq r = 0 /\ CardExecutionState.Status r = "pending") (inCampaign c rows).

Lemma insertInitial_inv c step at_ pieces y y' :
  insertInitial c step at_ pieces y = (Ok tt, y') ->
  card_execution_states (db y') = foldl insertRow (card_execution_states (db y)) (initialRow c step at_ <$> concat pieces) /\
  campaign_stats (db y') = campaign_stats (db y).
Proof.
  revert y. induction pieces as [|chunk pieces IH]; intros y H; cbn [insertInitial] in H; [by injection H as <-|].
  apply bind_inv in H as ([] & y1 & H1 & H). apply wrap_inv, exec_inv in H1. apply IH in H as [Hc Hs].
  rewrite Hc, Hs, H1. cbn [concat]. by rewrite fmap_app, foldl_app.
Qed.

Lemma initial_untouched c step at_ cards rows :
  untouched c rows -> untouched c (foldl insertRow rows (initialRow c step at_ <$> cards)).
Proof.
  unfold untouched. rewrite !Forall_forall. intros Hu r [Hc Hin]%inCampaign_elem.
  apply foldl_insertRow_elem in Hin as [Hin|Hin]; [apply Hu; by apply inCampaign_elem|].
  apply list_elem_of_fmap in Hin as (card & -> & _). done.
Qed.

Lemma untouched_cards c rows :
  NoDup (rowKey <$> rows) -> untouched c rows -> NoDup (CardExecutionState.CardID <$> inCampaign c rows).
Proof.
  intros Hnd Hu. unfold untouched in Hu. rewrite Forall_forall in Hu. apply NoDup_fmap_2_strong.
  - intros r1 r2 H1 H2 He. destruct (Hu r1 H1) as [Hs1 _], (Hu r2 H2) as [Hs2 _].
    apply inCampaign_elem in H1 as [Hc1 H1], H2 as [Hc2 H2].
    apply (NoDup_key_inj rowKey rows); [done..|]. unfold rowKey. congruence.
  - apply NoDup_filter. by apply NoDup_fmap_1 in Hnd.
Qed.

(** In an untouched campaign the counters are the number of rows. *)
Lemma untouched_rowFor c rows :
  NoDup (rowKey <$> rows) -> untouched c rows ->
  let n := zlen (filter (fun r => CardExecutionState.CampaignID r = c /\ CardExecutionState.TransitionSeq r = 0) rows) in
  rowFor (latestPerCard c rows) = CampaignStatsRow.mk n n 0 0 0 0.
Proof.
  intros Hnd Hu n. assert (Hlen : zlen (latestPerCard c rows) = n).
  { unfold n, zlen. f_equal.
    rewrite <- (length_fmap CardExecutionState.CardID (latestPerCard c rows)), latestPerCard_cards.
    rewrite sortedIDs_perm by (by apply untouched_cards). rewrite length_fmap. unfold inCampaign. f_equal.
    apply filter_ext_in. intros r Hr. split; [|tauto]. intros Hc. split; [done|].
    unfold untouched in Hu. rewrite Forall_forall in Hu. apply Hu. by apply inCampaign_elem. }
  assert (Hcol : Forall (fun r => colOf r = "pending") (latestPerCard c rows)).
  { apply Forall_forall. intros r Hr. apply latestPerCard_in in Hr as [Hr Hc].
    unfold untouched in Hu. rewrite Forall_forall in Hu. unfold colOf.
    destruct (Hu r) as [_ ->]; [by apply inCampaign_elem | done]. }
  assert (Hcount : forall col, countCol col (latestPerCard c rows)
                               = if bool_decide ("pending" = col) then zlen (latestPerCard c rows) else 0).
  { intros col. clear Hlen. induction Hcol as [|r l Hr _ IH]; [by case_bool_decide|].
    rewrite countCol_cons, IH, Hr, zlen_cons. case_bool_decide; lia. }
  unfold rowFor. rewrite !Hcount, Hlen. done.
Qed.

Lemma initial_appends c step at_ cards rows :
  exists news, foldl insertRow rows (initialRow c step at_ <$> cards) = rows ++ news /\
    Forall (fun r => CardExecutionState.CampaignID r = c) news.
Proof.
  destruct (foldl_insertRow_grows (initialRow c step at_ <$> cards) rows) as [[news Hn] _].
  revert news Hn. induction cards as [|card cards IH] using rev_ind; intros news Hn.
  - cbn in Hn. exists []. by rewrite app_nil_r.
  - rewrite fmap_app, foldl_app in Hn. clear Hn news.
    destruct (foldl_insertRow_grows (initialRow c step at_ <$> cards) rows) as [[n0 Hn0] _].
    destruct (IH _ Hn0) as (n1 & Hn1 & Hall). rewrite fmap_app, foldl_app, Hn1. cbn [foldl fmap list_fmap].
    unfold insertRow at 1. destruct (bool_decide _); [by exists n1|]. exists (n1 ++ [initialRow c step at_ card]).
    rewrite app_assoc. split; [done|]. apply Forall_app. split; [done | by constructor].
Qed.

Lemma initialize_agrees c cards step at_ y :
  untouched c (card_execution_states (db y)) -> agrees (db y) ->
  agrees (db (snd (InitializeCampaign c cards step at_ y))).
Proof.
  intros Hu Hag. unfold InitializeCampaign. destruct cards as [|card0 cards0]; [done|]. set (cards := card0 :: cards0).
  apply agrees_transaction; [|done]. intros n [] y' H. unfold initializeTx in H.
  apply bind_inv in H as ([] & y1 & Hins & H). apply insertInitial_inv in Hins as [Hces Hst].
  rewrite concat_chunks in Hces by (unfold initBatchSize; lia). apply wrap_inv, exec_inv in H.
  destruct Hag as [Hnd Hag]. cbn [db set_tick] in Hces, Hst.
  assert (Hnd1 : NoDup (rowKey <$> card_execution_states (db y1))) .
  { rewrite Hces. destruct (foldl_insertRow_grows (initialRow c step at_ <$> cards) (card_execution_states (db y))) as [_ Hg]. by apply Hg. }
  split; [by rewrite H|]. rewrite H. intros c' row. unfold upsertStats, set_campaign_stats. cbn [card_execution_states campaign_stats]. rewrite Hst.
  destruct (decide (c' = c)) as [->|Hne].
  - rewrite lookup_insert_eq. intros [= <-].
    rewrite untouched_rowFor; [|done | rewrite Hces; by apply initial_untouched].
    destruct (campaign_stats (db y) !! c) as [row0|] eqn:E; [|done].
    apply Hag in E. rewrite untouched_rowFor in E by done. by rewrite E.
  - rewrite lookup_insert_ne by done. intros Hrow. rewrite Hces.
    destruct (initial_appends c step at_ cards (card_execution_states (db y))) as (news & -> & Hnews).
    rewrite (latestPerCard_other c) by done. by apply Hag.
Qed.

(** ** The operations as steps *)

Section Steps.
Context (parse : string -> option string).

Inductive qs_step : Sys -> Sys -> Prop :=
| step_initialize y c cards step at_ :
    untouched c (card_execution_states (db y)) -> qs_step y (snd (InitializeCampaign c cards step at_ y))
| step_abort y c at_ : qs_step y (snd (QueryStore_AbortCampaign c at_ y))
| step_reset y c cards step at_ :
    allFailed c cards (db y) -> qs_step y (snd (ResetFailedCards c cards step at_ y))
| step_update y c card c' card' updates at_ :
    honest y -> parse c = Some c' -> parse card = Some card' -> knownCard c' card' (db y) ->
    qs_step y (snd (UpdateCampaignCard parse c card updates at_ y)).

Lemma qs_step_agrees y y' : qs_step y y' -> agrees (db y) -> agrees (db y').
Proof.
  intros [y0 c cards step at_ Hu | y0 c at_ | y0 c cards step at_ Hf | y0 c card c' card' updates at_ Hh Hc Hcard Hk] Hag.
  - by apply initialize_agrees.
  - by apply abort_agrees.
  - by apply reset_agrees.
  - unfold UpdateCampaignCard, parseID, bindM. rewrite Hc, Hcard. by apply update_agrees.
Qed.

(** C17: counters agree with the history.  Whatever sequence of operations the control plane and the
    execution store run -- initialising campaigns whose cards have not moved, aborting, resetting
    failed cards, updating known cards -- and whatever statements or commits fail in
    between, every row of campaign_stats keeps counting the latest states of its
    campaign's cards, and the history keeps its primary key. *)
Theorem counters_agree_with_history y y' :
  rtc qs_step y y' -> agrees (db y) -> agrees (db y').
Proof. induction 1; eauto using qs_step_agrees. Qed.
End Steps.

Module CountersWitness.
Import ControlScenario.
Definition y0 : Sys := quiet_sys (database "pending" [] ∅).
Definition y1 : Sys := snd (InitializeCampaign "camp-1" ["card-1"; "card-2"] 1 1000 y0).
Definition y2 : Sys := snd (QueryStore_AbortCampaign "camp-1" 2000 y1).
End CountersWitness.

Lemma counters_agree_with_history_witness :
  agrees (db CountersWitness.y2) /\
  campaign_stats (db CountersWitness.y2) !! "camp-1"
    = Some (rowFor (latestPerCard "camp-1" (card_execution_states (db CountersWitness.y2)))) /\
  length (card_execution_states (db CountersWitness.y2)) = 4%nat.
Proof.
  split; [|by vm_compute].
  apply (counters_agree_with_history ControlScenario.parse CountersWitness.y0).
  - apply rtc_l with CountersWitness.y1; [apply step_initialize; constructor|].
    apply rtc_once. apply step_abort.
  - split; [constructor|]. intros c row H. by destruct (lookup_empty_Some c row).
Defined.
