(* ===== verification/Planner.v ===== *)
(** * internal/planner: publishing activation shards

    planner/service.go claims pending shards of card events, publishes their
    events to the worker's channel and marks the shards published, or puts them
    back.  The table campaign_shards is part of the state; its JSON column
    is represented by what [json.Unmarshal] makes of it.  The publisher is
    [PlannerPublisher] (which also publishes batches); [batch] selects the
    branch of the type assertion.  The preloader is an interface: the parameter
    [PreloadShard] acts on the environment and on the caches [E] it fills. *)

From S2P Require Import Prelude Effects Models Pipeline Store Sql.

(** [SET status = 'publishing', claimed_at = now(), updated_at = now()] *)
Definition claimShard (at_ : Z) (s : CampaignShard.t) : CampaignShard.t :=
  CampaignShard.mk (CampaignShard.ID s) (CampaignShard.CampaignID s) (CampaignShard.Sequence s) "publishing"
    (CampaignShard.ItemCount s) (CampaignShard.Items s) (Some at_) (CampaignShard.PublishedAt s)
    (CampaignShard.CreatedAt s) at_.

Definition resetShard (at_ : Z) (s : CampaignShard.t) : CampaignShard.t :=
  CampaignShard.mk (CampaignShard.ID s) (CampaignShard.CampaignID s) (CampaignShard.Sequence s) "pending"
    (CampaignShard.ItemCount s) (CampaignShard.Items s) None (CampaignShard.PublishedAt s)
    (CampaignShard.CreatedAt s) at_.

Definition markPublished (at_ : Z) (s : CampaignShard.t) : CampaignShard.t :=
  CampaignShard.mk (CampaignShard.ID s) (CampaignShard.CampaignID s) (CampaignShard.Sequence s) "published"
    (CampaignShard.ItemCount s) (CampaignShard.Items s) (CampaignShard.ClaimedAt s) (Some at_)
    (CampaignShard.CreatedAt s) at_.

(** [Where("id IN ?", ids).Updates(...)] *)
Definition updateWhere (ids : list string) (f : CampaignShard.t -> CampaignShard.t)
    (table : list CampaignShard.t) : list CampaignShard.t :=
  (fun s => if bool_decide (CampaignShard.ID s ∈ ids) then f s else s) <$> table.

Definition claimable (s : CampaignShard.t) : Prop :=
  CampaignShard.Status s = "pending" /\ CampaignShard.ClaimedAt s = None.
#[global] Instance claimable_dec s : Decision (claimable s).
Proof. unfold claimable. apply _. Defined.

Definition created_le (a b : CampaignShard.t) : Prop := CampaignShard.CreatedAt a <= CampaignShard.CreatedAt b.
#[global] Instance created_le_dec a b : Decision (created_le a b).
Proof. unfold created_le. apply _. Defined.

(** plannerPollInterval, plannerClaimBatchSize, plannerMaxShardBacklog: a positive
    integer of the environment, or the default. *)
Definition envPositive (v : string) (def : Z) : Z :=
  if bool_decide (v = "") then def
  else match Atoi v with Some n => if 0 <? n then n else def | None => def end.

Section Planner.
Context {E : Type}.
Context (PreloadShard : option (string -> list string -> M (Sys * E) unit)).
Context (batch : bool) (batchSize maxShardBacklog : Z).

Record Service := mkService {
  pl_sys : Sys;
  pl_env : E;
  pl_shards : list CampaignShard.t;
  pl_trace : list effect;
  pl_logp : LogProducer.t
}.

Definition set_pl_sys y s := mkService y (pl_env s) (pl_shards s) (pl_trace s) (pl_logp s).
Definition set_pl_env e s := mkService (pl_sys s) e (pl_shards s) (pl_trace s) (pl_logp s).
Definition set_pl_shards l s := mkService (pl_sys s) (pl_env s) l (pl_trace s) (pl_logp s).

#[export] Instance Service_bus : HasBus Service := {|
  bus_sys := {| sys := pl_sys; set_sys := set_pl_sys |};
  trace := pl_trace;
  emit e s := mkService (pl_sys s) (pl_env s) (pl_shards s) (pl_trace s ++ [e]) (pl_logp s);
  logp := pl_logp;
  set_logp p s := mkService (pl_sys s) (pl_env s) (pl_shards s) (pl_trace s) p
|}.

#[export] Instance Service_bus_laws : BusLaws Service.
Proof. split; done. Qed.

Abbreviation P := (M Service).

Definition on_preload (m : M (Sys * E) unit) : P unit :=
  fun s => let '(r, (y, e)) := m (pl_sys s, pl_env s) in (r, set_pl_env e (set_pl_sys y s)).

(** A statement on campaign_shards, which may fail without a change. *)
Definition execShards (f : list CampaignShard.t -> list CampaignShard.t) : P unit :=
  do! fault <- ask sys_fault;
  match fault with
  | Some e => merr e
  | None => modify (fun s => set_pl_shards (f (pl_shards s)) s)
  end.

(** ** publishClaimedShards *)

(** One event at a time: whether all were published, and how many. *)
Fixpoint publishEvents (events : list CardEvent.t) (publishedFromShard : Z) : P (bool * Z) :=
  match events with
  | [] => ret (true, publishedFromShard)
  | event :: events =>
      do! r <- try (PlannerPublisher_Publish (MEvent event));
      match r with
      | Ok _ => publishEvents events (publishedFromShard + 1)
      | _ => ret (false, publishedFromShard)
      end
  end.

Definition preloadShard (events : list CardEvent.t) : P unit :=
  match PreloadShard, events with
  | Some preload, event :: _ => ignore (on_preload (preload (CardEvent.CampaignID event) (CardEvent.CardID <$> events)))
  | _, _ => ret tt
  end.

(** The loop over the claimed shards: the ids published and the ids to reset. *)
Fixpoint publishLoop (shards : list CampaignShard.t) (publishedIDs pendingResetIDs : list string)
    : P (list string * list string) :=
  match shards with
  | [] => ret (publishedIDs, pendingResetIDs)
  | shard :: rest =>
      match CampaignShard.Items shard with
      | Err _ => ret (publishedIDs, pendingResetIDs ++ [CampaignShard.ID shard])
      | Panic s => mres (Panic s)
      | Ok events =>
          do! _ <- preloadShard events;
          if batch then
            do! r <- try (PublishBatch (MEvent <$> events));
            match r with
            | Ok _ => publishLoop rest (publishedIDs ++ [CampaignShard.ID shard]) pendingResetIDs
            | _ => ret (publishedIDs, pendingResetIDs ++ [CampaignShard.ID shard] ++ (CampaignShard.ID <$> rest))
            end
          else
            do! r <- publishEvents events 0;
            let '(ok, publishedFromShard) := r in
            if ok : bool then publishLoop rest (publishedIDs ++ [CampaignShard.ID shard]) pendingResetIDs
            else
              let pendingResetIDs :=
                if publishedFromShard =? 0 then pendingResetIDs ++ [CampaignShard.ID shard] else pendingResetIDs in
              ret (publishedIDs, pendingResetIDs ++ (CampaignShard.ID <$> rest))
      end
  end.

Definition publishClaimedShards (shards : list CampaignShard.t) : P unit :=
  do! ids <- publishLoop shards [] [];
  let '(publishedIDs, pendingResetIDs) := ids in
  do! _ <- mwhen (negb (bool_decide (pendingResetIDs = [])))
    (do! at_ <- now; ignore (execShards (updateWhere pendingResetIDs (resetShard at_))));
  if bool_decide (publishedIDs = []) then ret tt
  else do! at_ <- now; ignore (execShards (updateWhere publishedIDs (markPublished at_))).

(** ** publishBatch *)

(** Shards waiting or being published, of running campaigns. *)
Definition backlogOf (d : Database) (table : list CampaignShard.t) : Z :=
  zlen (filter (fun s => CampaignShard.Status s ∈ ["pending"; "publishing"] /\
                         (Campaign.Status <$> campaigns d !! CampaignShard.CampaignID s) = Some "running") table).

(** The UPDATE ... RETURNING: the oldest claimable shards, at most [batchSize]. *)
Definition claimIDs (table : list CampaignShard.t) : list string :=
  CampaignShard.ID <$> take (Z.to_nat batchSize) (merge_sort created_le (filter claimable table)).

Definition claimShards : P (list CampaignShard.t) :=
  do! at_ <- now;
  do! ids <- gets (fun s => claimIDs (pl_shards s));
  do! _ <- execShards (updateWhere ids (claimShard at_));
  gets (fun s => filter (fun r => CampaignShard.ID r ∈ ids) (pl_shards s)).

Definition publishBatch : P unit :=
  do! counted <- try (query (fun d => d));
  do! backlog <- gets (fun s => match counted with Ok d => backlogOf d (pl_shards s) | _ => 0 end);
  if maxShardBacklog <? backlog then ret tt
  else
    do! claimed <- try claimShards;
    match claimed with
    | Ok [] => ret tt
    | Ok shards => publishClaimedShards shards
    | Err _ => ret tt
    | Panic s => mres (Panic s)
    end.

(** ** Properties *)

(** No statement fails and no select sees a cancelled context. *)
Definition healthy (y : Sys) : Prop := (forall n, sys_fault y n = None) /\ (forall n, sys_ctx y n = None).

(** The preloader reads the environment and fills caches: it neither panics nor
    writes the tables. *)
Definition tame : Prop :=
  match PreloadShard with
  | None => True
  | Some preload => forall c l y e, exists r y' e', preload c l (y, e) = (r, (y', e')) /\ no_panic r /\ sys_le y y'
  end.

(** [s'] is [s] after publishing [evs] and nothing else. *)
Definition publishedOnly (s s' : Service) (evs : list CardEvent.t) : Prop :=
  sys_le (pl_sys s) (pl_sys s') /\ pl_shards s' = pl_shards s /\ pl_trace s' = pl_trace s ++ (EEvent <$> evs).

Lemma publishedOnly_refl s : publishedOnly s s [].
Proof. split; [reflexivity|]. split; [done | by rewrite app_nil_r]. Qed.

Lemma publishedOnly_trans s1 s2 s3 e1 e2 :
  publishedOnly s1 s2 e1 -> publishedOnly s2 s3 e2 -> publishedOnly s1 s3 (e1 ++ e2).
Proof.
  intros (L1 & T1 & E1) (L2 & T2 & E2). split; [by etrans|]. split; [by rewrite T2|].
  by rewrite E2, E1, fmap_app, app_assoc.
Qed.

Lemma healthy_le y y' : sys_le y y' -> healthy y -> healthy y'.
Proof. intros [n ->]. done. Qed.

Lemma select_send_run e s :
  healthy (pl_sys s) -> exists s', select_send (EEvent e) s = (Ok (ResolvedFuture None), s') /\ publishedOnly s s' [e].
Proof.
  intros [_ Hc]. eexists. unfold select_send, bindM, ask. cbn. rewrite Hc. split; [reflexivity|].
  split; [by eexists | done].
Qed.

Lemma PublishBatch_run events s :
  healthy (pl_sys s) -> exists s', PublishBatch (MEvent <$> events) s = (Ok tt, s') /\ publishedOnly s s' events.
Proof.
  revert s. induction events as [|e events IH]; intros s Hh; [exists s; split; [done | apply publishedOnly_refl]|].
  rewrite fmap_cons. cbn [PublishBatch]. destruct (select_send_run e s Hh) as (s1 & Hrun & Hp).
  rewrite (run_bind _ _ _ _ _ Hrun). destruct (IH s1) as (s' & Hrun' & Hp'); [by apply (healthy_le (pl_sys s)), Hh; apply Hp|].
  exists s'. split; [done|]. apply (publishedOnly_trans _ _ _ _ _ Hp Hp').
Qed.

Lemma publishEvents_run events n s :
  healthy (pl_sys s) -> exists s', publishEvents events n s = (Ok (true, n + zlen events), s') /\ publishedOnly s s' events.
Proof.
  revert n s. induction events as [|e events IH]; intros n s Hh; cbn [publishEvents].
  - exists s. change (zlen []) with 0. rewrite Z.add_0_r. split; [done | apply publishedOnly_refl].
  - destruct (select_send_run e s Hh) as (s1 & Hrun & Hp).
    unfold bindM at 1, try, PlannerPublisher_Publish. rewrite Hrun.
    destruct (IH (n + 1) s1) as (s' & Hrun' & Hp'); [by apply (healthy_le (pl_sys s)), Hh; apply Hp|].
    exists s'. rewrite zlen_cons. replace (n + (1 + zlen events)) with (n + 1 + zlen events) by lia.
    split; [done|]. apply (publishedOnly_trans _ _ _ _ _ Hp Hp').
Qed.

Lemma preloadShard_run events s :
  tame -> exists s', preloadShard events s = (Ok tt, s') /\ publishedOnly s s' [].
Proof.
  unfold tame, preloadShard. destruct PreloadShard as [preload|]; [|intros _; exists s; split; [done | apply publishedOnly_refl]].
  intros Ht. destruct events as [|e events]; [exists s; split; [done | apply publishedOnly_refl]|].
  destruct (Ht (CardEvent.CampaignID e) (CardEvent.CardID <$> e :: events) (pl_sys s) (pl_env s)) as (r & y & e' & Hrun & Hn & Hle).
  eexists. split; [eapply run_ignore; [|exact Hn]; unfold on_preload; by rewrite Hrun|].
  split; [done|]. split; [done | by rewrite app_nil_r].
Qed.

(** The events of a shard whose items decode. *)
Definition eventsOf (s : CampaignShard.t) : list CardEvent.t :=
  match CampaignShard.Items s with Ok events => events | _ => [] end.

Definition decodes (s : CampaignShard.t) : bool := is_ok (CampaignShard.Items s).

Lemma publishLoop_prefix pre rest pub reset s :
  healthy (pl_sys s) -> tame -> Forall (fun c => decodes c = true) pre ->
  exists s', publishLoop (pre ++ rest) pub reset s = publishLoop rest (pub ++ (CampaignShard.ID <$> pre)) reset s' /\
    publishedOnly s s' (concat (eventsOf <$> pre)).
Proof.
  intros Hh Ht Hpre. revert pub s Hh. induction Hpre as [|c pre Hc Hpre IH]; intros pub s Hh.
  { exists s. rewrite app_nil_r. split; [done | apply publishedOnly_refl]. }
  cbn [app publishLoop fmap list_fmap concat]. unfold decodes in Hc. unfold eventsOf at 1.
  destruct (CampaignShard.Items c) as [events| |]; [|done|done].
  destruct (preloadShard_run events s Ht) as (s1 & Hrun1 & Hp1). rewrite (run_bind _ _ _ _ _ Hrun1).
  assert (Hh1 : healthy (pl_sys s1)) by (apply (healthy_le (pl_sys s)), Hh; apply Hp1).
  assert (Hgo : forall s2, publishedOnly s1 s2 events -> exists s',
    publishLoop (pre ++ rest) (pub ++ [CampaignShard.ID c]) reset s2
      = publishLoop rest (pub ++ CampaignShard.ID c :: (CampaignShard.ID <$> pre)) reset s' /\
    publishedOnly s s' (events ++ concat (eventsOf <$> pre))).
  { intros s2 Hp2. destruct (IH (pub ++ [CampaignShard.ID c]) s2) as (s' & Hrun' & Hp').
    { apply (healthy_le (pl_sys s1)); [apply Hp2 | done]. }
    exists s'. rewrite Hrun', <- app_assoc. split; [done|].
    apply (publishedOnly_trans _ _ _ _ _ Hp1 (publishedOnly_trans _ _ _ _ _ Hp2 Hp')). }
  destruct batch.
  - destruct (PublishBatch_run events s1 Hh1) as (s2 & Hrun2 & Hp2).
    unfold bindM at 1, try. rewrite Hrun2. by apply Hgo.
  - destruct (publishEvents_run events 0 s1 Hh1) as (s2 & Hrun2 & Hp2).
    rewrite (run_bind _ _ _ _ _ Hrun2). by apply Hgo.
Qed.

Lemma execShards_run f s :
  healthy (pl_sys s) -> exists s', ignore (execShards f) s = (Ok tt, s') /\ sys_le (pl_sys s) (pl_sys s') /\
    pl_shards s' = f (pl_shards s) /\ pl_trace s' = pl_trace s.
Proof.
  intros [Hf _]. eexists. unfold ignore, bindM, try, execShards, bindM, ask. cbn. rewrite Hf.
  split; [reflexivity|]. split; [by eexists | done].
Qed.

Lemma updateWhere_nil f table : updateWhere [] f table = table.
Proof. unfold updateWhere. rewrite <- (list_fmap_id table) at 2. apply list_fmap_ext. intros _ c _. by rewrite bool_decide_false by apply not_elem_of_nil. Qed.

Lemma updateWhere_id ids f table :
  (forall c, CampaignShard.ID (f c) = CampaignShard.ID c) ->
  CampaignShard.ID <$> updateWhere ids f table = CampaignShard.ID <$> table.
Proof.
  intros Hf. unfold updateWhere. rewrite <- list_fmap_compose. apply list_fmap_ext.
  intros _ c _. cbn. by case_bool_decide.
Qed.

(** The shards the loop puts back: the one it stopped at. *)
Definition stoppedAt (tail : list CampaignShard.t) : list string :=
  match tail with bad :: _ => [CampaignShard.ID bad] | [] => [] end.

Lemma publishClaimedShards_run pre tail s :
  healthy (pl_sys s) -> tame -> Forall (fun c => decodes c = true) pre ->
  match tail with bad :: _ => exists e, CampaignShard.Items bad = Err e | [] => True end ->
  exists s' t1 t2, publishClaimedShards (pre ++ tail) s = (Ok tt, s') /\ sys_le (pl_sys s) (pl_sys s') /\
    pl_trace s' = pl_trace s ++ (EEvent <$> concat (eventsOf <$> pre)) /\
    pl_shards s' = updateWhere (CampaignShard.ID <$> pre) (markPublished t2)
                     (updateWhere (stoppedAt tail) (resetShard t1) (pl_shards s)).
Proof.
  intros Hh Ht Hpre Htail. destruct (publishLoop_prefix pre tail [] [] s Hh Ht Hpre) as (s1 & Hrun & Hle & Htab & Htr).
  assert (Hh1 : healthy (pl_sys s1)) by (by eapply healthy_le).
  assert (Hloop : publishLoop (pre ++ tail) [] [] s = (Ok (CampaignShard.ID <$> pre, stoppedAt tail), s1)).
  { rewrite Hrun. destruct tail as [|bad post]; [done|]. destruct Htail as [e He]. cbn [publishLoop]. by rewrite He. }
  unfold publishClaimedShards. rewrite (run_bind _ _ _ _ _ Hloop).
  assert (Hreset : exists s2 t1, mwhen (negb (bool_decide (stoppedAt tail = [])))
    (do! at_ <- now; ignore (execShards (updateWhere (stoppedAt tail) (resetShard at_)))) s1 = (Ok tt, s2) /\
    sys_le (pl_sys s1) (pl_sys s2) /\ pl_trace s2 = pl_trace s1 /\
    pl_shards s2 = updateWhere (stoppedAt tail) (resetShard t1) (pl_shards s1)).
  { case_bool_decide as Hn; cbn [negb mwhen].
    - exists s1, 0. rewrite Hn, updateWhere_nil. by split_and!.
    - set (s2 := set_pl_sys (set_tick (Datatypes.S (tick (pl_sys s1))) (pl_sys s1)) s1).
      destruct (execShards_run (updateWhere (stoppedAt tail) (resetShard (sys_now (pl_sys s1) (tick (pl_sys s1))))) s2 Hh1)
        as (s3 & Hrun3 & Hle3 & Htab3 & Htr3).
      exists s3, (sys_now (pl_sys s1) (tick (pl_sys s1))). split; [exact Hrun3|].
      split; [etrans; [by eexists | exact Hle3] | done]. }
  destruct Hreset as (s2 & t1 & Hrun2 & Hle2 & Htr2 & Htab2). rewrite (run_bind _ _ _ _ _ Hrun2).
  assert (Hh2 : healthy (pl_sys s2)) by (by eapply healthy_le).
  destruct (bool_decide (CampaignShard.ID <$> pre = [])) eqn:Hn.
  - apply bool_decide_eq_true in Hn. exists s2, t1, 0. split; [done|]. split; [by etrans|]. rewrite Hn, updateWhere_nil, Htab2, Htab, Htr2, Htr. done.
  - set (s3 := set_pl_sys (set_tick (Datatypes.S (tick (pl_sys s2))) (pl_sys s2)) s2).
    destruct (execShards_run (updateWhere (CampaignShard.ID <$> pre) (markPublished (sys_now (pl_sys s2) (tick (pl_sys s2))))) s3 Hh2)
      as (s4 & Hrun4 & Hle4 & Htab4 & Htr4).
    exists s4, t1, (sys_now (pl_sys s2) (tick (pl_sys s2))). split; [exact Hrun4|].
    split; [etrans; [exact Hle | etrans; [exact Hle2 | etrans; [by eexists | exact Hle4]]]|].
    rewrite Htr4, Htab4. cbn [pl_trace pl_shards s3 set_pl_sys]. by rewrite Htr2, Htr, Htab2, Htab.
Qed.

(** A shard that does not decode strands the ones claimed with it.  When the items of a claimed shard
    fail to unmarshal, the shards before it are published and the shard itself is put back to
    pending, but those claimed after it stay in status publishing, which no later
    cycle claims; their events are not published. *)
Theorem undecodable_shard_strands_rest pre bad post err s :
  healthy (pl_sys s) -> tame -> Forall (fun c => decodes c = true) pre -> CampaignShard.Items bad = Err err ->
  NoDup (CampaignShard.ID <$> pre ++ bad :: post) ->
  exists s', publishClaimedShards (pre ++ bad :: post) s = (Ok tt, s') /\
    pl_trace s' = pl_trace s ++ (EEvent <$> concat (eventsOf <$> pre)) /\
    forall c, c ∈ pl_shards s -> CampaignShard.ID c ∈ CampaignShard.ID <$> post -> CampaignShard.Status c = "publishing" ->
              c ∈ pl_shards s' /\ ~ claimable c.
Proof.
  intros Hh Ht Hpre Hbad Hnd.
  destruct (publishClaimedShards_run pre (bad :: post) s Hh Ht Hpre ltac:(by exists err)) as (s' & t1 & t2 & Hrun & _ & Htr & Htab).
  exists s'. split; [done|]. split; [done|]. intros c Hc Hpost Hst. split; [|intros [Hp _]; congruence].
  rewrite fmap_app, fmap_cons in Hnd. apply NoDup_app in Hnd as (_ & Hd & Hnd). apply NoDup_cons in Hnd as [Hnb _].
  rewrite Htab. unfold updateWhere at 1. apply list_elem_of_fmap. exists c. split.
  - rewrite bool_decide_false; [done|]. intros Hin. apply (Hd _ Hin). by right.
  - unfold updateWhere. apply list_elem_of_fmap. exists c. split; [|done].
    rewrite bool_decide_false; [done|]. cbn [stoppedAt]. intros Hin%list_elem_of_singleton. by rewrite Hin in Hpost.
Qed.

(** ** A whole cycle *)

Lemma claimIDs_claimable table id :
  id ∈ claimIDs table -> exists c, c ∈ table /\ CampaignShard.ID c = id /\ claimable c.
Proof.
  unfold claimIDs. intros Hin. apply list_elem_of_fmap in Hin as (c & -> & Hin).
  apply elem_of_take in Hin as (i & Hi & _). apply list_elem_of_lookup_2 in Hi.
  rewrite merge_sort_Permutation, list_elem_of_filter in Hi. exists c. naive_solver.
Qed.

Lemma claimShards_run s :
  healthy (pl_sys s) -> exists s' t, claimShards s
    = (Ok (filter (fun r => CampaignShard.ID r ∈ claimIDs (pl_shards s))
                  (updateWhere (claimIDs (pl_shards s)) (claimShard t) (pl_shards s))), s') /\
    sys_le (pl_sys s) (pl_sys s') /\ pl_trace s' = pl_trace s /\
    pl_shards s' = updateWhere (claimIDs (pl_shards s)) (claimShard t) (pl_shards s).
Proof.
  intros [Hf Hc]. eexists _, _. unfold claimShards, now, execShards, bindM, ask, gets. cbn. rewrite Hf. cbn.
  split; [reflexivity|]. split; [by eexists | done].
Qed.

Lemma filter_updateWhere ids f table :
  (forall c, CampaignShard.ID (f c) = CampaignShard.ID c) ->
  filter (fun r => CampaignShard.ID r ∈ ids) (updateWhere ids f table)
  = f <$> filter (fun r => CampaignShard.ID r ∈ ids) table.
Proof.
  intros Hf. induction table as [|c table IH]; [done|]. unfold updateWhere in *. rewrite fmap_cons, !filter_cons.
  destruct (decide (CampaignShard.ID c ∈ ids)) as [Hin|Hn].
  - rewrite (bool_decide_true (CampaignShard.ID c ∈ ids)) by done.
    rewrite (decide_True (P := CampaignShard.ID (f c) ∈ ids)) by (by rewrite Hf). by rewrite IH, fmap_cons.
  - rewrite (bool_decide_false (CampaignShard.ID c ∈ ids)) by done.
    rewrite (decide_False (P := CampaignShard.ID c ∈ ids)) by done. exact IH.
Qed.

(** The shards a cycle claims. *)
Definition claimedOf (table : list CampaignShard.t) : list CampaignShard.t :=
  filter (fun c => CampaignShard.ID c ∈ claimIDs table) table.

Lemma claimedOf_claimable table c : NoDup (CampaignShard.ID <$> table) -> c ∈ claimedOf table -> claimable c.
Proof.
  intros Hnd Hc. apply list_elem_of_filter in Hc as [Hid Hin].
  destruct (claimIDs_claimable _ _ Hid) as (c' & Hin' & He & Hcl). by rewrite (NoDup_key_inj CampaignShard.ID table c c').
Qed.

Lemma claimedOf_length table : NoDup (CampaignShard.ID <$> table) -> zlen (claimedOf table) <= Z.max 0 batchSize.
Proof.
  intros Hnd. assert (Hle : (length (CampaignShard.ID <$> claimedOf table) <= length (claimIDs table))%nat).
  { apply submseteq_length, NoDup_submseteq.
    - unfold claimedOf. eapply sublist_NoDup; [exact Hnd|]. apply fmap_sublist, sublist_filter.
    - intros id Hin. apply list_elem_of_fmap in Hin as (c & -> & Hin). by apply list_elem_of_filter in Hin as [? _]. }
  unfold claimIDs in Hle. rewrite !length_fmap, length_take in Hle. unfold zlen. lia.
Qed.

Lemma sorted_take_drop (l : list CampaignShard.t) n a b :
  StronglySorted created_le l -> a ∈ take n l -> b ∈ drop n l -> created_le a b.
Proof.
  revert n. induction l as [|c l IH]; intros [|n] Hs Ha Hb; cbn in Ha, Hb;
    try (by apply not_elem_of_nil in Ha); try (by apply not_elem_of_nil in Hb).
  apply StronglySorted_inv in Hs as [Hs Hall]. apply elem_of_cons in Ha as [-> | Ha]; [|by apply (IH n)].
  rewrite Forall_forall in Hall. apply Hall. rewrite <- (take_drop n l), elem_of_app. by right.
Qed.

(** No shard left waiting is older than one claimed. *)
Lemma claimedOf_oldest table a b :
  NoDup (CampaignShard.ID <$> table) -> a ∈ claimedOf table -> b ∈ table -> claimable b ->
  CampaignShard.ID b ∉ claimIDs table -> CampaignShard.CreatedAt a <= CampaignShard.CreatedAt b.
Proof.
  intros Hnd Ha Hb Hcl Hnot. apply list_elem_of_filter in Ha as [Hid Hina]. unfold claimIDs in Hid, Hnot.
  set (sorted := merge_sort created_le (filter claimable table)) in *. set (n := Z.to_nat batchSize) in *.
  assert (Hss : StronglySorted created_le sorted).
  { apply StronglySorted_merge_sort; [intros x y z; unfold created_le; lia | intros x y; unfold created_le; lia]. }
  apply list_elem_of_fmap in Hid as (a' & He & Ha').
  assert (Hmem : forall c, c ∈ sorted -> c ∈ table).
  { intros c Hc. unfold sorted in Hc. rewrite merge_sort_Permutation, list_elem_of_filter in Hc. tauto. }
  assert (Htk : a' ∈ sorted) by (rewrite <- (take_drop n sorted), elem_of_app; by left).
  assert (a = a') as -> by (apply (NoDup_key_inj CampaignShard.ID table); auto).
  apply (sorted_take_drop sorted n a' b Hss Ha').
  assert (Hbs : b ∈ sorted) by (unfold sorted; rewrite merge_sort_Permutation, list_elem_of_filter; done).
  rewrite <- (take_drop n sorted), elem_of_app in Hbs. destruct Hbs as [Hbs|]; [|done].
  destruct Hnot. apply list_elem_of_fmap. by exists b.
Qed.

(** Claiming a batch and marking it published touches the claimed rows only. *)
Lemma claimed_rows_published table t1 t2 :
  Forall2 (fun c c' => CampaignShard.ID c' = CampaignShard.ID c /\
                       if bool_decide (CampaignShard.ID c ∈ claimIDs table)
                       then CampaignShard.Status c' = "published" else c' = c)
    table (updateWhere (CampaignShard.ID <$> claimedOf table) (markPublished t2)
             (updateWhere (claimIDs table) (claimShard t1) table)).
Proof.
  unfold updateWhere. rewrite !Forall2_fmap_r. apply Forall_Forall2_diag, Forall_forall. intros c Hc.
  assert (Hiff : CampaignShard.ID c ∈ CampaignShard.ID <$> claimedOf table <-> CampaignShard.ID c ∈ claimIDs table).
  { split.
    - intros Hin. apply list_elem_of_fmap in Hin as (c' & He & Hin).
      apply list_elem_of_filter in Hin as [Hid _]. by rewrite He.
    - intros Hid. apply list_elem_of_fmap_2. unfold claimedOf. by apply list_elem_of_filter. }
  unfold compose. destruct (decide (CampaignShard.ID c ∈ claimIDs table)) as [Hcl|Hcl].
  - rewrite (bool_decide_true (CampaignShard.ID c ∈ claimIDs table)) by done. cbn beta iota.
    change (CampaignShard.ID (claimShard t1 c)) with (CampaignShard.ID c).
    by rewrite (bool_decide_true (CampaignShard.ID c ∈ CampaignShard.ID <$> claimedOf table)) by tauto.
  - rewrite (bool_decide_false (CampaignShard.ID c ∈ claimIDs table)) by done.
    by rewrite (bool_decide_false (CampaignShard.ID c ∈ CampaignShard.ID <$> claimedOf table)) by tauto.
Qed.

Lemma cycle_run s :
  healthy (pl_sys s) -> tame -> NoDup (CampaignShard.ID <$> pl_shards s) ->
  backlogOf (db (pl_sys s)) (pl_shards s) <= maxShardBacklog ->
  Forall (fun c => claimable c -> decodes c = true) (pl_shards s) ->
  exists s', publishBatch s = (Ok tt, s') /\ sys_le (pl_sys s) (pl_sys s') /\
    pl_trace s' = pl_trace s ++ (EEvent <$> concat (eventsOf <$> claimedOf (pl_shards s))) /\
    Forall2 (fun c c' => CampaignShard.ID c' = CampaignShard.ID c /\
                         if bool_decide (CampaignShard.ID c ∈ claimIDs (pl_shards s))
                         then CampaignShard.Status c' = "published" else c' = c)
      (pl_shards s) (pl_shards s').
Proof.
  intros Hh Ht Hnd Hback Hdec. set (table := pl_shards s) in *. set (claimed := claimedOf table). set (ids := claimIDs table).
  unfold publishBatch. set (s0 := set_pl_sys (set_tick (Datatypes.S (tick (pl_sys s))) (pl_sys s)) s).
  assert (Hq : try (query (fun d => d)) s = (Ok (Ok (db (pl_sys s))), s0)).
  { unfold try, query, bindM, ask. cbn. by rewrite (proj1 Hh). }
  rewrite (run_bind _ _ _ _ _ Hq). rewrite (run_bind _ _ s0 (backlogOf (db (pl_sys s)) table) s0) by done.
  rewrite (proj2 (Z.ltb_ge _ _)) by lia.
  destruct (claimShards_run s0 Hh) as (s1 & t & Hclaim & Hle1 & Htr1 & Htab1). pose proof (healthy_le _ _ Hle1 Hh) as Hh1.
  change (pl_shards s0) with table in Hclaim, Htab1. fold ids in Hclaim, Htab1.
  rewrite filter_updateWhere in Hclaim by done. fold claimed in Hclaim.
  assert (Htry : try claimShards s0 = (Ok (Ok (claimShard t <$> claimed)), s1)) by (unfold try; by rewrite Hclaim).
  rewrite (run_bind _ _ _ _ _ Htry).
  assert (Hpub : exists s' t2, (match claimShard t <$> claimed with
      | [] => ret tt | shards => publishClaimedShards shards end) s1 = (Ok tt, s') /\ sys_le (pl_sys s1) (pl_sys s') /\
    pl_trace s' = pl_trace s ++ (EEvent <$> concat (eventsOf <$> claimed)) /\
    pl_shards s' = updateWhere (CampaignShard.ID <$> claimed) (markPublished t2) (updateWhere ids (claimShard t) table)).
  { destruct (publishClaimedShards_run (claimShard t <$> claimed) [] s1 Hh1 Ht) as (s' & t1 & t2 & Hrun & Hle & Htr & Htab).
    - apply Forall_fmap, Forall_forall. intros c Hc. rewrite Forall_forall in Hdec.
      change (decodes c = true). pose proof (claimedOf_claimable table c Hnd Hc) as Hcl.
      unfold claimed, claimedOf in Hc. apply list_elem_of_filter in Hc as [_ Hc]. by apply Hdec.
    - done.
    - cbn [stoppedAt] in Htab. rewrite updateWhere_nil, Htab1 in Htab. rewrite Htr1 in Htr.
      rewrite <- !list_fmap_compose in Htr, Htab. rewrite app_nil_r in Hrun.
      destruct claimed as [|c0 cs]; [exists s1, 0 | exists s', t2; by split_and!].
      rewrite updateWhere_nil, app_nil_r. by split_and!. }
  destruct Hpub as (s' & t2 & Hrun & Hle & Htr & Htab). exists s'. split_and!.
  - rewrite <- Hrun. by destruct (claimShard t <$> claimed).
  - assert (Hle0 : sys_le (pl_sys s) (pl_sys s0)) by (by eexists). etrans; [exact Hle0 | etrans; [exact Hle1 | exact Hle]].
  - exact Htr.
  - rewrite Htab. apply claimed_rows_published.
Qed.

(** C21: a planner cycle.  With the backlog within its limit, no database error and items that decode, a
    cycle claims at most a batch of pending shards, none younger than a shard left waiting, publishes every event
    of every claimed shard exactly once, in order, and nothing else; afterwards exactly the claimed
    shards have status published, which no later cycle claims, and all other rows are as before. *)
Theorem planner_cycle s :
  healthy (pl_sys s) -> tame -> NoDup (CampaignShard.ID <$> pl_shards s) ->
  backlogOf (db (pl_sys s)) (pl_shards s) <= maxShardBacklog ->
  Forall (fun c => claimable c -> decodes c = true) (pl_shards s) ->
  let claimed := claimedOf (pl_shards s) in
  exists s', publishBatch s = (Ok tt, s') /\
    pl_trace s' = pl_trace s ++ (EEvent <$> concat (eventsOf <$> claimed)) /\
    zlen claimed <= Z.max 0 batchSize /\
    (forall a b, a ∈ claimed -> b ∈ pl_shards s -> claimable b -> CampaignShard.ID b ∉ claimIDs (pl_shards s) ->
       CampaignShard.CreatedAt a <= CampaignShard.CreatedAt b) /\
    Forall2 (fun c c' => CampaignShard.ID c' = CampaignShard.ID c /\
                         if bool_decide (CampaignShard.ID c ∈ claimIDs (pl_shards s))
                         then CampaignShard.Status c' = "published" else c' = c)
      (pl_shards s) (pl_shards s').
Proof.
  intros Hh Ht Hnd Hback Hdec claimed. destruct (cycle_run s Hh Ht Hnd Hback Hdec) as (s' & Hrun & _ & Htr & Htab).
  exists s'. split_and!; [done | done | by apply claimedOf_length | intros a b; by apply claimedOf_oldest | done].
Qed.

End Planner.
Arguments Service : clear implicits.

(** ** Witnesses *)

Definition wit_shard (id status : string) (items : res (list CardEvent.t)) (claimed : option Z) (created : Z)
    : CampaignShard.t := CampaignShard.mk id "camp-1" 1 status 1 items claimed None created 0.

Definition wit_event : CardEvent.t := CardEvent.activate "ev-1" "card-1" "camp-1" 1 0 0.

Definition wit_service (shards : list CampaignShard.t) : Service unit := {|
  pl_sys := quiet_sys empty_db; pl_env := tt; pl_shards := shards; pl_trace := [];
  pl_logp := {| LogProducer.dropped := 0; LogProducer.disabled := false |} |}.

Definition wit_preload : option (string -> list string -> M (Sys * unit) unit) := Some (fun _ _ => ret tt).

Lemma wit_preload_tame : tame wit_preload.
Proof. intros c l y []. by eexists _, _, _. Qed.

(** Two pending shards and a batch of one: the older one is published. *)
Lemma planner_cycle_witness :
  let s := wit_service [wit_shard "b" "pending" (Ok []) None 20; wit_shard "a" "pending" (Ok [wit_event]) None 10] in
  exists s', publishBatch wit_preload true 1 500 s = (Ok tt, s') /\ pl_trace s' = [EEvent wit_event].
Proof.
  intros s. destruct (planner_cycle wit_preload true 1 500 s) as (s' & Hrun & Htr & _);
    [by split | apply wit_preload_tame | apply (bool_decide_unpack _); vm_compute; exact I
    | vm_compute; congruence | by repeat constructor |].
  exists s'. split; [exact Hrun|]. rewrite Htr. reflexivity.
Defined.

(** The shard after a broken one stays claimed and unpublished. *)
Lemma undecodable_shard_strands_rest_witness :
  let good := wit_shard "c" "publishing" (Ok [wit_event]) (Some 5) 30 in
  let bad := wit_shard "b" "publishing" (Err (Errorf "unexpected end of JSON input" [])) (Some 5) 20 in
  exists s', publishClaimedShards wit_preload true [bad; good] (wit_service [bad; good]) = (Ok tt, s') /\
    pl_trace s' = [] /\ good ∈ pl_shards s' /\ ~ claimable good.
Proof.
  intros good bad.
  destruct (undecodable_shard_strands_rest wit_preload true [] bad [good] (Errorf "unexpected end of JSON input" [])
    (wit_service [bad; good])) as (s' & Hrun & Htr & Hrest);
    [by split | apply wit_preload_tame | done | done | apply (bool_decide_unpack _); vm_compute; exact I |].
  exists s'. split; [exact Hrun|]. split; [exact Htr|]. apply Hrest; [by right; left | by left | done].
Defined.
