(* ===== verification/PlannerLiveness.v ===== *)
(** * The planner over many cycles

    [Service.Run] calls publishBatch at every tick.  [cycles n] is [n] ticks: with
    the backlog within its limit they publish every claimable shard, each exactly
    once; with the backlog above it they never publish anything. *)

From S2P Require Import Prelude Effects Models Pipeline Store Sql Planner.

Section Cycles.
Context {E : Type}.
Context (PreloadShard : option (string -> list string -> M (Sys * E) unit)).
Context (batch : bool) (batchSize maxShardBacklog : Z).

(** [n] ticks of [Run]. *)
Fixpoint cycles (n : nat) : M (Service E) unit :=
  match n with
  | O => ret tt
  | S n => do! _ <- publishBatch PreloadShard batch batchSize maxShardBacklog; cycles n
  end.

(** ** What one cycle does to the claimable shards *)

(** Row by row: the claimed ones are published, the others unchanged. *)
Definition rowsPublished (ids : list string) : list CampaignShard.t -> list CampaignShard.t -> Prop :=
  Forall2 (fun c c' => CampaignShard.ID c' = CampaignShard.ID c /\
                       if bool_decide (CampaignShard.ID c ∈ ids) then CampaignShard.Status c' = "published" else c' = c).

Lemma rowsPublished_claimable ids table table' :
  rowsPublished ids table table' -> filter claimable table' = filter (fun c => CampaignShard.ID c ∉ ids) (filter claimable table).
Proof.
  induction 1 as [|c c' table table' [_ Hc] _ IH]; [done|]. rewrite !(filter_cons claimable). case_bool_decide as Hin.
  - rewrite decide_False by (intros [? _]; congruence). rewrite IH. case_decide; [|done].
    by rewrite filter_cons_False by tauto.
  - subst c'. case_decide; [|done]. by rewrite filter_cons_True, IH.
Qed.

Lemma claimedOf_split table :
  NoDup (CampaignShard.ID <$> table) ->
  claimedOf batchSize table = filter (fun c => CampaignShard.ID c ∈ claimIDs batchSize table) (filter claimable table).
Proof.
  intros Hnd. rewrite list_filter_filter. apply filter_ext_in. intros c Hc. split; [|tauto].
  intros Hin. split; [done|]. apply (claimedOf_claimable batchSize table); [done|]. by apply list_elem_of_filter.
Qed.

(** As many as fit in a batch are claimed. *)
Lemma claimedOf_count table :
  NoDup (CampaignShard.ID <$> table) -> 0 < batchSize ->
  zlen (filter claimable table) - batchSize
    <= zlen (filter (fun c => CampaignShard.ID c ∉ claimIDs batchSize table) (filter claimable table))
    <= Z.max 0 (zlen (filter claimable table) - batchSize).
Proof.
  intros Hnd Hb. set (cl := filter claimable table).
  assert (Hndc : NoDup (CampaignShard.ID <$> cl)) by (eapply sublist_NoDup; [exact Hnd | apply fmap_sublist, sublist_filter]).
  set (ids := claimIDs batchSize table).
  assert (Hperm : CampaignShard.ID <$> filter (fun c => CampaignShard.ID c ∈ ids) cl ≡ₚ ids).
  { apply NoDup_Permutation.
    - eapply sublist_NoDup; [exact Hndc | apply fmap_sublist, sublist_filter].
    - unfold ids, claimIDs. fold cl. eapply sublist_NoDup; [|apply fmap_sublist, sublist_take].
      rewrite merge_sort_Permutation. exact Hndc.
    - intros id. rewrite list_elem_of_fmap. split; [by intros (c & -> & [? _]%list_elem_of_filter)|].
      intros Hid. destruct (claimIDs_claimable _ _ _ Hid) as (c & Hc & <- & Hcl). exists c. split; [done|].
      unfold cl. rewrite !list_elem_of_filter. by split_and!. }
  apply Permutation_length in Hperm. rewrite length_fmap in Hperm.
  assert (Hids : length ids = Nat.min (Z.to_nat batchSize) (length cl)).
  { unfold ids, claimIDs. fold cl. by rewrite length_fmap, length_take, merge_sort_Permutation. }
  pose proof (Permutation_length (filter_partition (fun c => CampaignShard.ID c ∈ ids) cl)) as Hsplit.
  rewrite length_app in Hsplit. unfold zlen. lia.
Qed.

(** A cycle keeps what the next one needs. *)
Lemma rowsPublished_ready ids table table' :
  rowsPublished ids table table' ->
  CampaignShard.ID <$> table' = CampaignShard.ID <$> table /\
  (Forall (fun c => claimable c -> decodes c = true) table -> Forall (fun c => claimable c -> decodes c = true) table').
Proof.
  induction 1 as [|c c' table table' [Hid Hc] _ [IH1 IH2]]; [done|]. split; [by rewrite !fmap_cons, Hid, IH1|].
  intros [Hd Hall]%Forall_cons. constructor; [|by apply IH2]. case_bool_decide; [intros [? _]; congruence | by subst].
Qed.

Lemma rowsPublished_backlog ids table table' d :
  rowsPublished ids table table' -> backlogOf d table' <= backlogOf d table.
Proof.
  unfold backlogOf, zlen. induction 1 as [|c c' table table' [_ Hc] _ IH]; [done|]. rewrite !filter_cons.
  case_bool_decide as Hin.
  - rewrite (decide_False (P := _ /\ _)) by (rewrite Hc; intros [[?|[?|?%not_elem_of_nil]%elem_of_cons]%elem_of_cons _]; congruence).
    case_decide; cbn [length]; lia.
  - subst c'. case_decide; cbn [length]; lia.
Qed.

(** Published rows stay as they are. *)
Lemma rowsPublished_chain ids table table1 table2 :
  rowsPublished ids table table1 ->
  Forall (fun c => CampaignShard.ID c ∈ ids -> claimable c) table ->
  Forall2 (fun c c' => CampaignShard.ID c' = CampaignShard.ID c /\
                       if bool_decide (claimable c) then CampaignShard.Status c' = "published" else c' = c) table1 table2 ->
  Forall2 (fun c c' => CampaignShard.ID c' = CampaignShard.ID c /\
                       if bool_decide (claimable c) then CampaignShard.Status c' = "published" else c' = c) table table2.
Proof.
  intros H1. revert table2. induction H1 as [|c c1 table table1 [Hid Hc] _ IH]; intros table2 Hcl H2; inv H2; [constructor|].
  apply Forall_cons in Hcl as [Hclc Hcl]. constructor; [|by apply IH].
  match goal with H : _ /\ _ |- _ => destruct H as [Hid' Hc'] end. split; [congruence|].
  destruct (decide (CampaignShard.ID c ∈ ids)) as [Hin|Hin];
    [rewrite (bool_decide_true _ Hin) in Hc | rewrite (bool_decide_false _ Hin) in Hc].
  - rewrite (bool_decide_true (claimable c)) by exact (Hclc Hin).
    rewrite (bool_decide_false (claimable c1)) in Hc' by (intros [? _]; congruence). congruence.
  - by subst c1.
Qed.

Section Drain.
Hypothesis size_pos : 0 < batchSize.
Hypothesis preload_tame : tame PreloadShard.

Lemma drain_run n s :
  healthy (pl_sys s) -> NoDup (CampaignShard.ID <$> pl_shards s) ->
  backlogOf (db (pl_sys s)) (pl_shards s) <= maxShardBacklog ->
  Forall (fun c => claimable c -> decodes c = true) (pl_shards s) ->
  zlen (filter claimable (pl_shards s)) <= Z.of_nat n * batchSize ->
  exists s' evs, cycles n s = (Ok tt, s') /\
    pl_trace s' = pl_trace s ++ (EEvent <$> evs) /\ evs ≡ₚ concat (eventsOf <$> filter claimable (pl_shards s)) /\
    Forall2 (fun c c' => CampaignShard.ID c' = CampaignShard.ID c /\
                         if bool_decide (claimable c) then CampaignShard.Status c' = "published" else c' = c)
      (pl_shards s) (pl_shards s').
Proof using size_pos preload_tame.
  revert s. induction n as [|n IH]; intros s Hh Hnd Hback Hdec Hlen.
  - exists s, []. cbn [cycles]. assert (Hnil : filter claimable (pl_shards s) = []) by (apply nil_length_inv; unfold zlen in Hlen; lia).
    rewrite Hnil, app_nil_r. split; [done|]. split; [done|]. split; [done|].
    apply Forall_Forall2_diag, Forall_forall. intros c Hc. split; [done|]. rewrite bool_decide_false; [done|].
    intros Hcl. assert (Hin : c ∈ filter claimable (pl_shards s)) by (by apply list_elem_of_filter).
    rewrite Hnil in Hin. by apply not_elem_of_nil in Hin.
  - destruct (cycle_run PreloadShard batch batchSize maxShardBacklog s Hh preload_tame Hnd Hback Hdec) as (s1 & Hrun & Hle & Htr & Hrows).
    change (rowsPublished (claimIDs batchSize (pl_shards s)) (pl_shards s) (pl_shards s1)) in Hrows.
    destruct (rowsPublished_ready _ _ _ Hrows) as [Hids Hdec1]. pose proof (rowsPublished_claimable _ _ _ Hrows) as Hcl1.
    destruct (IH s1) as (s' & evs & Hrun' & Htr' & Hevs & Hrows').
    + by apply (healthy_le (pl_sys s)).
    + by rewrite Hids.
    + destruct Hle as [k ->]. cbn [db set_tick]. pose proof (rowsPublished_backlog _ _ _ (db (pl_sys s)) Hrows). lia.
    + by apply Hdec1.
    + rewrite Hcl1. pose proof (claimedOf_count (pl_shards s) Hnd size_pos). lia.
    + exists s', (concat (eventsOf <$> claimedOf batchSize (pl_shards s)) ++ evs). cbn [cycles]. rewrite (run_bind _ _ _ _ _ Hrun).
      split; [done|]. split; [by rewrite Htr', Htr, fmap_app, app_assoc|]. split.
      * rewrite Hevs, Hcl1, (claimedOf_split _ Hnd), <- concat_app, <- fmap_app. by rewrite <- filter_partition.
      * apply (rowsPublished_chain _ _ _ _ Hrows); [|done]. rewrite Forall_forall. intros c Hc Hin.
        apply (claimedOf_claimable batchSize (pl_shards s)); [done|]. by apply list_elem_of_filter.
Qed.
End Drain.

(** C15: every shard is published.  While the backlog of running campaigns is within the
    planner's limit and nothing fails, enough ticks (the claimable shards divided by the batch size) publish
    every event of every claimable shard exactly once and nothing else, and
    leave exactly those shards published; no shard starves. *)
Theorem planner_drains n s :
  0 < batchSize -> tame PreloadShard -> healthy (pl_sys s) -> NoDup (CampaignShard.ID <$> pl_shards s) ->
  backlogOf (db (pl_sys s)) (pl_shards s) <= maxShardBacklog ->
  Forall (fun c => claimable c -> decodes c = true) (pl_shards s) ->
  zlen (filter claimable (pl_shards s)) <= Z.of_nat n * batchSize ->
  exists s' evs, cycles n s = (Ok tt, s') /\
    pl_trace s' = pl_trace s ++ (EEvent <$> evs) /\ evs ≡ₚ concat (eventsOf <$> filter claimable (pl_shards s)) /\
    Forall2 (fun c c' => CampaignShard.ID c' = CampaignShard.ID c /\
                         if bool_decide (claimable c) then CampaignShard.Status c' = "published" else c' = c)
      (pl_shards s) (pl_shards s').
Proof. intros Hb Ht Hh Hnd Hback Hdec Hlen. by apply drain_run. Qed.

(** A backlog above the limit never shrinks.  Pending shards count towards the backlog that stops the
    planner, and only the planner publishes them: once a campaign with more shards than the limit
    runs, no number of ticks publishes an event or changes a shard. *)
Theorem backlog_blocks_planner n s :
  healthy (pl_sys s) -> maxShardBacklog < backlogOf (db (pl_sys s)) (pl_shards s) ->
  exists s', cycles n s = (Ok tt, s') /\ pl_trace s' = pl_trace s /\ pl_shards s' = pl_shards s.
Proof.
  revert s. induction n as [|n IH]; intros s Hh Hback; cbn [cycles]; [by exists s|].
  set (s0 := set_pl_sys (set_tick (Datatypes.S (tick (pl_sys s))) (pl_sys s)) s).
  assert (Hrun : publishBatch PreloadShard batch batchSize maxShardBacklog s = (Ok tt, s0)).
  { unfold publishBatch, try, query, bindM, ask, gets. cbn. rewrite (proj1 Hh). cbn. by rewrite (proj2 (Z.ltb_lt _ _)). }
  rewrite (run_bind _ _ _ _ _ Hrun). by apply (IH s0).
Qed.
End Cycles.

(** ** Witnesses *)

(** Three shards, two ticks of two. *)
Lemma planner_drains_witness :
  let s := wit_service [wit_shard "b" "pending" (Ok []) None 20; wit_shard "a" "pending" (Ok [wit_event]) None 10;
                        wit_shard "c" "pending" (Ok [wit_event]) None 30] in
  exists s' evs, cycles wit_preload true 2 500 2 s = (Ok tt, s') /\ pl_trace s' = EEvent <$> evs /\ evs ≡ₚ [wit_event; wit_event].
Proof.
  intros s. destruct (planner_drains wit_preload true 2 500 2 s) as (s' & evs & Hrun & Htr & Hevs & _);
    [done | apply wit_preload_tame | by split | apply (bool_decide_unpack _); vm_compute; exact I
    | vm_compute; congruence | by repeat constructor | vm_compute; congruence |].
  exists s', evs. split; [exact Hrun|]. split; [exact Htr | exact Hevs].
Defined.

(** Two shards of a running campaign and a limit of one. *)
Lemma backlog_blocks_planner_witness :
  let s := set_pl_sys (quiet_sys (set_campaigns <["camp-1" := Campaign.mk "camp-1" "running" 0 None None None None None None ""]> empty_db))
             (wit_service [wit_shard "a" "pending" (Ok [wit_event]) None 10; wit_shard "b" "pending" (Ok []) None 20]) in
  exists s', cycles wit_preload true 5 1 1000 s = (Ok tt, s') /\ pl_trace s' = [] /\ pl_shards s' = pl_shards s.
Proof.
  intros s. destruct (backlog_blocks_planner wit_preload true 5 1 1000 s) as (s' & Hrun & Htr & Hsh);
    [by split | vm_compute; reflexivity |].
  exists s'. by split_and!.
Defined.
