(* ===== verification/CampaignProps.v ===== *)
(** * Properties of the campaign life cycle

    The target loop visits the chunks of the sorted targets; the four operations
    are the transitions of a small state machine and change nothing when they
    fail; starting and resuming create exactly the shards the planner needs. *)

From S2P Require Import Prelude Effects Models Pipeline Store StateWriter StateWriterProps Sql QueryStore QueryStoreProps Executor Planner CampaignControl ControlScenario.

(** ** The target loop *)

(** Reference: one page read and one call per piece, until a short piece. *)
Fixpoint visitPages {A} (batchSize : Z) (fn : list string -> A -> C A) (pieces : list (list string)) (acc : A) : C A :=
  match pieces with
  | [] => do! _ <- readTable (fun _ => tt); ret acc
  | batch :: pieces =>
      do! _ <- readTable (fun _ => tt);
      do! acc <- fn batch acc;
      if zlen batch <? batchSize then ret acc else visitPages batchSize fn pieces acc
  end.

Lemma sorted_after l pre r :
  StronglySorted id_lt (pre ++ r) -> last pre = Some l -> filter (id_lt l) (pre ++ r) = r.
Proof.
  intros Hs Hl. apply last_Some in Hl as (pre' & ->). rewrite <- app_assoc in Hs |- *.
  rewrite filter_app. assert (Hpre : forall x, x ∈ pre' -> id_lt x l).
  { intros x Hx. induction pre' as [|y pre' IH]; [by apply not_elem_of_nil in Hx|].
    cbn in Hs. apply StronglySorted_inv in Hs as [Hs Hall]. apply elem_of_cons in Hx as [->|Hx]; [|by apply IH].
    rewrite Forall_forall in Hall. apply Hall. set_solver. }
  assert (filter (id_lt l) pre' = []) as ->.
  { clear Hs. induction pre' as [|y pre' IH]; [done|]. rewrite filter_cons_False.
    - apply IH. intros x Hx. apply Hpre. by right.
    - intros Hly. apply (id_lt_irrefl l), (id_lt_trans _ y); [done | apply Hpre; by left]. }
  assert (Hr : StronglySorted id_lt ([l] ++ r)).
  { clear Hpre. induction pre' as [|y pre' IH]; [done|].
    cbn [app] in Hs. apply StronglySorted_inv in Hs as [Hs _]. by apply IH. }
  cbn in Hr. apply StronglySorted_inv in Hr as [_ Hall]. cbn [app]. rewrite filter_cons_False by apply id_lt_irrefl.
  clear Hs. induction Hall as [|x r Hx _ IH]; [done|]. rewrite filter_cons_True by done. by rewrite IH.
Qed.

Section TargetLoop.
Context {A : Type} (campaignID : string) (batchSize : Z) (fn : list string -> A -> C A).
Hypothesis size_pos : 0 < batchSize.
Hypothesis fn_targets : forall b a s, cp_targets (snd (fn b a s)) = cp_targets s.

Let n := Z.to_nat batchSize.

Lemma targetLoop_pages fuel pre r lastID acc s :
  targetIDs campaignID (cp_targets s) = pre ++ r -> lastID = last pre -> (length r < fuel)%nat ->
  targetLoop fuel campaignID batchSize fn lastID acc s = visitPages batchSize fn (chunks n r) acc s.
Proof.
  revert pre r lastID acc s. induction fuel as [|fuel IH]; intros pre r lastID acc s Hids -> Hf; [lia|].
  assert (Hpage : forall s', cp_targets s' = cp_targets s ->
    targetPage campaignID (last pre) batchSize (cp_targets s') = take n r).
  { intros s' ->. unfold targetPage. fold n. destruct (last pre) as [l|] eqn:E.
    - rewrite Hids. rewrite sorted_after; [done | | done]. rewrite <- Hids. apply sortedIDs_strict.
    - apply last_None in E as ->. by rewrite Hids. }
  cbn [targetLoop]. destruct (decide (r = [])) as [->|Hr].
  { rewrite chunks_nil. cbn [visitPages]. unfold readTable, bindM, ask. destruct (sys_fault _ _); [done|].
    unfold gets. rewrite Hpage by done. by rewrite take_nil. }
  rewrite chunks_cons by (done || unfold n; lia). cbn [visitPages].
  unfold readTable, bindM at 1 2 4 5, ask. destruct (sys_fault _ _); [done|].
  unfold gets. rewrite Hpage by done. set (s1 := set_sys _ s).
  destruct (take n r) as [|x b] eqn:Eb; [destruct r; [done|]; unfold n in Eb; destruct (Z.to_nat batchSize) eqn:En; [lia | done]|].
  rewrite <- Eb. unfold bindM. pose proof (fn_targets (take n r) acc s1) as Ht.
  destruct (fn (take n r) acc s1) as [[acc'|e|p] s2]; [|done..]. cbn [snd] in Ht.
  destruct (zlen (take n r) <? batchSize) eqn:Ez; [done|]. apply Z.ltb_ge in Ez.
  assert (Hlen : (n <= length r)%nat) by (unfold zlen in Ez; rewrite length_take in Ez; unfold n in *; lia).
  apply (IH (pre ++ take n r)).
  - rewrite Ht. change (cp_targets s1) with (cp_targets s). by rewrite Hids, <- app_assoc, take_drop.
  - rewrite last_app. destruct (last (take n r)) eqn:E; [done|]. apply last_None in E. by rewrite E in Eb.
  - rewrite length_drop. unfold n in *. lia.
Qed.
End TargetLoop.

Lemma campaignShardSize_pos getenv : 0 < campaignShardSize getenv.
Proof.
  unfold campaignShardSize. set (n := GetEnvInt _ _ _). destruct (n <=? 0) eqn:E; [|lia].
  unfold defaultCampaignShardSize. lia.
Qed.

(** Keyset pagination.  For every environment and every callback that leaves the target table alone,
    forEachCampaignTargetBatch is the loop over the chunks of the campaign's targets in
    ascending order: each target is passed exactly once, in batches of the requested
    size, and the loop ends. *)
Theorem target_batches_are_chunks {A} getenv campaignID batchSize (fn : list string -> A -> C A) acc s :
  (forall b a s, cp_targets (snd (fn b a s)) = cp_targets s) ->
  let size := if batchSize <=? 0 then campaignShardSize getenv else batchSize in
  let ids := targetIDs campaignID (cp_targets s) in
  forEachCampaignTargetBatch getenv campaignID batchSize fn acc s
    = visitPages size fn (chunks (Z.to_nat size) ids) acc s /\
  concat (chunks (Z.to_nat size) ids) = ids /\ NoDup ids /\
  forall card, card ∈ ids <-> exists t, t ∈ cp_targets s /\ CampaignTarget.CampaignID t = campaignID /\ CampaignTarget.CardID t = card.
Proof.
  intros Hfn size ids.
  assert (Hsize : 0 < size).
  { unfold size. destruct (batchSize <=? 0) eqn:E; [apply campaignShardSize_pos | lia]. }
  split_and!.
  - unfold forEachCampaignTargetBatch. fold size. unfold bindM, gets.
    apply (targetLoop_pages campaignID size fn Hsize Hfn _ []); [done | done | fold ids; lia].
  - apply concat_chunks. lia.
  - apply sortedIDs_NoDup.
  - intros card. unfold ids, targetIDs. rewrite sortedIDs_elem, list_elem_of_fmap.
    setoid_rewrite list_elem_of_filter. naive_solver.
Qed.

(** ** Frames *)

Definition camps (s : Control) : gmap string Campaign.t := campaigns (db (cp_sys s)).
Definition statusOf (s : Control) (c : string) : option string := Campaign.Status <$> camps s !! c.

(** Campaigns, shards and targets are as before. *)
Definition keeps (s s' : Control) : Prop :=
  camps s' = camps s /\ cp_shards s' = cp_shards s /\ cp_targets s' = cp_targets s.
#[export] Instance keeps_preorder : PreOrder keeps.
Proof. split; [done|]. intros s1 s2 s3 (? & ? & ?) (? & ? & ?). repeat split; congruence. Qed.

(** Other campaigns and the targets are as before; new shards belong to [c]. *)
Definition frame (c : string) (s s' : Control) : Prop :=
  (forall c', c' <> c -> camps s' !! c' = camps s !! c') /\ cp_targets s' = cp_targets s /\
  exists new, cp_shards s' = cp_shards s ++ new /\ Forall (fun sh => CampaignShard.CampaignID sh = c) new.
#[export] Instance frame_preorder c : PreOrder (frame c).
Proof.
  split.
  - intros s. repeat split. exists []. by rewrite app_nil_r.
  - intros s1 s2 s3 (H1 & T1 & n1 & E1 & F1) (H2 & T2 & n2 & E2 & F2). split; [intros c' Hc; by rewrite H2, H1|].
    split; [congruence|]. exists (n1 ++ n2). rewrite E2, E1, app_assoc. split; [done | by apply Forall_app].
Qed.

Lemma keeps_frame c s s' : keeps s s' -> frame c s s'.
Proof.
  intros (H1 & H2 & H3). split; [by intros; rewrite H1|]. split; [done|]. exists []. by rewrite app_nil_r.
Qed.

Section PreservesControl.
Context (R : Control -> Control -> Prop) `{!PreOrder R}.
Hypothesis keeps_R : forall s s', keeps s s' -> R s s'.

Lemma preserves_cp_ask {A} (f : Sys -> nat -> A) : preserves R (ask f : C A).
Proof using keeps_R. intros s. by apply keeps_R. Qed.

Lemma preserves_readTable {A} (f : Control -> A) : preserves R (readTable f).
Proof using All.
  apply preserves_bind; [done | apply preserves_cp_ask|]. intros [e|]; [by apply preserves_err | by apply preserves_gets].
Qed.

Lemma preserves_cp_query {A} (f : Database -> A) : preserves R (query f : C A).
Proof using All.
  apply preserves_bind; [done | apply preserves_cp_ask|]. intros [e|]; [by apply preserves_err | by apply preserves_gets].
Qed.

Lemma preserves_targetLoop {A} fuel c size (fn : list string -> A -> C A) lastID acc :
  (forall b a, preserves R (fn b a)) -> preserves R (targetLoop fuel c size fn lastID acc).
Proof using All.
  intros Hfn. revert lastID acc. induction fuel as [|fuel IH]; intros lastID acc; cbn [targetLoop]; [by apply preserves_res|].
  apply preserves_bind; [done | apply preserves_readTable|]. intros [|x l]; [by apply preserves_ret|].
  apply preserves_bind; [done | apply Hfn|]. intros a. apply preserves_if; [by apply preserves_ret | apply IH].
Qed.

Lemma preserves_forEach {A} getenv c size (fn : list string -> A -> C A) acc :
  (forall b a, preserves R (fn b a)) -> preserves R (forEachCampaignTargetBatch getenv c size fn acc).
Proof using All.
  intros Hfn. apply preserves_bind; [done | by apply preserves_gets|]. intros fuel. by apply preserves_targetLoop.
Qed.

(** A rollback restores what the body changed. *)
Lemma preserves_cp_transaction {A} (body : C A) :
  (forall s s', snapshot s' = snapshot s -> cp_targets s' = cp_targets s -> R s s') ->
  preserves R body -> (forall s, cp_targets (snd (body s)) = cp_targets s) -> preserves R (transaction body).
Proof using All.
  intros Hsnap Hbody Htg s. unfold transaction, bindM, ask, gets. destruct (sys_fault _ _); [by apply keeps_R|].
  set (s0 := set_sys _ s). assert (H0 : R s s0) by (by apply keeps_R).
  pose proof (Hbody s0) as Hb. pose proof (Htg s0) as Ht. destruct (body s0) as [[a|e|p] s1]; cbn [finish snd] in *;
    unfold bindM, ask, modify, mres, merr, ret.
  - destruct (sys_fault _ _); cbn [snd]; [by apply Hsnap|]. etrans; [exact H0|]. etrans; [exact Hb|]. by apply keeps_R.
  - by apply Hsnap.
  - by apply Hsnap.
Qed.
End PreservesControl.

(** ** The stores leave the campaigns alone *)

Definition sameCamps (y y' : Sys) : Prop := campaigns (db y') = campaigns (db y).
#[local] Instance sameCamps_preorder : PreOrder sameCamps.
Proof. split; [done | intros y1 y2 y3 H1 H2; unfold sameCamps in *; congruence]. Qed.

Lemma sameCamps_ask {A} (f : Sys -> nat -> A) : preserves sameCamps (ask f).
Proof. done. Qed.
Lemma sameCamps_query {A} (f : Database -> A) : preserves sameCamps (query f).
Proof. apply preserves_bind; [apply _ | done |]. intros [e|]; [apply preserves_err, _ | apply preserves_gets, _]. Qed.
Lemma sameCamps_exec f : (forall d, campaigns (f d) = campaigns d) -> preserves sameCamps (exec f).
Proof.
  intros Hf. apply preserves_exec; [apply _ | done|]. intros y. unfold sameCamps. cbn. by rewrite Hf.
Qed.

Lemma sameCamps_transaction {A} (body : M Sys A) : preserves sameCamps body -> preserves sameCamps (transaction body).
Proof.
  intros Hbody y. destruct (transaction body y) as [r y'] eqn:E. cbn [snd]. destruct r as [a|e|p].
  - apply transaction_inv in E as (y1 & n & m & Hrun & ->). pose proof (Hbody (set_tick n y)) as H.
    cbn in Hrun. rewrite Hrun in H. exact H.
  - pose proof (transaction_atomic body y _ _ E eq_refl) as Hs. cbn in Hs. unfold sameCamps. by rewrite Hs.
  - pose proof (transaction_atomic body y _ _ E eq_refl) as Hs. cbn in Hs. unfold sameCamps. by rewrite Hs.
Qed.

Lemma sameCamps_insertRows rows : preserves sameCamps (insertRows rows).
Proof.
  apply preserves_bind; [apply _ | apply sameCamps_query|]. intros t.
  apply preserves_if; [|apply preserves_err, _].
  apply preserves_bind; [apply _ | by apply preserves_modify | intros; apply preserves_ret, _].
Qed.

Lemma sameCamps_initialize c cards step at_ : preserves sameCamps (InitializeCampaign c cards step at_).
Proof.
  unfold InitializeCampaign. destruct cards as [|card cards]; [apply preserves_ret, _|].
  apply sameCamps_transaction. apply preserves_bind; [apply _ | |].
  - generalize (chunks initBatchSize (card :: cards)). intros pieces.
    induction pieces as [|p pieces IH]; cbn [insertInitial]; [apply preserves_ret, _|].
    apply preserves_bind; [apply _ | by apply preserves_wrap, sameCamps_exec | intros; apply IH].
  - intros _. by apply preserves_wrap, sameCamps_exec.
Qed.

Lemma sameCamps_abort c at_ : preserves sameCamps (QueryStore_AbortCampaign c at_).
Proof.
  apply sameCamps_transaction. apply preserves_bind; [apply _ | apply preserves_gets, _|]. intros t.
  apply preserves_bind; [apply _ | apply preserves_wrap, sameCamps_insertRows|]. intros k.
  apply preserves_if; [apply preserves_ret, _|].
  apply preserves_bind; [apply _ | by apply preserves_wrap, sameCamps_exec | intros; apply preserves_ret, _].
Qed.

Lemma keeps_on_sys {A} (m : M Sys A) : preserves sameCamps m -> preserves keeps (on_sys m).
Proof. intros Hm s. unfold on_sys. specialize (Hm (cp_sys s)). by destruct (m (cp_sys s)). Qed.

Lemma keeps_cache redis c cmds : preserves keeps (cacheForWorkers redis c cmds).
Proof. apply preserves_when; [apply _|]. apply preserves_ignore; [apply _|]. done. Qed.

Lemma keeps_hub wsHub c data : preserves keeps (tellHub wsHub c data).
Proof. apply preserves_when; [apply _|]. done. Qed.

Lemma calm_abort c at_ : calm (QueryStore_AbortCampaign c at_).
Proof. apply calm_transaction. unfold abortTx. eauto 10 with calm. Qed.

(** Telling the coordination store the status the campaign has. *)
Lemma tellStatus_run redis c st s :
  exists s', tellStatus redis c st s = (Ok tt, s') /\ frame c s s' /\ cp_shards s' = cp_shards s /\
    (statusOf s c = Some st -> statusOf s' c = Some st).
Proof.
  unfold tellStatus. destruct redis; cbn [mwhen]; [|exists s; by split_and!].
  unfold ignore, try, on_store, bindM. cbn. unfold Coordination.SetCampaignStatus, mwrap, bindM, exec, bindM, ask. cbn.
  destruct (sys_fault (cp_sys s) (tick (cp_sys s))); cbn; (eexists; split; [reflexivity|]).
  - split; [by apply keeps_frame|]. by split.
  - split; [|split; [done|]].
    + split; [intros c' Hc; cbn; by rewrite lookup_alter_ne|]. split; [done|]. exists []. by rewrite app_nil_r.
    + unfold statusOf, camps. cbn. rewrite lookup_alter_eq. by destruct (campaigns _ !! c).
Qed.

(** ** The four operations *)

Inductive operation := OpStart | OpPause | OpResume | OpAbort.

(** The state machine of a campaign's status. *)
Definition lifecycle (o : operation) (status : string) : option string :=
  match o with
  | OpStart => if bool_decide (status = "pending") then Some "running" else None
  | OpPause => if bool_decide (status = "running") then Some "paused" else None
  | OpResume => if bool_decide (status = "paused") then Some "running" else None
  | OpAbort => if bool_decide (status = "running" \/ status = "paused") then Some "aborted" else None
  end.

Section Lifecycle.
Context (getenv : string -> string) (redis query_ wsHub : bool).

Definition perform (o : operation) (c : string) : C unit :=
  match o with
  | OpStart => StartCampaign getenv redis query_ wsHub c
  | OpPause => PauseCampaign redis wsHub c
  | OpResume => ResumeCampaign getenv redis query_ wsHub c
  | OpAbort => AbortCampaign redis query_ wsHub c
  end.

(** What the run of an operation may have done to the campaign and the shards. *)
Definition opOutcome (o : operation) (c : string) (s : Control) (r : res unit) (s' : Control) : Prop :=
  frame c s s' /\
  match r with
  | Ok _ => exists st st', statusOf s c = Some st /\ lifecycle o st = Some st' /\ statusOf s' c = Some st'
  | _ => camps s' = camps s /\ cp_shards s' = cp_shards s
  end.

Lemma outcome_keeps o c s r s' : keeps s s' -> is_ok r = false -> opOutcome o c s r s'.
Proof. intros Hk Hr. split; [by apply keeps_frame|]. destruct Hk as (? & ? & ?). by destruct r. Qed.

(** After the decisive write, telling the others keeps the outcome. *)
Lemma outcome_tell o c s s1 st st' data :
  frame c s s1 -> statusOf s c = Some st -> lifecycle o st = Some st' -> statusOf s1 c = Some st' ->
  forall r s', (do! _ <- tellStatus redis c st'; tellHub wsHub c data) s1 = (r, s') -> opOutcome o c s r s'.
Proof.
  intros Hf Hs Hl Hs1 r s'. destruct (tellStatus_run redis c st' s1) as (s2 & Hrun & Hf2 & _ & Hst).
  rewrite (run_bind _ _ _ _ _ Hrun). specialize (Hst Hs1). intros H.
  pose proof (keeps_hub wsHub c data s2) as Hk. rewrite H in Hk. cbn [snd] in Hk.
  assert (r = Ok tt) as -> by (unfold tellHub, mwhen in H; destruct wsHub; by injection H as <- _).
  split; [etrans; [exact Hf | etrans; [exact Hf2 | by apply keeps_frame]]|].
  exists st, st'. split; [done|]. split; [done|]. unfold statusOf. by rewrite (proj1 Hk).
Qed.

(** Splitting a run at a step whose failure keeps everything. *)
Lemma opOutcome_bind {A} o c (m : C A) (k : A -> C unit) s r s' :
  preserves keeps m -> bindM m k s = (r, s') ->
  (forall a s1, m s = (Ok a, s1) -> keeps s s1 -> k a s1 = (r, s') -> opOutcome o c s r s') ->
  opOutcome o c s r s'.
Proof.
  intros Hm H Hk. pose proof (Hm s) as Hs. unfold bindM in H. destruct (m s) as [[a|e|p] s1] eqn:E; cbn [snd] in Hs.
  - by apply (Hk a s1).
  - injection H as <- <-. by apply outcome_keeps.
  - injection H as <- <-. by apply outcome_keeps.
Qed.

(** The outcome may be judged from any kept state. *)
Lemma outcome_from o c s s1 r s' : keeps s s1 -> opOutcome o c s1 r s' -> opOutcome o c s r s'.
Proof.
  intros Hk [Hf Hr]. split; [etrans; [by apply keeps_frame | done]|]. destruct Hk as (Hc & Hs & Ht).
  unfold statusOf in *. rewrite Hc, Hs in Hr. exact Hr.
Qed.

Lemma keeps_wrap_load {A} fmt (f : Database -> option A) : preserves keeps (mwrap fmt (do! o <- query f; first o)).
Proof.
  apply preserves_wrap. apply preserves_bind; [apply _ | apply preserves_cp_query; [apply _ | done]|].
  intros [a|]; [apply preserves_ret, _ | apply preserves_err, _].
Qed.

Lemma load_inv {A} fmt (f : Database -> option A) s a s1 :
  mwrap fmt (do! o <- query f; first o) s = (Ok a, s1) -> f (db (cp_sys s)) = Some a.
Proof.
  intros H. apply wrap_inv, bind_inv in H as (o & s0 & Hq & H). revert Hq.
  unfold query, bindM, ask, gets. destruct (sys_fault _ _); [done|]. intros [= <- <-].
  destruct (f (db (cp_sys s))); [by injection H as <- _ | done].
Qed.

Lemma keeps_activationEvents c step at_ cards : preserves keeps (activationEvents c step at_ cards).
Proof.
  induction cards as [|card cards IH]; cbn [activationEvents]; [apply preserves_ret, _|].
  apply preserves_bind; [apply _ | apply preserves_cp_ask; [done] |]. intros id.
  apply preserves_bind; [apply _ | apply IH | intros; apply preserves_ret, _].
Qed.

Lemma frame_createShards c shards :
  Forall (fun sh => CampaignShard.CampaignID sh = c) shards -> preserves (frame c) (createShards shards).
Proof.
  intros Hall. apply preserves_bind; [apply _ | intros s; by apply keeps_frame|]. intros [e|]; [apply preserves_err, _|].
  intros s. unfold bindM, gets. destruct (bool_decide _); cbn; [|reflexivity].
  split; [done|]. split; [done|]. by exists shards.
Qed.

Lemma frame_startBatch c step at_ b a : preserves (frame c) (startBatch c step at_ b a).
Proof.
  destruct a as [k q]. cbn [startBatch]. apply preserves_bind; [apply _ | |].
  { intros s. apply keeps_frame, keeps_activationEvents. }
  intros events. apply preserves_bind; [apply _ | intros s; by apply keeps_frame|]. intros id.
  apply preserves_bind; [apply _ | intros s; by apply keeps_frame|]. intros t.
  apply preserves_bind; [apply _ | | intros; apply preserves_ret, _]. apply preserves_wrap.
  by apply (frame_createShards c [newShard id c q events t]); constructor.
Qed.

(** The write that changes the status, inside a transaction body. *)
Lemma exec_campaigns_inv f c (s s1 : Control) :
  exec (set_campaigns (alter f c)) s = (Ok tt, s1) ->
  camps s1 = alter f c (camps s) /\ cp_shards s1 = cp_shards s /\ cp_targets s1 = cp_targets s.
Proof. unfold exec, bindM, ask. destruct (sys_fault _ _); [done|]. by intros [= <-]. Qed.

Lemma frame_exec f c : preserves (frame c) (exec (set_campaigns (alter f c))).
Proof.
  apply preserves_bind; [apply _ | intros s; by apply keeps_frame|]. intros [e|]; [apply preserves_err, _|].
  intros s. split; [intros c' Hc; cbn; by rewrite lookup_alter_ne|]. split; [done|]. exists []. by rewrite app_nil_r.
Qed.

Lemma frame_transaction {A} c (body : C A) : preserves (frame c) body -> preserves (frame c) (transaction body).
Proof.
  intros Hb. apply preserves_cp_transaction; [apply _ | apply keeps_frame | | done |].
  - intros s s' [= Hd Hs] Ht. apply keeps_frame. unfold keeps, camps. by rewrite Hd.
  - intros s. by destruct (Hb s) as (_ & Ht & _).
Qed.

(** A transaction whose body writes the status, committed or not. *)
Lemma transaction_cases {A} c f (body : C A) s st' r1 s1 :
  is_Some (statusOf s c) -> (forall x, Campaign.Status (f x) = st') -> preserves (frame c) body ->
  (forall s a s1, body s = (Ok a, s1) -> camps s1 = alter f c (camps s)) ->
  transaction body s = (r1, s1) ->
  frame c s s1 /\
  match r1 with
  | Ok _ => statusOf s1 c = Some st'
  | _ => camps s1 = camps s /\ cp_shards s1 = cp_shards s
  end.
Proof.
  intros [st Hst] Hf Hbody Hcommit E. split.
  { pose proof (frame_transaction c body Hbody s) as Hfr. by rewrite E in Hfr. }
  destruct r1 as [a|e|p].
  - apply transaction_inv in E as (s2 & n & m & Hrun & ->). apply Hcommit in Hrun.
    unfold statusOf in *. change (camps (set_sys _ s2)) with (camps s2). rewrite Hrun, lookup_alter_eq.
    change (camps (set_sys _ s)) with (camps s). destruct (camps s !! c); [|done]. cbn. by rewrite Hf.
  - pose proof (transaction_atomic body s _ _ E eq_refl) as Hs.
    injection Hs as Hd Hsh. split; [unfold camps; by rewrite Hd | done].
  - pose proof (transaction_atomic body s _ _ E eq_refl) as Hs.
    injection Hs as Hd Hsh. split; [unfold camps; by rewrite Hd | done].
Qed.

Lemma outcome_transaction {A} o c f (rest : unit -> C A) fmt (k : A -> C unit) s st st' r s' :
  statusOf s c = Some st -> lifecycle o st = Some st' -> (forall x, Campaign.Status (f x) = st') ->
  (forall u, preserves (frame c) (rest u)) -> (forall u s, camps (snd (rest u s)) = camps s) ->
  (do! a <- mwrap fmt (transaction (do! u <- exec (set_campaigns (alter f c)); rest u)); k a) s = (r, s') ->
  (forall a s1, frame c s s1 -> statusOf s1 c = Some st' -> k a s1 = (r, s') -> opOutcome o c s r s') ->
  opOutcome o c s r s'.
Proof.
  intros Hst Hl Hf Hrest Hcamps H Hk. unfold bindM at 1, mwrap in H.
  destruct (transaction _ s) as [r1 s1] eqn:E.
  eapply (transaction_cases c f _ s st') in E as [Hfr Hr1]; [|by eexists | done | |].
  - destruct r1 as [a|e|p]; cbn in H; [by apply (Hk a s1)|..]; injection H as <- <-; by split.
  - apply preserves_bind; [apply _ | apply frame_exec | done].
  - intros s0 a s2 Hrun. apply bind_inv in Hrun as ([] & s3 & Hex & Hrest'). apply exec_campaigns_inv in Hex as (Hc3 & _).
    pose proof (Hcamps tt s3) as Hc2. rewrite Hrest' in Hc2. cbn [snd] in Hc2. congruence.
Qed.

(** What the bodies do after the status write leaves the campaigns alone. *)
Definition sameC (s s' : Control) : Prop := camps s' = camps s.
#[local] Instance sameC_preorder : PreOrder sameC.
Proof. split; [done | intros s1 s2 s3 H1 H2; unfold sameC in *; congruence]. Qed.

Lemma keeps_sameC s s' : keeps s s' -> sameC s s'.
Proof. by intros (? & _). Qed.

Lemma sameC_createShards shards : preserves sameC (createShards shards).
Proof.
  apply preserves_bind; [apply _ | done|]. intros [e|]; [apply preserves_err, _|].
  intros s. unfold bindM, gets. by destruct (bool_decide _).
Qed.

Lemma sameC_startBatch c step at_ b a : preserves sameC (startBatch c step at_ b a).
Proof.
  destruct a as [k q]. cbn [startBatch]. apply preserves_bind; [apply _ | |].
  { intros s. apply keeps_sameC, keeps_activationEvents. }
  intros events. apply preserves_bind; [apply _ | done|]. intros id.
  apply preserves_bind; [apply _ | done|]. intros t.
  apply preserves_bind; [apply _ | | intros; apply preserves_ret, _]. apply preserves_wrap.
  apply (sameC_createShards [newShard id c q events t]).
Qed.

Lemma keeps_pendingCount : preserves keeps pendingShardCount.
Proof.
  apply preserves_bind; [apply _ | | intros; apply preserves_ret, _]. apply preserves_try, preserves_readTable; [apply _ | done].
Qed.

Lemma keeps_initialize c step at_ b a : preserves keeps (initializeBatch c step at_ b a).
Proof. apply preserves_wrap, keeps_on_sys, sameCamps_initialize. Qed.

Lemma keeps_now : preserves keeps now.
Proof. done. Qed.

Lemma start_outcome c s r s' : perform OpStart c s = (r, s') -> opOutcome OpStart c s r s'.
Proof.
  cbn [perform]. unfold StartCampaign. intros H. eapply opOutcome_bind; [apply keeps_pendingCount | exact H|].
  clear H. intros n s1 _ Hk1 H. apply (outcome_from _ _ _ s1); [done|]. cbv beta zeta in H. destruct (_ <? n).
  { injection H as <- <-. by apply outcome_keeps. }
  eapply opOutcome_bind; [apply keeps_wrap_load | exact H|]. clear H s Hk1. intros [campaign cmds] s2 Hload Hk2 H. cbv beta zeta iota in H.
  apply load_inv in Hload. unfold loadCampaign in Hload.
  destruct (campaigns (db (cp_sys s1)) !! c) as [camp|] eqn:Ec; [|done]. cbn in Hload. injection Hload as -> Hcmds.
  apply (outcome_from _ _ _ s2); [done|].
  assert (Hst : statusOf s2 c = Some (Campaign.Status campaign)) by (unfold statusOf; rewrite (proj1 Hk2); unfold camps; by rewrite Ec).
  clear s1 Hk2 Ec Hcmds. destruct (bool_decide (Campaign.Status campaign = "pending")) eqn:Ep; cbn [negb] in H.
  2: { injection H as <- <-. by apply outcome_keeps. }
  apply bool_decide_eq_true in Ep. destruct cmds as [|cmd cmds]; [injection H as <- <-; by apply outcome_keeps|].
  eapply opOutcome_bind; [apply keeps_now | exact H|]. clear H. intros t s3 _ Hk3 H. cbv beta zeta in H. apply (outcome_from _ _ _ s3); [done|].
  eapply opOutcome_bind; [apply keeps_cache | exact H|]. clear H. intros u s4 _ Hk4 H. cbv beta in H. apply (outcome_from _ _ _ s4); [done|].
  eapply opOutcome_bind; [|exact H|].
  { apply preserves_when; [apply _|]. apply preserves_forEach; [apply _ | done | intros; apply keeps_initialize]. }
  clear H. intros u5 s5 _ Hk5 H. cbv beta in H. unfold startTx in H. apply (outcome_from _ _ _ s5); [done|].
  assert (Hst5 : statusOf s5 c = Some "pending").
  { unfold statusOf in *. by rewrite (proj1 Hk5), (proj1 Hk4), (proj1 Hk3), Hst, Ep. }
  eapply (outcome_transaction OpStart c (startedCampaign t)) with (st' := "running"); [exact Hst5 | done | done | | | exact H|].
  - intros []. cbv beta. apply preserves_bind; [apply _ | |].
    + apply preserves_forEach; [apply _ | apply keeps_frame | intros; apply frame_startBatch].
    + intros a. apply preserves_if; [apply preserves_err, _ | apply preserves_ret, _].
  - intros [] s6. cbv beta. apply (preserves_bind sameC).
    + apply preserves_forEach; [apply _ | apply keeps_sameC | intros; apply sameC_startBatch].
    + intros a. apply preserves_if; [apply preserves_err, _ | apply preserves_ret, _].
  - intros a s6 Hf6 Hst6 Hrun. exact (outcome_tell OpStart c s5 s6 "pending" "running" _ Hf6 Hst5 eq_refl Hst6 r s' Hrun).
Qed.

Lemma pause_outcome c s r s' : perform OpPause c s = (r, s') -> opOutcome OpPause c s r s'.
Proof.
  cbn [perform]. unfold PauseCampaign, updateStatusWhere. intros H.
  unfold bindM at 1, mwrap, bindM at 1, gets, bindM at 1 in H.
  destruct (exec _ s) as [r1 s1] eqn:E. destruct r1 as [[]|e|p].
  - apply exec_campaigns_inv in E as (Hc & Hs & Ht). cbn in H.
    assert (Hf : frame c s s1).
    { split; [intros c' Hne; by rewrite Hc, lookup_alter_ne|]. split; [done|]. exists []. by rewrite app_nil_r. }
    destruct (bool_decide _) eqn:Eb; cbn [negb] in H.
    + apply bool_decide_eq_true in Eb. assert (Hst1 : statusOf s1 c = Some "paused").
      { unfold statusOf. rewrite Hc, lookup_alter_eq. unfold camps.
        destruct (campaigns (db (cp_sys s)) !! c) as [x|]; [|done]. cbn in *. injection Eb as Eb.
        by rewrite (bool_decide_true (Campaign.Status x = "running")). }
      exact (outcome_tell OpPause c s s1 "running" "paused" _ Hf Eb eq_refl Hst1 r s' H).
    + apply bool_decide_eq_false in Eb. injection H as <- <-. split; [done|]. split; [|done]. rewrite Hc.
      apply map_eq. intros c'. destruct (decide (c' = c)) as [->|]; [|by rewrite lookup_alter_ne].
      rewrite lookup_alter_eq. unfold camps. destruct (campaigns (db (cp_sys s)) !! c) as [x|] eqn:Ex; [|done].
      cbn in *. by rewrite (bool_decide_false (Campaign.Status x = "running")) by congruence.
  - injection H as <- <-. revert E. unfold exec, bindM, ask. destruct (sys_fault _ _); [|done].
    intros [= <- <-]. by apply outcome_keeps.
  - revert E. unfold exec, bindM, ask. by destruct (sys_fault _ _).
Qed.

Lemma keeps_resumeEvents c step at_ l : preserves keeps (resumeEvents c step at_ l).
Proof.
  induction l as [|cc l IH]; cbn [resumeEvents]; [apply preserves_ret, _|]. apply preserves_if; [|apply IH].
  apply preserves_bind; [apply _ | done|]. intros id.
  apply preserves_bind; [apply _ | apply IH | intros; apply preserves_ret, _].
Qed.

Lemma keeps_shardsFrom c q pieces : preserves keeps (shardsFrom c q pieces).
Proof.
  revert q. induction pieces as [|p pieces IH]; intros q; cbn [shardsFrom]; [apply preserves_ret, _|].
  apply preserves_bind; [apply _ | done|]. intros id. apply preserves_bind; [apply _ | done|]. intros t.
  apply preserves_bind; [apply _ | apply IH | intros; apply preserves_ret, _].
Qed.

Lemma shardsFrom_campaign c q pieces s shards s' :
  shardsFrom c q pieces s = (Ok shards, s') -> Forall (fun sh => CampaignShard.CampaignID sh = c) shards.
Proof.
  revert q s s' shards. induction pieces as [|p pieces IH]; intros q s s' shards H; cbn [shardsFrom] in H; [by injection H as <- _|].
  apply bind_inv in H as (id & s1 & _ & H). apply bind_inv in H as (t & s2 & _ & H).
  apply bind_inv in H as (l & s3 & Hl & H). injection H as <- _. constructor; [done | by apply IH in Hl].
Qed.

Lemma keeps_listCards c f : preserves keeps (on_sys (ListCampaignCards c f)).
Proof.
  apply keeps_on_sys, preserves_bind; [apply _ | apply preserves_wrap, sameCamps_query | intros; apply preserves_ret, _].
Qed.

(** The rest of the resume transaction under a relation that shard creation keeps. *)
Lemma preserves_createInBatches (R : Control -> Control -> Prop) `{!PreOrder R} (P : CampaignShard.t -> Prop) pieces :
  (forall shards, Forall P shards -> preserves R (createShards shards)) ->
  Forall (Forall P) pieces -> preserves R (createInBatches pieces).
Proof.
  intros Hc Hall. induction Hall as [|p pieces Hp _ IH]; cbn [createInBatches]; [by apply preserves_ret|].
  apply preserves_bind; [done | by apply Hc | intros; apply IH].
Qed.

Lemma Forall_chunks {A} (P : A -> Prop) n l : (0 < n)%nat -> Forall P l -> Forall (Forall P) (chunks n l).
Proof.
  intros Hn Hl. rewrite <- (concat_chunks n l Hn) in Hl. by apply Forall_concat in Hl.
Qed.

Lemma preserves_resumeRest (R : Control -> Control -> Prop) `{!PreOrder R} c step at_ cards :
  (forall s s', keeps s s' -> R s s') ->
  (forall shards, Forall (fun sh => CampaignShard.CampaignID sh = c) shards -> preserves R (createShards shards)) ->
  preserves R
    (do! shardEvents <- resumeEvents c step at_ cards;
     match shardEvents with
     | [] => ret 0
     | _ =>
         do! lastSequence <- mwrap "load last campaign shard sequence: %w" (readTable (fun s => maxSequence c (cp_shards s)));
         let shardSize := campaignShardSize getenv in
         do! shards <- shardsFrom c (lastSequence + 1) (chunks (Z.to_nat shardSize) shardEvents);
         do! _ <- mwrap "create resume campaign shards: %w" (createInBatches (chunks 100 shards));
         ret (zlen shardEvents)
     end).
Proof.
  intros HR Hcr. apply preserves_bind; [done | intros s; apply HR, keeps_resumeEvents|].
  intros [|e events]; [by apply preserves_ret|]. apply preserves_bind; [done | apply preserves_wrap, preserves_readTable; done|].
  intros q. cbv zeta. intros s. unfold bindM at 1.
  pose proof (keeps_shardsFrom c (q + 1) (chunks (Z.to_nat (campaignShardSize getenv)) (e :: events)) s) as Hk.
  destruct (shardsFrom _ _ _ s) as [[shards|err|p] s1] eqn:E; cbn [snd] in Hk; [|by apply HR..].
  etrans; [by apply HR|]. apply preserves_bind; [done | | intros; by apply preserves_ret].
  apply preserves_wrap, (preserves_createInBatches _ (fun sh => CampaignShard.CampaignID sh = c)); [done|].
  apply Forall_chunks; [lia | by apply shardsFrom_campaign in E].
Qed.

Lemma resume_outcome c s r s' : perform OpResume c s = (r, s') -> opOutcome OpResume c s r s'.
Proof.
  cbn [perform]. unfold ResumeCampaign. intros H. eapply opOutcome_bind; [apply keeps_wrap_load | exact H|].
  clear H. intros [campaign cmds] s1 Hload Hk1 H. cbv beta zeta iota in H.
  apply load_inv in Hload. unfold loadCampaign in Hload.
  destruct (campaigns (db (cp_sys s)) !! c) as [camp|] eqn:Ec; [|done]. cbn in Hload.
  destruct (bool_decide (Campaign.Status camp = "paused")) eqn:Ep; [|done]. injection Hload as -> _.
  apply bool_decide_eq_true in Ep.
  assert (Hst : statusOf s1 c = Some "paused").
  { unfold statusOf. rewrite (proj1 Hk1). unfold camps. by rewrite Ec, <- Ep. }
  apply (outcome_from _ _ _ s1); [done|]. clear s Hk1 Ec Ep.
  destruct cmds as [|cmd cmds]; [injection H as <- <-; by apply outcome_keeps|].
  destruct query_; cbn [negb] in H; [|injection H as <- <-; by apply outcome_keeps].
  eapply opOutcome_bind; [apply keeps_now | exact H|]. clear H. intros t s2 _ Hk2 H. cbv beta in H.
  apply (outcome_from _ _ _ s2); [done|]. eapply opOutcome_bind; [apply preserves_wrap, keeps_listCards | exact H|].
  clear H. intros cards s3 _ Hk3 H. cbv beta in H. apply (outcome_from _ _ _ s3); [done|].
  eapply opOutcome_bind; [apply keeps_cache | exact H|]. clear H. intros u s4 _ Hk4 H. cbv beta in H.
  apply (outcome_from _ _ _ s4); [done|]. assert (Hst4 : statusOf s4 c = Some "paused").
  { unfold statusOf in *. by rewrite (proj1 Hk4), (proj1 Hk3), (proj1 Hk2). }
  unfold resumeTx in H.
  eapply (outcome_transaction OpResume c (Campaign.set_Status "running")) with (st' := "running");
    [exact Hst4 | done | done | | | exact H|].
  - intros []. apply preserves_resumeRest; [apply _ | apply keeps_frame | apply frame_createShards].
  - intros [] s5.
    exact (preserves_resumeRest sameC c _ t cards keeps_sameC (fun shards _ => sameC_createShards shards) s5).
  - intros a s6 Hf6 Hst6 Hrun. exact (outcome_tell OpResume c s4 s6 "paused" "running" _ Hf6 Hst4 eq_refl Hst6 r s' Hrun).
Qed.

(** Aborting the campaign in the query store comes between the status and the hub. *)
Lemma abort_outcome c s r s' : perform OpAbort c s = (r, s') -> opOutcome OpAbort c s r s'.
Proof.
  cbn [perform]. unfold AbortCampaign. intros H. eapply opOutcome_bind; [apply keeps_wrap_load | exact H|].
  clear H. intros campaign s1 Hload Hk1 H. cbv beta in H. apply load_inv in Hload.
  assert (Hst : statusOf s1 c = Some (Campaign.Status campaign)).
  { unfold statusOf. rewrite (proj1 Hk1). unfold camps. by rewrite Hload. }
  apply (outcome_from _ _ _ s1); [done|]. clear s Hk1 Hload.
  destruct (bool_decide (_ \/ _)) eqn:Eb; cbn [negb] in H; [|injection H as <- <-; by apply outcome_keeps].
  eapply opOutcome_bind; [apply keeps_now | exact H|]. clear H. intros t s2 _ Hk2 H. cbv beta in H.
  apply (outcome_from _ _ _ s2); [done|].
  assert (Hst2 : statusOf s2 c = Some (Campaign.Status campaign)) by (unfold statusOf in *; by rewrite (proj1 Hk2)).
  assert (Hl : lifecycle OpAbort (Campaign.Status campaign) = Some "aborted") by (cbn; by rewrite Eb).
  unfold bindM at 1 in H. destruct (transaction _ s2) as [r3 s3] eqn:E.
  eapply (transaction_cases c (abortedCampaign t) _ s2 "aborted") in E as [Hfr Hr3]; [|by eexists | done | |].
  2: { apply preserves_wrap, frame_exec. }
  2: { intros s0 [] s4 Hrun. by apply wrap_inv, exec_campaigns_inv in Hrun as (? & _). }
  destruct r3 as [u|e|p]; [|injection H as <- <-; by split..].
  destruct (tellStatus_run redis c "aborted" s3) as (s4 & Hrun & Hf4 & _ & Hst4).
  rewrite (run_bind _ _ _ _ _ Hrun) in H. specialize (Hst4 Hr3).
  assert (Hk4 : preserves keeps (mwhen query_ (ignore (on_sys (QueryStore_AbortCampaign c t))))).
  { apply preserves_when; [apply _|]. apply preserves_ignore; [apply _|]. apply keeps_on_sys, sameCamps_abort. }
  assert (Hall : preserves keeps (do! _ <- mwhen query_ (ignore (on_sys (QueryStore_AbortCampaign c t)));
                    tellHub wsHub c [("status", VStr "aborted"); ("completed_at", VInt t)])).
  { apply preserves_bind; [apply _ | done | intros; apply keeps_hub]. }
  specialize (Hall s4). rewrite H in Hall. cbn [snd] in Hall.
  split; [etrans; [exact Hfr | etrans; [exact Hf4 | by apply keeps_frame]]|].
  assert (r = Ok tt) as ->.
  { assert (Hq : exists s5, mwhen query_ (ignore (on_sys (QueryStore_AbortCampaign c t))) s4 = (Ok tt, s5)).
    { destruct query_; [|by eexists]. apply calm_ignore. intros s5. unfold on_sys.
      pose proof (calm_abort c t (cp_sys s5)). by destruct (QueryStore_AbortCampaign c t (cp_sys s5)). }
    destruct Hq as [s5 Hq]. rewrite (run_bind _ _ _ _ _ Hq) in H. unfold tellHub, mwhen in H.
    destruct wsHub; by injection H as <- _. }
  exists (Campaign.Status campaign), "aborted". split; [done|]. split; [done|]. unfold statusOf. by rewrite (proj1 Hall).
Qed.

Lemma perform_outcome o c s r s' : perform o c s = (r, s') -> opOutcome o c s r s'.
Proof.
  destruct o; [apply start_outcome | apply pause_outcome | apply resume_outcome | apply abort_outcome].
Qed.

(** C4: the life cycle.  Whatever the environment does, an operation of the campaign service on a campaign
    either returns normally, and then the campaign's status went along the edge of the state machine that the
    operation stands for, or it returns an error, and then no campaign and no shard changed.  In both cases
    other campaigns and the targets are untouched and existing shards are kept. *)
Theorem lifecycle_refines_machine o c s r s' :
  perform o c s = (r, s') ->
  frame c s s' /\
  match r with
  | Ok _ => exists st st', statusOf s c = Some st /\ lifecycle o st = Some st' /\ statusOf s' c = Some st'
  | _ => camps s' = camps s /\ cp_shards s' = cp_shards s
  end.
Proof. apply perform_outcome. Qed.

(** An operation of the service, on any campaign. *)
Definition control_step (s s' : Control) : Prop := exists o c, s' = snd (perform o c s).

(** Aborting is final.  Once a campaign is aborted, no sequence of operations on any campaigns,
    whatever fails in between, changes its status or adds a shard to it: the
    planner never gets another activation of it. *)
Theorem aborted_is_final s s' c :
  rtc control_step s s' -> statusOf s c = Some "aborted" ->
  statusOf s' c = Some "aborted" /\
  filter (fun sh => CampaignShard.CampaignID sh = c) (cp_shards s')
    = filter (fun sh => CampaignShard.CampaignID sh = c) (cp_shards s).
Proof.
  induction 1 as [s|s s1 s2 (o & c' & ->) _ IH]; intros Ha; [done|].
  destruct (perform o c' s) as [r s1] eqn:E. apply perform_outcome in E as [(Hoth & _ & new & Hsh & Hnew) Hr]. cbn [snd] in *.
  assert (Hstep : statusOf s1 c = Some "aborted" /\
    filter (fun sh => CampaignShard.CampaignID sh = c) (cp_shards s1)
      = filter (fun sh => CampaignShard.CampaignID sh = c) (cp_shards s)).
  { destruct (decide (c = c')) as [<-|Hne].
    - destruct r as [u|e|p]; [|destruct Hr as [Hc ->]; unfold statusOf; by rewrite Hc..].
      destruct Hr as (st & st' & Hst & Hl & _). rewrite Ha in Hst. injection Hst as <-. by destruct o.
    - unfold statusOf. rewrite Hoth by done. split; [done|]. rewrite Hsh, filter_app.
      assert (filter (fun sh => CampaignShard.CampaignID sh = c) new = []) as ->; [|by rewrite app_nil_r].
      clear -Hnew Hne. induction Hnew as [|x l Hx _ IH]; [done|]. by rewrite filter_cons_False by congruence. }
  destruct Hstep as [Hs1 Hf1]. destruct (IH Hs1) as [Hs2 Hf2]. by rewrite Hf2.
Qed.
End Lifecycle.

(** ** Runs without faults *)

(** The oracles are the same, time moved on, tables may have changed. *)
Definition evolves (y y' : Sys) : Prop := exists n d, (tick y <= n)%nat /\ y' = set_db d (set_tick n y).
#[export] Instance evolves_preorder : PreOrder evolves.
Proof.
  split.
  - intros []. by eexists _, _.
  - intros y1 y2 y3 (n & d & Hn & ->) (m & e & Hm & ->). exists m, e. split; [cbn in *; lia | done].
Qed.

Lemma evolves_faultless y y' : evolves y y' -> faultless y -> faultless y'.
Proof. by intros (n & d & _ & ->). Qed.
Lemma evolves_uuid y y' : evolves y y' -> sys_uuid y' = sys_uuid y.
Proof. by intros (n & d & _ & ->). Qed.
Lemma evolves_tick y y' : evolves y y' -> (tick y <= tick y')%nat.
Proof. by intros (n & d & Hn & ->). Qed.

(** The state one question later. *)
Definition ticked (s : Control) : Control := set_cp_sys (set_tick (Datatypes.S (tick (cp_sys s))) (cp_sys s)) s.

Lemma ticked_evolves s : evolves (cp_sys s) (cp_sys (ticked s)).
Proof. exists (Datatypes.S (tick (cp_sys s))), (db (cp_sys s)). split; [lia | by destruct s as [[] ]]. Qed.

Lemma readTable_run {A} (f : Control -> A) s :
  faultless (cp_sys s) -> readTable f s = (Ok (f (ticked s)), ticked s).
Proof. intros Hf. unfold readTable, bindM, ask. cbn. by rewrite Hf. Qed.

(** The loop over the pages, with an invariant over the batches done. *)
Lemma visitPages_run {A} size (fn : list string -> A -> C A) (I : list (list string) -> A -> Control -> Prop) l :
  0 < size ->
  (forall pre acc s, I pre acc s -> faultless (cp_sys s) /\ I pre acc (ticked s)) ->
  (forall pre b acc s, I pre acc s -> b <> [] -> (pre ++ [b]) `prefix_of` chunks (Z.to_nat size) l ->
     exists acc' s', fn b acc s = (Ok acc', s') /\ I (pre ++ [b]) acc' s') ->
  forall acc s, I [] acc s ->
  exists acc' s', visitPages size fn (chunks (Z.to_nat size) l) acc s = (Ok acc', s') /\
                  I (chunks (Z.to_nat size) l) acc' s'.
Proof.
  intros Hsize Htick Hfn acc s. set (n := Z.to_nat size).
  enough (H : forall l' pre, pre ++ chunks n l' = chunks n l -> forall acc s, I pre acc s ->
    exists acc' s', visitPages size fn (chunks n l') acc s = (Ok acc', s') /\ I (chunks n l) acc' s')
    by (intros HI; by apply (H l [])).
  clear acc s. intros l'. assert (Hn : (0 < n)%nat) by (unfold n; lia).
  induction l' as [|l' Hne IH] using (fun P H0 Hs => list_drop_ind n P Hn H0 Hs); intros pre Hpre acc s HI;
    destruct (Htick _ _ _ HI) as [Hf HI1].
  - rewrite chunks_nil, app_nil_r in Hpre. subst pre. rewrite chunks_nil. cbn [visitPages].
    rewrite (run_bind _ _ _ _ _ (readTable_run _ _ Hf)). by exists acc, (ticked s).
  - rewrite chunks_cons in Hpre |- * by done. cbn [visitPages]. rewrite (run_bind _ _ _ _ _ (readTable_run _ _ Hf)).
    rewrite cons_middle, app_assoc in Hpre.
    destruct (Hfn pre (take n l') acc (ticked s) HI1) as (acc1 & s1 & Hrun & HI2).
    { destruct l', n; [done | done | lia | done]. }
    { exists (chunks n (drop n l')). fold n. by rewrite <- Hpre. }
    rewrite (run_bind _ _ _ _ _ Hrun). destruct (zlen (take n l') <? size) eqn:E.
    + apply Z.ltb_lt in E. rewrite drop_ge, chunks_nil, app_nil_r in Hpre; [rewrite <- Hpre; by exists acc1, s1|].
      unfold zlen in E. rewrite length_take in E. unfold n in *. lia.
    + by apply (IH (pre ++ [take n l'])).
Qed.

(** *** Witnesses *)

Module LifecycleWitness.
Import ControlScenario.
Definition s0 : Control := control (database "pending" [] ∅) [].
Definition run (o : operation) (s : Control) : Control := snd (perform getenv true true true o "camp-1" s).
Definition s1 : Control := run OpStart s0.
Definition s2 : Control := run OpPause s1.
Definition s3 : Control := run OpResume s2.
Definition s4 : Control := run OpAbort s3.
(** Aborted and then every operation again. *)
Definition s5 : Control := run OpStart s4.
Definition s6 : Control := run OpPause s5.
Definition s7 : Control := run OpResume s6.
Definition s8 : Control := run OpAbort s7.

Lemma run_step o s : control_step getenv true true true s (run o s).
Proof. by exists o, "camp-1". Qed.
End LifecycleWitness.

Lemma target_batches_are_chunks_witness :
  forEachCampaignTargetBatch ControlScenario.getenv "camp-1" 0 (fun batch acc => ret (acc ++ [batch])) [] LifecycleWitness.s0
    = visitPages 1 (fun batch acc => ret (acc ++ [batch])) [["card-1"]; ["card-2"]] [] LifecycleWitness.s0 /\
  fst (forEachCampaignTargetBatch ControlScenario.getenv "camp-1" 0 (fun batch acc => ret (acc ++ [batch])) [] LifecycleWitness.s0)
    = Ok [["card-1"]; ["card-2"]].
Proof.
  split; [|by vm_compute].
  exact (proj1 (target_batches_are_chunks ControlScenario.getenv "camp-1" 0 (fun batch acc => ret (acc ++ [batch])) []
                  LifecycleWitness.s0 (fun _ _ _ => eq_refl))).
Defined.

Lemma lifecycle_refines_machine_witness :
  frame "camp-1" LifecycleWitness.s2 LifecycleWitness.s3 /\
  statusOf LifecycleWitness.s1 "camp-1" = Some "running" /\ statusOf LifecycleWitness.s2 "camp-1" = Some "paused" /\
  statusOf LifecycleWitness.s3 "camp-1" = Some "running" /\ statusOf LifecycleWitness.s4 "camp-1" = Some "aborted" /\
  length (cp_shards LifecycleWitness.s1) = 2%nat /\ length (cp_shards LifecycleWitness.s3) = 4%nat.
Proof.
  split; [|by vm_compute].
  eapply (proj1 (lifecycle_refines_machine ControlScenario.getenv true true true OpResume "camp-1"
                   LifecycleWitness.s2 _ _ (surjective_pairing _))).
Defined.

Lemma aborted_is_final_witness :
  statusOf LifecycleWitness.s8 "camp-1" = Some "aborted" /\
  filter (fun sh => CampaignShard.CampaignID sh = "camp-1") (cp_shards LifecycleWitness.s8)
    = filter (fun sh => CampaignShard.CampaignID sh = "camp-1") (cp_shards LifecycleWitness.s4).
Proof.
  apply (aborted_is_final ControlScenario.getenv true true true); [|by vm_compute].
  apply (rtc_l _ _ LifecycleWitness.s5), (rtc_l _ _ LifecycleWitness.s6), (rtc_l _ _ LifecycleWitness.s7), rtc_once;
    apply LifecycleWitness.run_step.
Defined.
