(* ===== verification/StartProps.v ===== *)
(** * What starting and resuming a campaign creates *)

From S2P Require Import Prelude Effects Models Pipeline Store StateWriter StateWriterProps Sql QueryStore QueryStoreProps Executor Planner CampaignControl ControlScenario CampaignProps.

(** ** Initial states *)

Lemma evolves_tick_db y n d : (tick y <= n)%nat -> evolves y (set_db d (set_tick n y)).
Proof. intros Hn. by exists n, d. Qed.

Lemma insertInitial_run c step at_ pieces y :
  faultless y -> exists y', insertInitial c step at_ pieces y = (Ok tt, y') /\ evolves y y' /\
    db y' = set_card_execution_states (fun t => foldl insertRow t (initialRow c step at_ <$> concat pieces)) (db y).
Proof.
  revert y. induction pieces as [|p pieces IH]; intros y Hf; cbn [insertInitial].
  { exists y. split; [done|]. split; [reflexivity | by destruct y as [??????? ? []]]. }
  rewrite (run_bind _ _ _ _ _ (run_wrap _ _ _ _ _ (exec_run _ _ Hf))).
  set (y1 := set_db _ _). destruct (IH y1) as (y' & Hrun & He & Hd); [exact Hf|]. exists y'. split; [done|].
  split; [etrans; [|exact He]; unfold y1; apply evolves_tick_db; lia|].
  rewrite Hd. unfold y1. cbn [concat]. rewrite fmap_app. unfold set_card_execution_states. cbn. by rewrite foldl_app.
Qed.

Lemma InitializeCampaign_run c cards step at_ y :
  faultless y -> cards <> [] ->
  exists y', InitializeCampaign c cards step at_ y = (Ok tt, y') /\ evolves y y' /\
    db y' = upsertStats c (set_card_execution_states (fun t => foldl insertRow t (initialRow c step at_ <$> cards)) (db y)).
Proof.
  intros Hf Hne. unfold InitializeCampaign. destruct cards as [|card cards]; [done|]. set (l := card :: cards).
  set (y0 := set_tick (Datatypes.S (tick y)) y).
  destruct (insertInitial_run c step at_ (chunks initBatchSize l) y0) as (y1 & Hrun & He & Hd); [exact Hf|].
  rewrite concat_chunks in Hd by (unfold initBatchSize; lia).
  assert (Hf1 : faultless y1) by (by apply (evolves_faultless y0)).
  eexists. split.
  - apply transaction_run; [exact Hf | | ].
    2: { unfold initializeTx. change (set_sys _ y) with y0. rewrite (run_bind _ _ _ _ _ Hrun). by apply run_wrap, exec_run. }
    exact Hf1.
  - split; [|cbn; by rewrite Hd]. etrans; [|etrans; [exact He|]].
    + exists (Datatypes.S (tick y)), (db y). split; [lia | by destruct y].
    + eexists _, _. split; [|reflexivity]. cbn. lia.
Qed.

(** ** The target loop as a fold over pages *)

Lemma forEach_pages {A} getenv c (fn : list string -> A -> C A) acc s :
  (forall b a s, cp_targets (snd (fn b a s)) = cp_targets s) ->
  let size := campaignShardSize getenv in
  forEachCampaignTargetBatch getenv c size fn acc s
    = visitPages size fn (chunks (Z.to_nat size) (targetIDs c (cp_targets s))) acc s.
Proof.
  intros Hfn size. pose proof (campaignShardSize_pos getenv) as Hsize. fold size in Hsize.
  unfold forEachCampaignTargetBatch. rewrite (proj2 (Z.leb_gt size 0)) by lia. unfold bindM, gets.
  apply (targetLoop_pages c size fn Hsize Hfn _ []); [done | done | lia].
Qed.

(** ** The shards of a started campaign *)

(** The state at a later question. *)
Definition later (n : nat) (s : Control) : Control := set_cp_sys (set_tick n (cp_sys s)) s.

(** [sh] is a claimable shard of [c] that activates exactly [batch], at [step]. *)
Definition activates (c : string) (step : Z) (batch : list string) (sh : CampaignShard.t) : Prop :=
  CampaignShard.CampaignID sh = c /\ claimable sh /\ CampaignShard.ItemCount sh = zlen batch /\
  exists events, CampaignShard.Items sh = Ok events /\ CardEvent.CardID <$> events = batch /\
    Forall (fun e => exists id at_, e = CardEvent.activate id (CardEvent.CardID e) c step 0 at_) events.

Lemma activationEvents_run c step at_ cards s :
  exists events n, activationEvents c step at_ cards s = (Ok events, later n s) /\ (tick (cp_sys s) <= n)%nat /\
    CardEvent.CardID <$> events = cards /\
    Forall (fun e => exists id at_, e = CardEvent.activate id (CardEvent.CardID e) c step 0 at_) events.
Proof.
  revert s. induction cards as [|card cards IH]; intros s; cbn [activationEvents].
  { exists [], (tick (cp_sys s)). split; [by destruct s as [[] ]|]. done. }
  rewrite (run_bind newUUID _ _ (sys_uuid (cp_sys s) (tick (cp_sys s))) (ticked s)) by done.
  destruct (IH (ticked s)) as (events & n & Hrun & Hn & Hcards & Hall). rewrite (run_bind _ _ _ _ _ Hrun).
  eexists _, n. split; [reflexivity|]. split; [cbn in Hn; lia|]. split; [cbn; by rewrite Hcards|].
  constructor; [by eexists _, _ | done].
Qed.

Lemma createShard_run sh s table :
  faultless (cp_sys s) -> cp_shards s = table -> shardsUnique (table ++ [sh]) ->
  forall s0, s = ticked s0 -> createShard sh s0 = (Ok tt, set_cp_shards (table ++ [sh]) s).
Proof.
  intros Hf <- Hu s0 ->. change (faultless (cp_sys s0)) in Hf. unfold createShard, bindM, ask, gets. cbn. rewrite Hf. cbn. by rewrite bool_decide_true.
Qed.

Section Start.
Context (c : string) (step at_ : Z) (y0 : Sys) (d : Database) (old : list CampaignShard.t) (targets : list CampaignTarget.t).
Hypothesis calm0 : faultless y0.
Hypothesis uuid_inj : forall i j, sys_uuid y0 i = sys_uuid y0 j -> i = j.
Hypothesis uuid_fresh : forall i, sys_uuid y0 i ∉ CampaignShard.ID <$> old.
Hypothesis old_unique : shardsUnique old.
Hypothesis old_other : Forall (fun sh => CampaignShard.CampaignID sh <> c) old.

(** What holds in the transaction once the batches [done] are sharded. *)
Record sharded (done : list (list string)) (acc : Z * Z) (s : Control) : Prop := {
  sh_evolves : evolves y0 (cp_sys s);
  sh_db : db (cp_sys s) = d;
  sh_targets : cp_targets s = targets;
  sh_count : acc = (zlen (concat done), 1 + zlen done);
  sh_new : exists new, cp_shards s = old ++ new /\ Forall2 (activates c step) done new /\
    CampaignShard.Sequence <$> new = seqZ 1 (zlen done) /\ shardsUnique (old ++ new) /\
    Forall (fun sh => exists i, (i < tick (cp_sys s))%nat /\ CampaignShard.ID sh = sys_uuid y0 i) new
}.

(** Asking a question keeps it. *)
Lemma sharded_later done acc n s : (tick (cp_sys s) <= n)%nat -> sharded done acc s -> sharded done acc (later n s).
Proof using.
  intros Hn [He Hd Ht Hc (new & Hs & Ha & Hq & Hu & Hi)]. split; [|done..|].
  - etrans; [exact He|]. exists n, (db (cp_sys s)). split; [done | by destruct s as [[] ]].
  - exists new. split_and!; [done..|]. apply (Forall_impl _ _ _ Hi). intros sh (i & Hlt & ?). exists i. split; [cbn; lia | done].
Qed.

Lemma shardsUnique_snoc new id q events t :
  shardsUnique (old ++ new) -> CampaignShard.Sequence <$> new = seqZ 1 q ->
  0 <= q -> Forall (fun sh => CampaignShard.ID sh <> id) (old ++ new) ->
  shardsUnique ((old ++ new) ++ [newShard id c (1 + q) events t]).
Proof using old_other.
  intros [Hid Hkey] Hq Hpos Hfresh. split; rewrite fmap_app, NoDup_app; (split; [done|]; split; [|apply NoDup_singleton]);
    intros x Hx Hin; apply list_elem_of_singleton in Hin as ->; apply list_elem_of_fmap in Hx as (sh & E & Hsh).
  - rewrite Forall_forall in Hfresh. by apply (Hfresh sh).
  - injection E as Ec Eq. apply elem_of_app in Hsh as [Hsh|Hsh].
    + rewrite Forall_forall in old_other. by apply (old_other sh).
    + assert (CampaignShard.Sequence sh ∈ seqZ 1 q) as Hin by (rewrite <- Hq; by apply list_elem_of_fmap_2).
      apply elem_of_seqZ in Hin. lia.
Qed.

Lemma startBatch_run done batch acc s :
  sharded done acc s -> exists acc' s', startBatch c step at_ batch acc s = (Ok acc', s') /\ sharded (done ++ [batch]) acc' s'.
Proof using All.
  intros Hs. pose proof Hs as [He0 _ _ Hcount (new0 & Hsh0 & _ & _ & _ & Hi0)]. rewrite Hcount in Hs |- *. cbn [startBatch].
  destruct (activationEvents_run c step at_ batch s) as (events & n & Hrun & Hn & Hcards & Hall).
  rewrite (run_bind _ _ _ _ _ Hrun). set (s1 := later n s).
  rewrite (run_bind newUUID _ _ (sys_uuid (cp_sys s1) n) (later (S n) s)) by done.
  rewrite (run_bind now _ _ (sys_now (cp_sys s1) (S n)) (later (S (S n)) s)) by done.
  set (sh := newShard _ _ _ _ _).
  assert (Hid : CampaignShard.ID sh = sys_uuid y0 n) by exact (f_equal (fun f => f n) (evolves_uuid _ _ He0)).
  apply (sharded_later _ _ (S (S (S n)))) in Hs as [He Hd Ht _ (new & Hsh & Ha & Hq & Hu & Hi)]; [|lia].
  assert (new0 = new) as -> by (cbn in Hsh; rewrite Hsh in Hsh0; by apply app_inv_head in Hsh0).
  assert (Huniq : shardsUnique ((old ++ new) ++ [sh])).
  { apply shardsUnique_snoc; [done | done | unfold zlen; lia|]. fold sh. apply Forall_app. split; rewrite Forall_forall; intros x Hx E.
    - change (CampaignShard.ID x = CampaignShard.ID sh) in E. apply (uuid_fresh n). rewrite <- Hid, <- E. by apply list_elem_of_fmap_2.
    - rewrite Forall_forall in Hi0. destruct (Hi0 x Hx) as (i & Hlt & E').
      change (CampaignShard.ID x = CampaignShard.ID sh) in E. rewrite E', Hid in E. apply uuid_inj in E. lia. }
  assert (Hlen : zlen events = zlen batch) by (unfold zlen; by rewrite <- Hcards, length_fmap).
  set (s3 := set_cp_shards ((old ++ new) ++ [sh]) (later (S (S (S n))) s)).
  assert (Hcreate : createShard sh (later (S (S n)) s) = (Ok tt, s3)).
  { apply createShard_run; [by apply (evolves_faultless y0) | exact Hsh | done | done]. }
  rewrite (run_bind _ _ _ _ _ (run_wrap _ _ _ _ _ Hcreate)). eexists _, s3. split; [reflexivity|].
  split; [done.. | |].
  - rewrite concat_app. cbn [concat]. rewrite app_nil_r. unfold zlen. rewrite !length_app. cbn [length]. f_equal; lia.
  - exists (new ++ [sh]). rewrite app_assoc. split_and!; [done | | | done |].
    + apply Forall2_app; [done|]. constructor; [|constructor]. split; [done|]. split; [done|]. split; [done|].
      exists events. by split_and!.
    + rewrite fmap_app, Hq. unfold zlen. rewrite length_app, Nat2Z.inj_add, seqZ_app by lia. done.
    + apply Forall_app. split; [exact Hi|]. constructor; [|constructor]. exists n. split; [cbn; lia | done].
Qed.
End Start.

(** ** The initial state of the cards *)

Definition startStats (n : Z) : CampaignStatsRow.t :=
  {| CampaignStatsRow.Total := n; CampaignStatsRow.Pending := n; CampaignStatsRow.InProgress := 0;
     CampaignStatsRow.Completed := 0; CampaignStatsRow.Failed := 0; CampaignStatsRow.Skipped := 0 |}.

(** The tables after initialising [cards] of a campaign that had no state. *)
Definition initializedTables (c : string) (step at_ : Z) (cards : list string) (d : Database) : Database :=
  match cards with
  | [] => d
  | _ => set_campaign_stats <[c := startStats (zlen cards)]>
           (set_card_execution_states (fun t => t ++ (initialRow c step at_ <$> cards)) d)
  end.

Section Initialize.
Context (c : string) (step at_ : Z) (s0 : Control).
Hypothesis calm0 : faultless (cp_sys s0).
Hypothesis history_unique : NoDup (rowKey <$> card_execution_states (db (cp_sys s0))).
Hypothesis history_other : Forall (fun r => CardExecutionState.CampaignID r <> c) (card_execution_states (db (cp_sys s0))).
Hypothesis no_stats : campaign_stats (db (cp_sys s0)) !! c = None.

Let d0 := db (cp_sys s0).

Lemma initial_keys cards : NoDup cards -> NoDup (rowKey <$> card_execution_states d0 ++ (initialRow c step at_ <$> cards)).
Proof using history_unique history_other.
  intros Hn. rewrite fmap_app. apply NoDup_app. split; [done|]. split.
  - intros k Hk Hin. apply list_elem_of_fmap in Hk as (r & -> & Hr).
    rewrite <- list_fmap_compose in Hin. apply list_elem_of_fmap in Hin as (card & E & _).
    rewrite Forall_forall in history_other. apply (history_other r Hr). by injection E.
  - rewrite <- list_fmap_compose. apply NoDup_fmap_2; [|done]. intros x y E. unfold compose, rowKey in E. cbn in E. congruence.
Qed.

Lemma count_initial cards :
  zlen (filter (fun r => CardExecutionState.CampaignID r = c /\ CardExecutionState.TransitionSeq r = 0)
          (card_execution_states d0 ++ (initialRow c step at_ <$> cards))) = zlen cards.
Proof using history_other.
  rewrite filter_app. unfold zlen. rewrite length_app.
  assert (filter (fun r => CardExecutionState.CampaignID r = c /\ CardExecutionState.TransitionSeq r = 0) (card_execution_states d0) = []) as ->.
  { apply elem_of_nil_inv. intros r Hr. apply list_elem_of_filter in Hr as [[Hc _] Hr].
    rewrite Forall_forall in history_other. by apply (history_other r). }
  cbn [length Nat.add]. f_equal. induction cards as [|x l IH]; [done|]. rewrite fmap_cons, filter_cons_True by done. cbn. by rewrite IH.
Qed.

(** The statement that counts the initial rows, on tables that hold [cards]. *)
Lemma upsertStats_initial cards d :
  card_execution_states d = card_execution_states d0 ++ (initialRow c step at_ <$> cards) ->
  (forall row, campaign_stats d !! c = Some row -> exists k, row = startStats k) ->
  upsertStats c d = set_campaign_stats <[c := startStats (zlen cards)]> d.
Proof using history_other.
  intros Ht Hrow. unfold upsertStats. rewrite Ht, count_initial. unfold set_campaign_stats. f_equal.
  destruct (campaign_stats d !! c) as [row|]; [|done]. by destruct (Hrow row eq_refl) as [k ->].
Qed.

(** What holds once the batches [done] are initialised. *)
Record initialized (done : list (list string)) (s : Control) : Prop := {
  in_evolves : evolves (cp_sys s0) (cp_sys s);
  in_db : db (cp_sys s) = initializedTables c step at_ (concat done) d0;
  in_rest : s = set_cp_sys (cp_sys s) s0
}.

Lemma initializeBatch_run done batch s :
  initialized done s -> batch <> [] -> NoDup (concat (done ++ [batch])) ->
  exists s', initializeBatch c step at_ batch tt s = (Ok tt, s') /\ initialized (done ++ [batch]) s'.
Proof using All.
  intros [He Hd Hs] Hne Hnd. rewrite concat_app in Hnd. cbn [concat] in Hnd. rewrite app_nil_r in Hnd.
  assert (Hf : faultless (cp_sys s)) by (by apply (evolves_faultless (cp_sys s0))).
  destruct (InitializeCampaign_run c batch step at_ (cp_sys s) Hf Hne) as (y' & Hrun & He' & Hd').
  exists (set_cp_sys y' s). split; [unfold initializeBatch; apply run_wrap; unfold on_sys; by rewrite Hrun|].
  split; [by etrans | | by rewrite Hs]. cbn [cp_sys set_cp_sys]. rewrite Hd', Hd, concat_app. cbn [concat]. rewrite app_nil_r.
  set (d1 := initializedTables c step at_ (concat done) d0).
  assert (Ht1 : card_execution_states d1 = card_execution_states d0 ++ (initialRow c step at_ <$> concat done)).
  { unfold d1, initializedTables. destruct (concat done); [by rewrite app_nil_r | done]. }
  assert (Hnew : foldl insertRow (card_execution_states d1) (initialRow c step at_ <$> batch)
                   = card_execution_states d0 ++ (initialRow c step at_ <$> concat done ++ batch)).
  { rewrite Ht1, fmap_app, app_assoc. apply foldl_insertRow_fresh. rewrite <- app_assoc, <- fmap_app. by apply initial_keys. }
  rewrite (upsertStats_initial (concat done ++ batch)); [| exact Hnew |].
  - unfold initializedTables at 1. destruct (concat done ++ batch) as [|x l] eqn:E; [by apply app_nil in E as [_ ->]|]. rewrite <- E in *.
    unfold set_campaign_stats, set_card_execution_states. cbn. rewrite Hnew. unfold d1, initializedTables.
    destruct (concat done); [done|]. unfold set_campaign_stats, set_card_execution_states. cbn. by rewrite insert_insert_eq.
  - intros row. unfold d1, initializedTables. destruct (concat done); cbn; [unfold d0; by rewrite no_stats|].
    rewrite lookup_insert_eq. intros [= <-]. by eexists.
Qed.
End Initialize.

(** ** Starting *)

(** What a campaign needs to start, in an environment where nothing fails: it is
    pending, has commands and targets, and has never been started; fresh UUIDs are fresh. *)
Record startable (getenv : string -> string) (c : string) (cmd : CampaignCommand.t) (s : Control) : Prop := {
  st_calm : faultless (cp_sys s);
  st_inj : forall i j, sys_uuid (cp_sys s) i = sys_uuid (cp_sys s) j -> i = j;
  st_fresh : forall i, sys_uuid (cp_sys s) i ∉ CampaignShard.ID <$> cp_shards s;
  st_unique : shardsUnique (cp_shards s);
  st_unsharded : Forall (fun sh => CampaignShard.CampaignID sh <> c) (cp_shards s);
  st_keys : NoDup (rowKey <$> card_execution_states (db (cp_sys s)));
  st_nohistory : Forall (fun r => CardExecutionState.CampaignID r <> c) (card_execution_states (db (cp_sys s)));
  st_nostats : campaign_stats (db (cp_sys s)) !! c = None;
  st_pending : statusOf s c = Some "pending";
  st_commands : exists cmds, commandsOf c (db (cp_sys s)) = cmd :: cmds;
  st_targets : targetIDs c (cp_targets s) <> [];
  st_backlog : zlen (filter (fun sh => CampaignShard.Status sh ∈ ["pending"; "publishing"]) (cp_shards s))
                 <= GetEnvInt getenv "CAMPAIGN_START_MAX_SHARD_BACKLOG" 1000
}.

Lemma query_cp_run {A} (f : Database -> A) s :
  faultless (cp_sys s) -> query f s = (Ok (f (db (cp_sys s))), ticked s).
Proof. intros Hf. unfold query, bindM, ask. cbn. by rewrite Hf. Qed.

Lemma exec_cp_run f s :
  faultless (cp_sys s) -> exec f s = (Ok tt, set_cp_sys (set_db (f (db (cp_sys s))) (cp_sys (ticked s))) (ticked s)).
Proof. intros Hf. unfold exec, bindM, ask. cbn. by rewrite Hf. Qed.

Definition set_cp_store (st : Coordination.t) (s : Control) : Control :=
  mkControl (cp_sys s) st (cp_shards s) (cp_targets s) (cp_sent s).

Lemma cacheForWorkers_run redis c cmds s : exists st, cacheForWorkers redis c cmds s = (Ok tt, set_cp_store st s).
Proof. destruct redis; [by eexists|]. exists (cp_store s). by destruct s. Qed.

(** The history and the counters. *)
Definition execTables (d : Database) := (card_execution_states d, campaign_stats d).

Lemma tellStatus_tables redis c st s : execTables (db (cp_sys (snd (tellStatus redis c st s)))) = execTables (db (cp_sys s)).
Proof.
  unfold tellStatus. destruct redis; cbn [mwhen]; [|done].
  unfold ignore, try, on_store, bindM. cbn. unfold Coordination.SetCampaignStatus, mwrap, bindM, exec, bindM, ask. cbn.
  by destruct (sys_fault (cp_sys s) (tick (cp_sys s))).
Qed.

Lemma tell_run redis wsHub c st data s :
  statusOf s c = Some st ->
  exists s', (do! _ <- tellStatus redis c st; tellHub wsHub c data) s = (Ok tt, s') /\ statusOf s' c = Some st /\
    cp_shards s' = cp_shards s /\ execTables (db (cp_sys s')) = execTables (db (cp_sys s)).
Proof.
  intros Hst. destruct (tellStatus_run redis c st s) as (s1 & Hrun & _ & Hsh & Hst1). specialize (Hst1 Hst).
  pose proof (tellStatus_tables redis c st s) as Ht. rewrite Hrun in Ht. cbn [snd] in Ht.
  rewrite (run_bind _ _ _ _ _ Hrun). unfold tellHub, mwhen. destruct wsHub; by eexists.
Qed.

Section StartRun.
Context (getenv : string -> string) (redis query_ wsHub : bool) (c : string).

Let size := campaignShardSize getenv.

(** The initialisation of every target, when a query store is there. *)
Lemma initializeAll_run step at_ s :
  faultless (cp_sys s) -> NoDup (rowKey <$> card_execution_states (db (cp_sys s))) ->
  Forall (fun r => CardExecutionState.CampaignID r <> c) (card_execution_states (db (cp_sys s))) ->
  campaign_stats (db (cp_sys s)) !! c = None ->
  exists y', mwhen query_ (forEachCampaignTargetBatch getenv c size (initializeBatch c step at_) tt) s
    = (Ok tt, set_cp_sys y' s) /\ evolves (cp_sys s) y' /\
    db y' = if query_ then initializedTables c step at_ (targetIDs c (cp_targets s)) (db (cp_sys s)) else db (cp_sys s).
Proof.
  intros Hf Hk Ho Hn. destruct query_; cbn [mwhen]; [|exists (cp_sys s); split; [by destruct s | by split]].
  rewrite (forEach_pages getenv c); [|intros b a s1; apply (keeps_initialize c step at_ b a s1)].
  fold size. set (ids := targetIDs c (cp_targets s)).
  assert (Hpos : (0 < Z.to_nat size)%nat) by (pose proof (campaignShardSize_pos getenv); unfold size; lia).
  destruct (visitPages_run size (initializeBatch c step at_) (fun pre _ s' => initialized c step at_ s pre s') ids) with (acc := tt) (s := s)
    as ([] & s' & Hrun & [He Hd Hs]).
  - apply campaignShardSize_pos.
  - intros pre _ s1 [He Hd Hs]. split; [by apply (evolves_faultless (cp_sys s))|].
    split; [etrans; [exact He | apply ticked_evolves] | done | by rewrite Hs].
  - intros pre b [] s1 HI Hne [post Hpre].
    destruct (initializeBatch_run c step at_ s Hf Hk Ho Hn pre b s1 HI Hne) as (s2 & Hrun & HI2); [|by exists tt, s2].
    assert (Hnd : NoDup (concat ((pre ++ [b]) ++ post))) by (fold size in Hpre; rewrite <- Hpre, concat_chunks by lia; apply sortedIDs_NoDup).
    rewrite concat_app in Hnd. by apply NoDup_app in Hnd as [? _].
  - split; [reflexivity | done | by destruct s].
  - exists (cp_sys s'). rewrite Hrun, <- Hs. split; [done|]. split; [done|]. by rewrite Hd, concat_chunks by lia.
Qed.

(** The transaction: the status, and a shard per batch. *)
Lemma startTx_run step at_ s :
  faultless (cp_sys s) -> (forall i j, sys_uuid (cp_sys s) i = sys_uuid (cp_sys s) j -> i = j) ->
  (forall i, sys_uuid (cp_sys s) i ∉ CampaignShard.ID <$> cp_shards s) -> shardsUnique (cp_shards s) ->
  Forall (fun sh => CampaignShard.CampaignID sh <> c) (cp_shards s) -> targetIDs c (cp_targets s) <> [] ->
  exists n s', startTx getenv c step at_ s = (Ok n, s') /\
    sharded c step (cp_sys s) (set_campaigns (alter (startedCampaign at_) c) (db (cp_sys s))) (cp_shards s) (cp_targets s)
      (chunks (Z.to_nat size) (targetIDs c (cp_targets s))) (n, 1 + zlen (chunks (Z.to_nat size) (targetIDs c (cp_targets s)))) s'.
Proof.
  intros Hf Hinj Hfresh Hu Ho Hne. unfold startTx. rewrite (run_bind _ _ _ _ _ (exec_cp_run _ _ Hf)).
  set (s1 := set_cp_sys _ (ticked s)).
  unfold bindM. rewrite (forEach_pages getenv c); [|intros b a s2; by destruct (frame_startBatch c step at_ b a s2) as (_ & ? & _)].
  fold size. change (cp_targets s1) with (cp_targets s). set (ids := targetIDs c (cp_targets s)) in *. set (d := set_campaigns _ _).
  assert (Hpos : (0 < Z.to_nat size)%nat) by (pose proof (campaignShardSize_pos getenv); unfold size; lia).
  destruct (visitPages_run size (startBatch c step at_) (sharded c step (cp_sys s) d (cp_shards s) (cp_targets s)) ids) with (acc := (0, 1)) (s := s1)
    as ([n q] & s' & Hrun & HI).
  - apply campaignShardSize_pos.
  - intros pre acc s2 HI. split; [apply (evolves_faultless (cp_sys s)); [apply HI | done]|].
    apply (sharded_later _ _ _ _ _ _ _ _ (S (tick (cp_sys s2)))); [lia | done].
  - intros pre b acc s2 HI _ _. by apply startBatch_run.
  - split; [|done..|].
    + exists (S (tick (cp_sys s))), d. split; [lia | done].
    + exists []. rewrite app_nil_r. by split_and!.
  - rewrite Hrun. pose proof (sh_count _ _ _ _ _ _ _ _ _ HI) as Hc. rewrite concat_chunks in Hc by lia. injection Hc as -> ->.
    cbn [fst]. rewrite (proj2 (Z.eqb_neq _ _)); [by eexists _, s'|].
    unfold zlen. destruct ids; [done | cbn; lia].
Qed.

(** What StartCampaign does once its guards have passed. *)
Definition startRest (step at_ : Z) : C unit :=
  do! _ <- mwhen query_ (forEachCampaignTargetBatch getenv c size (initializeBatch c step at_) tt);
  do! pendingCards <- mwrap "start campaign transaction: %w" (transaction (startTx getenv c step at_));
  do! _ <- tellStatus redis c "running";
  tellHub wsHub c [("status", VStr "running"); ("started_at", VInt at_); ("total_cards", VInt pendingCards)].

Lemma start_guards_pass cmd s :
  startable getenv c cmd s ->
  exists st at_, StartCampaign getenv redis query_ wsHub c s
    = startRest (CampaignCommand.Sequence cmd) at_ (set_cp_store st (ticked (ticked (ticked s)))).
Proof.
  intros [Hf _ _ _ _ _ _ _ Hst (cmds & Hcmds) _ Hback]. unfold StartCampaign.
  set (s1 := ticked s). set (s2 := ticked s1).
  assert (Hcount : pendingShardCount s = (Ok (zlen (filter (fun sh => CampaignShard.Status sh ∈ ["pending"; "publishing"]) (cp_shards s))), s1)).
  { unfold pendingShardCount, bindM, try. by rewrite (readTable_run _ _ Hf). }
  rewrite (run_bind _ _ _ _ _ Hcount). cbv beta zeta. rewrite (proj2 (Z.ltb_ge _ _)) by done.
  unfold statusOf in Hst. destruct (camps s !! c) as [camp|] eqn:Ec; [|done]. injection Hst as Hst.
  assert (Hload : mwrap ("load campaign " +:+ c +:+ ": %w") (do! o <- query (loadCampaign c); first o) s1 = (Ok (camp, cmd :: cmds), s2)).
  { apply run_wrap. rewrite (run_bind _ _ _ _ _ (query_cp_run _ _ (Hf : faultless (cp_sys s1)))).
    unfold loadCampaign. change (db (cp_sys s1)) with (db (cp_sys s)). unfold camps in Ec. by rewrite Ec, Hcmds. }
  rewrite (run_bind _ _ _ _ _ Hload). cbv beta iota zeta. rewrite (bool_decide_true _ Hst). cbn [negb].
  rewrite (run_bind now _ _ (sys_now (cp_sys s2) (tick (cp_sys s2))) (ticked s2)) by done.
  destruct (cacheForWorkers_run redis c (cmd :: cmds) (ticked s2)) as [st Hcache]. rewrite (run_bind _ _ _ _ _ Hcache).
  by eexists _, _.
Qed.

End StartRun.

