(* ===== verification/Recovery.v ===== *)
(** * Crash recovery

    internal/pgstore/recovery.go rebuilds the shards of running campaigns at
    start-up, from the latest state of every card.  It works on the tables of
    [Control]; it is not a transaction.  cmd/ota-engine passes it a
    shard size read by envInt, which is positive. *)

From S2P Require Import Prelude Effects Models Pipeline Store StateWriter StateWriterProps Sql QueryStore QueryStoreProps Executor Planner CampaignControl ControlScenario CampaignProps StartProps.

(** ** The code *)

(** envInt of cmd/ota-engine/main.go. *)
Definition envInt (getenv : string -> string) (key : string) (fallback : Z) : Z :=
  let v := getenv key in
  if bool_decide (v = "") then fallback
  else match Atoi v with Some n => if 0 <? n then n else fallback | None => fallback end.

(** A statement on campaign_shards that cannot violate a constraint. *)
Definition writeShards (f : list CampaignShard.t -> list CampaignShard.t) : C unit :=
  do! fault <- ask sys_fault;
  match fault with
  | Some e => merr e
  | None => modify (fun s => set_cp_shards (f (cp_shards s)) s)
  end.

(** [Where("status = ?", "publishing").Updates(...)] *)
Definition resetPublishing (at_ : Z) (table : list CampaignShard.t) : list CampaignShard.t :=
  (fun sh => if bool_decide (CampaignShard.Status sh = "publishing") then resetShard at_ sh else sh) <$> table.

(** The step a card goes on with. *)
Definition recoveryStep (cmds : list CampaignCommand.t) (currentStep : Z) : Z :=
  match cmds with
  | cmd :: _ => if currentStep =? 0 then CampaignCommand.Sequence cmd else currentStep
  | [] => currentStep
  end.

Fixpoint recoveryEvents (campaignID : string) (cmds : list CampaignCommand.t) (cards : list CardExecutionState.t)
    : C (list CardEvent.t) :=
  match cards with
  | [] => ret []
  | card :: cards =>
      if bool_decide (terminal (CardExecutionState.Status card)) then recoveryEvents campaignID cmds cards
      else
        do! id <- newUUID;
        do! at_ <- now;
        do! events <- recoveryEvents campaignID cmds cards;
        ret (CardEvent.activate id (CardExecutionState.CardID card) campaignID
               (recoveryStep cmds (CardExecutionState.CurrentStep card)) (CardExecutionState.RetryCount card) at_ :: events)
  end.

Definition stale (campaignID : string) (sh : CampaignShard.t) : Prop :=
  CampaignShard.CampaignID sh = campaignID /\ CampaignShard.Status sh ∈ ["pending"; "publishing"].
#[global] Instance stale_dec c sh : Decision (stale c sh).
Proof. unfold stale. apply _. Defined.

(** One INSERT per piece, numbered from [seq]. *)
Fixpoint recoveryShards (campaignID : string) (seq : Z) (pieces : list (list CardEvent.t)) : C unit :=
  match pieces with
  | [] => ret tt
  | items :: pieces =>
      do! id <- newUUID;
      do! at_ <- now;
      do! r <- try (createShard (newShard id campaignID seq items at_));
      match r with
      | Err e => merr (Errorf "create recovery shard %d: %w" [ArgInt seq; ArgErr e])
      | Panic p => mres (Panic p)
      | Ok _ => recoveryShards campaignID (seq + 1) pieces
      end
  end.

Definition recoverCampaign (shardSize : Z) (campaignID : string) (cmds : list CampaignCommand.t) : C unit :=
  do! cards <- mwrap "query card execution states: %w"
    (query (fun d => latestPerCard campaignID (card_execution_states d)));
  do! events <- recoveryEvents campaignID cmds cards;
  match events with
  | [] => ret tt
  | _ =>
      do! _ <- mwrap "delete stale shards: %w" (writeShards (filter (fun sh => ~ stale campaignID sh)));
      do! maxSeq <- mwrap "query max shard sequence: %w" (readTable (fun s => maxSequence campaignID (cp_shards s)));
      recoveryShards campaignID (maxSeq + 1) (chunks (Z.to_nat shardSize) events)
  end.

(** The running campaigns with their commands, in the order of the map. *)
Definition runningCampaigns (d : Database) : list (string * list CampaignCommand.t) :=
  (fun kv => (fst kv, commandsOf (fst kv) d))
    <$> filter (fun kv => Campaign.Status (snd kv) = "running") (map_to_list (campaigns d)).

Fixpoint recoverEach (shardSize : Z) (l : list (string * list CampaignCommand.t)) : C unit :=
  match l with
  | [] => ret tt
  | (c, cmds) :: l => do! _ <- ignore (recoverCampaign shardSize c cmds); recoverEach shardSize l
  end.

Definition RecoverRunningCampaigns (shardSize : Z) : C unit :=
  do! at_ <- now;
  do! _ <- ignore (writeShards (resetPublishing at_));
  do! campaigns <- mwrap "query running campaigns: %w" (query runningCampaigns);
  match campaigns with
  | [] => ret tt
  | _ => recoverEach shardSize campaigns
  end.

(** ** What recovery promises

    [liveCards c rows] are the cards of [c] whose latest state is not terminal. *)

Definition liveCards (c : string) (rows : list CardExecutionState.t) : list CardExecutionState.t :=
  filter (fun r => ~ terminal (CardExecutionState.Status r)) (latestPerCard c rows).

(** The event that restarts a card where it was. *)
Definition restarts (c : string) (cmds : list CampaignCommand.t) (card : CardExecutionState.t) (e : CardEvent.t) : Prop :=
  exists id at_, e = CardEvent.activate id (CardExecutionState.CardID card) c
    (recoveryStep cmds (CardExecutionState.CurrentStep card)) (CardExecutionState.RetryCount card) at_.

Definition shardsOf (c : string) (table : list CampaignShard.t) : list CampaignShard.t :=
  filter (fun sh => CampaignShard.CampaignID sh = c) table.

(** The events waiting for the planner, of one campaign. *)
Definition waitingOf (c : string) (table : list CampaignShard.t) : list CardEvent.t :=
  concat (eventsOf <$> filter claimable (shardsOf c table)).

(** A campaign with live cards has, in claimable shards, exactly one event per live card, and nothing half published. *)
Definition recovered (d : Database) (c : string) (table : list CampaignShard.t) : Prop :=
  liveCards c (card_execution_states d) <> [] ->
  Forall2 (restarts c (commandsOf c d)) (liveCards c (card_execution_states d)) (waitingOf c table) /\
  Forall (fun sh => CampaignShard.Status sh <> "publishing") (shardsOf c table).

Lemma recoveryEvents_run c cmds cards s :
  exists events n, recoveryEvents c cmds cards s = (Ok events, later n s) /\ (tick (cp_sys s) <= n)%nat /\
    Forall2 (restarts c cmds) (filter (fun r => ~ terminal (CardExecutionState.Status r)) cards) events.
Proof.
  revert s. induction cards as [|card cards IH]; intros s; cbn [recoveryEvents].
  { exists [], (tick (cp_sys s)). split; [by destruct s as [[] ]|]. done. }
  case_bool_decide as Ht; [rewrite filter_cons_False by tauto; apply IH|]. rewrite filter_cons_True by done.
  rewrite (run_bind newUUID _ _ (sys_uuid (cp_sys s) (tick (cp_sys s))) (ticked s)) by done.
  rewrite (run_bind now _ _ (sys_now (cp_sys s) (S (tick (cp_sys s)))) (ticked (ticked s))) by done.
  destruct (IH (ticked (ticked s))) as (events & n & Hrun & Hn & Hall). rewrite (run_bind _ _ _ _ _ Hrun).
  eexists _, n. split; [reflexivity|]. split; [cbn in Hn; lia|]. constructor; [by eexists _, _ | done].
Qed.

Lemma writeShards_run f s :
  faultless (cp_sys s) -> writeShards f s = (Ok tt, set_cp_shards (f (cp_shards s)) (ticked s)).
Proof. intros Hf. unfold writeShards, bindM, ask. cbn. by rewrite Hf. Qed.

Lemma shardsOf_app c t1 t2 : shardsOf c (t1 ++ t2) = shardsOf c t1 ++ shardsOf c t2.
Proof. apply filter_app. Qed.

Lemma maxSequence_bound c table : Forall (fun sh => CampaignShard.CampaignID sh = c -> CampaignShard.Sequence sh < maxSequence c table + 1) table.
Proof.
  rewrite Forall_forall. intros sh Hsh Hc. unfold maxSequence.
  assert (Hin : CampaignShard.Sequence sh ∈ CampaignShard.Sequence <$> filter (fun s => CampaignShard.CampaignID s = c) table).
  { apply list_elem_of_fmap_2. by apply list_elem_of_filter. }
  assert (Hmax : forall l m, m <= foldl Z.max m l /\ forall z, z ∈ l -> z <= foldl Z.max m l).
  { induction l as [|a l IH]; intros m; cbn; [split; [lia | by intros z Hz%not_elem_of_nil]|].
    destruct (IH (Z.max m a)) as [H1 H2]. split; [lia|]. intros z [->|Hz]%elem_of_cons; [lia | by apply H2]. }
  destruct (_ <$> _) as [|m l]; [by apply not_elem_of_nil in Hin|]. destruct (Hmax l m) as [H1 H2].
  apply elem_of_cons in Hin as [->|Hin]; [lia | apply H2 in Hin; lia].
Qed.

Section Recover.
Context (y0 : Sys) (d : Database) (old : list string).
Hypothesis calm0 : faultless y0.
Hypothesis uuid_inj : forall i j, sys_uuid y0 i = sys_uuid y0 j -> i = j.
Hypothesis uuid_fresh : forall i, sys_uuid y0 i ∉ old.

(** The tables are [d], the shards' keys are unique and their ids known. *)
Record tidy (s : Control) : Prop := {
  td_evolves : evolves y0 (cp_sys s);
  td_db : db (cp_sys s) = d;
  td_unique : shardsUnique (cp_shards s);
  td_ids : Forall (fun sh => CampaignShard.ID sh ∈ old \/ exists i, (i < tick (cp_sys s))%nat /\ CampaignShard.ID sh = sys_uuid y0 i)
             (cp_shards s)
}.

Lemma tidy_faultless s : tidy s -> faultless (cp_sys s).
Proof using calm0. intros H. apply (evolves_faultless y0); [apply H | done]. Qed.

Lemma tidy_later n s : (tick (cp_sys s) <= n)%nat -> tidy s -> tidy (later n s).
Proof using.
  intros Hn [He Hd Hu Hi]. split; [|done..|].
  - etrans; [exact He|]. exists n, (db (cp_sys s)). split; [done | by destruct s as [[] ]].
  - apply (Forall_impl _ _ _ Hi). intros sh [?|(i & Hlt & ?)]; [by left | right; exists i; split; [cbn; lia | done]].
Qed.

Lemma tidy_filter (P : CampaignShard.t -> Prop) `{!forall x, Decision (P x)} s :
  tidy s -> tidy (set_cp_shards (filter P (cp_shards s)) s).
Proof using.
  intros [He Hd [Hu1 Hu2] Hi]. split; [done.. | |].
  - split; (eapply sublist_NoDup; [eassumption | apply fmap_sublist, sublist_filter]).
  - rewrite Forall_forall in Hi |- *. intros sh [_ Hsh]%list_elem_of_filter. by apply Hi.
Qed.

(** Creating a shard with a fresh id and a sequence above the others. *)
Lemma tidy_create c q items at_ s :
  tidy s -> Forall (fun sh => CampaignShard.CampaignID sh = c -> CampaignShard.Sequence sh < q) (cp_shards s) ->
  let sh := newShard (sys_uuid (cp_sys s) (tick (cp_sys s))) c q items at_ in
  let s' := set_cp_shards (cp_shards s ++ [sh]) (later (S (S (S (tick (cp_sys s))))) s) in
  createShard sh (later (S (S (tick (cp_sys s)))) s) = (Ok tt, s') /\ tidy s'.
Proof using calm0 uuid_inj uuid_fresh.
  intros Ht Hq sh s'. pose proof Ht as [He Hd [Hu1 Hu2] Hi]. set (n := tick (cp_sys s)) in *.
  assert (Hid : CampaignShard.ID sh = sys_uuid y0 n) by exact (f_equal (fun f => f n) (evolves_uuid _ _ He)).
  assert (Hu : shardsUnique (cp_shards s ++ [sh])).
  { rewrite Forall_forall in Hi, Hq.
    split; rewrite fmap_app, NoDup_app; (split; [done|]; split; [|apply NoDup_singleton]);
      intros x Hx Hin; apply list_elem_of_singleton in Hin as ->; apply list_elem_of_fmap in Hx as (sh0 & E & Hsh0).
    - rewrite Hid in E. destruct (Hi sh0 Hsh0) as [Ho|(i & Hlt & Ei)].
      + apply (uuid_fresh n). by rewrite E.
      + rewrite Ei in E. apply uuid_inj in E. lia.
    - injection E as Ec Eq. specialize (Hq sh0 Hsh0 (eq_sym Ec)). cbn in Eq. lia. }
  pose proof (tidy_later (S (S (S n))) s ltac:(lia) Ht) as [He' Hd' _ Hi']. split.
  - apply createShard_run; [by apply (evolves_faultless y0) | done..].
  - split; [done..|]. apply Forall_app. split; [exact Hi'|]. constructor; [|constructor].
    right. exists n. split; [cbn; lia | done].
Qed.

Lemma recoveryShards_run c q pieces s :
  tidy s -> Forall (fun sh => CampaignShard.CampaignID sh = c -> CampaignShard.Sequence sh < q) (cp_shards s) ->
  exists new s', recoveryShards c q pieces s = (Ok tt, s') /\ tidy s' /\ cp_shards s' = cp_shards s ++ new /\
    Forall2 (fun items sh => CampaignShard.CampaignID sh = c /\ claimable sh /\ CampaignShard.Items sh = Ok items) pieces new.
Proof using calm0 uuid_inj uuid_fresh.
  revert q s. induction pieces as [|items pieces IH]; intros q s Ht Hq; cbn [recoveryShards].
  { exists [], s. rewrite app_nil_r. done. }
  set (n := tick (cp_sys s)).
  rewrite (run_bind newUUID _ _ (sys_uuid (cp_sys s) n) (later (S n) s)) by done.
  rewrite (run_bind now _ _ (sys_now (cp_sys s) (S n)) (later (S (S n)) s)) by done.
  destruct (tidy_create c q items (sys_now (cp_sys s) (S n)) s Ht Hq) as [Hrun Ht1]. fold n in Hrun, Ht1.
  set (sh := newShard _ _ _ _ _) in *. set (s1 := set_cp_shards _ _) in *.
  assert (Htry : try (createShard sh) (later (S (S n)) s) = (Ok (Ok tt), s1)) by (unfold try; by rewrite Hrun).
  rewrite (run_bind _ _ _ _ _ Htry).
  destruct (IH (q + 1) s1 Ht1) as (new & s' & Hrun' & Ht' & Hsh & Hnew).
  { apply Forall_app. split; [|constructor; [cbn; lia | constructor]].
    apply (Forall_impl _ _ _ Hq). intros x Hx Hc. specialize (Hx Hc). lia. }
  exists (sh :: new), s'. split; [done|]. split; [done|]. split; [by rewrite Hsh; unfold s1; cbn; rewrite <- app_assoc|].
  by constructor.
Qed.

(** The events of fresh shards wait for the planner. *)
Lemma waiting_new c pieces new :
  Forall2 (fun items sh => CampaignShard.CampaignID sh = c /\ claimable sh /\ CampaignShard.Items sh = Ok items) pieces new ->
  shardsOf c new = new /\ waitingOf c new = concat pieces /\
  Forall (fun sh => CampaignShard.Status sh <> "publishing") new /\ forall c', c' <> c -> shardsOf c' new = [].
Proof using.
  intros H. unfold waitingOf. enough (Hs : shardsOf c new = new /\ concat (eventsOf <$> filter claimable new) = concat pieces /\
    Forall (fun sh => CampaignShard.Status sh <> "publishing") new /\ forall c', c' <> c -> shardsOf c' new = []).
  { destruct Hs as (-> & ? & ?). done. }
  unfold shardsOf. induction H as [|items sh pieces new (Hc & Hcl & Hit) _ (IH1 & IH2 & IH3 & IH4)]; [done|].
  rewrite filter_cons_True, IH1 by done. rewrite filter_cons_True by done. split; [done|]. split; [|split].
  - rewrite fmap_cons. cbn [concat]. rewrite IH2. unfold eventsOf at 1. by rewrite Hit.
  - constructor; [|done]. destruct Hcl as [-> _]. done.
  - intros c' Hne. rewrite filter_cons_False by congruence. by apply IH4.
Qed.

(** What is left of a campaign once its stale shards are gone. *)
Lemma stale_gone c table :
  filter claimable (shardsOf c (filter (fun sh => ~ stale c sh) table)) = [] /\
  Forall (fun sh => CampaignShard.Status sh <> "publishing") (shardsOf c (filter (fun sh => ~ stale c sh) table)) /\
  forall c', c' <> c -> shardsOf c' (filter (fun sh => ~ stale c sh) table) = shardsOf c' table.
Proof using.
  assert (Hin : forall sh, sh ∈ shardsOf c (filter (fun sh => ~ stale c sh) table) ->
    CampaignShard.Status sh <> "pending" /\ CampaignShard.Status sh <> "publishing").
  { intros sh Hsh. unfold shardsOf in Hsh. rewrite !list_elem_of_filter in Hsh. destruct Hsh as (Hc & Hns & _).
    unfold stale in Hns. rewrite !elem_of_cons in Hns. tauto. }
  split_and!.
  - apply elem_of_nil_inv. intros sh [[Hst _] Hsh]%list_elem_of_filter. by apply Hin in Hsh as [? _].
  - rewrite Forall_forall. intros sh Hsh. by apply Hin in Hsh as [_ ?].
  - intros c' Hne. unfold shardsOf. rewrite list_filter_filter. apply filter_ext_in. intros sh _.
    unfold stale. split; [tauto|]. intros <-. split; [done|]. tauto.
Qed.

Lemma recoverCampaign_run shardSize c s :
  0 < shardSize -> tidy s ->
  exists s', recoverCampaign shardSize c (commandsOf c d) s = (Ok tt, s') /\ tidy s' /\
    recovered d c (cp_shards s') /\ forall c', c' <> c -> shardsOf c' (cp_shards s') = shardsOf c' (cp_shards s).
Proof using calm0 uuid_inj uuid_fresh.
  intros Hpos Ht. unfold recoverCampaign. pose proof (tidy_faultless s Ht) as Hf.
  rewrite (run_bind _ _ _ _ _ (run_wrap _ _ _ _ _ (query_cp_run _ _ Hf))).
  rewrite (td_db s Ht). pose proof (tidy_later (S (tick (cp_sys s))) s ltac:(lia) Ht) as Ht1. fold (ticked s) in Ht1.
  change (later (S (tick (cp_sys s))) s) with (ticked s) in Ht1.
  destruct (recoveryEvents_run c (commandsOf c d) (latestPerCard c (card_execution_states d)) (ticked s)) as (events & n & Hrun & Hn & Hev).
  fold (liveCards c (card_execution_states d)) in Hev.
  rewrite (run_bind _ _ _ _ _ Hrun). apply (tidy_later n) in Ht1; [|exact Hn]. set (s1 := later n (ticked s)) in *.
  destruct events as [|e events].
  { exists s1. split; [done|]. split; [done|]. split; [|done]. intros Hlive. by apply Forall2_nil_inv_r in Hev. }
  set (l := e :: events) in *. set (s2 := set_cp_shards (filter (fun sh => ~ stale c sh) (cp_shards s)) (ticked s1)).
  assert (Hdel : writeShards (filter (fun sh => ~ stale c sh)) s1 = (Ok tt, s2)).
  { apply (writeShards_run _ _ (tidy_faultless s1 Ht1)). }
  rewrite (run_bind _ _ _ _ _ (run_wrap _ _ _ _ _ Hdel)).
  assert (Ht2 : tidy s2) by (apply (tidy_filter _ (ticked s1)), (tidy_later (S (tick (cp_sys s1))) s1); [lia | done]).
  rewrite (run_bind _ _ _ _ _ (run_wrap _ _ _ _ _ (readTable_run _ _ (tidy_faultless s2 Ht2)))).
  destruct (recoveryShards_run c (maxSequence c (cp_shards s2) + 1) (chunks (Z.to_nat shardSize) l) (ticked s2)) as (new & s' & Hrun' & Ht' & Hsh & Hnew).
  { apply (tidy_later (S (tick (cp_sys s2)))); [lia | done]. }
  { apply maxSequence_bound. }
  exists s'. split; [exact Hrun'|]. split; [done|].
  change (cp_shards (ticked s2)) with (filter (fun sh => ~ stale c sh) (cp_shards s)) in Hsh.
  destruct (waiting_new c _ _ Hnew) as (Hs1 & Hw & Hp & Ho). destruct (stale_gone c (cp_shards s)) as (G1 & G2 & G3).
  unfold recovered, waitingOf in *. rewrite Hsh. split.
  - intros _. rewrite shardsOf_app, filter_app, fmap_app, concat_app, G1. cbn [fmap list_fmap concat app].
    rewrite Hw, concat_chunks by lia. split; [exact Hev|]. apply Forall_app. split; [exact G2 | by rewrite Hs1].
  - intros c' Hne. rewrite shardsOf_app, Ho, app_nil_r by done. by apply G3.
Qed.

Lemma recoverEach_run shardSize l s :
  0 < shardSize -> NoDup l.*1 -> Forall (fun p => snd p = commandsOf (fst p) d) l -> tidy s ->
  exists s', recoverEach shardSize l s = (Ok tt, s') /\ tidy s' /\
    (forall c, c ∈ l.*1 -> recovered d c (cp_shards s')) /\
    (forall c, c ∉ l.*1 -> shardsOf c (cp_shards s') = shardsOf c (cp_shards s)).
Proof using calm0 uuid_inj uuid_fresh.
  intros Hpos. revert s. induction l as [|[c cmds] l IH]; intros s Hnd Hcmds Ht; cbn [recoverEach].
  { exists s. split; [done|]. split; [done|]. split; [by intros c Hc%not_elem_of_nil | done]. }
  apply NoDup_cons in Hnd as [Hc Hnd]. apply Forall_cons in Hcmds as [Hcmd Hcmds]. cbn [snd fst] in Hcmd. subst cmds.
  destruct (recoverCampaign_run shardSize c s Hpos Ht) as (s1 & Hrun & Ht1 & Hrec & Hoth).
  rewrite (run_bind _ _ _ _ _ (run_ignore _ _ _ _ Hrun I)).
  destruct (IH s1 Hnd Hcmds Ht1) as (s' & Hrun' & Ht' & Hdone & Hrest). exists s'. split; [done|]. split; [done|]. split.
  - intros c' [->|Hin]%elem_of_cons; [|by apply Hdone]. unfold recovered, waitingOf in *. by rewrite Hrest.
  - intros c' [Hne Hn]%not_elem_of_cons. by rewrite Hrest, Hoth.
Qed.
End Recover.

Lemma resetPublishing_fmap {A} (f : CampaignShard.t -> A) at_ table :
  (forall sh, f (resetShard at_ sh) = f sh) -> f <$> resetPublishing at_ table = f <$> table.
Proof.
  intros Hk. unfold resetPublishing. rewrite <- list_fmap_compose. apply list_fmap_ext. intros _ sh _. cbn. by case_bool_decide.
Qed.

Lemma shardsOf_resetPublishing c at_ table : shardsOf c (resetPublishing at_ table) = resetPublishing at_ (shardsOf c table).
Proof.
  unfold shardsOf, resetPublishing. induction table as [|sh table IH]; [done|]. cbn [fmap list_fmap].
  assert (Hc : CampaignShard.CampaignID (if bool_decide (CampaignShard.Status sh = "publishing") then resetShard at_ sh else sh)
                 = CampaignShard.CampaignID sh) by (by case_bool_decide).
  destruct (decide (CampaignShard.CampaignID sh = c)) as [E|E].
  - rewrite !filter_cons_True by congruence. rewrite fmap_cons. f_equal. exact IH.
  - rewrite !filter_cons_False by congruence. exact IH.
Qed.

Lemma runningCampaigns_spec d :
  NoDup (runningCampaigns d).*1 /\ Forall (fun p => snd p = commandsOf (fst p) d) (runningCampaigns d) /\
  forall c, c ∈ (runningCampaigns d).*1 <-> (Campaign.Status <$> campaigns d !! c) = Some "running".
Proof.
  unfold runningCampaigns.
  assert (Hfst : forall l : list (string * Campaign.t), ((fun kv => (fst kv, commandsOf (fst kv) d)) <$> l).*1 = l.*1)
    by (intros l; by rewrite <- list_fmap_compose).
  rewrite Hfst. split_and!.
  - eapply sublist_NoDup; [apply (NoDup_fst_map_to_list (campaigns d)) | apply fmap_sublist, sublist_filter].
  - rewrite Forall_fmap. by apply Forall_true.
  - intros c. rewrite list_elem_of_fmap. split.
    + intros ([c' x] & -> & [Hst Hin]%list_elem_of_filter). apply elem_of_map_to_list in Hin. cbn in *. by rewrite Hin, <- Hst.
    + destruct (campaigns d !! c) as [x|] eqn:E; [|done]. intros [= Hst]. exists (c, x). split; [done|].
      apply list_elem_of_filter. split; [done | by apply elem_of_map_to_list].
Qed.


