(* ===== verification/Completion.v ===== *)
(** * Completion of campaigns

    runCompletionChecker of cmd/ota-engine/main.go: at every tick it looks for
    running campaigns whose counters show nothing pending or in progress and
    closes them.  Its state is [Control]; [completionTick] is the case of the
    ticker. *)

From S2P Require Import Prelude Effects Models Pipeline Store StateWriter StateWriterProps Sql QueryStore QueryStoreProps Executor Planner CampaignControl ControlScenario CampaignProps StartProps.

Definition finalStatus (stats : CampaignStatsRow.t) : string :=
  if (CampaignStatsRow.Completed stats =? 0) && (0 <? CampaignStatsRow.Failed stats) then "failed" else "completed".

Definition closedCampaign (status : string) (at_ : Z) (c : Campaign.t) : Campaign.t :=
  Campaign.mk (Campaign.ID c) status (Campaign.MaxRetries c) (Campaign.ThrottleSMSPerSec c)
    (Campaign.MaxConcatOverride c) (Campaign.StartedAt c) (Some at_) (Campaign.CAPFileID c) (Campaign.ScriptID c) (Campaign.Name c).

(** [Where("id = ? AND status = ?", c.ID, "running").Updates(...)]: whether a row was affected. *)
Definition closeRunning (campaignID status : string) (at_ : Z) : C bool :=
  do! hit <- gets (fun s => bool_decide ((Campaign.Status <$> campaigns (db (cp_sys s)) !! campaignID) = Some "running"));
  do! _ <- exec (set_campaigns (alter (fun c => if bool_decide (Campaign.Status c = "running") then closedCampaign status at_ c else c)
                                  campaignID));
  ret hit.

(** The body of the loop over the running campaigns. *)
Definition checkCampaign (wsHub : bool) (campaignID : string) : C unit :=
  do! row <- try (do! o <- query (fun d => campaign_stats d !! campaignID); first o);
  match row with
  | Panic p => mres (Panic p)
  | Err _ => ret tt
  | Ok stats =>
      if (0 <? CampaignStatsRow.Pending stats) || (0 <? CampaignStatsRow.InProgress stats) then ret tt
      else
        do! now_ <- now;
        do! result <- try (closeRunning campaignID (finalStatus stats) now_);
        match result with
        | Panic p => mres (Panic p)
        | Err _ => ret tt
        | Ok hit => mwhen (hit && wsHub)
            (Broadcast {| WSEvent.Type_ := "campaign_completed"; WSEvent.CampaignID := campaignID;
                          WSEvent.CardID := ""; WSEvent.Data := [("status", VStr (finalStatus stats))] |})
        end
  end.

Fixpoint checkEach (wsHub : bool) (l : list string) : C unit :=
  match l with
  | [] => ret tt
  | c :: l => do! _ <- checkCampaign wsHub c; checkEach wsHub l
  end.

Definition runningIDs (d : Database) : list string :=
  fst <$> filter (fun kv => Campaign.Status (snd kv) = "running") (map_to_list (campaigns d)).

Definition completionTick (wsHub : bool) : C unit :=
  do! found <- try (query runningIDs);
  match found with
  | Ok l => checkEach wsHub l
  | Err _ => ret tt
  | Panic p => mres (Panic p)
  end.

(** ** Safety *)

(** Everything but the campaigns is as before; a campaign is as before, or was running
    with nothing left to do and is now closed. *)
Definition closesOnly (s s' : Control) : Prop :=
  execTables (db (cp_sys s')) = execTables (db (cp_sys s)) /\ cp_shards s' = cp_shards s /\
  forall c, camps s' !! c = camps s !! c \/
    exists stats, campaign_stats (db (cp_sys s)) !! c = Some stats /\
      CampaignStatsRow.Pending stats <= 0 /\ CampaignStatsRow.InProgress stats <= 0 /\
      statusOf s c = Some "running" /\ statusOf s' c = Some (finalStatus stats).

#[local] Instance closesOnly_preorder : PreOrder closesOnly.
Proof.
  split; [intros s; split; [done|]; split; [done | by left]|].
  intros s1 s2 s3 (T1 & S1 & C1) (T2 & S2 & C2). split; [congruence|]. split; [congruence|]. intros c. unfold statusOf in *.
  assert (Hst : campaign_stats (db (cp_sys s2)) = campaign_stats (db (cp_sys s1))) by (by injection T1).
  destruct (C1 c) as [E1|(st1 & R1 & P1 & I1 & A1 & B1)], (C2 c) as [E2|(st2 & R2 & P2 & I2 & A2 & B2)].
  - left. congruence.
  - right. exists st2. rewrite <- Hst, <- E1. done.
  - right. exists st1. rewrite E2. done.
  - exfalso. rewrite B1 in A2. unfold finalStatus in A2. destruct (_ && _) in A2; done.
Qed.

Lemma closesOnly_ask {A} (f : Sys -> nat -> A) : preserves closesOnly (ask f : C A).
Proof. intros s. split; [done|]. split; [done | by left]. Qed.
Lemma closesOnly_query {A} (f : Database -> A) : preserves closesOnly (query f : C A).
Proof. apply preserves_bind; [apply _ | apply closesOnly_ask|]. intros [e|]; [apply preserves_err, _ | apply preserves_gets, _]. Qed.

Lemma queryFirst_inv {A} (f : Database -> option A) (s : Control) r s' :
  try (do! o <- query f; first o) s = (Ok r, s') -> s' = ticked s /\ forall a, r = Ok a -> f (db (cp_sys s)) = Some a.
Proof.
  unfold try, query, bindM, ask. cbn. destruct (sys_fault _ _) as [e|].
  { intros [= <- <-]. by split. }
  cbn. destruct (f (db (cp_sys s))) as [a|]; intros [= <- <-]; (split; [done|]; intros b Hb; congruence).
Qed.

(** The UPDATE, whatever happens: no row, or the running campaign closed. *)
Lemma closeRunning_cases c st at_ s r s' :
  closeRunning c st at_ s = (r, s') ->
  execTables (db (cp_sys s')) = execTables (db (cp_sys s)) /\ cp_shards s' = cp_shards s /\
  (forall c', c' <> c -> camps s' !! c' = camps s !! c') /\
  match r with
  | Ok hit => hit = bool_decide (statusOf s c = Some "running") /\
      if hit then statusOf s' c = Some st else camps s' !! c = camps s !! c
  | Err _ => camps s' !! c = camps s !! c
  | Panic _ => False
  end.
Proof.
  unfold closeRunning, bindM, gets, exec, bindM, ask. cbn. destruct (sys_fault _ _); intros [= <- <-]; [done|].
  split; [done|]. split; [done|]. split; [intros c' Hne; unfold camps; cbn; by rewrite lookup_alter_ne|].
  split; [done|]. unfold statusOf, camps. cbn. rewrite lookup_alter_eq.
  case_bool_decide as Hst; destruct (campaigns (db (cp_sys s)) !! c) as [x|]; try done; cbn in *.
  - injection Hst as Hst. by rewrite (bool_decide_true _ Hst).
  - rewrite bool_decide_false by congruence. done.
Qed.

Lemma closesOnly_check wsHub c : preserves closesOnly (checkCampaign wsHub c).
Proof.
  intros s. unfold checkCampaign, bindM at 1. destruct (try _ s) as [[row|e|p] s1] eqn:E.
  2: { revert E. unfold try, query, bindM, ask. cbn. destruct (sys_fault _ _); [done|]. cbn. by destruct (campaign_stats _ !! c). }
  2: { revert E. unfold try, query, bindM, ask. cbn. destruct (sys_fault _ _); [done|]. cbn. by destruct (campaign_stats _ !! c). }
  apply queryFirst_inv in E as [-> Hrow]. assert (Ht : closesOnly s (ticked s)) by (split; [done|]; split; [done | by left]).
  destruct row as [stats|e|p]; [|exact Ht..]. specialize (Hrow stats eq_refl).
  destruct (0 <? CampaignStatsRow.Pending stats) eqn:Hp, (0 <? CampaignStatsRow.InProgress stats) eqn:Hi; cbn [orb]; try exact Ht.
  apply Z.ltb_ge in Hp, Hi. unfold now, bindM, ask. set (at_ := sys_now _ _). set (s2 := set_sys _ (ticked s)).
  unfold try. destruct (closeRunning c (finalStatus stats) at_ s2) as [r s3] eqn:Ec.
  apply closeRunning_cases in Ec as (T & S & Ho & Hr).
  assert (Hoth : forall c', c' <> c -> camps s3 !! c' = camps s !! c') by (intros c' Hne; by rewrite Ho).
  destruct r as [hit|e|p]; [|split; [done|]; split; [done|]; intros c'; left; destruct (decide (c' = c)) as [->|]; [exact Hr | by apply Hoth]|done].
  destruct Hr as [-> Hr]. assert (Hs3 : closesOnly s s3).
  { split; [done|]. split; [done|]. intros c'. destruct (decide (c' = c)) as [->|]; [|left; by apply Hoth].
    case_bool_decide as Hst; [|by left]. right. by exists stats. }
  destruct (bool_decide _ && wsHub); cbn; [|exact Hs3]. exact Hs3.
Qed.

Lemma closesOnly_tick wsHub : preserves closesOnly (completionTick wsHub).
Proof.
  apply preserves_bind; [apply _ | apply preserves_try, closesOnly_query|]. intros [l|e|p]; [|apply preserves_ret, _ | apply preserves_res, _].
  induction l as [|c l IH]; cbn [checkEach]; [apply preserves_ret, _|].
  apply preserves_bind; [apply _ | apply closesOnly_check | done].
Qed.

(** Nothing counted as pending or in progress: every card's state is final. *)
Lemma counted_terminal l r :
  CampaignStatsRow.Pending (rowFor l) <= 0 -> CampaignStatsRow.InProgress (rowFor l) <= 0 -> r ∈ l ->
  terminal (CardExecutionState.Status r).
Proof.
  intros Hp Hi Hr. assert (Hnone : forall col, countCol col l <= 0 -> colOf r <> col).
  { intros col Hc E. unfold countCol, zlen in Hc. assert (Hin : r ∈ filter (fun r => colOf r = col) l) by (by apply list_elem_of_filter).
    destruct (filter _ l); [by apply not_elem_of_nil in Hin | cbn in Hc; lia]. }
  apply Hnone in Hp. apply Hnone in Hi. revert Hp Hi. unfold colOf, statusColumnOrPending, statusColumn, terminal.
  repeat case_bool_decide; try done; intros _ _; match goal with H : CardExecutionState.Status r = _ |- _ => rewrite H end; set_solver.
Qed.


(** ** Progress *)

(** A campaign whose counters show nothing left is closed by the next tick. *)
Lemma checkCampaign_run wsHub c s :
  faultless (cp_sys s) ->
  exists s', checkCampaign wsHub c s = (Ok tt, s') /\ evolves (cp_sys s) (cp_sys s') /\
    execTables (db (cp_sys s')) = execTables (db (cp_sys s)) /\
    (forall c', c' <> c -> camps s' !! c' = camps s !! c') /\
    statusOf s' c = match campaign_stats (db (cp_sys s)) !! c with
                    | Some stats => if (0 <? CampaignStatsRow.Pending stats) || (0 <? CampaignStatsRow.InProgress stats) then statusOf s c
                                    else if bool_decide (statusOf s c = Some "running") then Some (finalStatus stats) else statusOf s c
                    | None => statusOf s c
                    end.
Proof.
  intros Hf. unfold checkCampaign.
  assert (Hq : try (do! o <- query (fun d => campaign_stats d !! c); first o) s
    = (Ok (match campaign_stats (db (cp_sys s)) !! c with Some x => Ok x | None => Err ErrRecordNotFound end), ticked s)).
  { unfold try. rewrite (run_bind _ _ _ _ _ (query_cp_run _ _ Hf)). by destruct (campaign_stats _ !! c). }
  rewrite (run_bind _ _ _ _ _ Hq). pose proof (ticked_evolves s) as He.
  destruct (campaign_stats (db (cp_sys s)) !! c) as [stats|]; [|by exists (ticked s)].
  destruct (_ || _) eqn:Eb; [by exists (ticked s)|].
  rewrite (run_bind now _ _ (sys_now (cp_sys s) (S (tick (cp_sys s)))) (ticked (ticked s))) by done. set (at_ := sys_now _ _).
  unfold bindM at 1, try. destruct (closeRunning c (finalStatus stats) at_ (ticked (ticked s))) as [r s1] eqn:Ec.
  assert (He1 : evolves (cp_sys s) (cp_sys s1) /\ is_ok r = true).
  { revert Ec. unfold closeRunning, bindM, gets, exec, bindM, ask. cbn. rewrite Hf. intros [= <- <-]. split; [|done].
    eexists _, _. split; [|reflexivity]. cbn. lia. }
  destruct He1 as [He1 Hok]. apply closeRunning_cases in Ec as (T & _ & Ho & Hr). destruct r as [hit|e|p]; [|done..].
  destruct Hr as [-> Hr]. change (statusOf (ticked (ticked s)) c) with (statusOf s c) in Hr |- *.
  destruct (bool_decide (statusOf s c = Some "running")); destruct wsHub; cbn [andb mwhen];
    (eexists; split; [reflexivity|]; split; [exact He1|]; split; [exact T|]; split; [exact Ho|]);
    (exact Hr || (unfold statusOf; by rewrite Hr)).
Qed.

(** The status after the checker looked at a campaign. *)
Definition closedStatus (d : Database) (c : string) : option string :=
  match Campaign.Status <$> campaigns d !! c, campaign_stats d !! c with
  | Some st, Some stats =>
      if bool_decide (st = "running") && negb ((0 <? CampaignStatsRow.Pending stats) || (0 <? CampaignStatsRow.InProgress stats))
      then Some (finalStatus stats) else Some st
  | o, _ => o
  end.

Lemma checkEach_run wsHub l s :
  faultless (cp_sys s) -> NoDup l ->
  exists s', checkEach wsHub l s = (Ok tt, s') /\ evolves (cp_sys s) (cp_sys s') /\
    forall c, statusOf s' c = if bool_decide (c ∈ l) then closedStatus (db (cp_sys s)) c else statusOf s c.
Proof.
  revert s. induction l as [|c l IH]; intros s Hf Hnd; cbn [checkEach].
  { exists s. split; [done|]. split; [done|]. intros c. by rewrite bool_decide_false by apply not_elem_of_nil. }
  apply NoDup_cons in Hnd as [Hc Hnd]. destruct (checkCampaign_run wsHub c s Hf) as (s1 & Hrun & He & T & Ho & Hst).
  rewrite (run_bind _ _ _ _ _ Hrun). destruct (IH s1) as (s' & Hrun' & He' & Hall); [by apply (evolves_faultless (cp_sys s)) | done|].
  exists s'. split; [done|]. split; [by etrans|]. intros c'. rewrite Hall. injection T as _ T. destruct (decide (c' = c)) as [->|Hne].
  - rewrite bool_decide_false, bool_decide_true by (done || by left). rewrite Hst. unfold closedStatus, statusOf, camps.
    destruct (campaigns (db (cp_sys s)) !! c) as [x|]; cbn; [|by destruct (campaign_stats _ !! c); [case_match|]].
    destruct (campaign_stats (db (cp_sys s)) !! c) as [stats|]; [|done]. destruct (_ || _); [by rewrite andb_false_r|]. cbn [negb]. rewrite andb_true_r.
    repeat case_bool_decide; done || congruence.
  - rewrite (bool_decide_ext (c' ∈ c :: l) (c' ∈ l)) by set_solver.
    unfold closedStatus, statusOf, camps in *. by rewrite T, Ho.
Qed.

(** One tick without faults looks at every running campaign. *)
Lemma completionTick_run wsHub s :
  faultless (cp_sys s) ->
  exists s', completionTick wsHub s = (Ok tt, s') /\ evolves (cp_sys s) (cp_sys s') /\
    forall c, statusOf s' c = closedStatus (db (cp_sys s)) c.
Proof.
  intros Hf. unfold completionTick.
  assert (Hq : try (query runningIDs) s = (Ok (Ok (runningIDs (db (cp_sys s)))), ticked s)) by (unfold try; by rewrite (query_cp_run _ _ Hf)).
  rewrite (run_bind _ _ _ _ _ Hq). destruct (checkEach_run wsHub (runningIDs (db (cp_sys s))) (ticked s) Hf) as (s' & Hrun & He & Hall).
  { eapply sublist_NoDup; [apply (NoDup_fst_map_to_list (campaigns (db (cp_sys s)))) | apply fmap_sublist, sublist_filter]. }
  exists s'. split; [done|]. split; [etrans; [apply ticked_evolves | exact He]|]. intros c. rewrite Hall. change (db (cp_sys (ticked s))) with (db (cp_sys s)).
  case_bool_decide as Hin; [done|]. unfold closedStatus, statusOf, camps. change (db (cp_sys (ticked s))) with (db (cp_sys s)).
  destruct (campaigns (db (cp_sys s)) !! c) as [x|] eqn:E; [|done]. cbn [fmap option_fmap option_map].
  destruct (campaign_stats _ !! c) as [stats|]; [|done]. rewrite bool_decide_false; [done|]. intros Hst. apply Hin.
  apply list_elem_of_fmap. exists (c, x). split; [done|]. apply list_elem_of_filter. split; [done | by apply elem_of_map_to_list].
Qed.

(** Completion is prompt.  In a run without faults, one tick closes exactly the running campaigns whose counters show nothing
    pending and nothing in progress: failed when none completed and some failed, completed otherwise. *)
Theorem completion_tick_exact wsHub s :
  faultless (cp_sys s) ->
  exists s', completionTick wsHub s = (Ok tt, s') /\ forall c, statusOf s' c = closedStatus (db (cp_sys s)) c.
Proof. intros Hf. destruct (completionTick_run wsHub s Hf) as (s' & Hrun & _ & Hall). eauto. Qed.

(** ** With the card state writer *)

(** What the worker reports of the cards of a campaign: activations, and the end of a card in progress. *)
Definition reports (c : string) (ev : CardStateChange.t) : Prop :=
  (exists event msgID ts, CardEvent.CampaignID event = c /\ ev = activateChange event msgID ts) \/
  (exists card status retries err ts seq to_, to_ ∈ ["completed"; "failed"] /\
     ev = terminalChange c card status retries err ts seq "in_progress" to_).

Definition activations (events : list CardStateChange.t) : Z :=
  zlen (filter (fun ev => CardStateChange.StatsFrom ev = "pending") events).
Definition endings (events : list CardStateChange.t) : Z :=
  zlen (filter (fun ev => CardStateChange.StatsFrom ev <> "pending") events).

Lemma reports_inProgress c events :
  Forall (reports c) events -> d_inProgress (netDelta c events) = activations events - endings events.
Proof.
  unfold activations, endings. induction 1 as [|ev events Hev _ IH]; [done|]. cbn [netDelta]. rewrite !filter_cons.
  assert (Hplus : forall a b, d_inProgress (dplus a b) = d_inProgress a + d_inProgress b) by done. rewrite Hplus, IH.
  destruct Hev as [(event & msgID & ts & Hc & ->)|(card & status & retries & err & ts & seq & to_ & Hto & ->)].
  - rewrite bool_decide_true by done. rewrite decide_True, decide_False by (done || tauto). rewrite zlen_cons.
    change (d_inProgress (evDelta _)) with 1. lia.
  - rewrite bool_decide_true by done. rewrite decide_False, decide_True by done. rewrite zlen_cons.
    apply elem_of_cons in Hto as [->|Hto%list_elem_of_singleton]; subst; change (d_inProgress (evDelta _)) with (-1); lia.
Qed.

Fixpoint completionTicks (wsHub : bool) (n : nat) : C unit :=
  match n with
  | O => ret tt
  | S n => do! _ <- completionTick wsHub; completionTicks wsHub n
  end.

(** A second activation keeps a campaign open for ever.  Every activation is counted as a move from pending to in progress,
    the end of a card as one move out of in progress.  When the worker's reports hold more activations
    than endings (a card with two commands, or a retried one, suffices), the counters the writer leaves show cards in
    progress although every card may be done, and no number of ticks of the completion checker
    changes the campaign's status, whatever the environment does. *)
Theorem extra_activation_blocks_completion parse pgxConn cfg y cases c row wsHub n s :
  faultless y -> Forall (canonical parse) (received cases) -> existsb ends cases = true -> Forall (reports c) (received cases) ->
  campaign_stats (db y) !! c = Some row -> CampaignStatsRow.InProgress row = 0 ->
  endings (received cases) < activations (received cases) ->
  db (cp_sys s) = db (wr_sys (RunCardStateWriter parse pgxConn cfg y cases)) ->
  statusOf (snd (completionTicks wsHub n s)) c = statusOf s c.
Proof.
  intros Hf Hcan Hend Hrep Hrow Hzero Hmore Hdb.
  destruct (RunCardStateWriter_counts parse pgxConn cfg y cases Hf Hcan Hend) as (_ & _ & _ & Hstats).
  specialize (Hstats c). rewrite Hrow, <- Hdb in Hstats.
  assert (Hgo : preserves closesOnly (completionTicks wsHub n)).
  { clear. induction n as [|n IH]; cbn [completionTicks]; [apply preserves_ret, _|].
    apply preserves_bind; [apply _ | apply closesOnly_tick | done]. }
  destruct (Hgo s) as (_ & _ & Hc). destruct (Hc c) as [E|(stats & Hst & _ & Hi & _)]; [unfold statusOf; by rewrite E|].
  rewrite Hst in Hstats. injection Hstats as ->. cbn in Hi. rewrite (reports_inProgress c _ Hrep) in Hi. lia.
Qed.

(** *** Witnesses *)

Module CompletionWitness.
Import ControlScenario.
Definition history : list CardExecutionState.t := [row "card-1" "completed" 0 2; row "card-2" "failed" 0 2].
Definition s0 : Control := control (database "running" history {[ "camp-1" := stats 0 0 1 1 ]}) [].
Definition s1 : Control := snd (completionTick true s0).

(** One card, activated for each of two commands and then completed. *)
Definition y : Sys := quiet_sys (database "running" [] {[ "camp-1" := stats 1 0 0 0 ]}).
Definition activation (step : Z) : CardStateChange.t :=
  activateChange (CardEvent.activate "ev" "card-1" "camp-1" step 0 0) "msg" 0.
Definition cases : list select_case :=
  [Recv (activation 1); Recv (activation 2);
   Recv (terminalChange "camp-1" "card-1" "completed" 0 "" 0 2 "in_progress" "completed"); Tick; Closed].
Definition cfg : CardStateWriterConfig := {| MaxBatch := 500; FlushInterval := 100 |}.
Definition s2 : Control := control (db (wr_sys (RunCardStateWriter parse true cfg y cases))) [].
End CompletionWitness.


Lemma completion_tick_exact_witness :
  (exists s', completionTick true CompletionWitness.s0 = (Ok tt, s') /\
     forall c, statusOf s' c = closedStatus (db (cp_sys CompletionWitness.s0)) c) /\
  closedStatus (db (cp_sys CompletionWitness.s0)) "camp-1" = Some "completed" /\
  closedStatus (db (cp_sys CompletionWitness.s0)) "camp-2" = Some "pending".
Proof. split; [|by vm_compute]. apply (completion_tick_exact true CompletionWitness.s0). done. Defined.

Lemma extra_activation_blocks_completion_witness :
  statusOf (snd (completionTicks true 1000 CompletionWitness.s2)) "camp-1" = Some "running" /\
  campaign_stats (db (cp_sys CompletionWitness.s2)) !! "camp-1" = Some (CampaignStatsRow.mk 1 (-1) 1 1 0 0).
Proof.
  split; [|by vm_compute].
  change (Some "running") with (statusOf CompletionWitness.s2 "camp-1").
  eapply (extra_activation_blocks_completion ControlScenario.parse true CompletionWitness.cfg CompletionWitness.y
            CompletionWitness.cases "camp-1" (ControlScenario.stats 1 0 0 0)).
  - done.
  - by repeat constructor.
  - done.
  - apply Forall_cons_2; [left; by exists (CardEvent.activate "ev" "card-1" "camp-1" 1 0 0), "msg", 0|].
    apply Forall_cons_2; [left; by exists (CardEvent.activate "ev" "card-1" "camp-1" 2 0 0), "msg", 0|].
    apply Forall_cons_2; [|by constructor]. right.
    exists "card-1", "completed", 0, "", 0, 2, "completed". by split; [left|].
  - done.
  - done.
  - done.
  - done.
Defined.
