(* ===== verification/EndToEnd.v ===== *)
(** * A campaign from its first activation to its completion

    The worker, the card state writer and the completion checker together: each card of
    a campaign with one command is activated, its message is delivered, and its proof of
    receipt comes back; the writer receives the workers' state changes in some order,
    cut into batches by its size limit and its ticker; the completion checker
    looks at the counters. *)

From S2P Require Import Prelude Effects Models Pipeline Store HexUtil Crypto Gsm0348 SmsFrame ShardedCache Executor Scenario ExecutorLogic ExecutorProps ActivateProps StateWriter StateWriterProps Sql QueryStore QueryStoreProps Planner CampaignControl ControlScenario CampaignProps StartProps Completion.

(** ** One card *)

Section Conversation.
Context {S C : Type} `{!CoordinationStore S, !CoordinationLaws S, !CounterStore C, !CounterLaws C}.
Context (cfg : Config).
Abbreviation World := (World S C).

(** The three events of a card, and what the worker has at hand for it. *)
Record session := mkSession {
  se_activate : CardEvent.t;
  se_dlr : CardEvent.t;
  se_mo : CardEvent.t;
  se_world : World;
  se_cec : campaignExecutionContext;
  se_cmd : CampaignCommandCache.t;
  se_keys : CardKeyMaterial.t;
  se_profile : Profile.t;
  se_packet : list Z;
  se_payload : list Z;
  se_resp : ResponsePacket
}.

Definition se_card (s : session) : string := CardEvent.CardID (se_activate s).
Definition se_counter (s : session) : Z :=
  counter_of (w_counter (se_world s)) (se_card s) (CampaignCommandCache.ApplicationID (se_cmd s)).

Record session_ok (c : string) (s : session) : Prop := {
  so_campaign : CardEvent.CampaignID (se_activate s) = c;
  so_running : status_cached (se_world s) c "running";
  so_ready : ready (se_activate s) (se_world s) (se_cec s) (se_cmd s) (se_keys s) (se_profile s);
  so_unthrottled : CampaignParams.ThrottleSMSPerSec (cec_params (se_cec s)) = None;
  so_uncancelled : uncancelled (se_world s);
  so_bytes : command_bytes_ok (se_cmd s) (se_keys s);
  so_mode : CampaignCommandCache.Ciphered (se_cmd s) = false \/ CampaignCommandCache.KIcMode (se_cmd s) <> "AES_CBC";
  so_packet : BuildCommandPacket (buildSecProfileFromCache (se_cmd s))
                (packetInput cfg (se_activate s) (se_cmd s) (se_keys s) (counterBytes (se_counter s))) = Ok (se_packet s);
  so_short : zlen (se_packet s) < 65538;
  so_split : split_ok (se_packet s) (Profile.BufferSize (se_profile s)) (max_concat (se_cec s) (se_profile s)) = true;
  so_expects : CampaignCommandCache.ExpectResponse (se_cmd s) = true;
  so_last : nextStepLoop (CardEvent.Step (se_activate s)) (-1) (cec_commands (se_cec s)) = -1;
  so_dlr : CardEvent.CardID (se_dlr s) = se_card s /\ CardEvent.CampaignID (se_dlr s) = c /\ CardEvent.DLRStatus (se_dlr s) = "DELIVRD";
  so_mo : CardEvent.CardID (se_mo s) = se_card s /\ (CardEvent.CampaignID (se_mo s) = "" \/ CardEvent.CampaignID (se_mo s) = c);
  so_payload : Decode (CardEvent.PayloadHex (se_mo s)) = Ok (se_payload s);
  so_resp : ParseResponsePacket (buildSecProfileFromCache (se_cmd s)) (se_payload s) (CardKeyMaterial.EncKey (se_keys s))
              (CardKeyMaterial.AuthKey (se_keys s)) = Ok (se_resp s) /\ resp_StatusCode (se_resp s) = RespOK
}.

(** The worker handles the events one after the other. *)
Definition converse (s : session) : res unit * World :=
  (do! _ <- handleActivate cfg (se_activate s); do! _ <- handleDLR cfg (se_dlr s); handleMO cfg (se_mo s)) (se_world s).

Definition stateChange (e : effect) : option CardStateChange.t := match e with EState ev => Some ev | _ => None end.
Definition changesOf (w : World) : list CardStateChange.t := omap stateChange (ctl w).

(** What the worker told the writer during a conversation. *)
Definition reported (s : session) : list CardStateChange.t :=
  drop (length (changesOf (se_world s))) (changesOf (snd (converse s))).

Lemma view_no_evict_keys (w w' : World) h t : view w w' h t -> (forall c, EEvict c ∉ t) -> cardKeyCache w' = cardKeyCache w.
Proof. intros [_ _ _ _ [[_ H] | [c Hc]]] Hn; [done | by apply Hn in Hc]. Qed.

(** The messages and changes of a conversation, in order. *)
Definition conversation_effects (s : session) (p : prepared) (msgID : string) (ts at_ : Z) : list effect :=
  let st := activateStateOf (se_activate s) msgID in
  activation_effects (se_activate s) p msgID ts ++
  [ESetCardState (se_card s) (awaiting_mo st);
   ESetCardState (se_card s) (completedState (CardEvent.CampaignID (se_activate s)) 3);
   EState (terminalChange (CardEvent.CampaignID (se_activate s)) (se_card s) "completed" 0 "" at_ 3 "in_progress" "completed");
   EEvict (se_card s)].

Lemma converse_runs c s :
  hasCardState cfg = true -> cryptoProvider cfg = None -> session_ok c s ->
  exists w' p msgID ts at_, converse s = (Ok tt, w') /\
    ctl w' = ctl (se_world s) ++ conversation_effects s p msgID ts at_ /\
    delivers (se_keys s) (se_cmd s) (se_profile s) (se_counter s) (smsMsgOf (se_activate s) p msgID).
Proof.
  intros Hcs Hprov [Hc Hrun Hr Hth Hu Hby Hmode Hpk Hsh Hsp Hex Hlast (Hd1 & Hd2 & Hd3) (Hm1 & Hm2) Hpay [Hresp Hok]].
  destruct (activation_runs cfg (se_activate s) (se_cec s) (se_cmd s) (se_keys s) (se_profile s) (se_packet s) (se_world s))
    as (w0 & w1 & msgID & ts & p & Ha & Hcd & Hp & Hv1); [by rewrite Hc | done..|].
  assert (Hdel : delivers (se_keys s) (se_cmd s) (se_profile s) (se_counter s) (smsMsgOf (se_activate s) p msgID)).
  { eapply prepares_delivers; [done | done | done | | exact Hp]. destruct Hp as (_ & Hb & _).
    pose proof (eq_trans (eq_sym Hpk) Hb) as [= <-]. done. }
  destruct Hcd as (n & k & -> & _). destruct Hr as [Hctx Hcmd Hkeys _].
  set (w0 := set_w_sys _ _) in Hv1. set (st := activateStateOf (se_activate s) msgID) in *.
  assert (Hctx1 : context_cached w1 c (se_cec s)) by (rewrite <- Hc; eapply view_context; [exact Hv1 | exact Hctx]).
  assert (Hu1 : uncancelled w1) by (eapply view_uncancelled; [exact Hv1 | exact Hu]).
  assert (Hk1 : cardKeyCache w1 = cardKeyCache (se_world s)) by (rewrite (view_no_evict_keys _ _ _ _ Hv1) by set_solver; done).
  assert (Hh1 : hot_of w1 !! CardEvent.CardID (se_dlr s) = Some st) by (rewrite (view_hot _ _ _ _ Hv1), Hd1; apply lookup_insert_eq).
  destruct (handleDLR_enacts cfg (se_dlr s) st (se_cec s) w1) as (w2 & Hb & Hen); [done | by rewrite Hd2 | done | done |].
  assert (Hverdict : dlr_verdict (se_cec s) st (se_dlr s) = AwaitMO).
  { unfold dlr_verdict, expects_response. rewrite Hd3. cbn. rewrite Hcmd, Hex. done. }
  rewrite Hverdict, Hd1, Hd2 in Hen. cbn [enacts] in Hen.
  assert (Hctx2 : context_cached w2 c (se_cec s)) by (eapply view_context; [exact Hen | exact Hctx1]).
  assert (Hmc : CardEvent.CampaignID (mo_event (awaiting_mo st) (se_mo s)) = c).
  { unfold mo_event. destruct Hm2 as [Hm2|Hm2]; rewrite Hm2; case_bool_decide as E; [exact Hc | done | by rewrite E in Hm2; cbn; rewrite Hc | exact Hm2]. }
  destruct (handleMO_enacts cfg (se_mo s) (awaiting_mo st) (se_keys s) (se_payload s) (se_cec s) (se_cmd s) (se_resp s) w2)
    as (w3 & Hm & Hen3); [ | by left | | done | by rewrite Hmc | exact Hcmd | done | by eapply view_uncancelled | done |].
  { rewrite (view_hot _ _ _ _ Hen), Hm1. apply lookup_insert_eq. }
  { rewrite (view_no_evict_keys _ _ _ _ Hen), Hk1, Hm1 by set_solver. exact Hkeys. }
  assert (Hv3 : mo_verdict (se_cec s) (awaiting_mo st) (resp_StatusCode (se_resp s)) = Complete).
  { unfold mo_verdict, after_step. rewrite Hok. cbn. by rewrite Hlast. }
  rewrite Hv3, Hmc, Hm1 in Hen3. destruct Hen3 as (at_ & Hen3).
  exists w3, p, msgID, ts, at_. split; [|split; [|exact Hdel]].
  - unfold converse, bindM. by rewrite Ha, Hb, Hm.
  - rewrite (view_ctl _ _ _ _ Hen3), (view_ctl _ _ _ _ Hen), (view_ctl _ _ _ _ Hv1). unfold conversation_effects. rewrite Hc.
    rewrite <- !app_assoc. done.
Qed.

Lemma reported_changes c s :
  hasCardState cfg = true -> cryptoProvider cfg = None -> session_ok c s ->
  exists msgID ts at_, reported s =
    [activateChange (se_activate s) msgID ts; terminalChange c (se_card s) "completed" 0 "" at_ 3 "in_progress" "completed"].
Proof.
  intros Hcs Hprov Hs. destruct (converse_runs c s Hcs Hprov Hs) as (w' & p & msgID & ts & at_ & Hrun & Hctl & _).
  exists msgID, ts, at_. unfold reported, changesOf. rewrite Hrun. cbn [snd]. rewrite Hctl, omap_app, drop_app_length.
  unfold conversation_effects. by rewrite (so_campaign _ _ Hs).
Qed.
End Conversation.

(** ** All cards *)

(** The counters do not depend on the order in which the changes arrive. *)
Lemma netDelta_perm c l1 l2 : l1 ≡ₚ l2 -> netDelta c l1 = netDelta c l2.
Proof.
  induction 1 as [|x l1 l2 _ IH|x y l|l1 l2 l3 _ IH1 _ IH2]; [done | cbn; by rewrite IH | | congruence].
  cbn. by rewrite <- !dplus_assoc, (dplus_comm (if bool_decide (CardStateChange.CampaignID y = c) then _ else _)).
Qed.

(** A card that went from pending over in progress to completed. *)
Definition conversed (c : string) (l : list CardStateChange.t) : Prop :=
  exists event msgID ts card at_, CardEvent.CampaignID event = c /\
    l = [activateChange event msgID ts; terminalChange c card "completed" 0 "" at_ 3 "in_progress" "completed"].

Lemma netDelta_conversed c ls :
  Forall (conversed c) ls ->
  netDelta c (concat ls) = {| d_pending := - zlen ls; d_inProgress := 0; d_completed := zlen ls; d_failed := 0; d_skipped := 0 |}.
Proof.
  induction 1 as [|l ls (event & msgID & ts & card & at_ & Hc & ->) _ IH]; [done|].
  cbn [concat]. rewrite netDelta_app, IH. cbn [netDelta]. rewrite !bool_decide_true by done. rewrite zlen_cons.
  change (evDelta (activateChange _ _ _)) with {| d_pending := -1; d_inProgress := 1; d_completed := 0; d_failed := 0; d_skipped := 0 |}.
  change (evDelta (terminalChange _ _ _ _ _ _ _ _ _)) with {| d_pending := 0; d_inProgress := -1; d_completed := 1; d_failed := 0; d_skipped := 0 |}.
  unfold dplus, zeroDelta. cbn. f_equal; lia.
Qed.


(** *** Witness: two cards, their reports interleaved by the writer's channel. *)

Module EndToEndWitness.
Import Scenario.

Definition context1 : campaignExecutionContext := {|
  cec_commands := [cmd1]; cec_commandByStep := {[ 1 := cmd1 ]}; cec_params := cec_params (context None); cec_cachedAt := 0 |}.

Definition world1 (card : string) : World Coordination.t Counters.t := {|
  w_sys := quiet_sys empty_db; w_store := store ∅;
  w_counter := {| Counters.counters := {[ card +:+ ":app-1" := 41 ]}; Counters.cardApps := {[ card := ["app-1"] ]} |};
  campaignCache := {[ "camp-1" := context1 ]};
  campaignStatusCache := {[ "camp-1" := {| cst_status := "running"; cst_cachedAt := 0 |} ]};
  cardKeyCache := ShardedCache.Store card keys newShardedCache;
  retrySem := 0; w_retries := []; w_trace := []; w_logp := {| LogProducer.dropped := 0; LogProducer.disabled := false |} |}.

Definition of_card (card : string) (e : CardEvent.t) : CardEvent.t := {|
  CardEvent.Type_ := CardEvent.Type_ e; CardEvent.EventID := CardEvent.EventID e; CardEvent.CardID := card;
  CardEvent.CampaignID := CardEvent.CampaignID e; CardEvent.Step := CardEvent.Step e; CardEvent.RetryCount := CardEvent.RetryCount e;
  CardEvent.MsgID := CardEvent.MsgID e; CardEvent.SMPPMessageID := CardEvent.SMPPMessageID e; CardEvent.DLRStatus := CardEvent.DLRStatus e;
  CardEvent.ErrorCode := CardEvent.ErrorCode e; CardEvent.SourceMSISDN := CardEvent.SourceMSISDN e;
  CardEvent.PayloadHex := CardEvent.PayloadHex e; CardEvent.Timestamp := CardEvent.Timestamp e |}.

Definition session1 (card : string) : session (S := Coordination.t) (C := Counters.t) := {|
  se_activate := of_card card activate; se_dlr := of_card card (dlr "DELIVRD" 0); se_mo := of_card card mo; se_world := world1 card;
  se_cec := context1; se_cmd := cmd1; se_keys := keys; se_profile := profile; se_packet := packet;
  se_payload := response_bytes receipt (resp_Data receipt); se_resp := receipt |}.

Definition sessions := [session1 "card-1"; session1 "card-2"].
Definition changes (card : string) : list CardStateChange.t := reported cfg (session1 card).
Definition cases : list select_case :=
  match changes "card-1", changes "card-2" with
  | [a1; b1], [a2; b2] => [Recv a2; Tick; Recv a1; Recv b2; Tick; Recv b1; Closed]
  | _, _ => []
  end.
Definition y : Sys := quiet_sys (ControlScenario.database "running" [] {[ "camp-1" := ControlScenario.stats 2 0 0 0 ]}).
Definition wcfg : CardStateWriterConfig := {| MaxBatch := 500; FlushInterval := 100 |}.
Definition s : Control := ControlScenario.control (db (wr_sys (RunCardStateWriter ControlScenario.parse true wcfg y cases))) [].

Lemma control_db d shards : db (cp_sys (ControlScenario.control d shards)) = d.
Proof. reflexivity. Qed.

Lemma session1_ok card : card ∈ ["card-1"; "card-2"] -> session_ok cfg "camp-1" (session1 card).
Proof.
  intros Hc. assert (Hkeys : Load card (cardKeyCache (world1 card)) = Some keys).
  { rewrite !elem_of_cons, elem_of_nil in Hc. destruct Hc as [->|[->|[]]]; by vm_compute. }
  assert (Hpk : BuildCommandPacket (buildSecProfileFromCache cmd1)
    (packetInput cfg (of_card card activate) cmd1 keys (counterBytes (se_counter (session1 card)))) = Ok packet).
  { rewrite !elem_of_cons, elem_of_nil in Hc. destruct Hc as [->|[->|[]]]; by vm_compute. }
  split.
  - reflexivity.
  - eexists. split; [apply lookup_singleton_eq|]. split; [reflexivity|]. intros n. by vm_compute.
  - split; [|reflexivity | exact Hkeys | reflexivity]. split; [apply lookup_singleton_eq|]. intros n. by vm_compute.
  - reflexivity.
  - intros n. reflexivity.
  - exact scenario_bytes.
  - by right.
  - exact Hpk.
  - by vm_compute.
  - by vm_compute.
  - reflexivity.
  - by vm_compute.
  - repeat split.
  - split; [reflexivity | by left].
  - vm_compute. reflexivity.
  - split; vm_compute; reflexivity.
Qed.

(** The channel delivers the reports of both cards, interleaved. *)
Lemma cases_received : received cases ≡ₚ concat (reported cfg <$> sessions).
Proof.
  destruct (reported_changes cfg "camp-1" (session1 "card-1")) as (m1 & t1 & u1 & E1); [done | done | apply session1_ok; by left|].
  destruct (reported_changes cfg "camp-1" (session1 "card-2")) as (m2 & t2 & u2 & E2); [done | done | apply session1_ok; by right; left|].
  unfold cases, changes, sessions. cbn [fmap list_fmap]. rewrite E1, E2. cbn [received concat app].
  match goal with |- ?a2 :: ?a1 :: ?b2 :: [?b1] ≡ₚ _ =>
    rewrite (perm_swap a1 a2 (b2 :: [b1])); apply perm_skip; exact (Permutation_app_comm [a2; b2] [b1]) end.
Qed.
End EndToEndWitness.

