(* ===== verification/BatchPreload.v ===== *)
(** * internal/pgstore/batch_preload.go

    Before the planner publishes the events of a shard, the batch preloader
    fills the process-local caches of the executor for the shard's cards: keys,
    numbers and counters.  It implements the interface [PreloadShard] of the
    planner.  [caches] is what it writes: the table card_counters, the counter
    store, the worker's key cache, the MSISDN resolver and its own cache of campaign data.

    [parse] is [uuid.Parse] followed by [String]; [groupOrder] is the order in which the
    database returns the groups of a query without ORDER BY; [msisdnCache] says whether
    a resolver is present. *)

From S2P Require Import Prelude Effects Models Pipeline Store StateWriter StateWriterProps Sql Crypto Gsm0348 ShardedCache Executor Planner.

Record campaignCommandMeta := { applicationID : string; stepCount : Z }.

Record caches := mkCaches {
  card_counters : gmap (string * string) Z;
  counterStore : Counters.t;
  keyCache : list (gmap string CardKeyMaterial.t);
  msisdns : MSISDNResolver.t;
  campaignMeta : gmap string campaignCommandMeta
}.

Section BatchPreloader.
Context (parse : string -> option string) (groupOrder : list string -> list string) (msisdnCache : bool).

Abbreviation B := (M (Sys * caches)).

Definition upd (f : caches -> caches) : B unit := modify (fun p => (fst p, f (snd p))).

(** A statement on card_counters. *)
Definition execCounters (f : gmap (string * string) Z -> gmap (string * string) Z) : B unit :=
  do! fault <- ask sys_fault;
  match fault with
  | Some e => merr e
  | None => upd (fun e => mkCaches (f (card_counters e)) (counterStore e) (keyCache e) (msisdns e) (campaignMeta e))
  end.

(** ** preloadCardKeys *)

Definition keysOfRow (row : Card.t) : CardKeyMaterial.t :=
  {| CardKeyMaterial.EncKey := Card.EncKey row; CardKeyMaterial.AuthKey := Card.AuthKey row;
     CardKeyMaterial.KEK := Card.KEK row; CardKeyMaterial.ProfileID := Card.ProfileID row;
     CardKeyMaterial.MSISDN := Card.MSISDN row |}.

(** [keys[row.ID.String()] = ...]; enc_key and auth_key are NOT NULL, so that no row has two nil keys. *)
Definition keyMap (rows : list Card.t) : gmap string CardKeyMaterial.t :=
  foldl (fun m row => <[Card.ID row := keysOfRow row]> m) ∅ rows.

Definition msisdnMap (rows : list Card.t) : gmap string string :=
  foldl (fun m row => <[Card.MSISDN row := Card.ID row]> m) ∅ (filter (fun row => Card.MSISDN row <> "") rows).

(** CardWorker.PreloadCardKeys, through the interface. *)
Definition preloadKeys (keys : gmap string CardKeyMaterial.t) (e : caches) : caches :=
  mkCaches (card_counters e) (counterStore e)
    (foldl (fun c kv => ShardedCache.Store (fst kv) (snd kv) c) (keyCache e) (map_to_list keys))
    (msisdns e) (campaignMeta e).

Definition preloadMSISDNs (mappings : gmap string string) (e : caches) : caches :=
  mkCaches (card_counters e) (counterStore e) (keyCache e) (mappings ∪ msisdns e) (campaignMeta e).

Definition preloadCardKeys (cardIDs : list string) : B unit :=
  match omap parse cardIDs with
  | [] => ret tt
  | uuids =>
      do! rows <- mwrap "batch select card keys: %w"
        (query (fun d => filter (fun row => Card.ID row ∈ uuids) (map_to_list (cards d)).*2));
      let keys := keyMap rows in
      do! _ <- mwhen (negb (bool_decide (keys = ∅))) (upd (preloadKeys keys));
      mwhen msisdnCache
        (let mappings := msisdnMap rows in
         mwhen (negb (bool_decide (mappings = ∅))) (upd (preloadMSISDNs mappings)))
  end.

(** ** preloadCounters *)

(** INSERT ... SELECT unnest(...), 0 ON CONFLICT DO NOTHING. *)
Definition ensureRows (uuids : list string) (app : string) (t : gmap (string * string) Z) : gmap (string * string) Z :=
  foldl (fun t card => match t !! (card, app) with Some _ => t | None => <[(card, app) := 0]> t end) t uuids.

(** UPDATE ... SET counter_value = counter_value + n WHERE card_id = ANY(...): once per row. *)
Definition allocate (uuids : list string) (app : string) (n : Z) (t : gmap (string * string) Z) : gmap (string * string) Z :=
  foldl (fun t card => alter (fun v => v + n) (card, app) t) t (remove_dups uuids).

(** RETURNING card_id, counter_value - n: the value before the update. *)
Definition startValues (uuids : list string) (app : string) (t : gmap (string * string) Z) : list (string * Z) :=
  omap (fun card => v ← t !! (card, app); Some (card, v)) (remove_dups uuids).

Definition preloadValues (values : gmap string Z) (e : caches) : caches :=
  mkCaches (card_counters e) (snd (Counters.PreloadCounters (map_to_list values) (counterStore e)))
    (keyCache e) (msisdns e) (campaignMeta e).

Definition preloadCounters (cardIDs : list string) (appID : string) (stepsPerCard : Z) : B unit :=
  match parse appID with
  | None => merr (Errorf "parse application_id %s: %w" [ArgStr appID; ArgErr (Errorf "invalid UUID" [])])
  | Some appUUID =>
      match omap parse cardIDs with
      | [] => ret tt
      | uuids =>
          do! _ <- mwrap "bulk insert counters: %w" (execCounters (ensureRows uuids appUUID));
          do! results <- gets (fun p => startValues uuids appUUID (card_counters (snd p)));
          do! _ <- mwrap "pre-allocate counters: %w" (execCounters (allocate uuids appUUID stepsPerCard));
          let values := foldl (fun m r => <[Counters.counterKey (fst r) appID := snd r]> m) (∅ : gmap string Z) results in
          mwhen (negb (bool_decide (values = ∅))) (upd (preloadValues values))
      end
  end.

(** ** getCampaignMeta *)

(** SELECT application_id, COUNT( * ) ... GROUP BY application_id *)
Definition metaRows (campaignID : string) (d : Database) : list (string * Z) :=
  let cmds := filter (fun c => CampaignCommand.CampaignID c = campaignID) (campaign_commands d) in
  (fun app => (app, zlen (filter (fun c => CampaignCommand.ApplicationID c = app) cmds)))
    <$> groupOrder (remove_dups (CampaignCommand.ApplicationID <$> cmds)).

Definition getCampaignMeta (campaignID : string) : B (option campaignCommandMeta) :=
  if bool_decide (campaignID = "") then ret None
  else
    do! cached <- gets (fun p => campaignMeta (snd p) !! campaignID);
    match cached with
    | Some meta => ret (Some meta)
    | None =>
        do! rows <- mwrap "query campaign commands meta: %w" (query (metaRows campaignID));
        match rows with
        | [] => ret None
        | row :: _ =>
            let totalSteps := foldl (fun n r => n + snd r) 0 rows in
            let meta := {| applicationID := fst row; stepCount := totalSteps |} in
            do! _ <- upd (fun e => mkCaches (card_counters e) (counterStore e) (keyCache e) (msisdns e)
                                     (<[campaignID := meta]> (campaignMeta e)));
            ret (Some meta)
        end
    end.

(** ** PreloadShard *)

Definition PreloadShard (campaignID : string) (cardIDs : list string) : B unit :=
  match cardIDs with
  | [] => ret tt
  | _ =>
      do! _ <- mwrap "preload card keys: %w" (preloadCardKeys cardIDs);
      do! meta <- try (getCampaignMeta campaignID);
      match meta with
      | Ok (Some meta) =>
          if negb (bool_decide (applicationID meta = "")) && (0 <? stepCount meta) then
            mwrap "preload counters: %w" (preloadCounters cardIDs (applicationID meta) (stepCount meta))
          else ret tt
      | Ok None | Err _ => ret tt
      | Panic p => mres (Panic p)
      end
  end.

(** ** The interface of the planner *)

(** It reads the shared tables and writes its own. *)
Definition sysGrows (p p' : Sys * caches) : Prop := sys_le (fst p) (fst p').
#[local] Instance sysGrows_preorder : PreOrder sysGrows.
Proof. split; [intros p; unfold sysGrows; reflexivity | intros p1 p2 p3 H1 H2; unfold sysGrows in *; by etrans]. Qed.

Lemma grows_ask {A} (f : Sys -> nat -> A) : preserves sysGrows (ask f : B A).
Proof. intros p. by eexists. Qed.
Lemma grows_query {A} (f : Database -> A) : preserves sysGrows (query f : B A).
Proof. apply preserves_bind; [apply _ | apply grows_ask|]. intros [e|]; [apply preserves_err, _ | apply preserves_gets, _]. Qed.
Lemma grows_upd f : preserves sysGrows (upd f).
Proof. apply preserves_modify. intros p. unfold sysGrows. cbn. reflexivity. Qed.
Lemma grows_counters f : preserves sysGrows (execCounters f).
Proof. apply preserves_bind; [apply _ | apply grows_ask|]. intros [e|]; [apply preserves_err, _ | apply grows_upd]. Qed.

Lemma grows_PreloadShard c l : preserves sysGrows (PreloadShard c l).
Proof.
  unfold PreloadShard. destruct l as [|card l]; [apply preserves_ret, _|]. set (ids := card :: l).
  apply preserves_bind; [apply _ | apply preserves_wrap|].
  - unfold preloadCardKeys. destruct (omap parse ids); [apply preserves_ret, _|].
    apply preserves_bind; [apply _ | apply preserves_wrap, grows_query|]. intros rows.
    apply preserves_bind; [apply _ | apply preserves_when; [apply _ | apply grows_upd] |]. intros _.
    apply preserves_when; [apply _|]. apply preserves_when; [apply _ | apply grows_upd].
  - intros _. apply preserves_bind; [apply _ | apply preserves_try|].
    + unfold getCampaignMeta. apply preserves_if; [apply preserves_ret, _|].
      apply preserves_bind; [apply _ | apply preserves_gets, _|]. intros [m|]; [apply preserves_ret, _|].
      apply preserves_bind; [apply _ | apply preserves_wrap, grows_query|]. intros [|row rows]; [apply preserves_ret, _|].
      apply preserves_bind; [apply _ | apply grows_upd | intros; apply preserves_ret, _].
    + intros [[meta|]|e|p]; [|apply preserves_ret, _ | apply preserves_ret, _ | apply preserves_res, _].
      apply preserves_if; [apply preserves_wrap | apply preserves_ret, _].
      unfold preloadCounters. destruct (parse _); [|apply preserves_err, _]. destruct (omap parse ids); [apply preserves_ret, _|].
      apply preserves_bind; [apply _ | apply preserves_wrap, grows_counters|]. intros _.
      apply preserves_bind; [apply _ | apply preserves_gets, _|]. intros results.
      apply preserves_bind; [apply _ | apply preserves_wrap, grows_counters|]. intros _.
      apply preserves_when; [apply _ | apply grows_upd].
Qed.

Lemma calm_upd f : calm (upd f).
Proof. done. Qed.
Lemma calm_counters f : calm (execCounters f).
Proof. apply calm_bind; [done | by intros []]. Qed.

Lemma calm_PreloadShard c l : calm (PreloadShard c l).
Proof.
  unfold PreloadShard. destruct l as [|card l]; [done|]. set (ids := card :: l).
  apply calm_bind; [apply calm_wrap|intros _].
  - unfold preloadCardKeys. destruct (omap parse ids); [done|].
    apply calm_bind; [apply calm_wrap, calm_query|]. intros rows. apply calm_bind; [apply calm_when, calm_upd | intros _].
    by apply calm_when, calm_when.
  - intros p. unfold bindM, try. assert (Hm : calm (getCampaignMeta c)).
    { unfold getCampaignMeta. apply calm_if; [done|]. apply calm_bind; [done|]. intros [m|]; [done|].
      apply calm_bind; [apply calm_wrap, calm_query|]. by intros [|row rows]. }
    specialize (Hm p). destruct (getCampaignMeta c p) as [[[meta|]|e|m] p1]; [|done|done|done].
    destruct (_ && _); [|done]. apply calm_wrap. unfold preloadCounters. destruct (parse _); [|done]. destruct (omap parse ids); [done|].
    apply calm_bind; [apply calm_wrap, calm_counters|]. intros _. apply calm_bind; [done|]. intros results.
    apply calm_bind; [apply calm_wrap, calm_counters|]. intros _. by apply calm_when.
Qed.

(** The preloader keeps the planner's contract.  Whatever the tables, the caches and the environment, PreloadShard
    returns without a panic and leaves the shared tables alone, which is all that the planner's theorems ask of a preloader. *)
Theorem preloader_meets_contract : tame (Some PreloadShard).
Proof.
  intros c l y e. pose proof (grows_PreloadShard c l (y, e)) as Hg. pose proof (calm_PreloadShard c l (y, e)) as Hc.
  destruct (PreloadShard c l (y, e)) as [r [y' e']]. by exists r, y', e'.
Qed.

(** ** Counter ranges *)

Lemma ensureRows_lookup uuids app t card a :
  ensureRows uuids app t !! (card, a)
  = if bool_decide (a = app /\ card ∈ uuids) then Some (default 0 (t !! (card, a))) else t !! (card, a).
Proof using.
  clear parse groupOrder msisdnCache.
  unfold ensureRows. revert t. induction uuids as [|u uuids IH]; intros t; cbn [foldl].
  { rewrite bool_decide_false; [done|]. intros [_ H%not_elem_of_nil]. done. }
  rewrite IH. destruct (decide (a = app)) as [->|Hne].
  - destruct (decide (card = u)) as [->|Hcu].
    + rewrite (bool_decide_true (_ /\ u ∈ u :: _)) by (split; [done | by left]).
      destruct (t !! (u, app)) as [v|] eqn:E; [rewrite E|rewrite lookup_insert_eq]; by case_bool_decide.
    + rewrite (bool_decide_ext (_ /\ card ∈ u :: uuids) (app = app /\ card ∈ uuids)) by set_solver.
      assert (Hl : (match t !! (u, app) with Some _ => t | None => <[(u, app) := 0]> t end) !! (card, app) = t !! (card, app)).
      { destruct (t !! (u, app)); [done|]. by rewrite lookup_insert_ne by congruence. }
      by rewrite Hl.
  - rewrite !bool_decide_false by tauto. destruct (t !! (u, app)); [done|]. by rewrite lookup_insert_ne by congruence.
Qed.

Lemma allocate_lookup uuids app n t card a :
  allocate uuids app n t !! (card, a)
  = (fun v => if bool_decide (a = app /\ card ∈ uuids) then v + n else v) <$> t !! (card, a).
Proof using.
  clear parse groupOrder msisdnCache.
  unfold allocate. assert (Hel : card ∈ uuids <-> card ∈ remove_dups uuids) by (by rewrite elem_of_remove_dups).
  rewrite (bool_decide_ext _ (a = app /\ card ∈ remove_dups uuids)) by (rewrite Hel; done). clear Hel.
  pose proof (NoDup_remove_dups uuids) as Hnd. revert t Hnd. induction (remove_dups uuids) as [|u l IH]; intros t Hnd; cbn [foldl].
  { rewrite bool_decide_false by (intros [_ H%not_elem_of_nil]; done). by destruct (t !! (card, a)). }
  apply NoDup_cons in Hnd as [Hu Hnd]. rewrite IH by done. destruct (decide ((card, a) = (u, app))) as [[= -> ->]|Hne].
  - rewrite lookup_alter_eq. rewrite bool_decide_false, bool_decide_true by (naive_solver || (split; [done | by left])).
    by destruct (t !! (u, app)).
  - rewrite lookup_alter_ne by done. destruct (t !! (card, a)); [|done]. cbn. f_equal.
    rewrite (bool_decide_ext (_ /\ card ∈ u :: l) (a = app /\ card ∈ l)); [done|]. set_solver.
Qed.

Lemma preloadAll_lookup (l : list (string * Z)) s k :
  NoDup l.*1 ->
  Counters.counters (foldl (fun s kv => Counters.preloadOne kv s) s l) !! k
  = match (list_to_map l : gmap string Z) !! k with Some v => Some v | None => Counters.counters s !! k end.
Proof using.
  revert s. induction l as [|[k0 v0] l IH]; intros s Hnd; [done|]. cbn [fmap list_fmap fst] in Hnd.
  apply NoDup_cons in Hnd as [Hk Hnd]. cbn [foldl list_to_map]. rewrite IH by done. cbn [uncurry foldr].
  destruct (decide (k = k0)) as [->|Hne].
  - rewrite not_elem_of_list_to_map_1 by done. unfold list_to_map. cbn. by rewrite !lookup_insert_eq.
  - unfold list_to_map. cbn. rewrite !lookup_insert_ne by done. done.
Qed.

Lemma values_lookup (app : string) (results : list (string * Z)) card v :
  Forall (fun r => colon_free (fst r)) results -> NoDup results.*1 -> (card, v) ∈ results ->
  foldl (fun m r => <[Counters.counterKey (fst r) app := snd r]> m) (∅ : gmap string Z) results !! Counters.counterKey card app = Some v.
Proof using.
  induction results as [|[c w] results IH] using rev_ind; intros Hfree Hnd Hin; [by apply not_elem_of_nil in Hin|].
  rewrite foldl_app. cbn [foldl fst snd]. rewrite fmap_app in Hnd. apply NoDup_app in Hnd as (Hnd & Hd & _).
  apply Forall_app in Hfree as [Hfree Hc]. apply Forall_cons in Hc as [Hc _]. change (colon_free c) in Hc.
  apply elem_of_app in Hin as [Hin|Hin%list_elem_of_singleton].
  - assert (Hcard : colon_free card) by (rewrite Forall_forall in Hfree; by apply (Hfree (card, v))).
    rewrite lookup_insert_ne; [by apply IH|]. intros E. apply (f_equal Counters.splitColon) in E.
    rewrite (splitColon_key c app Hc), (splitColon_key card app Hcard) in E. injection E as ->. apply (Hd card); [|by left]. 
    apply list_elem_of_fmap. by exists (card, v).
  - injection Hin as -> ->. by rewrite lookup_insert_eq.
Qed.

Lemma startValues_spec uuids app t :
  (forall card, card ∈ uuids -> is_Some (t !! (card, app))) ->
  (startValues uuids app t).*1 = remove_dups uuids /\
  forall card v, card ∈ uuids -> t !! (card, app) = Some v -> (card, v) ∈ startValues uuids app t.
Proof using.
  intros Hall. unfold startValues. assert (Hin : forall card, card ∈ remove_dups uuids -> is_Some (t !! (card, app))).
  { intros card Hc. apply Hall. by apply elem_of_remove_dups. }
  split.
  - clear Hall. induction (remove_dups uuids) as [|u l IH]; [done|]. cbn. destruct (Hin u ltac:(by left)) as [v ->]. cbn.
    f_equal. apply IH. intros card Hc. apply Hin. by right.
  - intros card v Hc Hv. apply list_elem_of_omap. exists card. split; [by apply elem_of_remove_dups | by rewrite Hv].
Qed.

(** What one preload does to the counters of its cards. *)
Lemma preloadCounters_run cardIDs app n y e :
  faultless y -> parse app = Some app -> Forall (fun c => parse c = Some c /\ colon_free c) cardIDs ->
  exists y' e', preloadCounters cardIDs app n (y, e) = (Ok tt, (y', e')) /\ sys_le y y' /\
    forall card, card ∈ cardIDs ->
      let v := default 0 (card_counters e !! (card, app)) in
      card_counters e' !! (card, app) = Some (v + n) /\
      Counters.counters (counterStore e') !! Counters.counterKey card app = Some v.
Proof using.
  intros Hf Happ Hcards. unfold preloadCounters. rewrite Happ.
  assert (Huu : omap parse cardIDs = cardIDs).
  { clear -Hcards. induction Hcards as [|c l [Hc _] _ IH]; [done|]. cbn. by rewrite Hc, IH. }
  rewrite Huu. destruct cardIDs as [|c0 cs]; [exists y, e; split; [done|]; split; [reflexivity | by intros ? ?%not_elem_of_nil]|].
  set (ids := c0 :: cs) in *.
  assert (Hexec : forall f y e, faultless y -> execCounters f (y, e) = (Ok tt, (set_tick (S (tick y)) y,
    mkCaches (f (card_counters e)) (counterStore e) (keyCache e) (msisdns e) (campaignMeta e)))).
  { intros f y1 e1 Hf1. unfold execCounters, bindM, ask. cbn. by rewrite Hf1. }
  rewrite (run_bind _ _ _ _ _ (run_wrap _ _ _ _ _ (Hexec _ y e Hf))). set (y1 := set_tick _ y). set (e1 := mkCaches _ _ _ _ _).
  rewrite (run_bind (gets _) _ _ (startValues ids app (card_counters e1)) (y1, e1)) by done.
  rewrite (run_bind _ _ _ _ _ (run_wrap _ _ _ _ _ (Hexec _ y1 e1 Hf))). set (y2 := set_tick _ y1). set (e2 := mkCaches _ _ _ _ _).
  set (results := startValues ids app (card_counters e1)). set (values := foldl _ _ results).
  assert (Hv : forall card, card ∈ ids -> card_counters e1 !! (card, app) = Some (default 0 (card_counters e !! (card, app)))).
  { intros card Hc. cbn [card_counters e1]. rewrite ensureRows_lookup. by rewrite bool_decide_true. }
  destruct (startValues_spec ids app (card_counters e1)) as [Hfst Hsnd]; [intros card Hc; rewrite Hv by done; by eexists|]. fold results in Hfst, Hsnd.
  assert (Hval : forall card, card ∈ ids -> values !! Counters.counterKey card app = Some (default 0 (card_counters e !! (card, app)))).
  { intros card Hc. apply values_lookup; [|rewrite Hfst; apply NoDup_remove_dups | by apply Hsnd; [|apply Hv]].
    rewrite Forall_forall. intros [c w] Hcw. rewrite Forall_forall in Hcards. apply (Hcards c).
    rewrite <- elem_of_remove_dups, <- Hfst. apply list_elem_of_fmap. by exists (c, w). }
  rewrite bool_decide_false by (intros Hempty; specialize (Hval c0 ltac:(by left)); by rewrite Hempty, lookup_empty in Hval).
  exists y2, (preloadValues values e2). split; [done|]. split; [by eexists|]. intros card Hc. split.
  - change (card_counters (preloadValues values e2)) with (allocate ids app n (card_counters e1)).
    rewrite allocate_lookup, bool_decide_true by done. by rewrite Hv.
  - cbn [preloadValues counterStore]. unfold Counters.PreloadCounters, modify. cbn [snd].
    rewrite preloadAll_lookup by apply NoDup_fst_map_to_list. by rewrite list_to_map_to_list, Hval.
Qed.

(** ** Packets of a card across campaigns

    A session of a card is a preload of its shard, the packets sent for it (each takes the
    counter and increments it, as the worker does) and its eviction when it is done. *)

Definition on_counters {A} (m : M Counters.t A) : B A :=
  fun p => let '(r, c) := m (counterStore (snd p)) in
           (r, (fst p, mkCaches (card_counters (snd p)) c (keyCache (snd p)) (msisdns (snd p)) (campaignMeta (snd p)))).

Definition takeCounter (card app : string) : B Z :=
  do! v <- on_counters (Counters.GetCounter card app);
  do! _ <- on_counters (Counters.IncrCounterAsync card app);
  ret v.

Fixpoint packets (card app : string) (n : nat) : B (list Z) :=
  match n with
  | O => ret []
  | S n => do! v <- takeCounter card app; do! vs <- packets card app n; ret (v :: vs)
  end.

Definition session (cardIDs : list string) (card app : string) (steps : Z) (n : nat) : B (list Z) :=
  do! _ <- preloadCounters cardIDs app steps;
  do! vs <- packets card app n;
  do! _ <- on_counters (Counters.EvictCard card);
  ret vs.

Fixpoint sessions (cardIDs : list string) (card app : string) (steps : Z) (l : list nat) : B (list Z) :=
  match l with
  | [] => ret []
  | n :: l => do! vs <- session cardIDs card app steps n; do! ws <- sessions cardIDs card app steps l; ret (vs ++ ws)
  end.

Lemma packets_run card app n y e v :
  Counters.counters (counterStore e) !! Counters.counterKey card app = Some v -> 0 <= v -> v + Z.of_nat n < 2 ^ 63 ->
  exists c, packets card app n (y, e)
    = (Ok (seqZ v (Z.of_nat n)), (y, mkCaches (card_counters e) c (keyCache e) (msisdns e) (campaignMeta e))).
Proof using.
  revert e v. induction n as [|n IH]; intros e v Hv H0 Hmax; cbn [packets]; [exists (counterStore e); by destruct e|].
  set (key := Counters.counterKey card app) in *.
  set (c1 := Counters.mk (<[key := v + 1]> (Counters.counters (counterStore e))) (Counters.cardApps (counterStore e))).
  set (e1 := mkCaches (card_counters e) c1 (keyCache e) (msisdns e) (campaignMeta e)).
  assert (Htake : takeCounter card app (y, e) = (Ok v, (y, e1))).
  { unfold takeCounter, on_counters, bindM, Counters.GetCounter, Counters.IncrCounterAsync, Counters.IncrCounter, bindM, gets, modify.
    fold key. cbn [fst snd counterStore]. rewrite Hv. cbn [Counters.counters Counters.cardApps default from_option ret].
    rewrite Hv. change (default 0 (Some v)) with v. rewrite (i64_small (v + 1)) by lia. done. }
  rewrite (run_bind _ _ _ _ _ Htake). destruct (IH e1 (v + 1)) as [c Hrun]; [|lia|lia|].
  { cbn [counterStore e1 c1 Counters.counters]. apply lookup_insert_eq. }
  rewrite (run_bind _ _ _ _ _ Hrun). exists c. cbn [ret card_counters keyCache msisdns campaignMeta e1].
  rewrite (seqZ_cons v (Z.of_nat (S n))) by lia. unfold ret. replace (Z.pred (Z.of_nat (S n))) with (Z.of_nat n) by lia. done.
Qed.

Section Sessions.
Context (cardIDs : list string) (card app : string) (steps : Z).
Hypothesis app_ok : parse app = Some app.
Hypothesis cards_ok : Forall (fun c => parse c = Some c /\ colon_free c) cardIDs.
Hypothesis card_in : card ∈ cardIDs.

Definition stored (e : caches) : Z := default 0 (card_counters e !! (card, app)).

Lemma session_run n y e :
  faultless y -> 0 <= stored e -> stored e + Z.of_nat n < 2 ^ 63 ->
  exists y' e', session cardIDs card app steps n (y, e) = (Ok (seqZ (stored e) (Z.of_nat n)), (y', e')) /\
    faultless y' /\ stored e' = stored e + steps.
Proof using app_ok cards_ok card_in.
  intros Hf H0 Hmax. unfold session.
  destruct (preloadCounters_run cardIDs app steps y e Hf app_ok cards_ok) as (y1 & e1 & Hrun & [k ->] & Hpre).
  rewrite (run_bind _ _ _ _ _ Hrun). destruct (Hpre card card_in) as [Htab Hloc]. fold (stored e) in Htab, Hloc.
  destruct (packets_run card app n (set_tick k y) e1 (stored e) Hloc H0 Hmax) as [c Hpk]. rewrite (run_bind _ _ _ _ _ Hpk).
  eexists _, _. split; [reflexivity|]. split; [exact Hf|]. unfold stored at 1. cbn [card_counters fst snd]. by rewrite Htab.
Qed.


(** A retry uses up the next session's counter.  The preloader allocates one counter per command; a session that sends one packet
    more, as a retried command does, ends with the very counter that the card's next session starts with. *)
Theorem retry_reuses_counter k y e :
  faultless y -> steps = Z.of_nat k -> 0 <= stored e -> stored e + steps + 2 < 2 ^ 63 ->
  exists vs y' e', sessions cardIDs card app steps [S k; 1%nat] (y, e)
    = (Ok (vs ++ [stored e + steps; stored e + steps]), (y', e')).
Proof using app_ok cards_ok card_in.
  intros Hf Hk H0 Hmax. cbn [sessions]. destruct (session_run (S k) y e Hf H0) as (y1 & e1 & Hrun & Hf1 & He1); [lia|].
  rewrite (run_bind _ _ _ _ _ Hrun). destruct (session_run 1 y1 e1 Hf1) as (y2 & e2 & Hrun2 & _ & _); [lia | lia|].
  rewrite (run_bind _ _ _ (seqZ (stored e1) 1) (y2, e2)).
  2: { rewrite (run_bind _ _ _ _ _ Hrun2). unfold bindM, ret. by rewrite app_nil_r. }
  exists (seqZ (stored e) (Z.of_nat k)), y2, e2. unfold ret.
  replace (Z.of_nat (S k)) with (Z.of_nat k + 1) by lia. rewrite seqZ_app by lia. rewrite <- app_assoc, He1, Hk. done.
Qed.
End Sessions.
End BatchPreloader.

(** *** Witnesses: a card whose counter stands at 41. *)

Module SessionWitness.
Definition parse (s : string) : option string := Some s.
Definition e : caches := {|
  card_counters := {[ ("card-1", "app-1") := 41 ]}; counterStore := {| Counters.counters := ∅; Counters.cardApps := ∅ |};
  keyCache := newShardedCache; msisdns := ∅; campaignMeta := ∅ |}.
Definition y : Sys := quiet_sys empty_db.
Definition run (l : list nat) : res (list Z) := fst (sessions parse ["card-1"; "card-2"] "card-1" "app-1" 2 l (y, e)).

Lemma cards_ok : Forall (fun c => parse c = Some c /\ colon_free c) ["card-1"; "card-2"].
Proof. repeat constructor. Qed.
End SessionWitness.


Lemma retry_reuses_counter_witness :
  (exists vs y' e', sessions SessionWitness.parse ["card-1"; "card-2"] "card-1" "app-1" 2 [3; 1]%nat (SessionWitness.y, SessionWitness.e)
     = (Ok (vs ++ [stored "card-1" "app-1" SessionWitness.e + 2; stored "card-1" "app-1" SessionWitness.e + 2]), (y', e'))) /\
  SessionWitness.run [3; 1]%nat = Ok [41; 42; 43; 43].
Proof.
  split; [|by vm_compute].
  apply (retry_reuses_counter SessionWitness.parse ["card-1"; "card-2"] "card-1" "app-1" 2 eq_refl
           SessionWitness.cards_ok ltac:(by left) 2 SessionWitness.y SessionWitness.e); done.
Defined.
