(* ===== verification/CardKeyStore.v ===== *)
(** * internal/pgstore/card_key_store.go

    Card keys live in columns of the table cards, counters in card_counters.
    The store writes, reads and erases keys for the control plane and is one
    of the key stores of the worker.  [parse] is [uuid.Parse] followed by
    [String].  The columns enc_key and auth_key are NOT NULL; an empty kek stands
    for NULL too. *)

From S2P Require Import Prelude Effects Models Pipeline Store StateWriter StateWriterProps Sql Executor BatchPreload.

Module CardKeyRecord.
Record t := mk {
  CardID : string;
  EncKey : list Z;
  AuthKey : list Z;
  KEK : list Z;
  ProfileID : string;
  MSISDN : string
}.
End CardKeyRecord.

Module CardCounterRecord.
Record t := mk { CardID : string; ApplicationID : string; CounterValue : Z }.
End CardCounterRecord.

(** [Updates(map{"enc_key", "auth_key", "kek"})] on a row. *)
Definition setKeys (encKey authKey kek : list Z) (c : Card.t) : Card.t :=
  Card.mk (Card.ID c) (Card.ICCID c) (Card.IMSI c) (Card.MSISDN c) (Card.ProfileID c) encKey authKey kek (Card.Status c).

Section CardKeyStore.
Context (parse : string -> option string).

Definition parseCardID {S} (cardID : string) : M S string :=
  match parse cardID with
  | Some id => ret id
  | None => merr (Errorf "parse card_id %s: %w" [ArgStr cardID; ArgErr (Errorf "invalid UUID" [])])
  end.

(** No row affected is not an error. *)
Definition WriteCardKeys (cardID : string) (encKey authKey kek : list Z) (profileID msisdn : string) : M Sys unit :=
  do! id <- parseCardID cardID;
  mwrap "write card keys: %w" (exec (set_cards (alter (setKeys encKey authKey kek) id))).

Fixpoint writeRecords (records : list CardKeyRecord.t) : M Sys unit :=
  match records with
  | [] => ret tt
  | rec :: records =>
      do! id <- parseCardID (CardKeyRecord.CardID rec);
      do! _ <- mwrap ("write card keys for " +:+ CardKeyRecord.CardID rec +:+ ": %w")
        (exec (set_cards (alter (setKeys (CardKeyRecord.EncKey rec) (CardKeyRecord.AuthKey rec) (CardKeyRecord.KEK rec)) id)));
      writeRecords records
  end.

Definition WriteCardKeysBatch (records : list CardKeyRecord.t) : M Sys unit :=
  match records with
  | [] => ret tt
  | _ => transaction (writeRecords records)
  end.

(** Setting the three columns to NULL: the constraint refuses it for every row there is. *)
Definition notNull : goerr := Errorf "null value in column violates not-null constraint" [].

Definition DeleteCardKeys (cardID : string) : M Sys unit :=
  do! id <- parseCardID cardID;
  mwrap "delete card keys: %w"
    (do! hit <- query (fun d => bool_decide (is_Some (cards d !! id)));
     if hit : bool then merr notNull else ret tt).

Definition DeleteMSISDNMapping (msisdn : string) : M Sys unit := ret tt.

(** Rows of card_counters in the order of the map. *)
Definition GetCountersByCard (cardID : string) : M (Sys * caches) (list CardCounterRecord.t) :=
  do! id <- parseCardID cardID;
  do! fault <- ask sys_fault;
  match fault with
  | Some e => merr (Errorf "get counters by card: %w" [ArgErr e])
  | None =>
      gets (fun p => (fun kv => CardCounterRecord.mk (fst (fst kv)) (snd (fst kv)) (snd kv))
                       <$> filter (fun kv => fst (fst kv) = id) (map_to_list (card_counters (snd p))))
  end.

(** [Scan] into a zero struct: a missing row is no error, and leaves both keys nil. *)
Definition GetKeys (cardID : string) : M Sys CardKeyMaterial.t :=
  do! id <- parseCardID cardID;
  do! row <- try (query (fun d => cards d !! id));
  match row with
  | Err e => if bool_decide (e = ErrRecordNotFound) then merr (Errorf "card %s not found" [ArgStr cardID])
             else merr (Errorf "get keys: %w" [ArgErr e])
  | Panic p => mres (Panic p)
  | Ok None => merr (Errorf "card %s has no key material" [ArgStr cardID])
  | Ok (Some row) => ret (keysOfRow row)
  end.

(** ** Reading what was written *)

Lemma GetKeys_run cardID id y :
  faultless y -> parse cardID = Some id ->
  fst (GetKeys cardID y) =
    match cards (db y) !! id with
    | Some row => Ok (keysOfRow row)
    | None => Err (Errorf "card %s has no key material" [ArgStr cardID])
    end.
Proof.
  intros Hf Hp. unfold GetKeys, parseCardID. rewrite Hp. unfold bindM at 1, ret at 1, bindM at 1, try.
  rewrite (query_run _ _ Hf). by destruct (cards (db y) !! id).
Qed.

Lemma keys_after f y cardID id k :
  faultless y -> parse cardID = Some id ->
  (do! i <- parseCardID cardID; mwrap f (exec (set_cards (alter k i)))) y
    = (Ok tt, set_db (set_cards (alter k id) (db y)) (set_tick (S (tick y)) y)).
Proof. intros Hf Hp. unfold parseCardID. rewrite Hp. unfold bindM, ret. by apply run_wrap, exec_run. Qed.

(** Keys are read back.  After a write without faults the key store returns exactly the keys written, with the number and
    profile the card had, and the other cards' keys as before.  Erasing is refused by the NOT NULL columns as long as
    the card exists: it changes nothing and the keys are still returned. *)
Theorem keys_read_back cardID id row enc auth kek pid ms y :
  faultless y -> parse cardID = Some id -> cards (db y) !! id = Some row ->
  exists y', WriteCardKeys cardID enc auth kek pid ms y = (Ok tt, y') /\
    fst (GetKeys cardID y') = Ok (CardKeyMaterial.mk enc auth kek (Card.ProfileID row) (Card.MSISDN row)) /\
    (forall other oid, parse other = Some oid -> oid <> id -> fst (GetKeys other y') = fst (GetKeys other y)) /\
    exists e y'', DeleteCardKeys cardID y' = (Err e, y'') /\ db y'' = db y' /\ fst (GetKeys cardID y'') = fst (GetKeys cardID y').
Proof.
  intros Hf Hp Hrow. eexists. split; [by apply keys_after|]. set (y1 := set_db _ _).
  assert (Hf1 : faultless y1) by exact Hf.
  assert (Hr1 : cards (db y1) !! id = Some (setKeys enc auth kek row)) by (cbn; by rewrite lookup_alter_eq, Hrow).
  split_and!.
  - by rewrite (GetKeys_run cardID id y1 Hf1 Hp), Hr1.
  - intros other oid Ho Hoid. rewrite (GetKeys_run other oid y1 Hf1 Ho), (GetKeys_run other oid y Hf Ho).
    cbn [y1 db set_db set_cards cards]. by rewrite lookup_alter_ne.
  - unfold DeleteCardKeys, parseCardID. rewrite Hp. unfold bindM at 1, ret at 1, mwrap, bindM.
    rewrite (query_run _ _ Hf1), Hr1, bool_decide_true by done. do 2 eexists. split; [reflexivity|]. split; [done|].
    by rewrite !(GetKeys_run cardID id) by done.
Qed.

(** A batch that fails writes no key. *)
Lemma batch_all_or_nothing records y r y' :
  WriteCardKeysBatch records y = (r, y') -> is_ok r = false -> db y' = db y.
Proof.
  unfold WriteCardKeysBatch. destruct records as [|rec records]; [by intros [= <- <-]|].
  intros H Hr. exact (transaction_atomic (writeRecords (rec :: records)) y r y' H Hr).
Qed.
End CardKeyStore.

(** ** Witness *)

Definition wit_card : Card.t := Card.mk "card-1" "8930100000000000001" "202010000000001" "306912345678" "prof-1" [1] [2] [] "active".

Lemma keys_read_back_witness :
  let y := quiet_sys (set_cards <["card-1" := wit_card]> empty_db) in
  exists y', WriteCardKeys Some "card-1" [16; 17] [18] [] "p" "m" y = (Ok tt, y') /\
    fst (GetKeys Some "card-1" y') = Ok (CardKeyMaterial.mk [16; 17] [18] [] "prof-1" "306912345678").
Proof.
  intros y. destruct (keys_read_back Some "card-1" "card-1" wit_card [16; 17] [18] [] "p" "m" y) as (y' & Hrun & Hget & _);
    [done | done | vm_compute; reflexivity |].
  exists y'. split; [exact Hrun | exact Hget].
Defined.
