(* ===== verification/MessageHistory.v ===== *)
(** * internal/pgstore: the message history

    message_writer.go batches the message log into the table
    message_history; the message part of query_store.go reads it.  The state is the
    environment with the table, a list of rows in insertion order.

    [parse] is [uuid.Parse] followed by [String]; [pgxConn] says whether the driver
    connection is pgx's.  A zero [time.Time] is 0; an absent payload is empty. *)

From S2P Require Import Prelude Effects Models Pipeline Store StateWriter StateWriterProps Sql.

(** ** Rows *)

Module HistoryRow.
Record t := mk {
  ID : string;
  CampaignID : option string;
  CardID : string;
  Direction : string;
  Status : string;
  RawPayload : list Z;
  SecuredPayload : list Z;
  CounterHex : option string;
  SMPPMessageID : option string;
  DLRStatus : option string;
  PORStatusCode : option Z;
  PORData : list Z;
  ErrorCode : option string;
  CreatedAt : Z;
  UpdatedAt : Z
}.
End HistoryRow.

Abbreviation Table := (list HistoryRow.t).
Abbreviation HM := (M (Sys * Table)).

Definition execTable (f : Table -> Table) : HM unit :=
  do! fault <- ask sys_fault;
  match fault with
  | Some e => merr e
  | None => modify (fun p => (fst p, f (snd p)))
  end.

Definition queryTable {A} (f : Table -> A) : HM A :=
  do! fault <- ask sys_fault;
  match fault with
  | Some e => merr e
  | None => gets (fun p => f (snd p))
  end.

(** PRIMARY KEY (id, created_at) *)
Definition historyKey (r : HistoryRow.t) : string * Z := (HistoryRow.ID r, HistoryRow.CreatedAt r).

Definition insertHistory (table : Table) (r : HistoryRow.t) : Table :=
  if bool_decide (historyKey r ∈ historyKey <$> table) then table else table ++ [r].

(** [SET column = value]; a value of the wrong type is a database error. *)
Definition setColumn (k : string) (v : value) (r : HistoryRow.t) : option HistoryRow.t :=
  let '(HistoryRow.mk id camp card dir st raw sec ctr smpp dlr por pord err cr up) := r in
  match v with
  | VStr s =>
      if bool_decide (k = "status") then Some (HistoryRow.mk id camp card dir s raw sec ctr smpp dlr por pord err cr up)
      else if bool_decide (k = "smpp_message_id") then Some (HistoryRow.mk id camp card dir st raw sec ctr (Some s) dlr por pord err cr up)
      else if bool_decide (k = "counter_hex") then Some (HistoryRow.mk id camp card dir st raw sec (Some s) smpp dlr por pord err cr up)
      else if bool_decide (k = "dlr_status") then Some (HistoryRow.mk id camp card dir st raw sec ctr smpp (Some s) por pord err cr up)
      else if bool_decide (k = "error_code") then Some (HistoryRow.mk id camp card dir st raw sec ctr smpp dlr por pord (Some s) cr up)
      else None
  | VInt z =>
      if bool_decide (k = "por_status_code") then Some (HistoryRow.mk id camp card dir st raw sec ctr smpp dlr (Some z) pord err cr up)
      else if bool_decide (k = "updated_at") then Some (HistoryRow.mk id camp card dir st raw sec ctr smpp dlr por pord err cr z)
      else None
  | VBytes b =>
      if bool_decide (k = "por_data") then Some (HistoryRow.mk id camp card dir st raw sec ctr smpp dlr por b err cr up)
      else None
  end.

Definition setColumns (sets : list (string * value)) (r : HistoryRow.t) : option HistoryRow.t :=
  foldl (fun o kv => r ← o; setColumn (fst kv) (snd kv) r) (Some r) sets.

(** [UPDATE message_history SET ... WHERE id = ?] *)
Definition updateHistory (id : string) (sets : list (string * value)) (table : Table) : option Table :=
  mapM (fun r => if bool_decide (HistoryRow.ID r = id) then setColumns sets r else Some r) table.

Definition typeMismatch : goerr := Errorf "cannot encode value into column" [].

Definition execUpdate (id : string) (sets : list (string * value)) : HM unit :=
  do! t <- queryTable (updateHistory id sets);
  match t with
  | Some t => modify (fun p => (fst p, t))
  | None => merr typeMismatch
  end.

Section Writer.
Context (parse : string -> option string) (pgxConn : bool).

(** ** convertLogEntry *)

Definition parseField {S} (field s : string) : M S string :=
  match parse s with
  | Some id => ret id
  | None => merr (Errorf ("parse " +:+ field +:+ " %s: %w") [ArgStr s; ArgErr (Errorf "invalid UUID" [])])
  end.

Definition nonEmpty (s : string) : option string := if bool_decide (s = "") then None else Some s.

Definition convertLogEntry (entry : MessageLogEntry.t) : M Sys HistoryRow.t :=
  do! id <- parseField "id" (MessageLogEntry.ID entry);
  do! cardID <- parseField "card_id" (MessageLogEntry.CardID entry);
  do! campaignID <- (if bool_decide (MessageLogEntry.CampaignID entry = "") then ret None
                     else do! cid <- parseField "campaign_id" (MessageLogEntry.CampaignID entry); ret (Some cid));
  do! createdAt <- (if MessageLogEntry.CreatedAt entry =? 0 then now else ret (MessageLogEntry.CreatedAt entry));
  let updatedAt := if MessageLogEntry.UpdatedAt entry =? 0 then createdAt else MessageLogEntry.UpdatedAt entry in
  ret {| HistoryRow.ID := id; HistoryRow.CampaignID := campaignID; HistoryRow.CardID := cardID;
         HistoryRow.Direction := MessageLogEntry.Direction entry; HistoryRow.Status := MessageLogEntry.Status entry;
         HistoryRow.RawPayload := MessageLogEntry.RawPayload entry;
         HistoryRow.SecuredPayload := MessageLogEntry.SecuredPayload entry;
         HistoryRow.CounterHex := nonEmpty (MessageLogEntry.CounterHex entry);
         HistoryRow.SMPPMessageID := nonEmpty (MessageLogEntry.SMPPMessageID entry);
         HistoryRow.DLRStatus := None; HistoryRow.PORStatusCode := None; HistoryRow.PORData := [];
         HistoryRow.ErrorCode := None; HistoryRow.CreatedAt := createdAt; HistoryRow.UpdatedAt := updatedAt |}.

(** ** applyUpdatesToRow *)

Abbreviation fields := (gmap string value).

Definition strField (u : fields) (k : string) : option string :=
  match u !! k with Some (VStr s) => Some s | _ => None end.

Definition applyUpdatesToRow (u : fields) (r : HistoryRow.t) : HistoryRow.t :=
  let '(HistoryRow.mk id camp card dir st raw sec ctr smpp dlr por pord err cr up) := r in
  HistoryRow.mk id camp card dir (default st (strField u "status")) raw sec
    (match strField u "counter_hex" with Some v => Some v | None => ctr end)
    (match strField u "smpp_message_id" with Some v => Some v | None => smpp end)
    dlr por pord err cr up.

(** ** flushMessageCreates *)

(** COPY: all rows, or an error and none. *)
Definition copyHistory (rows : Table) : HM unit :=
  do! table <- queryTable (fun t => t);
  if bool_decide (NoDup (historyKey <$> table ++ rows)) then modify (fun p => (fst p, snd p ++ rows))
  else merr duplicateKey.

Definition historyMaxRows : nat := 5957.

Fixpoint insertHistoryChunks (pieces : list Table) : HM unit :=
  match pieces with
  | [] => ret tt
  | chunk :: pieces =>
      do! _ <- execTable (fun t => foldl insertHistory t chunk);
      insertHistoryChunks pieces
  end.

Definition flushMessageCreatesFallback (rows : Table) : HM unit :=
  insertHistoryChunks (chunks historyMaxRows rows).

Definition flushMessageCreates (rows : Table) : HM unit :=
  match rows with
  | [] => ret tt
  | _ =>
      do! _ <- mwrap "get sql.DB: %w" (queryTable (fun _ => tt));
      do! _ <- mwrap "get conn: %w" (queryTable (fun _ => tt));
      if negb pgxConn then flushMessageCreatesFallback rows
      else
        do! copied <- try (copyHistory rows);
        match copied with
        | Ok _ => ret tt
        | _ => flushMessageCreatesFallback rows
        end
  end.

(** ** flushMessageUpdates *)

Definition allowed : list string :=
  ["status"; "smpp_message_id"; "dlr_status"; "counter_hex"; "por_status_code"; "por_data"; "error_code"; "updated_at"].

(** The columns an UPDATE may set, with updated_at filled in. *)
Definition filteredFields (u : fields) : fields := filter (fun kv => fst kv ∈ allowed) u.

Definition flushUpdate (idStr : string) (u : fields) : HM unit :=
  match parse idStr with
  | None => ret tt
  | Some id =>
      let filtered := filteredFields u in
      if bool_decide (filtered = ∅) then ret tt
      else
        do! filtered <- (match filtered !! "updated_at" with
                         | Some _ => ret filtered
                         | None => do! at_ <- now; ret (<["updated_at" := VInt at_]> filtered)
                         end);
        ignore (execUpdate id (map_to_list filtered))
  end.

Fixpoint flushMessageUpdates (updates : list (string * fields)) : HM unit :=
  match updates with
  | [] => ret tt
  | (idStr, u) :: updates => do! _ <- flushUpdate idStr u; flushMessageUpdates updates
  end.

(** ** RunMessageWriter *)

Record MessageWriterConfig := { MsgMaxBatch : Z; MsgFlushInterval : Z }.
Context (cfg : MessageWriterConfig).

(** What the select picks. *)
Inductive msg_case := MRecv (a : MessageLogAction.t) | MClosed | MTick | MDone.

Record MsgWriter := mkMsgWriter {
  mw_sys : Sys;
  mw_table : Table;
  mw_creates : gmap string HistoryRow.t;
  mw_updates : gmap string fields;
  mw_returned : bool
}.

(** The closure [flush]: errors are logged. *)
Definition msgFlush (w : MsgWriter) : MsgWriter :=
  let p := (mw_sys w, mw_table w) in
  let p := if bool_decide (mw_creates w = ∅) then p
           else snd (flushMessageCreates (map_to_list (mw_creates w)).*2 p) in
  let p := if bool_decide (mw_updates w = ∅) then p
           else snd (flushMessageUpdates (map_to_list (mw_updates w)) p) in
  mkMsgWriter (fst p) (snd p) ∅ ∅ (mw_returned w).

Definition msgReturning (w : MsgWriter) : MsgWriter :=
  mkMsgWriter (mw_sys w) (mw_table w) (mw_creates w) (mw_updates w) true.

Definition onCreate (entry : MessageLogEntry.t) (w : MsgWriter) : MsgWriter :=
  let '(r, y) := convertLogEntry entry (mw_sys w) in
  match r with
  | Ok row =>
      let id := MessageLogEntry.ID entry in
      let row := match mw_updates w !! id with Some pending => applyUpdatesToRow pending row | None => row end in
      let w := mkMsgWriter y (mw_table w) (<[id := row]> (mw_creates w)) (delete id (mw_updates w)) false in
      if MsgMaxBatch cfg <=? Z.of_nat (size (mw_creates w)) then msgFlush w else w
  | _ => mkMsgWriter y (mw_table w) (mw_creates w) (mw_updates w) false
  end.

(** [updates] is a Go map: later bindings of the list are hidden by earlier ones. *)
Definition onUpdate (id : string) (u : list (string * value)) (w : MsgWriter) : MsgWriter :=
  let fs := list_to_map u : fields in
  let w := match mw_creates w !! id with
           | Some create => mkMsgWriter (mw_sys w) (mw_table w) (<[id := applyUpdatesToRow fs create]> (mw_creates w)) (mw_updates w) false
           | None => mkMsgWriter (mw_sys w) (mw_table w) (mw_creates w)
                       (<[id := fs ∪ default ∅ (mw_updates w !! id)]> (mw_updates w)) false
           end in
  if MsgMaxBatch cfg <=? Z.of_nat (size (mw_updates w)) then msgFlush w else w.

Definition msgStep (w : MsgWriter) (c : msg_case) : MsgWriter :=
  if mw_returned w then w
  else match c with
       | MClosed | MDone => msgReturning (msgFlush w)
       | MTick => msgFlush w
       | MRecv a =>
           if bool_decide (MessageLogAction.Action a = "create") then
             match MessageLogAction.Log a with None => w | Some entry => onCreate entry w end
           else if bool_decide (MessageLogAction.Action a = "update") then
             if bool_decide (MessageLogAction.ID a = "") || bool_decide (MessageLogAction.Updates a = []) then w
             else onUpdate (MessageLogAction.ID a) (MessageLogAction.Updates a) w
           else w
       end.

Definition RunMessageWriter (y : Sys) (table : Table) (cases : list msg_case) : MsgWriter :=
  foldl msgStep (mkMsgWriter y table ∅ ∅ false) cases.
End Writer.

(** ** Queries *)

Module MessageRecord.
Record t := mk {
  ID : string;
  CampaignID : option string;
  CardID : string;
  Direction : string;
  Status : string;
  SMPPMessageID : option string;
  DLRStatus : option string;
  CounterHex : option string;
  PORStatusCode : option Z;
  RawPayload : list Z;
  SecuredPayload : list Z;
  PORData : list Z;
  CreatedAt : Z;
  UpdatedAt : Z
}.
End MessageRecord.

Definition toMessageRecord (r : HistoryRow.t) : MessageRecord.t :=
  MessageRecord.mk (HistoryRow.ID r) (HistoryRow.CampaignID r) (HistoryRow.CardID r) (HistoryRow.Direction r)
    (HistoryRow.Status r) (HistoryRow.SMPPMessageID r) (HistoryRow.DLRStatus r) (HistoryRow.CounterHex r)
    (HistoryRow.PORStatusCode r) (HistoryRow.RawPayload r) (HistoryRow.SecuredPayload r) (HistoryRow.PORData r)
    (HistoryRow.CreatedAt r) (HistoryRow.UpdatedAt r).

(** ORDER BY created_at DESC *)
Definition newest (a b : HistoryRow.t) : Prop := HistoryRow.CreatedAt b <= HistoryRow.CreatedAt a.
#[global] Instance newest_dec a b : Decision (newest a b).
Proof. unfold newest. apply _. Defined.

Definition GetMessage (msgID : string) : HM (option MessageRecord.t) :=
  do! row <- mwrap "get message: %w" (queryTable (fun t => head (filter (fun r => HistoryRow.ID r = msgID) t)));
  ret (toMessageRecord <$> row).

Definition ListCardMessages (cardID : string) (limit : Z) : HM (list MessageRecord.t) :=
  let limit := if limit <=? 0 then 10 else limit in
  do! rows <- mwrap "list card messages: %w"
    (queryTable (fun t => take (Z.to_nat limit) (merge_sort newest (filter (fun r => HistoryRow.CardID r = cardID) t))));
  ret (toMessageRecord <$> rows).

Module MessageFilter.
Record t := mk {
  CampaignID : option string;
  CardID : option string;
  Direction : string;
  Status : string;
  From : Z;
  To : Z;
  Page : Z;
  PageSize : Z
}.
End MessageFilter.

Definition oneDay : Z := 24 * 3600 * 1000000000.

(** The WHERE clauses. *)
Definition matches (f : MessageFilter.t) (from to_ : Z) (r : HistoryRow.t) : Prop :=
  from <= HistoryRow.CreatedAt r /\ HistoryRow.CreatedAt r <= to_ /\
  (MessageFilter.CampaignID f = None \/ HistoryRow.CampaignID r = MessageFilter.CampaignID f) /\
  (MessageFilter.CardID f = None \/ MessageFilter.CardID f = Some (HistoryRow.CardID r)) /\
  (MessageFilter.Direction f = "" \/ HistoryRow.Direction r = MessageFilter.Direction f) /\
  (MessageFilter.Status f = "" \/ HistoryRow.Status r = MessageFilter.Status f).
#[global] Instance matches_dec f from to_ r : Decision (matches f from to_ r).
Proof. unfold matches. apply _. Defined.

Definition ListMessages (f : MessageFilter.t) : HM (list MessageRecord.t * Z) :=
  let page := if MessageFilter.Page f <=? 0 then 1 else MessageFilter.Page f in
  let pageSize := if MessageFilter.PageSize f <=? 0 then 20 else MessageFilter.PageSize f in
  do! to_ <- (if MessageFilter.To f =? 0 then now else ret (MessageFilter.To f));
  let from := if MessageFilter.From f =? 0 then to_ - oneDay else MessageFilter.From f in
  do! total <- mwrap "count messages: %w" (queryTable (fun t => zlen (filter (matches f from to_) t)));
  let offset := (page - 1) * pageSize in
  do! rows <- mwrap "list messages: %w"
    (queryTable (fun t => take (Z.to_nat pageSize) (drop (Z.to_nat offset) (merge_sort newest (filter (matches f from to_) t)))));
  ret (toMessageRecord <$> rows, total).

Definition RecentActivity (limit : Z) : HM (list MessageRecord.t) :=
  let limit := if limit <=? 0 then 50 else limit in
  do! rows <- mwrap "recent activity: %w" (queryTable (fun t => take (Z.to_nat limit) (merge_sort newest t)));
  ret (toMessageRecord <$> rows).

(** ** Aggregates *)

Definition delivered (r : HistoryRow.t) : Prop :=
  HistoryRow.DLRStatus r = Some "DELIVRD" \/ HistoryRow.Status r = "delivered".
Definition undelivered (r : HistoryRow.t) : Prop :=
  HistoryRow.DLRStatus r <> None /\ HistoryRow.DLRStatus r <> Some "DELIVRD" /\ HistoryRow.DLRStatus r <> Some "".
#[global] Instance delivered_dec r : Decision (delivered r).
Proof. unfold delivered. apply _. Defined.
#[global] Instance undelivered_dec r : Decision (undelivered r).
Proof. unfold undelivered. apply _. Defined.

(** [created_at >= since], and the campaign if one is given. *)
Definition since (t0 : Z) (campaignID : option string) (r : HistoryRow.t) : Prop :=
  t0 <= HistoryRow.CreatedAt r /\ (campaignID = None \/ HistoryRow.CampaignID r = campaignID).
#[global] Instance since_dec t0 c r : Decision (since t0 c r).
Proof. unfold since. apply _. Defined.

Definition count (P : HistoryRow.t -> Prop) `{!forall r, Decision (P r)} (t : Table) : Z := zlen (filter P t).

Module MessageMetrics.
Record t := mk { Total : Z; MT : Z; MO : Z; Delivered : Z; Undelivered : Z }.
End MessageMetrics.

Definition metricsOf (t : Table) : MessageMetrics.t :=
  MessageMetrics.mk (zlen t) (count (fun r => HistoryRow.Direction r = "MT") t) (count (fun r => HistoryRow.Direction r = "MO") t)
    (count delivered t) (count undelivered t).

Definition messageMetrics (t0 : Z) (campaignID : option string) : HM MessageMetrics.t :=
  mwrap "message metrics: %w" (queryTable (fun t => metricsOf (filter (since t0 campaignID) t))).

Module ThroughputPoint.
Record t := mk { Timestamp : Z; Sent : Z; Delivered : Z; Failed : Z }.
End ThroughputPoint.

(** time_bucket of a width that divides a day. *)
Definition time_bucket (width created : Z) : Z := created / width * width.

(** The distinct values of a list in ascending order. *)
Definition ascending (l : list Z) : list Z := merge_sort Z.le (remove_dups l).

Definition pointOf (width : Z) (t : Table) (b : Z) : ThroughputPoint.t :=
  let rows := filter (fun r => time_bucket width (HistoryRow.CreatedAt r) = b) t in
  ThroughputPoint.mk b (count (fun r => HistoryRow.Direction r = "MT") rows) (count delivered rows) (count undelivered rows).

Definition throughputOf (width : Z) (t : Table) : list ThroughputPoint.t :=
  pointOf width t <$> ascending ((fun r => time_bucket width (HistoryRow.CreatedAt r)) <$> t).

Definition throughput (t0 : Z) (campaignID : option string) (width : Z) : HM (list ThroughputPoint.t) :=
  mwrap "throughput query: %w" (queryTable (fun t => throughputOf width (filter (since t0 campaignID) t))).

Definition oneHour : Z := 3600 * 1000000000.
Definition Throughput (t0 : Z) : HM (list ThroughputPoint.t) := throughput t0 None oneHour.
Definition CampaignThroughput (campaignID : string) (t0 : Z) : HM (list ThroughputPoint.t) := throughput t0 (Some campaignID) oneHour.

Module ErrorCount.
Record t := mk { Key : string; Count : Z }.
End ErrorCount.

Definition more (a b : ErrorCount.t) : Prop := ErrorCount.Count b <= ErrorCount.Count a.
#[global] Instance more_dec a b : Decision (more a b).
Proof. unfold more. apply _. Defined.

(** SELECT key, COUNT( * ) ... GROUP BY key ORDER BY count DESC, the key of a row being [f r] *)
Definition grouped (f : HistoryRow.t -> option string) (t : Table) : list ErrorCount.t :=
  merge_sort more
    ((fun k => ErrorCount.mk k (count (fun r => f r = Some k) t)) <$> remove_dups (omap f t)).

Definition statusError (r : HistoryRow.t) : option string :=
  if bool_decide (HistoryRow.Status r ∈ ["created"; "delivered"; "submitted"]) then None else Some (HistoryRow.Status r).
Definition dlrError (r : HistoryRow.t) : option string :=
  if bool_decide (undelivered r) then HistoryRow.DLRStatus r else None.
(** [por_status_code::text] *)
Definition porError (r : HistoryRow.t) : option string :=
  match HistoryRow.PORStatusCode r with
  | Some z => if z =? 0 then None else Some (pretty z)
  | None => None
  end.

Definition errorSummary (t0 : Z) (campaignID : option string)
    : HM (list ErrorCount.t * list ErrorCount.t * list ErrorCount.t) :=
  let group f := queryTable (fun t => grouped f (filter (since t0 campaignID) t)) in
  do! statusErrors <- mwrap "status error summary: %w" (group statusError);
  do! dlrErrors <- mwrap "DLR error summary: %w" (group dlrError);
  do! porErrors <- mwrap "POR error summary: %w" (group porError);
  ret (statusErrors, dlrErrors, porErrors).
