(* ===== verification/MessageHistoryProps.v ===== *)
(** * Properties of the message history

    The writer's batching does not show in the columns it can merge, and does
    show in the others; pages and aggregates of the queries add up. *)

From S2P Require Import Prelude Effects Models Pipeline Store StateWriter StateWriterProps Sql MessageHistory.

(** ** The columns a pending row can take *)

(** status, counter_hex, smpp_message_id *)
Definition tracked : Type := string * option string * option string.

Definition trackOf (r : HistoryRow.t) : tracked :=
  (HistoryRow.Status r, HistoryRow.CounterHex r, HistoryRow.SMPPMessageID r).

Definition applyTrack (u : gmap string value) (t : tracked) : tracked :=
  let '(st, ctr, smpp) := t in
  (default st (strField u "status"),
   match strField u "counter_hex" with Some v => Some v | None => ctr end,
   match strField u "smpp_message_id" with Some v => Some v | None => smpp end).

(** A value fits its column. *)
Definition typedFor (k : string) (v : value) : Prop :=
  match v with
  | VStr _ => k ∈ ["status"; "smpp_message_id"; "counter_hex"; "dlr_status"; "error_code"]
  | VInt _ => k ∈ ["por_status_code"; "updated_at"]
  | VBytes _ => k = "por_data"
  end.

Definition typed (u : gmap string value) : Prop := map_Forall (fun k v => k ∈ allowed -> typedFor k v) u.

Lemma applyUpdates_track u r : trackOf (applyUpdatesToRow u r) = applyTrack u (trackOf r) /\
  HistoryRow.ID (applyUpdatesToRow u r) = HistoryRow.ID r.
Proof. by destruct r. Qed.

Lemma strField_union u v k :
  typed u -> k ∈ ["status"; "counter_hex"; "smpp_message_id"] ->
  strField (u ∪ v) k = match strField u k with Some s => Some s | None => strField v k end.
Proof.
  intros Hu Hk. unfold strField. rewrite lookup_union. destruct (u !! k) as [x|] eqn:E; [|by destruct (v !! k)].
  assert (Hx : Some x ∪ v !! k = Some x) by (by destruct (v !! k)). rewrite Hx. apply Hu in E. assert (Ha : k ∈ allowed) by (unfold allowed; set_solver). specialize (E Ha).
  destruct x as [s|z|b]; [done|exfalso..]; cbn in E; rewrite !elem_of_cons in Hk; (try rewrite !elem_of_cons in E);
    repeat match goal with H : _ ∈ [] |- _ => by apply not_elem_of_nil in H | H : _ \/ _ |- _ => destruct H end; congruence.
Qed.

(** One update after the other is both at once. *)
Lemma applyTrack_union u v t : typed u -> applyTrack (u ∪ v) t = applyTrack u (applyTrack v t).
Proof.
  intros Hu. destruct t as [[st ctr] smpp]. unfold applyTrack.
  rewrite !strField_union by (done || set_solver). by repeat destruct (strField u _).
Qed.

(** Setting one column. *)
Lemma setColumn_typed k v r :
  typedFor k v -> exists r', setColumn k v r = Some r' /\ HistoryRow.ID r' = HistoryRow.ID r /\
    HistoryRow.CreatedAt r' = HistoryRow.CreatedAt r /\ trackOf r' = applyTrack {[k := v]} (trackOf r).
Proof.
  destruct r as [id camp card dir st raw sec ctr smpp dlr por pord err cr up]. unfold trackOf, applyTrack, strField. cbn.
  destruct v as [s|z|b]; cbn [typedFor]; intros Hk.
  - rewrite !elem_of_cons in Hk. destruct Hk as [->|[->|[->|[->|[->|Hk]]]]]; [..|by apply not_elem_of_nil in Hk];
      (eexists; split; [reflexivity|]; by vm_compute).
  - rewrite !elem_of_cons in Hk. destruct Hk as [->|[->|Hk]]; [..|by apply not_elem_of_nil in Hk];
      (eexists; split; [reflexivity|]; by vm_compute).
  - subst k. eexists; split; [reflexivity|]; by vm_compute.
Qed.

Lemma setColumns_typed l r :
  NoDup l.*1 -> Forall (fun kv => typedFor (fst kv) (snd kv)) l ->
  exists r', setColumns l r = Some r' /\ HistoryRow.ID r' = HistoryRow.ID r /\
    HistoryRow.CreatedAt r' = HistoryRow.CreatedAt r /\ trackOf r' = applyTrack (list_to_map l) (trackOf r).
Proof.
  unfold setColumns. revert r. induction l as [|[k v] l IH]; intros r Hnd Ht.
  { exists r. split; [done|]. split; [done|]. split; [done|]. by destruct r. }
  apply NoDup_cons in Hnd as [Hk Hnd]. apply Forall_cons in Ht as [Hkv Ht]. cbn [foldl fst snd mbind option_bind].
  destruct (setColumn_typed k v r Hkv) as (r1 & -> & Hid & Hcr & Htr). destruct (IH r1 Hnd Ht) as (r' & Hrun & Hid' & Hcr' & Htr').
  exists r'. split; [done|]. split; [congruence|]. split; [congruence|]. rewrite Htr', Htr, <- applyTrack_union.
  - f_equal. rewrite map_union_comm; [|apply map_disjoint_singleton_r_2, not_elem_of_list_to_map_1; done].
    change (list_to_map ((k, v) :: l) : gmap string value) with (<[k := v]> (list_to_map l) : gmap string value).
    by rewrite insert_union_singleton_l.
  - intros k' v' Hl _. apply elem_of_list_to_map_2 in Hl. rewrite Forall_forall in Ht. by apply (Ht (k', v')).
Qed.

(** ** Rows of one message *)

Definition rowsOf (id : string) (t : Table) : Table := filter (fun r => HistoryRow.ID r = id) t.

Lemma rowsOf_app id t1 t2 : rowsOf id (t1 ++ t2) = rowsOf id t1 ++ rowsOf id t2.
Proof. apply filter_app. Qed.

Lemma insertAll_rowsOf id rows t :
  (rowsOf id t = [] \/ rowsOf id rows = []) -> (length (rowsOf id rows) <= 1)%nat ->
  rowsOf id (foldl insertHistory t rows) = rowsOf id t ++ rowsOf id rows.
Proof.
  revert t. induction rows as [|r rows IH]; intros t Hor Hlen; cbn [foldl]; [by rewrite app_nil_r|].
  unfold rowsOf in *. destruct (decide (HistoryRow.ID r = id)) as [Hid|Hid].
  - rewrite filter_cons_True in Hor, Hlen |- * by done. destruct Hor as [Ht|]; [|done]. cbn [length] in Hlen.
    assert (Hrest : filter (fun r => HistoryRow.ID r = id) rows = []) by (apply nil_length_inv; lia).
    assert (Hins : insertHistory t r = t ++ [r]).
    { unfold insertHistory. rewrite bool_decide_false; [done|]. intros (r' & E & Hr')%list_elem_of_fmap.
      assert (Hin : r' ∈ filter (fun r => HistoryRow.ID r = id) t) by (apply list_elem_of_filter; split; [injection E; congruence | done]).
      rewrite Ht in Hin. by apply not_elem_of_nil in Hin. }
    rewrite Hins, IH; [|by right | rewrite Hrest; cbn; lia]. rewrite filter_app, Ht, Hrest. by rewrite filter_cons_True.
  - rewrite filter_cons_False in Hor, Hlen |- * by done.
    assert (Hins : filter (fun r => HistoryRow.ID r = id) (insertHistory t r) = filter (fun r => HistoryRow.ID r = id) t).
    { unfold insertHistory. case_bool_decide; [done|]. rewrite filter_app, filter_cons_False by done. by rewrite app_nil_r. }
    rewrite IH; [by rewrite Hins | by rewrite Hins | done].
Qed.

Lemma execTable_run f y t : faultless y -> execTable f (y, t) = (Ok tt, (set_tick (S (tick y)) y, f t)).
Proof. intros Hf. unfold execTable, bindM, ask. cbn. by rewrite Hf. Qed.
Lemma queryTable_run {A} (f : Table -> A) y t : faultless y -> queryTable f (y, t) = (Ok (f t), (set_tick (S (tick y)) y, t)).
Proof. intros Hf. unfold queryTable, bindM, ask. cbn. by rewrite Hf. Qed.

Lemma copyHistory_run l y t :
  faultless y -> let b := bool_decide (NoDup (historyKey <$> t ++ l)) in
  try (copyHistory l) (y, t) = (Ok (if b then Ok tt else Err duplicateKey), (set_tick (S (tick y)) y, if b then t ++ l else t)).
Proof.
  intros Hf b. unfold try, copyHistory. rewrite (run_bind _ _ _ _ _ (queryTable_run _ _ _ Hf)). fold b. by destruct b.
Qed.

(** ** The flush *)

Lemma setColumns_ID l r r' : setColumns l r = Some r' -> HistoryRow.ID r' = HistoryRow.ID r.
Proof.
  unfold setColumns. revert r. induction l as [|[k v] l IH]; intros r; cbn [foldl fst snd mbind option_bind]; [by intros [= <-]|].
  destruct (setColumn k v r) as [r1|] eqn:E.
  - intros H. rewrite (IH _ H). destruct r. revert E. cbn. repeat case_match; by intros [= <-].
  - intros H. exfalso. clear -H. induction l; [done | auto].
Qed.

Lemma updateHistory_other j sets t t' id : updateHistory j sets t = Some t' -> j <> id -> rowsOf id t' = rowsOf id t.
Proof.
  unfold updateHistory. intros H Hne. apply mapM_Some in H. unfold rowsOf.
  induction H as [|r r' t t' Hr _ IH]; [done|]. assert (Hid : HistoryRow.ID r' = HistoryRow.ID r).
  { case_bool_decide; [by apply setColumns_ID in Hr | by injection Hr as <-]. }
  destruct (decide (HistoryRow.ID r = id)) as [Hd|Hd].
  - rewrite !filter_cons_True by congruence. rewrite IH. rewrite bool_decide_false in Hr by congruence. by injection Hr as <-.
  - by rewrite !filter_cons_False by congruence.
Qed.

Lemma updateHistory_self id sets t r :
  NoDup sets.*1 -> Forall (fun kv => typedFor (fst kv) (snd kv)) sets -> rowsOf id t = [r] ->
  exists t' r', updateHistory id sets t = Some t' /\ rowsOf id t' = [r'] /\ setColumns sets r = Some r'.
Proof.
  intros Hnd Ht. unfold updateHistory. revert r. induction t as [|r0 t IH]; intros r Hr; [done|]. unfold rowsOf in *. cbn [mapM].
  destruct (decide (HistoryRow.ID r0 = id)) as [Hid|Hid].
  - rewrite filter_cons_True in Hr by done. injection Hr as -> Hrest. rewrite bool_decide_true by done.
    destruct (setColumns_typed sets r Hnd Ht) as (r' & Hset & Hid' & _). rewrite Hset. cbn.
    assert (Hm : mapM (fun r => if bool_decide (HistoryRow.ID r = id) then setColumns sets r else Some r) t = Some t).
    { apply mapM_Some, Forall_Forall2_diag, Forall_forall. intros x Hx. rewrite bool_decide_false; [done|]. intros E.
      assert (Hin : x ∈ filter (fun r => HistoryRow.ID r = id) t) by (by apply list_elem_of_filter). rewrite Hrest in Hin.
      by apply not_elem_of_nil in Hin. }
    rewrite Hm. exists (r' :: t), r'. split; [done|]. rewrite filter_cons_True by congruence. by rewrite Hrest.
  - rewrite filter_cons_False in Hr by done. rewrite bool_decide_false by done. cbn. destruct (IH r Hr) as (t' & r' & -> & Hrows & Hset).
    exists (r0 :: t'), r'. split; [done|]. by rewrite filter_cons_False.
Qed.

Section Batching.
Context (parse : string -> option string) (pgxConn : bool) (cfg : MessageWriterConfig) (id : string).
Hypothesis only_id : forall i, parse i = Some id <-> i = id.

Lemma insertHistoryChunks_run pieces y t :
  faultless y -> exists y', insertHistoryChunks pieces (y, t) = (Ok tt, (y', foldl insertHistory t (concat pieces))) /\ faultless y'.
Proof using.
  revert y t. induction pieces as [|p pieces IH]; intros y t Hf; cbn [insertHistoryChunks concat]; [by exists y|].
  rewrite (run_bind _ _ _ _ _ (execTable_run _ _ _ Hf)). destruct (IH (set_tick (S (tick y)) y) (foldl insertHistory t p) Hf) as (y' & -> & Hf').
  exists y'. by rewrite foldl_app.
Qed.

Lemma flushCreates_run rows y t :
  faultless y -> (rowsOf id t = [] \/ rowsOf id rows = []) -> (length (rowsOf id rows) <= 1)%nat ->
  exists y' t', flushMessageCreates pgxConn rows (y, t) = (Ok tt, (y', t')) /\ faultless y' /\
    rowsOf id t' = rowsOf id t ++ rowsOf id rows.
Proof using.
  intros Hf Hor Hlen. unfold flushMessageCreates. destruct rows as [|r rows]; [exists y, t; by rewrite app_nil_r|]. set (l := r :: rows) in *.
  rewrite (run_bind _ _ _ _ _ (run_wrap _ _ _ _ _ (queryTable_run _ _ _ Hf))).
  rewrite (run_bind _ _ _ _ _ (run_wrap _ _ _ _ _ (queryTable_run _ _ _ (Hf : faultless (set_tick _ y))))).
  assert (Hfall : forall n, exists y' t', flushMessageCreatesFallback l (set_tick n y, t) = (Ok tt, (y', t')) /\ faultless y' /\
    rowsOf id t' = rowsOf id t ++ rowsOf id l).
  { intros n. destruct (insertHistoryChunks_run (chunks historyMaxRows l) (set_tick n y) t Hf) as (y' & Hrun & Hf').
    rewrite concat_chunks in Hrun by (apply Nat.ltb_lt; vm_compute; reflexivity). eexists _, _. split; [exact Hrun|]. split; [done|]. by apply insertAll_rowsOf. }
  destruct pgxConn; cbn [negb]; [|apply Hfall].
  erewrite run_bind by (apply copyHistory_run; exact Hf). destruct (bool_decide _); [|apply Hfall].
  eexists _, _. split; [reflexivity|]. split; [exact Hf | apply rowsOf_app].
Qed.

Lemma filtered_track u t : applyTrack (filteredFields u) t = applyTrack u t.
Proof using.
  clear only_id parse pgxConn cfg id.
  destruct t as [[st ctr] smpp]. unfold applyTrack, strField, filteredFields.
  assert (Hk : forall k, k ∈ allowed -> filter (fun kv : string * value => fst kv ∈ allowed) u !! k = u !! k).
  { intros k Hk. destruct (u !! k) as [v|] eqn:E; [by apply map_lookup_filter_Some | apply map_lookup_filter_None; by left]. }
  by rewrite !Hk by (unfold allowed; set_solver).
Qed.

Lemma flushUpdate_run i u y t :
  faultless y ->
  exists y' t', flushUpdate parse i u (y, t) = (Ok tt, (y', t')) /\ faultless y' /\
    (i <> id -> rowsOf id t' = rowsOf id t) /\
    (i = id -> typed u -> forall r, rowsOf id t = [r] -> exists r', rowsOf id t' = [r'] /\ trackOf r' = applyTrack u (trackOf r)).
Proof using only_id.
  intros Hf. unfold flushUpdate. destruct (parse i) as [j|] eqn:Ej.
  2: { exists y, t. split; [done|]. split; [done|]. split; [done|]. intros ->. by rewrite (proj2 (only_id id) eq_refl) in Ej. }
  assert (Hiff : j = id <-> i = id) by (rewrite <- (only_id i), Ej; split; [by intros -> | by intros [=]]).
  case_bool_decide as He.
  { exists y, t. split; [done|]. split; [done|]. split; [done|]. intros _ _ r Hr. exists r. split; [done|].
    rewrite <- filtered_track, He. by destruct r. }
  assert (Hfill : exists y1 fs, (match filteredFields u !! "updated_at" with
      | Some _ => ret (filteredFields u)
      | None => do! at_ <- now; ret (<["updated_at" := VInt at_]> (filteredFields u)) end : HM (gmap string value)) (y, t) = (Ok fs, (y1, t)) /\
    faultless y1 /\ (forall tr, applyTrack fs tr = applyTrack u tr) /\ (typed u -> Forall (fun kv => typedFor (fst kv) (snd kv)) (map_to_list fs))).
  { assert (Htyped : typed u -> forall k v, filteredFields u !! k = Some v -> typedFor k v).
    { intros Hu k v [Hk Ha]%map_lookup_filter_Some. by apply (Hu k v Hk). }
    destruct (filteredFields u !! "updated_at") as [v0|] eqn:Eu.
    - exists y, (filteredFields u). split; [done|]. split; [done|]. split; [apply filtered_track|]. intros Hu.
      rewrite Forall_forall. intros [k v] Hkv%elem_of_map_to_list. by apply Htyped.
    - eexists _, _. split; [reflexivity|]. split; [exact Hf|]. split.
      + intros tr. rewrite <- (filtered_track u). destruct tr as [[st ctr] smpp]. unfold applyTrack, strField. by rewrite !lookup_insert_ne.
      + intros Hu. rewrite Forall_forall. intros [k v] Hkv%elem_of_map_to_list. apply lookup_insert_Some in Hkv as [[<- <-]|[_ Hkv]]; [cbn; set_solver|].
        by apply Htyped. }
  destruct Hfill as (y1 & fs & Hrun & Hf1 & Htr & Hty). rewrite (run_bind _ _ _ _ _ Hrun).
  assert (Hexec : execUpdate j (map_to_list fs) (y1, t) = match updateHistory j (map_to_list fs) t with
    | Some t' => (Ok tt, (set_tick (S (tick y1)) y1, t')) | None => (Err typeMismatch, (set_tick (S (tick y1)) y1, t)) end).
  { unfold execUpdate. rewrite (run_bind _ _ _ _ _ (queryTable_run _ _ _ Hf1)). by destruct (updateHistory _ _ _). }
  unfold ignore, bindM, try. rewrite Hexec. destruct (updateHistory j (map_to_list fs) t) as [t'|] eqn:Eup.
  - eexists _, t'. split; [reflexivity|]. split; [exact Hf1|]. split; [intros Hne; apply (updateHistory_other _ _ _ _ id Eup); tauto|].
    intros -> Hu r Hr. assert (j = id) as -> by tauto.
    destruct (updateHistory_self id (map_to_list fs) t r (NoDup_fst_map_to_list fs) (Hty Hu) Hr) as (t2 & r' & E2 & Hrows & Hset).
    rewrite Eup in E2. injection E2 as <-. exists r'. split; [done|].
    destruct (setColumns_typed (map_to_list fs) r (NoDup_fst_map_to_list fs) (Hty Hu)) as (r2 & Hset2 & _ & _ & Htrack).
    rewrite Hset in Hset2. injection Hset2 as <-. by rewrite Htrack, list_to_map_to_list.
  - eexists _, t. split; [reflexivity|]. split; [exact Hf1|]. split; [done|]. intros -> Hu r Hr. assert (j = id) as -> by tauto.
    destruct (updateHistory_self id (map_to_list fs) t r (NoDup_fst_map_to_list fs) (Hty Hu) Hr) as (t2 & r' & E2 & _). congruence.
Qed.

Lemma flushUpdates_run l y t :
  faultless y -> NoDup l.*1 ->
  exists y' t', flushMessageUpdates parse l (y, t) = (Ok tt, (y', t')) /\ faultless y' /\
    match (list_to_map l : gmap string (gmap string value)) !! id with
    | None => rowsOf id t' = rowsOf id t
    | Some u => typed u -> forall r, rowsOf id t = [r] -> exists r', rowsOf id t' = [r'] /\ trackOf r' = applyTrack u (trackOf r)
    end.
Proof using only_id.
  revert y t. induction l as [|[i u] l IH]; intros y t Hf Hnd; cbn [flushMessageUpdates]; [exists y, t; done|].
  apply NoDup_cons in Hnd as [Hi Hnd]. destruct (flushUpdate_run i u y t Hf) as (y1 & t1 & Hrun & Hf1 & Hother & Hself).
  rewrite (run_bind _ _ _ _ _ Hrun). destruct (IH y1 t1 Hf1 Hnd) as (y' & t' & Hrun' & Hf' & Htail). exists y', t'.
  split; [done|]. split; [done|]. change (list_to_map ((i, u) :: l)) with (<[i := u]> (list_to_map l : gmap string (gmap string value))).
  destruct (decide (i = id)) as [->|Hne].
  - rewrite lookup_insert_eq. rewrite not_elem_of_list_to_map_1 in Htail by done. intros Hu r Hr. rewrite Htail. by apply Hself.
  - rewrite lookup_insert_ne by done. rewrite Hother in Htail by done. done.
Qed.

(** Pending rows are filed under the id they were parsed from. *)
Record sane (w : MsgWriter) : Prop := {
  sane_calm : faultless (mw_sys w);
  sane_keys : forall i row, mw_creates w !! i = Some row -> parse i = Some (HistoryRow.ID row)
}.

Lemma rowsOf_creates (m : gmap string HistoryRow.t) :
  (forall i row, m !! i = Some row -> parse i = Some (HistoryRow.ID row)) ->
  rowsOf id (map_to_list m).*2 = match m !! id with Some r => [r] | None => [] end.
Proof using only_id.
  intros Hk. assert (Hnone : forall m' : gmap string HistoryRow.t, (forall i row, m' !! i = Some row -> parse i = Some (HistoryRow.ID row)) -> m' !! id = None ->
    rowsOf id (map_to_list m').*2 = []).
  { intros m' Hk' Hid. apply elem_of_nil_inv. intros r [Hr Hin]%list_elem_of_filter. apply list_elem_of_fmap in Hin as ([i r0] & -> & Hin).
    apply elem_of_map_to_list in Hin. pose proof (Hk' _ _ Hin) as Hp. cbn in Hr. rewrite Hr in Hp. apply only_id in Hp as ->. congruence. }
  destruct (m !! id) as [r|] eqn:E; [|by apply Hnone]. apply Permutation_singleton_r.
  assert (Hid : HistoryRow.ID r = id).
  { pose proof (Hk _ _ E) as Hp. rewrite (proj2 (only_id id) eq_refl) in Hp. by injection Hp. }
  unfold rowsOf. rewrite <- (insert_delete_id m id r E). rewrite map_to_list_insert by apply lookup_delete_eq.
  cbn [fmap list_fmap snd]. rewrite filter_cons_True by done.
  change (filter (fun r => HistoryRow.ID r = id) (map_to_list (delete id m)).*2) with (rowsOf id (map_to_list (delete id m)).*2).
  rewrite Hnone; [done | | apply lookup_delete_eq]. intros i row [_ Hrow]%lookup_delete_Some. by apply Hk.
Qed.

(** Nothing of the message yet; or its row, pending or written, stands at [t]. *)
Definition absent (w : MsgWriter) : Prop :=
  sane w /\ mw_creates w !! id = None /\ mw_updates w !! id = None /\ rowsOf id (mw_table w) = [].

Definition standsAt (t : tracked) (w : MsgWriter) : Prop :=
  sane w /\
  ((exists r, mw_creates w !! id = Some r /\ trackOf r = t /\ mw_updates w !! id = None /\ rowsOf id (mw_table w) = []) \/
   (mw_creates w !! id = None /\ exists r, rowsOf id (mw_table w) = [r] /\ typed (default ∅ (mw_updates w !! id)) /\
      applyTrack (default ∅ (mw_updates w !! id)) (trackOf r) = t)).

Lemma msgFlush_run w :
  sane w -> (mw_creates w !! id = None \/ rowsOf id (mw_table w) = []) ->
  exists t1 y' t', msgFlush parse pgxConn w = mkMsgWriter y' t' ∅ ∅ (mw_returned w) /\ faultless y' /\
    rowsOf id t1 = rowsOf id (mw_table w) ++ match mw_creates w !! id with Some r => [r] | None => [] end /\
    match mw_updates w !! id with
    | None => rowsOf id t' = rowsOf id t1
    | Some u => typed u -> forall r, rowsOf id t1 = [r] -> exists r', rowsOf id t' = [r'] /\ trackOf r' = applyTrack u (trackOf r)
    end.
Proof using only_id.
  intros [Hf Hk] Hor. unfold msgFlush. pose proof (rowsOf_creates _ Hk) as Hrows.
  assert (H1 : exists y1 t1, (if bool_decide (mw_creates w = ∅) then (mw_sys w, mw_table w)
      else snd (flushMessageCreates pgxConn (map_to_list (mw_creates w)).*2 (mw_sys w, mw_table w))) = (y1, t1) /\ faultless y1 /\
    rowsOf id t1 = rowsOf id (mw_table w) ++ match mw_creates w !! id with Some r => [r] | None => [] end).
  { case_bool_decide as He; [exists (mw_sys w), (mw_table w); by rewrite He, lookup_empty, app_nil_r|].
    destruct (flushCreates_run (map_to_list (mw_creates w)).*2 (mw_sys w) (mw_table w) Hf) as (y1 & t1 & Hrun & Hf1 & Ht1).
    - destruct Hor as [Hc|Ht]; [right; by rewrite Hrows, Hc | by left].
    - rewrite Hrows. destruct (mw_creates w !! id); cbn; lia.
    - exists y1, t1. rewrite Hrun. split; [done|]. split; [done|]. by rewrite Ht1, Hrows. }
  destruct H1 as (y1 & t1 & -> & Hf1 & Ht1). case_bool_decide as He.
  - exists t1, y1, t1. split; [done|]. split; [done|]. split; [done|]. by rewrite He, lookup_empty.
  - destruct (flushUpdates_run (map_to_list (mw_updates w)) y1 t1 Hf1 (NoDup_fst_map_to_list _)) as (y' & t' & Hrun & Hf' & Hm).
    rewrite list_to_map_to_list in Hm. exists t1, y', t'. rewrite Hrun. by split_and!.
Qed.

Lemma sane_empty y t b : faultless y -> sane (mkMsgWriter y t ∅ ∅ b).
Proof using. intros Hf. split; [done|]. intros i row H. cbn in H. by rewrite lookup_empty in H. Qed.

Lemma flush_absent w : absent w -> absent (msgFlush parse pgxConn w).
Proof using only_id.
  intros (Hs & Hc & Hu & Ht). destruct (msgFlush_run w Hs (or_introl Hc)) as (t1 & y' & t' & -> & Hf & Ht1 & Hm).
  rewrite Hc, Ht in Ht1. rewrite Hu in Hm. split; [by apply sane_empty|].
  split; [apply lookup_empty|]. split; [apply lookup_empty|]. by transitivity (rowsOf id t1).
Qed.

Lemma flush_standsAt t w : standsAt t w ->
  standsAt t (msgFlush parse pgxConn w) /\ exists r, rowsOf id (mw_table (msgFlush parse pgxConn w)) = [r] /\ trackOf r = t.
Proof using only_id.
  intros [Hs Hw]. enough (H : exists y' t' r, msgFlush parse pgxConn w = mkMsgWriter y' t' ∅ ∅ (mw_returned w) /\ faultless y' /\
    rowsOf id t' = [r] /\ trackOf r = t).
  { destruct H as (y' & t' & r & -> & Hf & Hr & Htr). split; [|by exists r]. split; [by apply sane_empty|]. right.
    split; [apply lookup_empty|]. exists r. cbn [mw_updates mw_table]. rewrite lookup_empty. split; [done|]. split; [apply map_Forall_empty|].
    rewrite <- Htr. by destruct r. }
  destruct Hw as [(r & Hc & Htr & Hu & Ht)|(Hc & r & Ht & Hty & Htr)].
  - destruct (msgFlush_run w Hs (or_intror Ht)) as (t1 & y' & t' & Hfl & Hf & Ht1 & Hm). rewrite Hc, Ht in Ht1. rewrite Hu in Hm.
    exists y', t', r. by rewrite Hm, Ht1.
  - destruct (msgFlush_run w Hs (or_introl Hc)) as (t1 & y' & t' & Hfl & Hf & Ht1 & Hm). rewrite Hc, Ht in Ht1.
    destruct (mw_updates w !! id) as [u|]; cbn [default from_option] in Hty, Htr.
    + change (typed u) in Hty. change (applyTrack u (trackOf r) = t) in Htr. destruct (Hm Hty r Ht1) as (r' & Hr' & Htr'). exists y', t', r'. by rewrite Htr', Htr.
    + exists y', t', r. rewrite Hm, Ht1. by split_and!.
Qed.

(** ** Steps *)

(** The columns of a log entry. *)
Definition entryTrack (e : MessageLogEntry.t) : tracked :=
  (MessageLogEntry.Status e, nonEmpty (MessageLogEntry.CounterHex e), nonEmpty (MessageLogEntry.SMPPMessageID e)).

Definition convertible (e : MessageLogEntry.t) : Prop :=
  is_Some (parse (MessageLogEntry.CardID e)) /\
  (MessageLogEntry.CampaignID e = "" \/ is_Some (parse (MessageLogEntry.CampaignID e))).

Lemma parse_sys field s : preserves sys_le (parseField parse field s : M Sys string).
Proof using. unfold parseField. destruct (parse s); [apply preserves_ret, _ | apply preserves_err, _]. Qed.

Lemma convert_sys e y r y' : convertLogEntry parse e y = (r, y') -> faultless y -> faultless y'.
Proof using.
  intros H Hf. assert (Hp : preserves sys_le (convertLogEntry parse e)).
  { apply preserves_bind; [apply _ | apply parse_sys|]. intros i. apply preserves_bind; [apply _ | apply parse_sys|]. intros card.
    apply preserves_bind; [apply _ | |].
    { apply preserves_if; [apply preserves_ret, _|]. apply preserves_bind; [apply _ | apply parse_sys | intros; apply preserves_ret, _]. }
    intros camp. apply preserves_bind; [apply _ | | intros; apply preserves_ret, _].
    apply preserves_if; [by eexists | apply preserves_ret, _]. }
  specialize (Hp y). rewrite H in Hp. destruct Hp as [n Hn]. cbn in Hn. by rewrite Hn.
Qed.

Lemma convert_run e y :
  MessageLogEntry.ID e = id -> convertible e ->
  exists r y', convertLogEntry parse e y = (Ok r, y') /\ HistoryRow.ID r = id /\ trackOf r = entryTrack e.
Proof using only_id.
  intros Hid [[card Hcard] Hcamp]. unfold convertLogEntry, parseField. rewrite Hid, (proj2 (only_id id) eq_refl), Hcard.
  unfold bindM, ret. case_bool_decide as He.
  - destruct (_ =? 0); (eexists _, _; split; [reflexivity | done]).
  - destruct Hcamp as [|[c ->]]; [done|]. destruct (_ =? 0); (eexists _, _; split; [reflexivity | done]).
Qed.

Lemma convert_ID e y r y' : convertLogEntry parse e y = (Ok r, y') -> parse (MessageLogEntry.ID e) = Some (HistoryRow.ID r).
Proof using.
  intros H. apply bind_inv in H as (i & y1 & Hi & H). apply bind_inv in H as (card & y2 & _ & H).
  apply bind_inv in H as (camp & y3 & _ & H). apply bind_inv in H as (cr & y4 & _ & H). injection H as <- _. cbn [HistoryRow.ID].
  revert Hi. unfold parseField. destruct (parse (MessageLogEntry.ID e)); [|done]. by intros [= -> _].
Qed.

(** A filed row keeps its key. *)
Lemma sane_insert y t creates updates b i row :
  faultless y -> (forall j r, creates !! j = Some r -> parse j = Some (HistoryRow.ID r)) -> parse i = Some (HistoryRow.ID row) ->
  sane (mkMsgWriter y t (<[i := row]> creates) updates b).
Proof using.
  intros Hf Hk Hi. split; [done|]. intros j r. cbn. intros [[<- <-]|[_ Hj]]%lookup_insert_Some; [done | by apply Hk].
Qed.

Lemma maybe_flush (P : MsgWriter -> Prop) (b : bool) w :
  (P w -> P (msgFlush parse pgxConn w)) -> P w -> P (if b then msgFlush parse pgxConn w else w).
Proof using. by destruct b. Qed.

(** Actions that do not concern the message leave it where it is. *)
Definition foreign (c : msg_case) : Prop :=
  match c with
  | MRecv a => (forall e, MessageLogAction.Log a = Some e -> MessageLogEntry.ID e <> id) /\ MessageLogAction.ID a <> id
  | _ => True
  end.

Lemma create_keeps (P : MsgWriter -> Prop) e w :
  (forall w, P w -> P (msgFlush parse pgxConn w)) -> sane w -> MessageLogEntry.ID e <> id ->
  (forall w', sane w' -> mw_table w' = mw_table w -> mw_creates w' !! id = mw_creates w !! id ->
     mw_updates w' !! id = mw_updates w !! id -> P w') ->
  P (onCreate parse pgxConn cfg e w).
Proof using.
  intros Hflush [Hf Hk] Hne HP. unfold onCreate. destruct (convertLogEntry parse e (mw_sys w)) as [r y] eqn:E.
  pose proof (convert_sys _ _ _ _ E Hf) as Hfy. destruct r as [row|err|p]; [|by apply HP..].
  apply maybe_flush; [apply Hflush|]. apply HP; cbn [mw_table mw_creates mw_updates].
  - apply sane_insert; [done | done |]. apply convert_ID in E. rewrite E.
    destruct (mw_updates w !! MessageLogEntry.ID e) as [u|]; [by rewrite (proj2 (applyUpdates_track u row)) | done].
  - done.
  - by rewrite lookup_insert_ne.
  - by rewrite lookup_delete_ne.
Qed.

Lemma update_keeps (P : MsgWriter -> Prop) i u w :
  (forall w, P w -> P (msgFlush parse pgxConn w)) -> sane w -> i <> id ->
  (forall w', sane w' -> mw_table w' = mw_table w -> mw_creates w' !! id = mw_creates w !! id ->
     mw_updates w' !! id = mw_updates w !! id -> P w') ->
  P (onUpdate parse pgxConn cfg i u w).
Proof using.
  intros Hflush [Hf Hk] Hne HP. unfold onUpdate. apply maybe_flush; [apply Hflush|].
  destruct (mw_creates w !! i) as [create|] eqn:E; apply HP; cbn [mw_table mw_creates mw_updates]; try done.
  - apply sane_insert; [done | done |]. rewrite (proj2 (applyUpdates_track _ _)). by apply Hk.
  - by rewrite lookup_insert_ne.
  - by rewrite lookup_insert_ne.
Qed.

Lemma foreign_step (P : MsgWriter -> Prop) c w :
  (forall w, P w -> P (msgFlush parse pgxConn w)) -> (forall w, P w -> sane w) -> (forall w, P w -> P (msgReturning w)) ->
  (forall w w', P w -> sane w' -> mw_table w' = mw_table w -> mw_creates w' !! id = mw_creates w !! id ->
     mw_updates w' !! id = mw_updates w !! id -> P w') ->
  foreign c -> P w -> P (msgStep parse pgxConn cfg w c).
Proof using.
  intros Hflush Hsane Hret Hsame Hc HP. unfold msgStep. destruct (mw_returned w); [done|]. destruct c as [a| | |]; [|auto..].
  destruct Hc as [Hlog Hid]. case_bool_decide; [destruct (MessageLogAction.Log a) as [e|] eqn:El; [|done]|].
  - apply create_keeps; [done | auto | auto |]. intros w'. by apply Hsame.
  - case_bool_decide; [|done]. destruct (_ || _); [done|]. apply update_keeps; [done | auto | done |]. intros w'. by apply Hsame.
Qed.

Lemma absent_foreign c w : foreign c -> absent w -> absent (msgStep parse pgxConn cfg w c).
Proof using only_id.
  apply foreign_step; [apply flush_absent | by intros ? [? _] | by intros ? ([? ?] & ?) |].
  intros w0 w' (_ & Hc & Hu & Ht) Hs Et Ec Eu. split; [done|]. by rewrite Et, Ec, Eu.
Qed.

Lemma standsAt_foreign t c w : foreign c -> standsAt t w -> standsAt t (msgStep parse pgxConn cfg w c).
Proof using only_id.
  apply foreign_step; [intros; by apply flush_standsAt | by intros ? [? _] | by intros ? [[? ?] ?] |].
  intros w0 w' [_ Hw] Hs Et Ec Eu. split; [done|]. by rewrite Et, Ec, Eu.
Qed.

Lemma absent_create e w :
  MessageLogEntry.ID e = id -> convertible e -> absent w -> mw_returned w = false ->
  standsAt (entryTrack e) (msgStep parse pgxConn cfg w (MRecv (MessageLogAction.create e))).
Proof using only_id.
  intros He Hconv ([Hf Hk] & Hc & Hu & Ht) Hr. unfold msgStep. rewrite Hr. cbn [MessageLogAction.create MessageLogAction.Action MessageLogAction.Log].
  rewrite bool_decide_true by done. unfold onCreate. destruct (convert_run e (mw_sys w) He Hconv) as (row & y & Hrun & Hid & Htr).
  rewrite Hrun, He, Hu. apply maybe_flush; [intros; by apply flush_standsAt|]. split.
  - apply sane_insert; [by apply (convert_sys _ _ _ _ Hrun) | done | rewrite Hid; by apply only_id].
  - left. exists row. cbn [mw_creates mw_updates mw_table]. by rewrite lookup_insert_eq, lookup_delete_eq.
Qed.

(** An update of the message. *)
Lemma standsAt_update t u w :
  id <> "" -> u <> [] -> typed (list_to_map u) -> standsAt t w -> mw_returned w = false ->
  standsAt (applyTrack (list_to_map u) t) (msgStep parse pgxConn cfg w (MRecv (MessageLogAction.update id u))).
Proof using only_id.
  intros Hid Hu Hty [[Hf Hk] Hw] Hr. unfold msgStep. rewrite Hr.
  cbn [MessageLogAction.update MessageLogAction.Action MessageLogAction.ID MessageLogAction.Updates].
  rewrite bool_decide_false, bool_decide_true by done. rewrite (bool_decide_false (id = "")), (bool_decide_false (u = [])) by done. cbn [orb].
  unfold onUpdate. apply maybe_flush; [intros; by apply flush_standsAt|].
  destruct Hw as [(r & Hc & Htr & Hup & Ht)|(Hc & r & Ht & Hty0 & Htr)]; rewrite Hc.
  - split; [apply sane_insert; [done | done | rewrite (proj2 (applyUpdates_track _ _)); by apply Hk]|].
    left. exists (applyUpdatesToRow (list_to_map u) r). cbn [mw_creates mw_updates mw_table]. rewrite lookup_insert_eq.
    by rewrite (proj1 (applyUpdates_track _ _)), Htr.
  - split; [by split|]. right. split; [done|]. exists r. cbn [mw_creates mw_updates mw_table]. rewrite lookup_insert_eq.
    split; [done|]. cbn [default from_option]. split; [apply map_Forall_union_2; done|]. change (applyTrack (list_to_map u ∪ default ∅ (mw_updates w !! id)) (trackOf r) = applyTrack (list_to_map u) t).
    by rewrite applyTrack_union, Htr.
Qed.

(** What may come after the message's creation: its own updates, with values that fit their
    columns, and anything about other messages. *)
Definition followUp (c : msg_case) : Prop :=
  foreign c \/ exists u, c = MRecv (MessageLogAction.update id u) /\ u <> [] /\ typed (list_to_map u).

Definition endsLoop (c : msg_case) : bool := match c with MClosed | MDone => true | _ => false end.

(** The columns after the updates received before the loop ends. *)
Fixpoint follow (cases : list msg_case) (t : tracked) : tracked :=
  match cases with
  | MRecv a :: cases =>
      follow cases (if bool_decide (MessageLogAction.ID a = id) then applyTrack (list_to_map (MessageLogAction.Updates a)) t else t)
  | MTick :: cases => follow cases t
  | _ => t
  end.

Lemma step_running w c : endsLoop c = false -> mw_returned w = false -> mw_returned (msgStep parse pgxConn cfg w c) = false.
Proof using.
  intros Hc Hr. unfold msgStep. rewrite Hr. destruct c as [a| | |]; [|done..].
  case_bool_decide; [destruct (MessageLogAction.Log a) as [e|]; [|done]|].
  - unfold onCreate. destruct (convertLogEntry parse e (mw_sys w)) as [[row|err|p] y]; [|done..]. by destruct (_ <=? _).
  - case_bool_decide; [|done]. destruct (_ || _); [done|]. unfold onUpdate. destruct (mw_creates w !! _); by destruct (_ <=? _).
Qed.

Lemma run_returned cases w : mw_returned w = true -> foldl (msgStep parse pgxConn cfg) w cases = w.
Proof using. intros Hr. induction cases as [|c cases IH]; [done|]. cbn [foldl]. unfold msgStep at 2. by rewrite Hr. Qed.

Lemma follow_run cases w t :
  id <> "" -> Forall followUp cases -> existsb endsLoop cases = true -> standsAt t w -> mw_returned w = false ->
  let w' := foldl (msgStep parse pgxConn cfg) w cases in
  mw_returned w' = true /\ exists r, rowsOf id (mw_table w') = [r] /\ trackOf r = follow cases t.
Proof using only_id.
  intros Hid Hall. revert w t. induction Hall as [|c cases Hc _ IH]; intros w t He Hw Hr; [done|]. cbn [foldl existsb follow] in *.
  assert (Hstop : endsLoop c = true -> let w' := foldl (msgStep parse pgxConn cfg) (msgStep parse pgxConn cfg w c) cases in
    mw_returned w' = true /\ exists r, rowsOf id (mw_table w') = [r] /\ trackOf r = t).
  { intros Hend. assert (Hst : msgStep parse pgxConn cfg w c = msgReturning (msgFlush parse pgxConn w)) by (unfold msgStep; rewrite Hr; by destruct c).
    rewrite Hst, run_returned by done. split; [done|]. by destruct (flush_standsAt t w Hw). }
  destruct c as [a| | |]; [| by apply Hstop | | by apply Hstop].
  - assert (Hr1 : mw_returned (msgStep parse pgxConn cfg w (MRecv a)) = false) by (by apply step_running).
    destruct Hc as [Hf|(u & [= ->] & Hu & Hty)].
    + rewrite bool_decide_false by apply Hf. apply IH; [done | by apply standsAt_foreign | done].
    + cbn [MessageLogAction.update MessageLogAction.ID MessageLogAction.Updates]. rewrite bool_decide_true by done.
      apply IH; [done | by apply standsAt_update | done].
  - apply IH; [done | by apply standsAt_foreign; [|] | by apply step_running].
Qed.
End Batching.


(** ** A column that is lost *)

Section Lost.
Context (parse : string -> option string) (cfg : MessageWriterConfig) (id s : string) (e : MessageLogEntry.t) (y : Sys).
Hypothesis id_ok : parse id = Some id.
Hypothesis id_nonempty : id <> "".
Hypothesis entry_ok : MessageLogEntry.ID e = id /\ convertible parse e.
Hypothesis calm0 : faultless y.
Hypothesis batch_ok : 2 <= MsgMaxBatch cfg.

Definition report : msg_case := MRecv (MessageLogAction.update id [("dlr_status", VStr s)]).

Lemma created_run : exists row y1, convertLogEntry parse e y = (Ok row, y1) /\ faultless y1 /\
  HistoryRow.ID row = id /\ HistoryRow.DLRStatus row = None.
Proof using id_ok entry_ok calm0.
  destruct entry_ok as [He [[card Hcard] Hcamp]].
  enough (H : exists row y1, convertLogEntry parse e y = (Ok row, y1) /\ HistoryRow.ID row = id /\ HistoryRow.DLRStatus row = None).
  { destruct H as (row & y1 & Hrun & Hi & Hd). exists row, y1. split; [done|]. split; [by apply (convert_sys parse e y _ _ Hrun) | done]. }
  unfold convertLogEntry, parseField. rewrite He, id_ok, Hcard. unfold bindM, ret. case_bool_decide.
  - destruct (_ =? 0); (eexists _, _; split; [reflexivity | done]).
  - destruct Hcamp as [|[c ->]]; [done|]. destruct (_ =? 0); (eexists _, _; split; [reflexivity | done]).
Qed.

(** Flushing one pending row into an empty table. *)
Lemma flush_one row y1 b :
  faultless y1 -> exists y2, msgFlush parse true (mkMsgWriter y1 [] {[id := row]} ∅ b) = mkMsgWriter y2 [row] ∅ ∅ b /\ faultless y2.
Proof using.
  intros Hf. unfold msgFlush. cbn [mw_sys mw_table mw_creates mw_updates mw_returned].
  rewrite (bool_decide_false ({[id := row]} = (∅ : gmap string HistoryRow.t))) by (by apply map_non_empty_singleton). rewrite (bool_decide_true (∅ = ∅)) by done.
  rewrite map_to_list_singleton. cbn [fmap list_fmap snd]. unfold flushMessageCreates.
  rewrite (run_bind _ _ _ _ _ (run_wrap _ _ _ _ _ (queryTable_run _ _ _ Hf))).
  rewrite (run_bind _ _ _ _ _ (run_wrap _ _ _ _ _ (queryTable_run _ _ _ (Hf : faultless (set_tick _ y1))))). cbn [negb].
  erewrite run_bind by (apply copyHistory_run; exact Hf).
  rewrite bool_decide_true by apply NoDup_singleton. eexists. split; [reflexivity | exact Hf].
Qed.

Lemma recv_create : exists row y1,
  msgStep parse true cfg (mkMsgWriter y [] ∅ ∅ false) (MRecv (MessageLogAction.create e)) = mkMsgWriter y1 [] {[id := row]} ∅ false /\
  faultless y1 /\ HistoryRow.ID row = id /\ HistoryRow.DLRStatus row = None.
Proof using id_ok entry_ok calm0 batch_ok.
  destruct created_run as (row & y1 & Hrun & Hf1 & Hid & Hd). exists row, y1. split; [|done].
  unfold msgStep, onCreate. cbn [mw_returned mw_sys mw_table mw_creates mw_updates MessageLogAction.create MessageLogAction.Action MessageLogAction.Log].
  rewrite bool_decide_true by done. rewrite Hrun, (proj1 entry_ok), lookup_empty, delete_empty, insert_empty.
  rewrite map_size_singleton, (proj2 (Z.leb_gt _ _)) by lia. done.
Qed.

(** The delivery status written to a row that is already in the table. *)
Lemma flush_report row y2 :
  faultless y2 -> HistoryRow.ID row = id ->
  exists y3 row', msgFlush parse true (mkMsgWriter y2 [row] ∅ {[id := {["dlr_status" := VStr s]}]} false) = mkMsgWriter y3 [row'] ∅ ∅ false /\
    HistoryRow.DLRStatus row' = Some s.
Proof using All.
  intros Hf Hid. unfold msgFlush. cbn [mw_sys mw_table mw_creates mw_updates mw_returned].
  rewrite (bool_decide_true (∅ = ∅)) by done.
  rewrite (bool_decide_false ({[id := {["dlr_status" := VStr s]}]} = (∅ : gmap string (gmap string value)))) by (by apply map_non_empty_singleton).
  rewrite map_to_list_singleton. cbn [flushMessageUpdates]. unfold flushUpdate. rewrite id_ok.
  assert (Hflt : filteredFields {["dlr_status" := VStr s]} = {["dlr_status" := VStr s]}).
  { unfold filteredFields. apply map_filter_singleton_True. cbn. unfold allowed. set_solver. }
  rewrite Hflt. rewrite (bool_decide_false ({["dlr_status" := VStr s]} = (∅ : gmap string value))) by (by apply map_non_empty_singleton).
  rewrite lookup_singleton_ne by done. set (y3 := set_tick (S (tick y2)) y2). set (at_ := sys_now y2 (tick y2)).
  set (fs := <["updated_at" := VInt at_]> {["dlr_status" := VStr s]} : gmap string value).
  assert (Hcol : exists row', setColumns (map_to_list fs) row = Some row' /\ HistoryRow.DLRStatus row' = Some s).
  { assert (Hl : map_to_list fs = [("dlr_status", VStr s); ("updated_at", VInt at_)] \/ map_to_list fs = [("updated_at", VInt at_); ("dlr_status", VStr s)])
      by (unfold fs; generalize at_; intros z; vm_compute; tauto).
    destruct row. destruct Hl as [-> | ->]; (eexists; split; [reflexivity | done]). }
  destruct Hcol as (row' & Hcol & Hd). set (y4 := set_tick (S (tick y3)) y3).
  assert (Hup : updateHistory id (map_to_list fs) [row] = Some [row']).
  { unfold updateHistory. cbn [mapM]. rewrite bool_decide_true by done. by rewrite Hcol. }
  exists y4, row'. split; [|done].
  assert (Hex : execUpdate id (map_to_list fs) (y3, [row]) = (Ok tt, (y4, [row']))).
  { unfold execUpdate. rewrite (run_bind _ _ _ _ _ (queryTable_run _ _ _ (Hf : faultless y3))). by rewrite Hup. }
  rewrite (run_bind _ _ _ tt (y4, [row'])); [done|].
  rewrite (run_bind (do! at_ <- now; _) _ _ fs (y3, [row])) by done. by apply run_ignore with (r := Ok tt).
Qed.

(** A delivery status that arrives early is lost.  When a delivery report reaches the writer while the message's
    row still waits for its flush, the merge drops the delivery status and the row is written without one; had
    the flush come in between, the history would show it. *)
Theorem early_delivery_status_lost :
  (exists row, mw_table (RunMessageWriter parse true cfg y [] [MRecv (MessageLogAction.create e); report; MClosed]) = [row] /\
     HistoryRow.DLRStatus row = None) /\
  (exists row, mw_table (RunMessageWriter parse true cfg y [] [MRecv (MessageLogAction.create e); MTick; report; MClosed]) = [row] /\
     HistoryRow.DLRStatus row = Some s).
Proof using All.
  destruct recv_create as (row & y1 & Hc & Hf1 & Hid & Hd). unfold RunMessageWriter. cbn [foldl]. rewrite Hc.
  assert (Hup : forall w, mw_returned w = false -> msgStep parse true cfg w report = onUpdate parse true cfg id [("dlr_status", VStr s)] w).
  { intros w Hr. unfold msgStep, report. rewrite Hr. cbn [MessageLogAction.update MessageLogAction.Action MessageLogAction.ID MessageLogAction.Updates].
    rewrite bool_decide_false, bool_decide_true by done. rewrite (bool_decide_false (id = "")) by done. done. }
  assert (Hfs : list_to_map [("dlr_status", VStr s)] = ({["dlr_status" := VStr s]} : gmap string value)) by (cbn; apply insert_empty).
  split.
  - rewrite Hup by done. unfold onUpdate. cbn [mw_creates mw_updates mw_sys mw_table]. rewrite lookup_singleton_eq. cbn [mw_updates].
    rewrite insert_singleton_eq, map_size_empty, Hfs.
    rewrite (proj2 (Z.leb_gt _ _)) by lia. set (row1 := applyUpdatesToRow _ row).
    destruct (flush_one row1 y1 false Hf1) as (y2 & Hfl & _). exists row1. split.
    + unfold msgStep. cbn [mw_returned]. by rewrite Hfl.
    + unfold row1. by destruct row.
  - assert (Htick : exists y2, msgStep parse true cfg (mkMsgWriter y1 [] {[id := row]} ∅ false) MTick = mkMsgWriter y2 [row] ∅ ∅ false /\ faultless y2)
      by exact (flush_one row y1 false Hf1).
    destruct Htick as (y2 & -> & Hf2). rewrite Hup by done. unfold onUpdate. cbn [mw_creates mw_updates mw_sys mw_table].
    rewrite !lookup_empty, Hfs. cbn [default from_option mw_updates]. rewrite (right_id_L ∅ (∪)), insert_empty, map_size_singleton, (proj2 (Z.leb_gt _ _)) by lia.
    destruct (flush_report row y2 Hf2 Hid) as (y3 & row' & Hfl & Hd'). exists row'. split; [|done]. unfold msgStep. cbn [mw_returned]. by rewrite Hfl.
Qed.
End Lost.

(** ** Queries *)

Lemma concat_map_fmap {A B} (f : A -> B) (l : list (list A)) : @concat B ((fun x : list A => (f <$> x : list B)) <$> l) = f <$> @concat A l.
Proof. induction l as [|x l IH]; [done|]. rewrite fmap_cons. cbn [concat]. by rewrite IH, fmap_app. Qed.

(** The matching rows of a window, newest first. *)
Definition listing (f : MessageFilter.t) (t : Table) : Table :=
  merge_sort newest (filter (matches f (MessageFilter.From f) (MessageFilter.To f)) t).

Definition withPage (p : Z) (f : MessageFilter.t) : MessageFilter.t :=
  MessageFilter.mk (MessageFilter.CampaignID f) (MessageFilter.CardID f) (MessageFilter.Direction f) (MessageFilter.Status f)
    (MessageFilter.From f) (MessageFilter.To f) p (MessageFilter.PageSize f).

Lemma ListMessages_run f p y t :
  faultless y -> MessageFilter.From f <> 0 -> MessageFilter.To f <> 0 -> 0 < MessageFilter.PageSize f -> 0 < p ->
  exists y', ListMessages (withPage p f) (y, t)
    = (Ok (toMessageRecord <$> take (Z.to_nat (MessageFilter.PageSize f)) (drop (Z.to_nat ((p - 1) * MessageFilter.PageSize f)) (listing f t)),
           zlen (listing f t)), (y', t)) /\ faultless y'.
Proof.
  intros Hf Hfrom Hto Hs Hp. unfold ListMessages. cbn [withPage MessageFilter.Page MessageFilter.PageSize MessageFilter.To MessageFilter.From].
  rewrite (proj2 (Z.leb_gt p 0)), (proj2 (Z.leb_gt (MessageFilter.PageSize f) 0)) by lia.
  rewrite (proj2 (Z.eqb_neq _ _) Hto), (proj2 (Z.eqb_neq _ _) Hfrom). unfold bindM at 1, ret at 1.
  erewrite run_bind by (apply run_wrap, queryTable_run; exact Hf).
  erewrite run_bind by (apply run_wrap, queryTable_run; exact Hf).
  assert (Hlen : zlen (listing f t) = zlen (filter (matches f (MessageFilter.From f) (MessageFilter.To f)) t)).
  { unfold listing, zlen. by rewrite merge_sort_Permutation. }
  rewrite Hlen. eexists. split; [reflexivity | exact Hf].
Qed.

(** Pages partition the listing.  Whatever the filter, reading the pages one to ceil(total / page size) of
    ListMessages, with the clock and anything else moving in between, returns every matching message exactly once, newest first,
    and every page reports the same total, the number of matching messages. *)
Theorem message_pages_partition f t (ys : nat -> Sys) k :
  (forall p, faultless (ys p)) -> MessageFilter.From f <> 0 -> MessageFilter.To f <> 0 -> 0 < MessageFilter.PageSize f ->
  zlen (listing f t) <= Z.of_nat k * MessageFilter.PageSize f ->
  exists pages, Forall2 (fun p page => exists y', ListMessages (withPage (Z.of_nat p + 1) f) (ys p, t) = (Ok (page, zlen (listing f t)), (y', t)))
      (seq 0 k) pages /\
    concat pages = toMessageRecord <$> listing f t /\ StronglySorted newest (listing f t) /\
    listing f t ≡ₚ filter (matches f (MessageFilter.From f) (MessageFilter.To f)) t.
Proof.
  intros Hf Hfrom Hto Hs Hk. set (n := Z.to_nat (MessageFilter.PageSize f)).
  exists ((fun p => toMessageRecord <$> take n (drop (p * n) (listing f t))) <$> seq 0 k). split_and!.
  - apply Forall2_fmap_r, Forall_Forall2_diag, Forall_forall. intros p _.
    destruct (ListMessages_run f (Z.of_nat p + 1) (ys p) t (Hf p) Hfrom Hto Hs) as (y' & Hrun & _); [lia|].
    exists y'. rewrite Hrun. unfold n. repeat f_equal. lia.
  - etrans; [apply (f_equal (@concat _)), (list_fmap_compose (fun p => take n (drop (p * n) (listing f t))) (fun x : Table => toMessageRecord <$> x))|].
    rewrite concat_map_fmap. f_equal. apply pages_concat; [unfold n; lia|]. unfold zlen in Hk. unfold n. nia.
  - apply StronglySorted_merge_sort; [intros a b c; unfold newest; lia | intros a b; unfold newest; lia].
  - apply merge_sort_Permutation.
Qed.

(** *** Witnesses *)

Module HistoryWitness.
Definition parse (s : string) : option string := Some s.
Definition y : Sys := quiet_sys empty_db.
Definition cfg : MessageWriterConfig := {| MsgMaxBatch := 3; MsgFlushInterval := 100 |}.
Definition entry : MessageLogEntry.t := {|
  MessageLogEntry.ID := "msg-1"; MessageLogEntry.CampaignID := "camp-1"; MessageLogEntry.CardID := "card-1";
  MessageLogEntry.Direction := "MT"; MessageLogEntry.CreatedAt := 100; MessageLogEntry.UpdatedAt := 100;
  MessageLogEntry.RawPayload := [1; 2]; MessageLogEntry.SecuredPayload := [3; 4]; MessageLogEntry.CounterHex := "";
  MessageLogEntry.Status := "pending"; MessageLogEntry.SMPPMessageID := "" |}.
Definition sent : msg_case := MRecv (MessageLogAction.update "msg-1" [("status", VStr "sent"); ("smpp_message_id", VStr "smpp-9")]).
Definition delivered : msg_case := MRecv (MessageLogAction.update "msg-1" [("status", VStr "delivered")]).

(** Three messages of a card, a second apart. *)
Definition logged (id : string) (at_ : Z) : HistoryRow.t :=
  HistoryRow.mk id (Some "camp-1") "card-1" "MT" "sent" [] [] None None None None [] None at_ at_.
Definition table : Table := [logged "msg-1" 100; logged "msg-2" 200; logged "msg-3" 300].
Definition all : MessageFilter.t := MessageFilter.mk (Some "camp-1") None "" "" 1 1000 1 2.
End HistoryWitness.

(** What the worker and the gateway send as updates is well typed. *)
Lemma typed_list u : Forall (fun kv => typedFor (fst kv) (snd kv)) u -> typed (list_to_map u).
Proof. intros Hu k v Hk%elem_of_list_to_map_2 _. rewrite Forall_forall in Hu. exact (Hu _ Hk). Qed.


Lemma early_delivery_status_lost_witness :
  exists row row',
    mw_table (RunMessageWriter HistoryWitness.parse true HistoryWitness.cfg HistoryWitness.y []
      [MRecv (MessageLogAction.create HistoryWitness.entry); report "msg-1" "DELIVRD"; MClosed]) = [row] /\
    HistoryRow.DLRStatus row = None /\
    mw_table (RunMessageWriter HistoryWitness.parse true HistoryWitness.cfg HistoryWitness.y []
      [MRecv (MessageLogAction.create HistoryWitness.entry); MTick; report "msg-1" "DELIVRD"; MClosed]) = [row'] /\
    HistoryRow.DLRStatus row' = Some "DELIVRD".
Proof.
  destruct (early_delivery_status_lost HistoryWitness.parse HistoryWitness.cfg "msg-1" "DELIVRD" HistoryWitness.entry HistoryWitness.y)
    as [(row & H1 & H2) (row' & H3 & H4)]; [done | done | | done | done | exists row, row'; exact (conj H1 (conj H2 (conj H3 H4)))].
  split; [done|]. split; [by eexists | right; by eexists].
Defined.

Lemma message_pages_partition_witness :
  zlen (listing HistoryWitness.all HistoryWitness.table) = 3 /\
  exists pages, length pages = 2%nat /\
    concat pages = toMessageRecord <$> [HistoryWitness.logged "msg-3" 300; HistoryWitness.logged "msg-2" 200; HistoryWitness.logged "msg-1" 100].
Proof.
  split; [by vm_compute|].
  destruct (message_pages_partition HistoryWitness.all HistoryWitness.table (fun _ => HistoryWitness.y) 2)
    as (pages & Hpages & Hc & _); [done | done | done | done | by vm_compute |].
  exists pages. split; [symmetry; exact (Forall2_length _ _ _ Hpages) | exact Hc].
Defined.
