(* ===== verification/Api.v ===== *)
(** * internal/controlplane: the HTTP handlers of campaigns

    api.go (parameters, responses, authentication) and api_campaigns.go
    (creating, controlling, listing and retrying campaigns).  A handler
    is a computation on [Api] that ends with a [Response]; what gin makes of
    requests is a parameter: the values of the query string, and the request body
    or the error of binding it.

    [parse] is [uuid.Parse] followed by [String], [castUUID] is the cast of a text to
    a uuid by the database, [parseTime] is [time.Parse(time.RFC3339, .)].
    [gorm.Create] leaves out zero values of fields that have a default, so that the database
    fills them in. *)

From S2P Require Import Prelude Effects Models Pipeline Store HexUtil StateWriter Sql QueryStore Executor CampaignControl.

(** ** api.go *)

(** [n = n*10 + int(c-'0')] over the characters, in 64 bits. *)
Fixpoint parseIntFrom (n : Z) (s : list Ascii.ascii) : Z :=
  match s with
  | [] => n
  | c :: s => match digit_of c with Some d => parseIntFrom (i64 (n * 10 + d)) s | None => 0 end
  end.

Definition parseInt (s : string) : Z := parseIntFrom 0 (String.list_ascii_of_string s).

Definition pageParam (v : string) : Z :=
  if bool_decide (v = "") then 1 else let p := parseInt v in if 0 <? p then p else 1.

Definition sizeParam (v : string) (perPage : Z) : Z :=
  if bool_decide (v = "") then perPage else let p := parseInt v in if (0 <? p) && (p <=? 100) then p else perPage.

(** page, perPage, offset; [query] is [c.Query]. *)
Definition paginationParams (query : string -> string) : Z * Z * Z :=
  let page := pageParam (query "page") in
  let perPage := sizeParam (query "per_page") (sizeParam (query "page_size") 20) in
  (page, perPage, i64 (i64 (page - 1) * perPage)).

(** The pages of a paginated response. *)
Definition totalPages (total pageSize : Z) : Z :=
  let n := total `quot` pageSize in if total `rem` pageSize =? 0 then n else n + 1.

(** [strings.NewReplacer] with one-byte patterns. *)
Definition escapeChar (c : Ascii.ascii) : list Ascii.ascii :=
  let n := Ascii.N_of_ascii c in
  if ((n =? 92) || (n =? 37) || (n =? 95))%N then [Ascii.ascii_of_N 92; c] else [c].

Definition escapeLike (s : string) : string :=
  String.string_of_list_ascii (concat (escapeChar <$> String.list_ascii_of_string s)).

(** [strings.HasPrefix] and [strings.TrimPrefix]: what follows the prefix, if it is there. *)
Fixpoint cutPrefix (pre s : string) : option string :=
  match pre, s with
  | EmptyString, s => Some s
  | String a pre, String b s => if bool_decide (a = b) then cutPrefix pre s else None
  | _, _ => None
  end.

(** apiKeyAuth: whether the request goes on. *)
Definition apiKeyAuth (apiKey auth : string) : bool :=
  if bool_decide (apiKey = "") then true
  else
    let token := default auth (cutPrefix "Bearer " auth) in
    negb (negb (bool_decide (is_Some (cutPrefix "Bearer " auth))) || negb (bool_decide (token = apiKey))).

Module Response.
Record t := mk {
  Code : Z;
  ErrorText : option string;
  Fields : list (string * value);
  Data : option Campaign.t         (** the campaign under "data" *)
}.
End Response.

Definition errorResponse (code : Z) (message : string) : Response.t := Response.mk code (Some message) [] None.
Definition message (code : Z) (text : string) : Response.t := Response.mk code None [("message", VStr text)] None.

(** [strings.Contains] *)
Fixpoint contains (s sub : string) : bool :=
  String.prefix sub s || match s with EmptyString => false | String _ s => contains s sub end.

(** Items of the campaign view. *)
Module CardItem.
Record t := mk {
  ID : string;
  ICCID : string;
  MSISDN : string;
  CurrentCommand : Z;
  TotalCommands : Z;
  Status : string;
  ErrorMessage : option string;
  Attempts : Z;
  UpdatedAt : Z
}.
End CardItem.

Module CommandItem.
Record t := mk { Sequence : Z; APDU : string; ExpectResponse : bool; TimeoutSeconds : Z }.
End CommandItem.

Module CampaignDetail.
Record t := mk {
  Campaign : Campaign.t;
  Stats : CampaignStats.t;
  Commands : list CommandItem.t;
  Cards : list CardItem.t;
  Total : Z;
  Page : Z;
  PageSize : Z;
  TotalPages : Z
}.
End CampaignDetail.

(** ** State *)

(** The cards of a campaign, with the time they were read. *)
Record cachedCampaignStats := { ccs_cards : list CampaignCardView.t; ccs_at : Z }.

Module CardGroup.
Record t := mk { ID : string; Name : string; Description : option string }.
End CardGroup.

Record Api := mkApi {
  ap_ctl : Control;
  ap_apps : gmap string Application.t;
  ap_groups : gmap string CardGroup.t;
  ap_members : list (string * string);      (** card_group_members: group and card *)
  ap_scripts : gmap string Script.t;
  ap_caps : gmap string CAPFile.t;
  ap_stats : gmap string cachedCampaignStats
}.

Definition set_ap_ctl ctl a := mkApi ctl (ap_apps a) (ap_groups a) (ap_members a) (ap_scripts a) (ap_caps a) (ap_stats a).
Definition set_ap_apps t a := mkApi (ap_ctl a) t (ap_groups a) (ap_members a) (ap_scripts a) (ap_caps a) (ap_stats a).
Definition set_ap_groups t a := mkApi (ap_ctl a) (ap_apps a) t (ap_members a) (ap_scripts a) (ap_caps a) (ap_stats a).
Definition set_ap_members t a := mkApi (ap_ctl a) (ap_apps a) (ap_groups a) t (ap_scripts a) (ap_caps a) (ap_stats a).
Definition set_ap_scripts t a := mkApi (ap_ctl a) (ap_apps a) (ap_groups a) (ap_members a) t (ap_caps a) (ap_stats a).
Definition set_ap_caps t a := mkApi (ap_ctl a) (ap_apps a) (ap_groups a) (ap_members a) (ap_scripts a) t (ap_stats a).
Definition set_ap_stats t a := mkApi (ap_ctl a) (ap_apps a) (ap_groups a) (ap_members a) (ap_scripts a) (ap_caps a) t.
Definition set_ap_sys y a := set_ap_ctl (set_cp_sys y (ap_ctl a)) a.

(** The tables of the control plane. *)
Record Tables := mkTables {
  tb_db : Database;
  tb_shards : list CampaignShard.t;
  tb_targets : list CampaignTarget.t;
  tb_apps : gmap string Application.t;
  tb_groups : gmap string CardGroup.t;
  tb_members : list (string * string);
  tb_scripts : gmap string Script.t;
  tb_caps : gmap string CAPFile.t
}.

Definition tablesOf (a : Api) : Tables :=
  mkTables (db (cp_sys (ap_ctl a))) (cp_shards (ap_ctl a)) (cp_targets (ap_ctl a)) (ap_apps a) (ap_groups a)
    (ap_members a) (ap_scripts a) (ap_caps a).

Definition setTables (t : Tables) (a : Api) : Api :=
  let ctl := ap_ctl a in
  mkApi (mkControl (set_db (tb_db t) (cp_sys ctl)) (cp_store ctl) (tb_shards t) (tb_targets t) (cp_sent ctl))
    (tb_apps t) (tb_groups t) (tb_members t) (tb_scripts t) (tb_caps t) (ap_stats a).

#[global] Instance Api_tx : Transactional Api := {|
  tx_sys := {| sys a := cp_sys (ap_ctl a); set_sys := set_ap_sys |};
  tables := Tables; snapshot := tablesOf; restore := setTables
|}.
#[global] Instance Api_tx_laws : TransactionalLaws Api.
Proof. split; [by intros [] | done]. Qed.

Abbreviation AM := (M Api).

Definition on_ctl {A} (m : C A) : AM A :=
  fun a => let '(r, ctl) := m (ap_ctl a) in (r, set_ap_ctl ctl a).

(** A read or a write of campaign_targets, applications or card_group_members. *)
Definition readApi {A} (f : Api -> A) : AM A :=
  do! fault <- ask sys_fault;
  match fault with Some e => merr e | None => gets f end.

(** A statement on one of these tables. *)
Definition apiStatement {A} (f : Api -> res A * Api) : AM A :=
  do! fault <- ask sys_fault;
  match fault with Some e => merr e | None => f end.

(** ON CONFLICT DO NOTHING *)
Definition insertTarget (l : list CampaignTarget.t) (t : CampaignTarget.t) : list CampaignTarget.t :=
  if bool_decide ((CampaignTarget.CampaignID t, CampaignTarget.CardID t)
                    ∈ (fun t => (CampaignTarget.CampaignID t, CampaignTarget.CardID t)) <$> l) then l else l ++ [t].

Definition insertTargets (campaignID : string) (cards : list string) (l : list CampaignTarget.t) : list CampaignTarget.t :=
  foldl insertTarget l (CampaignTarget.mk campaignID <$> cards).

(** [INSERT INTO campaign_targets SELECT ... ON CONFLICT DO NOTHING] *)
Definition selectTargets (campaignID : string) (select : Api -> list string) : AM unit :=
  do! fault <- ask sys_fault;
  match fault with
  | Some e => merr e
  | None => modify (fun a => set_ap_ctl (set_cp_targets (insertTargets campaignID (select a) (cp_targets (ap_ctl a))) (ap_ctl a)) a)
  end.

Definition foreignKey : goerr := Errorf "insert or update on table violates foreign key constraint" [].

(** The foreign keys of campaigns on cap_files and scripts. *)
Definition assetsKnown (a : Api) (c : Campaign.t) : Prop :=
  (forall id, Campaign.CAPFileID c = Some id -> is_Some (ap_caps a !! id)) /\
  (forall id, Campaign.ScriptID c = Some id -> is_Some (ap_scripts a !! id)).
#[global] Instance some_dec (o : option string) (P : string -> Prop) `{!forall x, Decision (P x)} : Decision (forall id, o = Some id -> P id).
Proof.
  refine (match o with Some x => cast_if (decide (P x)) | None => left _ end); [by intros ? [= <-] | naive_solver | done].
Defined.
#[global] Instance assetsKnown_dec a c : Decision (assetsKnown a c).
Proof. unfold assetsKnown. apply _. Defined.

(** ** Campaign handlers *)

Section Handlers.
Context (parse castUUID : string -> option string) (parseTime : string -> option Z).
Context (getenv : string -> string) (redis query_ wsHub : bool).

(** [WHERE id = ?] with the text of the request; what the database cannot cast is an error. *)
Definition queryRow {A} (id : string) (f : string -> Database -> A) : AM A :=
  match castUUID id with
  | None => merr (Errorf "invalid input syntax for type uuid" [])
  | Some id => query (f id)
  end.

(** [parseUUID(c, "id")] *)
Definition withID (id : string) (k : string -> AM Response.t) : AM Response.t :=
  match parse id with
  | None => ret (errorResponse 400 "invalid UUID: id")
  | Some campaignID => k campaignID
  end.

Definition API_StartCampaign (id : string) : AM Response.t :=
  withID id (fun campaignID =>
    do! r <- try (on_ctl (StartCampaign getenv redis query_ wsHub campaignID));
    match r with
    | Err e => ret (errorResponse (if contains (Error e) "shard backlog high" then 409 else 400) (Error e))
    | Panic p => mres (Panic p)
    | Ok _ => ret (message 200 "campaign started")
    end).

(** The handlers that only report what the service said. *)
Definition report (m : C unit) (done_ : string) : AM Response.t :=
  do! r <- try (on_ctl m);
  match r with
  | Err e => ret (errorResponse 400 (Error e))
  | Panic p => mres (Panic p)
  | Ok _ => ret (message 200 done_)
  end.

Definition API_PauseCampaign (id : string) : AM Response.t :=
  withID id (fun campaignID => report (PauseCampaign redis wsHub campaignID) "campaign paused").
Definition API_ResumeCampaign (id : string) : AM Response.t :=
  withID id (fun campaignID => report (ResumeCampaign getenv redis query_ wsHub campaignID) "campaign resumed").
Definition API_AbortCampaign (id : string) : AM Response.t :=
  withID id (fun campaignID => report (AbortCampaign redis query_ wsHub campaignID) "campaign aborted").

(** ** RetryFailedCards *)

Definition reopened (c : Campaign.t) : Campaign.t :=
  Campaign.mk (Campaign.ID c) "pending" (Campaign.MaxRetries c) (Campaign.ThrottleSMSPerSec c)
    (Campaign.MaxConcatOverride c) (Campaign.StartedAt c) None (Campaign.CAPFileID c) (Campaign.ScriptID c) (Campaign.Name c).

(** Listing and resetting the failed cards: their number, or the response of an error. *)
Definition resetFailed (campaignID : string) (step : Z) : AM (Response.t + Z) :=
  if negb query_ then ret (inr 0)
  else
    do! failed <- try (on_ctl (on_sys (ListFailedCardIDs campaignID)));
    match failed with
    | Err _ => ret (inl (errorResponse 500 "failed to load failed cards"))
    | Panic p => mres (Panic p)
    | Ok ids =>
        do! now_ <- now;
        do! r <- try (on_ctl (on_sys (ResetFailedCards campaignID ids step now_)));
        match r with
        | Err _ => ret (inl (errorResponse 500 "failed to reset failed cards"))
        | Panic p => mres (Panic p)
        | Ok _ => ret (inr (zlen ids))
        end
    end.

Definition RetryFailedCards (id : string) : AM Response.t :=
  withID id (fun campaignID =>
    do! loaded <- try (do! o <- query (fun d => campaigns d !! campaignID); first o);
    match loaded with
    | Err e => if bool_decide (e = ErrRecordNotFound) then ret (errorResponse 404 "campaign not found")
               else ret (errorResponse 500 "failed to get campaign")
    | Panic p => mres (Panic p)
    | Ok campaign =>
        do! firstCmd <- try (do! o <- query (fun d => head (commandsOf campaignID d)); first o);
        match firstCmd with
        | Err _ => ret (errorResponse 500 "failed to find campaign commands")
        | Panic p => mres (Panic p)
        | Ok cmd =>
            do! reset <- resetFailed campaignID (CampaignCommand.Sequence cmd);
            match reset with
            | inl response => ret response
            | inr n =>
                do! _ <- (if bool_decide (Campaign.Status campaign ∈ ["completed"; "completed_with_errors"; "failed"])
                          then ignore (exec (set_campaigns (alter reopened campaignID))) else ret tt);
                ret (Response.mk 200 None [("message", VStr "failed cards reset to pending"); ("cards_reset", VInt n)] None)
            end
        end
    end).

(** ** getCachedCampaignStats *)

Definition cardListCacheTTL : Z := 30 * 1000000000.

Definition withStatus (statusFilter : string) (cards : list CampaignCardView.t) : list CampaignCardView.t :=
  if bool_decide (statusFilter = "") then cards
  else filter (fun c => CampaignCardView.Status c = statusFilter) cards.

(** The expensive scan, whose result is kept unfiltered. *)
Definition loadCardList (key campaignID : string) : AM (list CampaignCardView.t) :=
  do! cards <- on_ctl (on_sys (ListCampaignCards campaignID ""));
  do! at_ <- now;
  do! _ <- modify (fun a => set_ap_stats (<[key := {| ccs_cards := cards; ccs_at := at_ |}]> (ap_stats a)) a);
  ret cards.

(** [key] is the id as the request has it; [uuid.MustParse] panics on what is no UUID. *)
Definition getCachedCampaignStats (key statusFilter : string) (loadCards : bool)
    : AM (CampaignStats.t * list CampaignCardView.t) :=
  if negb query_ then ret (CampaignStats.zero, [])
  else
    match parse key with
    | None => mres (Panic "uuid: Parse: invalid UUID")
    | Some campaignID =>
        do! stats <- on_ctl (on_sys (QueryStore_CampaignStats campaignID));
        if negb loadCards then ret (stats, [])
        else
          do! cached <- gets (fun a => ap_stats a !! key);
          do! fresh <- (match cached with
                        | Some c => do! now_ <- now; ret (if now_ - ccs_at c <? cardListCacheTTL then Some (ccs_cards c) else None)
                        | None => ret None
                        end);
          do! cards <- (match fresh with Some cards => ret cards | None => loadCardList key campaignID end);
          ret (stats, withStatus statusFilter cards)
    end.

(** The page of cards GetCampaign returns, with the number of pages. *)
Definition campaignPage (query : string -> string) (cards : list CampaignCardView.t) : res (list CampaignCardView.t * Z) :=
  let '(_, cardPageSize, cardOffset) := paginationParams query in
  let cardTotal := zlen cards in
  let cardTotalPages := totalPages cardTotal cardPageSize in
  let cardOffset := if zlen cards <? cardOffset then zlen cards else cardOffset in
  let cardEnd := i64 (cardOffset + cardPageSize) in
  let cardEnd := if zlen cards <? cardEnd then zlen cards else cardEnd in
  match slice cards cardOffset cardEnd with
  | Ok pageCards => Ok (pageCards, cardTotalPages)
  | Err e => Err e
  | Panic p => Panic p
  end.

(** ** GetCampaign *)

Definition stringPtrOrNil (s : string) : option string := if bool_decide (s = "") then None else Some s.

(** A card that is not in the table has the zero [db.Card]. *)
Definition cardItem (totalCommands : Z) (cardMap : gmap string Card.t) (cc : CampaignCardView.t) : CardItem.t :=
  let card := cardMap !! CampaignCardView.CardID cc in
  {| CardItem.ID := CampaignCardView.CardID cc;
     CardItem.ICCID := default "" (Card.ICCID <$> card);
     CardItem.MSISDN := default "" (Card.MSISDN <$> card);
     CardItem.CurrentCommand := CampaignCardView.CurrentStep cc;
     CardItem.TotalCommands := totalCommands;
     CardItem.Status := CampaignCardView.Status cc;
     CardItem.ErrorMessage := stringPtrOrNil (CampaignCardView.LastError cc);
     CardItem.Attempts := CampaignCardView.RetryCount cc;
     CardItem.UpdatedAt := CampaignCardView.UpdatedAt cc |}.

Definition commandItem (cmd : CampaignCommand.t) : CommandItem.t :=
  {| CommandItem.Sequence := CampaignCommand.Sequence cmd;
     CommandItem.APDU := EncodeToString (CampaignCommand.Script cmd);
     CommandItem.ExpectResponse := CampaignCommand.ExpectResponse cmd;
     CommandItem.TimeoutSeconds := 30 |}.

(** [WHERE id IN ?] over the parsed ids of a page, as a map by id. *)
Definition cardsOfPage (pageCards : list CampaignCardView.t) (d : Database) : gmap string Card.t :=
  let cardIDs := omap (fun cc => parse (CampaignCardView.CardID cc)) pageCards in
  filter (fun kv => fst kv ∈ cardIDs) (cards d).

Definition readCardsOfPage (pageCards : list CampaignCardView.t) : AM (gmap string Card.t) :=
  match omap (fun cc => parse (CampaignCardView.CardID cc)) pageCards with
  | [] => ret ∅
  | _ => query (cardsOfPage pageCards)
  end.

(** What follows the reads: the page and the items, or the panic of the slice. *)
Definition campaignDetail (query : string -> string) (campaign : Campaign.t) (cmds : list CampaignCommand.t)
    (stats : CampaignStats.t) (campaignCards : list CampaignCardView.t) : AM (Response.t + CampaignDetail.t) :=
  let '(cardPage, cardPageSize, _) := paginationParams query in
  do! page <- mres (campaignPage query campaignCards);
  let '(pageCards, cardTotalPages) := page in
  do! rows <- try (readCardsOfPage pageCards);
  match rows with
  | Err _ => ret (inl (errorResponse 500 "failed to load campaign cards"))
  | Panic p => mres (Panic p)
  | Ok cardMap =>
      ret (inr {| CampaignDetail.Campaign := campaign;
                  CampaignDetail.Stats := stats;
                  CampaignDetail.Commands := commandItem <$> cmds;
                  CampaignDetail.Cards := cardItem (zlen cmds) cardMap <$> pageCards;
                  CampaignDetail.Total := zlen campaignCards;
                  CampaignDetail.Page := cardPage;
                  CampaignDetail.PageSize := cardPageSize;
                  CampaignDetail.TotalPages := cardTotalPages |})
  end.

Definition GetCampaign (id : string) (query_string : string -> string) : AM (Response.t + CampaignDetail.t) :=
  match parse id with
  | None => ret (inl (errorResponse 400 "invalid UUID: id"))
  | Some _ =>
      do! loaded <- try (do! o <- queryRow id loadCampaign; first o);
      match loaded with
      | Err e => ret (inl (if bool_decide (e = ErrRecordNotFound) then errorResponse 404 "campaign not found"
                           else errorResponse 500 "failed to get campaign"))
      | Panic p => mres (Panic p)
      | Ok (campaign, cmds) =>
          let wantsCards := negb (bool_decide (query_string "page" = "")) || negb (bool_decide (query_string "status" = "")) in
          do! r <- try (getCachedCampaignStats id (query_string "status") wantsCards);
          match r with
          | Err _ => ret (inl (errorResponse 500 "failed to load campaign stats"))
          | Panic p => mres (Panic p)
          | Ok (stats, campaignCards) => campaignDetail query_string campaign cmds stats campaignCards
          end
      end
  end.

(** ** CreateCampaign *)

Record CommandRequest := mkCommandRequest {
  cr_ApplicationID : string;
  cr_Script : string;
  cr_Sequence : Z;
  cr_ExpectResponse : bool
}.

Record CreateCampaignRequest := mkCreateCampaignRequest {
  rq_Name : string;
  rq_CampaignType : string;
  rq_Type : string;
  rq_CardIDs : list string;
  rq_ProfileID : string;
  rq_ProfileIDs : list string;
  rq_CardGroupID : string;
  rq_CAPFileID : string;
  rq_ScriptID : string;
  rq_MaxRetries : Z;
  rq_ThrottleSMSPerSec : Z;
  rq_MaxConcatOverride : Z;
  rq_ScheduledAt : string;
  rq_Commands : list CommandRequest;
  rq_StartImmediately : bool;
  rq_LoadFileAID : string;
  rq_ModuleAID : string;
  rq_AppAID : string;
  rq_InstallPrivileges : string;
  rq_STKParams : string;
  rq_DeleteAID : string;
  rq_DeleteRelated : bool;
  rq_ScriptHex : string;
  rq_ApplicationID : string
}.

Definition allowedCampaignTypes : list string :=
  ["cap_load"; "applet_install"; "applet_delete"; "script"; "install_applet"; "delete_applet"; "update_applet";
   "send_script"; "custom_apdu"].

Definition hexOf (script : string) : string := EncodeToString (string_bytes script).

(** [if v != "" { script += ":key=" + v }] *)
Definition param (key v : string) : string := if bool_decide (v = "") then "" else ":" +:+ key +:+ "=" +:+ v.

Definition placeholderScript (type : string) (req : CreateCampaignRequest) : string :=
  if bool_decide (type = "install_applet") then
    hexOf ("install" +:+ param "load_file_aid" (rq_LoadFileAID req) +:+ param "module_aid" (rq_ModuleAID req)
           +:+ param "app_aid" (rq_AppAID req) +:+ param "privileges" (rq_InstallPrivileges req)
           +:+ param "stk_params" (rq_STKParams req))
  else if bool_decide (type = "delete_applet") then
    hexOf ("delete" +:+ param "aid" (rq_DeleteAID req) +:+ (if rq_DeleteRelated req then ":related=true" else ""))
  else if bool_decide (type = "send_script") then
    if bool_decide (rq_ScriptHex req = "") then hexOf "noop" else rq_ScriptHex req
  else if bool_decide (type = "custom_apdu") then hexOf "custom"
  else hexOf "placeholder".

(** An early return of the handler, or a value to go on with. *)
Definition orElse {A} (m : AM (Response.t + A)) (k : A -> AM Response.t) : AM Response.t :=
  do! r <- m; match r with inl response => ret response | inr a => k a end.

Definition require (b : bool) (response : Response.t) : AM (Response.t + unit) :=
  ret (if b then inr tt else inl response).

(** [uuid.Parse] of a field that may be empty. *)
Definition parseOptional (s : string) (msg : string) : AM (Response.t + option string) :=
  ret (if bool_decide (s = "") then inr None
       else match parse s with Some id => inr (Some id) | None => inl (errorResponse 400 msg) end).

Fixpoint parseList (l : list string) (msg : string -> string) : AM (Response.t + list string) :=
  match l with
  | [] => ret (inr [])
  | s :: l =>
      match parse s with
      | None => ret (inl (errorResponse 400 (msg s)))
      | Some id => do! r <- parseList l msg; ret (match r with inr ids => inr (id :: ids) | inl e => inl e end)
      end
  end.

(** [a.db.First(&app, "id = ?", appID)] *)
Definition lookupApp (appID failure : string) : AM (Response.t + unit) :=
  match parse appID with
  | None => ret (inl (errorResponse 400 "invalid application_id"))
  | Some id =>
      do! app <- try (do! o <- readApi (fun a => ap_apps a !! id); first o);
      match app with
      | Ok _ => ret (inr tt)
      | Err e => ret (inl (if bool_decide (e = ErrRecordNotFound) then errorResponse 400 "application not found"
                           else errorResponse 500 failure))
      | Panic p => mres (Panic p)
      end
  end.

(** The explicit commands, or the one of a wizard campaign. *)
Definition commandsFor (type : string) (req : CreateCampaignRequest) : AM (Response.t + list CommandRequest) :=
  match rq_Commands req with
  | [] =>
      if bool_decide (rq_ApplicationID req = "") then
        ret (inl (errorResponse 400 "application_id is required for wizard campaigns"))
      else
        do! r <- lookupApp (rq_ApplicationID req) "failed to look up application";
        ret (match r with
             | inl e => inl e
             | inr _ => inr [mkCommandRequest (rq_ApplicationID req) (placeholderScript type req) 1 true]
             end)
  | cmds => ret (inr cmds)
  end.

(** Keep the first of equal ids. *)
Definition dedup (ids : list string) : list string :=
  reverse (remove_dups (reverse ids)).

(** gorm leaves a zero value out of the INSERT of a column that has a default. *)
Definition gormDefault {A} `{!EqDecision A} (zero dflt v : A) : A := if bool_decide (v = zero) then dflt else v.

(** The range of an INT column. *)
Definition int4 (v : Z) : bool := (-2 ^ 31 <=? v) && (v <? 2 ^ 31).
Definition outOfRange : goerr := Errorf "integer out of range" [].

(** The campaign row as gorm writes it. *)
Definition newCampaign (id : string) (req : CreateCampaignRequest) (capFileID scriptID : option string) : Campaign.t := {|
  Campaign.ID := id;
  Campaign.Status := "pending";
  Campaign.MaxRetries := gormDefault 0 3 (rq_MaxRetries req);
  Campaign.ThrottleSMSPerSec := if 0 <? rq_ThrottleSMSPerSec req then Some (rq_ThrottleSMSPerSec req) else None;
  Campaign.MaxConcatOverride := if 0 <? rq_MaxConcatOverride req then Some (rq_MaxConcatOverride req) else None;
  Campaign.StartedAt := None;
  Campaign.CompletedAt := None;
  Campaign.CAPFileID := capFileID;
  Campaign.ScriptID := scriptID;
  Campaign.Name := rq_Name req |}.

Definition commandKey (c : CampaignCommand.t) : string * Z := (CampaignCommand.CampaignID c, CampaignCommand.Sequence c).

Definition set_campaign_commands f (d : Database) : Database :=
  {| campaigns := campaigns d; profiles_tbl := profiles_tbl d; campaign_commands := f (campaign_commands d);
     cards := cards d; card_execution_states := card_execution_states d; campaign_stats := campaign_stats d |}.

(** [tx.Create(&campaign)] *)
Definition createCampaignRow (campaign : Campaign.t) : AM unit :=
  if int4 (Campaign.MaxRetries campaign) && int4 (default 0 (Campaign.ThrottleSMSPerSec campaign))
     && int4 (default 0 (Campaign.MaxConcatOverride campaign))
  then
    do! taken <- query (fun d => bool_decide (is_Some (campaigns d !! Campaign.ID campaign)));
    if taken : bool then merr duplicateKey
    else
      do! known <- gets (fun a => bool_decide (assetsKnown a campaign));
      if negb known then merr foreignKey
      else modify (fun a => set_ap_sys (set_db (set_campaigns <[Campaign.ID campaign := campaign]> (db (cp_sys (ap_ctl a)))) (cp_sys (ap_ctl a))) a)
  else merr outOfRange.

(** [tx.Create(&cmd)]: the foreign key on applications and UNIQUE (campaign_id, sequence). *)
Definition createCommand (campaignID appID : string) (script : list Z) (cmd : CommandRequest) : AM unit :=
  do! app <- readApi (fun a => ap_apps a !! appID);
  match app with
  | None => merr foreignKey
  | Some app =>
      let row := {| CampaignCommand.CampaignID := campaignID; CampaignCommand.Sequence := cr_Sequence cmd;
                    CampaignCommand.ApplicationID := appID; CampaignCommand.Script := script;
                    CampaignCommand.ExpectResponse := gormDefault false true (cr_ExpectResponse cmd);
                    CampaignCommand.Application := app |} in
      do! table <- gets (fun a => campaign_commands (db (cp_sys (ap_ctl a))));
      if negb (int4 (cr_Sequence cmd)) then merr outOfRange
      else if bool_decide (commandKey row ∈ commandKey <$> table) then merr duplicateKey
      else modify (fun a => set_ap_sys (set_db (set_campaign_commands (fun t => t ++ [row]) (db (cp_sys (ap_ctl a)))) (cp_sys (ap_ctl a))) a)
  end.

Fixpoint createCommands (campaignID : string) (cmds : list CommandRequest) : AM unit :=
  match cmds with
  | [] => ret tt
  | cmd :: cmds =>
      match parse (cr_ApplicationID cmd) with
      | None => merr (Errorf "invalid UUID" [])
      | Some appID =>
          do! script <- mres (Decode (cr_Script cmd));
          do! _ <- createCommand campaignID appID script cmd;
          createCommands campaignID cmds
      end
  end.

(** One INSERT of [CreateInBatches(targets, 2000)], with ON CONFLICT DO NOTHING and the
    foreign key on cards. *)
Definition createTargetRows (campaignID : string) (chunk : list string) : AM unit :=
  do! fault <- ask sys_fault;
  match fault with
  | Some e => merr e
  | None =>
      do! known <- gets (fun a => bool_decide (Forall (fun c => is_Some (cards (db (cp_sys (ap_ctl a))) !! c)) chunk));
      if known : bool then modify (fun a => set_ap_ctl (set_cp_targets (insertTargets campaignID chunk (cp_targets (ap_ctl a))) (ap_ctl a)) a)
      else merr foreignKey
  end.

Fixpoint createTargets (campaignID : string) (pieces : list (list string)) : AM unit :=
  match pieces with
  | [] => ret tt
  | chunk :: pieces => do! _ <- createTargetRows campaignID chunk; createTargets campaignID pieces
  end.

(** Active cards of the profiles. *)
Definition profileCards (profileIDs : list string) (d : Database) : list string :=
  fst <$> filter (fun kv => Card.ProfileID (snd kv) ∈ profileIDs /\ Card.Status (snd kv) = "active") (map_to_list (cards d)).

Definition groupCards (groupID : string) (a : Api) : list string :=
  snd <$> filter (fun m => fst m = groupID /\ is_Some (cards (db (cp_sys (ap_ctl a))) !! snd m)) (ap_members a).

Definition createTx (campaign : string -> Campaign.t) (cmds : list CommandRequest) (uniqueCardIDs profileIDs : list string)
    (groupID : option string) : AM (string * Z) :=
  do! campaignID <- newUUID;
  do! _ <- createCampaignRow (campaign campaignID);
  do! _ <- createCommands campaignID cmds;
  do! _ <- createTargets campaignID (chunks 2000 uniqueCardIDs);
  do! _ <- (match profileIDs with
            | [] => ret tt
            | _ => selectTargets campaignID (fun a => profileCards profileIDs (db (cp_sys (ap_ctl a))))
            end);
  do! _ <- (match groupID with
            | None => ret tt
            | Some g => selectTargets campaignID (groupCards g)
            end);
  do! targetCount <- readApi (fun a => zlen (filter (fun t => CampaignTarget.CampaignID t = campaignID) (cp_targets (ap_ctl a))));
  if targetCount =? 0 then merr (Errorf "no target cards specified" []) else ret (campaignID, targetCount).

(** Reloading: an error leaves the campaign in memory as it was. *)
Definition reload (campaign : Campaign.t) : AM Campaign.t :=
  do! r <- try (do! o <- query (fun d => campaigns d !! Campaign.ID campaign); first o);
  match r with Ok c => ret c | Err _ => ret campaign | Panic p => mres (Panic p) end.

Definition created (campaign : Campaign.t) (targetCount : Z) (extra : list (string * value)) : Response.t :=
  Response.mk 201 None (("card_count", VInt targetCount) :: extra) (Some campaign).

(** From the committed transaction to the response. *)
Definition afterCreate (startImmediately : bool) (campaign : Campaign.t) (targetCount : Z) : AM Response.t :=
  do! campaign <- reload campaign;
  if negb startImmediately then ret (created campaign targetCount [])
  else
    do! started <- try (on_ctl (StartCampaign getenv redis query_ wsHub (Campaign.ID campaign)));
    match started with
    | Err startErr => ret (created campaign targetCount [("start_error", VStr (Error startErr))])
    | Panic p => mres (Panic p)
    | Ok _ => do! campaign <- reload campaign; ret (created campaign targetCount [])
    end.

(** The targets of the request: explicit cards, profiles, group. *)
Record targets := { tg_cards : list string; tg_profiles : list string; tg_group : option string }.

Definition parseTargets (req : CreateCampaignRequest) (k : targets -> AM Response.t) : AM Response.t :=
  orElse (parseList (rq_CardIDs req) (fun idStr => "invalid card_id: " +:+ idStr)) (fun explicitCardIDs =>
  orElse (parseOptional (rq_ProfileID req) "invalid profile_id") (fun profileID =>
  orElse (parseList (rq_ProfileIDs req) (fun _ => "invalid profile_id in profile_ids")) (fun more =>
  orElse (parseOptional (rq_CardGroupID req) "invalid card_group_id") (fun groupID =>
  k {| tg_cards := dedup explicitCardIDs;
       tg_profiles := dedup (option_list profileID ++ more);
       tg_group := groupID |})))).

Definition noTargets (t : targets) : bool :=
  match tg_cards t, tg_profiles t, tg_group t with [], [], None => true | _, _, _ => false end.

(** [body] is the request, or the error of [ShouldBindJSON]. *)
Definition CreateCampaign (body : string + CreateCampaignRequest) : AM Response.t :=
  match body with
  | inl e => ret (errorResponse 400 e)
  | inr req =>
      let type := if bool_decide (rq_CampaignType req = "") then rq_Type req else rq_CampaignType req in
      orElse (require (negb (bool_decide (type = ""))) (errorResponse 400 "campaign_type or type is required")) (fun _ =>
      orElse (require (bool_decide (type ∈ allowedCampaignTypes)) (errorResponse 400 "invalid campaign_type")) (fun _ =>
      orElse (commandsFor type req) (fun cmds =>
      orElse (parseOptional (rq_CAPFileID req) "invalid cap_file_id") (fun capFileID =>
      orElse (parseOptional (rq_ScriptID req) "invalid script_id") (fun scriptID =>
      orElse (require (bool_decide (rq_ScheduledAt req = "") || bool_decide (is_Some (parseTime (rq_ScheduledAt req))))
                (errorResponse 400 "invalid scheduled_at format, use RFC3339")) (fun _ =>
      parseTargets req (fun t =>
      orElse (require (negb (noTargets t)) (errorResponse 400 "no target cards specified")) (fun _ =>
      orElse (if bool_decide (rq_ApplicationID req = "") then ret (inr tt)
              else lookupApp (rq_ApplicationID req) "failed to validate application profile") (fun _ =>
      let campaign id := newCampaign id req capFileID scriptID in
      do! r <- try (transaction (createTx campaign cmds (tg_cards t) (tg_profiles t) (tg_group t)));
      match r with
      | Err e =>
          ret (if contains (Error e) "do not belong to the application's profile"
                  || contains (Error e) "no target cards specified"
               then errorResponse 400 (Error e) else errorResponse 500 "failed to create campaign")
      | Panic p => mres (Panic p)
      | Ok (campaignID, targetCount) => afterCreate (rq_StartImmediately req) (campaign campaignID) targetCount
      end)))))))))
  end.
End Handlers.
