(* ===== verification/Search.v ===== *)
(** * Searching lists

    The lists of cards, profiles and scripts filter by [name ILIKE '%' || escapeLike(search) || '%'
    ESCAPE '\'] (api.go escapeLike and the List handlers).  [like] is the matcher of the
    database on bytes; ILIKE compares after folding the case of text and pattern.  The
    theorem: whatever the user types, it is searched for literally. *)

From S2P Require Import Prelude Effects Models Api.

Definition wildcard : Ascii.ascii := Ascii.ascii_of_N 37.
Definition anyChar : Ascii.ascii := Ascii.ascii_of_N 95.
Definition escape : Ascii.ascii := Ascii.ascii_of_N 92.

(** LIKE with ESCAPE '\'; a pattern that ends in an escape matches nothing. *)
Fixpoint like (p : list Ascii.ascii) : list Ascii.ascii -> bool :=
  match p with
  | [] => fun s => match s with [] => true | _ => false end
  | c :: p1 =>
      if bool_decide (c = wildcard) then
        fix any s := like p1 s || match s with [] => false | _ :: s => any s end
      else if bool_decide (c = anyChar) then
        fun s => match s with [] => false | _ :: s => like p1 s end
      else if bool_decide (c = escape) then
        match p1 with
        | [] => fun _ => false
        | d :: p2 => fun s => match s with [] => false | x :: s => bool_decide (x = d) && like p2 s end
        end
      else fun s => match s with [] => false | x :: s => bool_decide (x = c) && like p1 s end
  end.

(** [fold] is the database's lower case. *)
Definition ilike (fold : string -> string) (text pattern : string) : bool :=
  like (String.list_ascii_of_string (fold pattern)) (String.list_ascii_of_string (fold text)).

(** [escapeLike(search) + "%"] and ["%" + escapeLike(search) + "%"] *)
Definition prefixPattern (search : string) : string := escapeLike search +:+ "%".
Definition searchPattern (search : string) : string := "%" +:+ prefixPattern search.

(** [if search := c.Query("search"); search != ""] *)
Definition matches (fold : string -> string) (search text : string) : bool :=
  bool_decide (search = "") || ilike fold text (searchPattern search).

(** ** Matching *)

Lemma like_wildcard p s : like (wildcard :: p) s = true <-> exists k, like p (drop k s) = true.
Proof.
  change (like (wildcard :: p)) with (fix any s := like p s || match s with [] => false | _ :: s => any s end).
  induction s as [|x s IH]; cbn.
  - rewrite orb_false_r. split; [by exists 0%nat | intros [[|k] Hk]; done].
  - rewrite orb_true_iff, IH. split.
    + intros [H|[k Hk]]; [by exists 0%nat | by exists (S k)].
    + intros [[|k] Hk]; [by left | right; by exists k].
Qed.

Lemma like_escaped c p s : like (escapeChar c ++ p) s = true <-> exists r, s = c :: r /\ like p r = true.
Proof.
  assert (H : like (escapeChar c ++ p) s = match s with [] => false | x :: s => bool_decide (x = c) && like p s end).
  { unfold escapeChar. destruct ((_ =? 92)%N || _ || _) eqn:E; cbn [app]; [done|].
    cbn [like]. rewrite !bool_decide_false; [done|..]; intros ->; done. }
  rewrite H. destruct s as [|x s]; [naive_solver|]. rewrite andb_true_iff, bool_decide_eq_true. naive_solver.
Qed.

Lemma like_literal w p s :
  like (concat (escapeChar <$> w) ++ p) s = true <-> exists r, s = w ++ r /\ like p r = true.
Proof.
  revert s. induction w as [|c w IH]; intros s; cbn [fmap list_fmap concat app].
  { split; [by exists s | by intros (r & -> & H)]. }
  rewrite <- app_assoc, like_escaped. split.
  - intros (r & -> & (r' & -> & Hr)%IH). by exists r'.
  - intros (r & -> & Hr). exists (w ++ r). split; [done|]. apply IH. by exists r.
Qed.

Lemma list_ascii_inj s t : String.list_ascii_of_string s = String.list_ascii_of_string t -> s = t.
Proof. intros H. by rewrite <- (String.string_of_list_ascii_of_string s), H, String.string_of_list_ascii_of_string. Qed.

Lemma prefix_bytes search :
  String.list_ascii_of_string (prefixPattern search) = concat (escapeChar <$> String.list_ascii_of_string search) ++ [wildcard].
Proof. unfold prefixPattern, escapeLike. rewrite !list_ascii_app, String.list_ascii_of_string_of_list_ascii. done. Qed.
Lemma pattern_bytes search :
  String.list_ascii_of_string (searchPattern search)
  = wildcard :: concat (escapeChar <$> String.list_ascii_of_string search) ++ [wildcard].
Proof. unfold searchPattern. by rewrite list_ascii_app, prefix_bytes. Qed.

Lemma like_all s : like [wildcard] s = true.
Proof. apply like_wildcard. exists (length s). by rewrite drop_all. Qed.

(** Case folding leaves the characters of the pattern language alone. *)
Class CaseFold (fold : string -> string) : Prop := {
  fold_prefix search : fold (prefixPattern search) = prefixPattern (fold search);
  fold_pattern search : fold (searchPattern search) = searchPattern (fold search)
}.

(** A search is literal: a row is listed exactly when its name contains -- or, for the numbers of cards, starts
    with -- what was typed, up to case, also when that has percent signs, underscores or backslashes in it. *)
Theorem search_is_literal fold search text (Hfold : CaseFold fold) :
  (matches fold search text = true <-> search = "" \/ exists before after, fold text = before +:+ fold search +:+ after) /\
  (ilike fold text (prefixPattern search) = true <-> exists after, fold text = fold search +:+ after).
Proof.
  set (b := String.list_ascii_of_string (fold text)). split.
  - unfold matches, ilike. rewrite orb_true_iff, bool_decide_eq_true, fold_pattern, pattern_bytes, like_wildcard.
    setoid_rewrite like_literal. apply or_iff_compat_l. fold b. split.
    + intros (k & r & Hd & _).
      exists (String.string_of_list_ascii (take k b)), (String.string_of_list_ascii r). apply list_ascii_inj.
      rewrite !list_ascii_app, !String.list_ascii_of_string_of_list_ascii, <- Hd. by rewrite take_drop.
    + intros (before & after & Ht). unfold b. rewrite Ht, !list_ascii_app.
      exists (length (String.list_ascii_of_string before)), (String.list_ascii_of_string after).
      rewrite drop_app_length. split; [done | apply like_all].
  - unfold ilike. rewrite fold_prefix, prefix_bytes, like_literal. fold b. split.
    + intros (r & Hr & _). exists (String.string_of_list_ascii r). apply list_ascii_inj.
      rewrite list_ascii_app, String.list_ascii_of_string_of_list_ascii. exact Hr.
    + intros (after & Ht). exists (String.list_ascii_of_string after). split; [|apply like_all]. unfold b. by rewrite Ht, list_ascii_app.
Qed.

Lemma search_is_literal_witness :
  CaseFold (fun s => s) /\
  (matches (fun s => s) "5%_\" "tariff 5%_\ old" = true <->
     "5%_\" = "" \/ exists before after, "tariff 5%_\ old" = before +:+ "5%_\" +:+ after) /\
  matches (fun s => s) "5%_\" "tariff 5%_\ old" = true /\ matches (fun s => s) "5%_\" "tariff 55x\" = false.
Proof.
  split; [done|]. split; [|by vm_compute].
  apply (search_is_literal (fun s => s) "5%_\" "tariff 5%_\ old"). done.
Defined.
