(* ===== verification/Cards.v ===== *)
(** * internal/controlplane/api_cards.go and internal/db/bulk_import.go

    Creating, changing, deleting and importing cards, and groups of cards.
    The table cards has a primary key and three unique columns; deleting a
    card also deletes its targets and memberships.  What encoding/csv reads
    from an upload is a parameter: the results of its successive calls of [Read].
    [cardKeys] says whether the key store is present: its writes go to the same
    table, outside the transaction of the handler. *)

From S2P Require Import Prelude Effects Models Pipeline Store HexUtil StateWriter Sql QueryStore Executor CampaignControl CardKeyStore Api.

(** ** The table cards *)

(** Rows that a unique column cannot both hold. *)
Definition sameIdentity (a b : Card.t) : Prop :=
  Card.ICCID a = Card.ICCID b \/ Card.IMSI a = Card.IMSI b \/ Card.MSISDN a = Card.MSISDN b.
#[global] Instance sameIdentity_dec a b : Decision (sameIdentity a b).
Proof. unfold sameIdentity. apply _. Defined.

Definition conflicts (t : gmap string Card.t) (c : Card.t) : Prop :=
  is_Some (t !! Card.ID c) \/ Exists (fun kv => sameIdentity c (snd kv)) (map_to_list t).
#[global] Instance conflicts_dec t c : Decision (conflicts t c).
Proof. unfold conflicts. apply _. Defined.

Definition cardStatuses : list string := ["active"; "inactive"; "blocked"].
Definition checkViolation : goerr := Errorf "new row for relation violates check constraint" [].

Definition profileKnown (d : Database) (c : Card.t) : Prop := is_Some (profiles_tbl d !! Card.ProfileID c).
#[global] Instance profileKnown_dec d c : Decision (profileKnown d c).
Proof. unfold profileKnown. apply _. Defined.

Definition cardsDb (a : Api) : Database := db (cp_sys (ap_ctl a)).
Definition putCards (t : gmap string Card.t) (a : Api) : Api :=
  set_ap_sys (set_db (set_cards (fun _ => t) (cardsDb a)) (cp_sys (ap_ctl a))) a.

(** [tx.Create(&card)] *)
Definition createCardRow (c : Card.t) : AM unit :=
  do! fault <- ask sys_fault;
  match fault with
  | Some e => merr e
  | None =>
      do! d <- gets cardsDb;
      if negb (bool_decide (Card.Status c ∈ cardStatuses)) then merr checkViolation
      else if bool_decide (conflicts (cards d) c) then merr duplicateKey
      else if negb (bool_decide (profileKnown d c)) then merr foreignKey
      else modify (putCards (<[Card.ID c := c]> (cards d)))
  end.

Definition lowerByte (b : Z) : Z := if (65 <=? b) && (b <=? 90) then b + 32 else b.

(** [strings.ToLower] on UTF-8 as far as ASCII results go: two letters outside ASCII,
    U+0130 and U+212A, have an ASCII lower case; the others are left as they are. *)
Fixpoint lowerBytes (l : list Z) : list Z :=
  match l with
  | [] => []
  | b :: rest =>
      match rest with
      | 176 :: tail => if b =? 196 then 105 :: lowerBytes tail else lowerByte b :: lowerBytes rest
      | 132 :: 170 :: tail => if b =? 226 then 107 :: lowerBytes tail else lowerByte b :: lowerBytes rest
      | _ => lowerByte b :: lowerBytes rest
      end
  end.

Definition toLower (s : string) : string := bytes_string (lowerBytes (string_bytes s)).

(** [strings.ToLower(err.Error())] against the texts of unique violations. *)
Definition isUniqueConstraintError (e : goerr) : bool :=
  let msg := toLower (Error e) in
  contains msg "duplicate key value" || contains msg "unique constraint failed" || contains msg "violates unique constraint".

(** [tx := a.db.Begin()]: the statements of a transaction that could not begin fail with its error. *)
Definition inTx {A} (begin : option goerr) (m : AM A) : AM A :=
  match begin with Some e => merr e | None => m end.

Definition rollback (saved : Tables) : AM unit := modify (setTables saved).

(** [tx.Commit().Error] *)
Definition commit (saved : Tables) : AM (res unit) :=
  do! fault <- ask sys_fault;
  match fault with
  | Some e => do! _ <- rollback saved; ret (Err e)
  | None => ret (Ok tt)
  end.

(** ** CreateCard *)

Record CreateCardRequest := mkCreateCardRequest {
  cc_ICCID : string;
  cc_IMSI : string;
  cc_MSISDN : string;
  cc_ProfileID : string;
  cc_EncKey : string;
  cc_AuthKey : string;
  cc_KEK : string;
  cc_Status : string
}.

(** [hexutil.Decode] with an early return. *)
Definition decodeKey (s msg : string) : AM (Response.t + list Z) :=
  ret (match Decode s with Ok b => inr b | _ => inl (errorResponse 400 msg) end).

Section CardHandlers.
Context (parse castUUID : string -> option string) (cardKeys : bool).

Definition withProfile (profileID : string) (k : AM Response.t) : AM Response.t :=
  do! profile <- try (do! o <- query (fun d => profiles_tbl d !! profileID); first o);
  match profile with
  | Err e => ret (if bool_decide (e = ErrRecordNotFound) then errorResponse 400 "profile not found"
                  else errorResponse 500 "failed to check profile")
  | Panic p => mres (Panic p)
  | Ok _ => k
  end.

Definition syncKeys (card : Card.t) : AM (res unit) :=
  if cardKeys then
    try (on_ctl (on_sys (WriteCardKeys parse (Card.ID card) (Card.EncKey card) (Card.AuthKey card) (Card.KEK card)
                           (Card.ProfileID card) (Card.MSISDN card))))
  else ret (Ok tt).

(** From [Begin] to the response; gorm reads the generated id back. *)
Definition storeCard (card : string -> Card.t) : AM Response.t :=
  do! begin <- ask sys_fault;
  do! saved <- gets tablesOf;
  do! id <- newUUID;
  do! r <- try (inTx begin (createCardRow (card id)));
  match r with
  | Err e =>
      do! _ <- rollback saved;
      ret (if isUniqueConstraintError e
           then errorResponse 409 "a card with this ICCID, IMSI, or MSISDN already exists"
           else errorResponse 500 "failed to create card")
  | Panic p => mres (Panic p)
  | Ok _ =>
      do! synced <- syncKeys (card id);
      match synced with
      | Ok _ =>
          do! committed <- commit saved;
          ret (match committed with
               | Ok _ => Response.mk 201 None [("id", VStr id)] None
               | _ => errorResponse 500 "failed to create card"
               end)
      | _ => do! _ <- rollback saved; ret (errorResponse 500 "card creation failed — key sync error")
      end
  end.

Definition CreateCard (body : string + CreateCardRequest) : AM Response.t :=
  match body with
  | inl e => ret (errorResponse 400 e)
  | inr req =>
      match parse (cc_ProfileID req) with
      | None => ret (errorResponse 400 "invalid profile_id")
      | Some profileID =>
          withProfile profileID
            (orElse (decodeKey (cc_EncKey req) "invalid enc_key hex") (fun encKey =>
             orElse (decodeKey (cc_AuthKey req) "invalid auth_key hex") (fun authKey =>
             orElse (if bool_decide (cc_KEK req = "") then ret (inr []) else decodeKey (cc_KEK req) "invalid kek hex") (fun kek =>
             storeCard (fun id => {|
               Card.ID := id; Card.ICCID := cc_ICCID req; Card.IMSI := cc_IMSI req; Card.MSISDN := cc_MSISDN req;
               Card.ProfileID := profileID; Card.EncKey := encKey; Card.AuthKey := authKey; Card.KEK := kek;
               Card.Status := if bool_decide (cc_Status req = "") then "active" else cc_Status req |})))))
      end
  end.

(** ** UpdateCard *)

(** The request with absent fields, and the columns it changes. *)
Record UpdateCardRequest := mkUpdateCardRequest {
  uc_ICCID : option string;
  uc_IMSI : option string;
  uc_MSISDN : option string;
  uc_ProfileID : option string;
  uc_EncKey : option string;
  uc_AuthKey : option string;
  uc_KEK : option string;
  uc_Status : option string
}.

Record cardUpdates := mkCardUpdates {
  up_iccid : option string;
  up_imsi : option string;
  up_msisdn : option string;
  up_profile_id : option string;
  up_enc_key : option (list Z);
  up_auth_key : option (list Z);
  up_kek : option (list Z);
  up_status : option string
}.

Definition applyUpdates (u : cardUpdates) (c : Card.t) : Card.t := {|
  Card.ID := Card.ID c;
  Card.ICCID := default (Card.ICCID c) (up_iccid u);
  Card.IMSI := default (Card.IMSI c) (up_imsi u);
  Card.MSISDN := default (Card.MSISDN c) (up_msisdn u);
  Card.ProfileID := default (Card.ProfileID c) (up_profile_id u);
  Card.EncKey := default (Card.EncKey c) (up_enc_key u);
  Card.AuthKey := default (Card.AuthKey c) (up_auth_key u);
  Card.KEK := default (Card.KEK c) (up_kek u);
  Card.Status := default (Card.Status c) (up_status u) |}.

(** [UPDATE cards SET ... WHERE id = ?]: no row is no error. *)
Definition updateCardRow (id : string) (u : cardUpdates) : AM unit :=
  do! fault <- ask sys_fault;
  match fault with
  | Some e => merr e
  | None =>
      do! d <- gets cardsDb;
      match cards d !! id with
      | None => ret tt
      | Some c =>
          let c := applyUpdates u c in
          if negb (bool_decide (Card.Status c ∈ cardStatuses)) then merr checkViolation
          else if bool_decide (Exists (fun kv => sameIdentity c (snd kv)) (map_to_list (delete id (cards d)))) then merr duplicateKey
          else if negb (bool_decide (profileKnown d c)) then merr foreignKey
          else modify (putCards (<[id := c]> (cards d)))
      end
  end.

(** [if req.F != nil]: decode the field with an early return. *)
Definition optionally {A} (f : string -> AM (Response.t + A)) (v : option string) : AM (Response.t + option A) :=
  match v with
  | None => ret (inr None)
  | Some v => do! r <- f v; ret (match r with inl e => inl e | inr a => inr (Some a) end)
  end.

Definition parseProfile (s : string) : AM (Response.t + string) :=
  ret (match parse s with Some id => inr id | None => inl (errorResponse 400 "invalid profile_id") end).

Definition noUpdates (u : cardUpdates) : bool :=
  match u with mkCardUpdates None None None None None None None None => true | _ => false end.

Definition cardUpdatesOf (req : UpdateCardRequest) (k : cardUpdates -> AM Response.t) : AM Response.t :=
  orElse (optionally parseProfile (uc_ProfileID req)) (fun profileID =>
  orElse (optionally (fun s => decodeKey s "invalid enc_key hex") (uc_EncKey req)) (fun encKey =>
  orElse (optionally (fun s => decodeKey s "invalid auth_key hex") (uc_AuthKey req)) (fun authKey =>
  orElse (optionally (fun s => decodeKey s "invalid kek hex") (uc_KEK req)) (fun kek =>
  k (mkCardUpdates (uc_ICCID req) (uc_IMSI req) (uc_MSISDN req) profileID encKey authKey kek (uc_Status req)))))).

(** Update and reload, committed together. *)
Definition storeUpdate (rawID id : string) (u : cardUpdates) : AM Response.t :=
  do! begin <- ask sys_fault;
  do! saved <- gets tablesOf;
  let failed := errorResponse 500 "failed to update card" in
  do! r <- try (inTx begin (do! _ <- updateCardRow id u; do! o <- queryRow castUUID rawID (fun id d => cards d !! id); first o));
  match r with
  | Err _ => do! _ <- rollback saved; ret failed
  | Panic p => mres (Panic p)
  | Ok _ =>
      do! committed <- commit saved;
      match committed with
      | Ok _ =>
          do! _ <- ignore (queryRow castUUID rawID (fun id d => cards d !! id));
          ret (Response.mk 200 None [("id", VStr id)] None)
      | _ => ret failed
      end
  end.

Definition UpdateCard (id : string) (body : string + UpdateCardRequest) : AM Response.t :=
  withID parse id (fun _ =>
    do! found <- try (do! o <- queryRow castUUID id (fun id d => cards d !! id); first o);
    match found with
    | Err e => ret (if bool_decide (e = ErrRecordNotFound) then errorResponse 404 "card not found"
                    else errorResponse 500 "failed to find card")
    | Panic p => mres (Panic p)
    | Ok card =>
        match body with
        | inl e => ret (errorResponse 400 e)
        | inr req =>
            cardUpdatesOf req (fun updates =>
              if noUpdates updates then ret (errorResponse 400 "no fields to update")
              else storeUpdate id (Card.ID card) updates)
        end
    end).

(** ** DeleteCard *)

(** [DELETE FROM cards WHERE id = ?] with its cascades: the rows affected. *)
Definition dropCard (id : string) (a : Api) : Api :=
  set_ap_members (filter (fun m => snd m <> id) (ap_members a))
    (set_ap_ctl (set_cp_targets (filter (fun t => CampaignTarget.CardID t <> id) (cp_targets (ap_ctl a)))
                   (ap_ctl (putCards (delete id (cards (cardsDb a))) a))) a).

Definition deleteCardRow (rawID : string) : AM Z :=
  match castUUID rawID with
  | None => merr (Errorf "invalid input syntax for type uuid" [])
  | Some id =>
      do! fault <- ask sys_fault;
      match fault with
      | Some e => merr e
      | None =>
          do! known <- gets (fun a => bool_decide (is_Some (cards (cardsDb a) !! id)));
          do! _ <- modify (dropCard id);
          ret (if known : bool then 1 else 0)
      end
  end.

Definition DeleteCard (id : string) : AM Response.t :=
  withID parse id (fun _ =>
    do! r <- try (deleteCardRow id);
    match r with
    | Err _ => ret (errorResponse 500 "failed to delete card")
    | Panic p => mres (Panic p)
    | Ok rowsAffected =>
        if rowsAffected =? 0 then ret (errorResponse 404 "card not found")
        else
          do! _ <- mwhen cardKeys (ignore (on_ctl (on_sys (DeleteCardKeys parse id))));
          ret (message 200 "card deleted")
    end).

(** ** BulkInsertCards *)

Record BulkInsertResult := { bi_Inserted : Z; bi_Skipped : Z; bi_InsertedIDs : list string }.

(** Cards without an id get one. *)
Fixpoint assignIDs (batch : list Card.t) : AM (list Card.t) :=
  match batch with
  | [] => ret []
  | c :: batch =>
      do! c <- (if bool_decide (Card.ID c = nilUUID) then
                  do! id <- newUUID;
                  ret (Card.mk id (Card.ICCID c) (Card.IMSI c) (Card.MSISDN c) (Card.ProfileID c) (Card.EncKey c)
                         (Card.AuthKey c) (Card.KEK c) (Card.Status c))
                else ret c);
      do! batch <- assignIDs batch;
      ret (c :: batch)
  end.

(** INSERT ... SELECT ... ON CONFLICT DO NOTHING RETURNING id, row by row. *)
Definition insertCard (acc : gmap string Card.t * list string) (c : Card.t) : gmap string Card.t * list string :=
  let '(t, ids) := acc in
  if bool_decide (conflicts t c) then (t, ids) else (<[Card.ID c := c]> t, ids ++ [Card.ID c]).

Definition insertCards (t : gmap string Card.t) (rows : list Card.t) : gmap string Card.t * list string :=
  foldl insertCard (t, []) rows.

Definition insertFromTemp (temp : list Card.t) : AM (list string) :=
  do! fault <- ask sys_fault;
  match fault with
  | Some e => merr e
  | None =>
      do! d <- gets cardsDb;
      let '(t, ids) := insertCards (cards d) temp in
      if negb (bool_decide (Forall (fun c => Card.Status c ∈ cardStatuses) temp)) then merr checkViolation
      else if negb (bool_decide (Forall (fun c => Card.ID c ∈ ids -> profileKnown d c) temp)) then merr foreignKey
      else do! _ <- modify (putCards t); ret ids
  end.

(** [TRUNCATE _card_import], whose error is dropped: the rows left for the next batch. *)
Definition truncate (temp : list Card.t) : AM (list Card.t) :=
  do! fault <- ask sys_fault;
  ret (match fault with Some _ => temp | None => [] end).

(** [temp] is the temporary table of the connection, which outlives a batch. *)
Definition BulkInsertCards (temp batch : list Card.t) : AM (BulkInsertResult * list Card.t * list Card.t) :=
  match batch with
  | [] => ret ({| bi_Inserted := 0; bi_Skipped := 0; bi_InsertedIDs := [] |}, [], temp)
  | _ =>
      do! batch <- assignIDs batch;
      do! created <- ask sys_fault;
      match created with
      | Some e => merr (Errorf "create temp table: %w" [ArgErr e])
      | None =>
          do! copied <- ask sys_fault;
          match copied with
          | Some e => do! _ <- truncate temp; merr (Errorf "copy to temp table: %w" [ArgErr e])
          | None =>
              let temp := temp ++ batch in
              do! r <- try (insertFromTemp temp);
              match r with
              | Err e => do! _ <- truncate temp; merr (Errorf "insert from temp: %w" [ArgErr e])
              | Panic p => mres (Panic p)
              | Ok ids =>
                  do! temp <- truncate temp;
                  ret ({| bi_Inserted := zlen ids; bi_Skipped := zlen batch - zlen ids; bi_InsertedIDs := ids |}, batch, temp)
              end
          end
      end
  end.

(** ** ImportCards *)

Record Import := mkImport {
  im_created : Z;
  im_skipped : Z;
  im_errors : Z;
  im_details : list string;
  im_line : Z;
  im_batch : list Card.t;
  im_profiles : gmap string string;
  im_temp : list Card.t
}.

Definition keyRecord (c : Card.t) : CardKeyRecord.t := {|
  CardKeyRecord.CardID := Card.ID c; CardKeyRecord.EncKey := Card.EncKey c; CardKeyRecord.AuthKey := Card.AuthKey c;
  CardKeyRecord.KEK := Card.KEK c; CardKeyRecord.ProfileID := Card.ProfileID c; CardKeyRecord.MSISDN := Card.MSISDN c |}.

Definition syncBatch (ids : list string) (batch : list Card.t) : AM unit :=
  match ids with
  | [] => ret tt
  | _ =>
      if cardKeys then
        let records := keyRecord <$> filter (fun c => Card.ID c ∈ ids) batch in
        do! r <- try (on_ctl (on_sys (WriteCardKeysBatch parse records)));
        match r with
        | Err e => merr (Errorf "ScyllaDB key sync failed for %d cards — rerun import to repair: %w" [ArgInt (zlen records); ArgErr e])
        | r => mres r
        end
      else ret tt
  end.

Definition flushBatch (st : Import) : AM Import :=
  match im_batch st with
  | [] => ret st
  | _ =>
      do! r <- BulkInsertCards (im_temp st) (im_batch st);
      let '(result, batch, temp) := r in
      do! _ <- syncBatch (bi_InsertedIDs result) batch;
      ret (mkImport (im_created st + bi_Inserted result) (im_skipped st + bi_Skipped result) (im_errors st)
             (im_details st) (im_line st) [] (im_profiles st) temp)
  end.

(** The next line; a line that could not be imported, with its reason. *)
Definition nextLine (st : Import) : Import :=
  mkImport (im_created st) (im_skipped st) (im_errors st) (im_details st) (im_line st + 1) (im_batch st) (im_profiles st) (im_temp st).
Definition detail (st : Import) (text : string) : string := "line " +:+ pretty (im_line st) +:+ ": " +:+ text.
Definition skipLine (st : Import) (text : string) : Import :=
  mkImport (im_created st) (im_skipped st + 1) (im_errors st) (im_details st ++ [detail st text]) (im_line st) (im_batch st)
    (im_profiles st) (im_temp st).
Definition failLine (st : Import) (text : string) : Import :=
  mkImport (im_created st) (im_skipped st) (im_errors st + 1) (im_details st ++ [detail st text]) (im_line st) (im_batch st)
    (im_profiles st) (im_temp st).

(** [profileCache] in front of the table. *)
Definition profileByName (name : string) (d : Database) : option Profile.t :=
  snd <$> head (filter (fun kv => Profile.Name (snd kv) = name) (map_to_list (profiles_tbl d))).

Definition resolveProfile (st : Import) (name : string) : AM (option string * Import) :=
  match im_profiles st !! name with
  | Some id => ret (Some id, st)
  | None =>
      do! r <- try (do! o <- query (profileByName name); first o);
      match r with
      | Err _ => ret (None, failLine st ("profile not found: " +:+ name))
      | Panic p => mres (Panic p)
      | Ok p => ret (Some (Profile.ID p), mkImport (im_created st) (im_skipped st) (im_errors st) (im_details st) (im_line st)
                                            (im_batch st) (<[name := Profile.ID p]> (im_profiles st)) (im_temp st))
      end
  end.

(** [strings.TrimSpace(record[colMap[col]])] *)
Definition column (colMap : gmap string Z) (record : list string) (col : string) : AM string :=
  do! v <- mres (index record (default 0 (colMap !! col)));
  ret (TrimSpace v).

Definition requiredCols : list string := ["iccid"; "imsi"; "msisdn"; "profile_name"; "enc_key"; "auth_key"].

Fixpoint columns (colMap : gmap string Z) (record : list string) (cols : list string) : AM (list string) :=
  match cols with
  | [] => ret []
  | col :: cols => do! v <- column colMap record col; do! vs <- columns colMap record cols; ret (v :: vs)
  end.

Definition batchSize : Z := 5000.

Definition pushCard (st : Import) (c : Card.t) : AM Import :=
  let st := mkImport (im_created st) (im_skipped st) (im_errors st) (im_details st) (im_line st) (im_batch st ++ [c])
              (im_profiles st) (im_temp st) in
  if batchSize <=? zlen (im_batch st) then flushBatch st else ret st.

(** A record of six trimmed fields, in the order of [requiredCols]. *)
Definition importFields (st : Import) (fields : list string) : AM Import :=
  if bool_decide (Exists (fun v => v = "") fields) then ret (skipLine st "missing required fields")
  else
    match fields with
    | [iccid; imsi; msisdn; profileName; encKeyHex; authKeyHex] =>
        do! r <- resolveProfile st profileName;
        let '(profileID, st) := r in
        match profileID, Decode encKeyHex, Decode authKeyHex with
        | None, _, _ => ret st
        | Some _, Err _, _ => ret (failLine st "invalid enc_key hex")
        | Some _, Ok _, Err _ => ret (failLine st "invalid auth_key hex")
        | Some profileID, Ok encKey, Ok authKey =>
            pushCard st (Card.mk nilUUID iccid imsi msisdn profileID encKey authKey [] "active")
        | Some _, Panic p, _ | Some _, Ok _, Panic p => mres (Panic p)
        end
    | _ => ret st
    end.

Definition importRow (colMap : gmap string Z) (st : Import) (row : res (list string)) : AM Import :=
  let st := nextLine st in
  match row with
  | Err e => ret (failLine st (Error e))
  | Panic p => mres (Panic p)
  | Ok record => do! fields <- columns colMap record requiredCols; importFields st fields
  end.

Fixpoint importRows (colMap : gmap string Z) (st : Import) (rows : list (res (list string))) : AM Import :=
  match rows with
  | [] => flushBatch st
  | row :: rows => do! st <- importRow colMap st row; importRows colMap st rows
  end.

(** The columns of the header; of equal names the last counts. *)
Fixpoint colMapFrom (i : Z) (header : list string) (m : gmap string Z) : gmap string Z :=
  match header with
  | [] => m
  | col :: header => colMapFrom (i + 1) header (<[TrimSpace (toLower col) := i]> m)
  end.

(** [reads] are the results of [reader.Read] up to EOF, the header first; [None] is a
    request without a file.  [temp] is what the connection's temporary table holds. *)
Definition ImportCards (temp : list Card.t) (reads : option (list (res (list string)))) : AM (Response.t * list string) :=
  let fail code text := ret (errorResponse code text, []) in
  match reads with
  | None => fail 400 "file is required"
  | Some (Ok header :: rows) =>
      let colMap := colMapFrom 0 header ∅ in
      match filter (fun col => colMap !! col = None) requiredCols with
      | col :: _ => fail 400 ("missing required CSV column: " +:+ col)
      | [] =>
          do! conn <- ask sys_fault;
          match conn with
          | Some _ => fail 500 "database error"
          | None =>
              do! r <- try (importRows colMap (mkImport 0 0 0 [] 1 [] ∅ temp) rows);
              match r with
              | Err _ => fail 500 "failed to import cards"
              | Panic p => mres (Panic p)
              | Ok st =>
                  ret (Response.mk 200 None [("created", VInt (im_created st)); ("skipped", VInt (im_skipped st));
                                             ("errors", VInt (im_errors st))] None, im_details st)
              end
          end
      end
  | Some _ => fail 400 "failed to read CSV header"
  end.
End CardHandlers.
