(* ===== verification/CardGroups.v ===== *)
(** * internal/controlplane/api_cards.go: groups of cards

    Groups have unique names; the members of a group are pairs of ids with a
    primary key, each of them an id of the tables card_groups and cards. *)

From S2P Require Import Prelude Effects Models Pipeline Store StateWriter Sql QueryStore CampaignControl Api Cards.

Record CardGroupRequest := mkCardGroupRequest { gq_Name : string; gq_Description : option string }.

(** UNIQUE (name), among the other groups. *)
Definition nameTaken (id name : string) (t : gmap string CardGroup.t) : Prop :=
  Exists (fun kv => fst kv <> id /\ CardGroup.Name (snd kv) = name) (map_to_list t).
#[global] Instance nameTaken_dec id name t : Decision (nameTaken id name t).
Proof. unfold nameTaken. apply _. Defined.

(** [a.db.Save(&group)]: an UPDATE, or an INSERT when no row was affected. *)
Definition saveGroup (group : CardGroup.t) : AM unit :=
  apiStatement (fun a =>
    if bool_decide (nameTaken (CardGroup.ID group) (CardGroup.Name group) (ap_groups a)) then (Err duplicateKey, a)
    else (Ok tt, set_ap_groups (<[CardGroup.ID group := group]> (ap_groups a)) a)).

(** [a.db.Create(&group)] *)
Definition createGroup (group : CardGroup.t) : AM unit :=
  apiStatement (fun a =>
    if bool_decide (is_Some (ap_groups a !! CardGroup.ID group)) || bool_decide (nameTaken (CardGroup.ID group) (CardGroup.Name group) (ap_groups a))
    then (Err duplicateKey, a)
    else (Ok tt, set_ap_groups (<[CardGroup.ID group := group]> (ap_groups a)) a)).

Section Groups.
Context (parse castUUID : string -> option string).

Definition CreateCardGroup (body : string + CardGroupRequest) : AM Response.t :=
  match body with
  | inl e => ret (errorResponse 400 e)
  | inr req =>
      do! id <- newUUID;
      do! r <- try (createGroup (CardGroup.mk id (gq_Name req) (gq_Description req)));
      match r with
      | Err _ => ret (errorResponse 500 "failed to create card group")
      | Panic p => mres (Panic p)
      | Ok _ => ret (Response.mk 201 None [("id", VStr id)] None)
      end
  end.

(** [First(&group, "id = ?", id)] with the text of the request. *)
Definition firstGroup (rawID : string) : AM CardGroup.t :=
  match castUUID rawID with
  | None => merr (Errorf "invalid input syntax for type uuid" [])
  | Some id => do! o <- readApi (fun a => ap_groups a !! id); first o
  end.

Definition withGroup {A} (id failure : string) (k : CardGroup.t -> AM (Response.t * A)) (none : A) : AM (Response.t * A) :=
  do! r <- try (firstGroup id);
  match r with
  | Err e => ret (if bool_decide (e = ErrRecordNotFound) then errorResponse 404 "card group not found"
                  else errorResponse 500 failure, none)
  | Panic p => mres (Panic p)
  | Ok group => k group
  end.

Definition badID {A} (none : A) : AM (Response.t * A) := ret (errorResponse 400 "invalid UUID: id", none).

(** The members; an error of reading them leaves none. *)
Definition GetCardGroup (id : string) : AM (Response.t * list string) :=
  match parse id with
  | None => badID []
  | Some _ =>
      withGroup id "failed to get card group" (fun group =>
        do! members <- try (readApi (fun a => snd <$> filter (fun m => fst m = CardGroup.ID group) (ap_members a)));
        let members := match members with Ok l => l | _ => [] end in
        ret (Response.mk 200 None [("id", VStr (CardGroup.ID group)); ("member_count", VInt (zlen members))] None, members)) []
  end.

Definition UpdateCardGroup (id : string) (body : string + CardGroupRequest) : AM (Response.t * unit) :=
  match parse id with
  | None => badID tt
  | Some _ =>
      withGroup id "failed to find card group" (fun group =>
        match body with
        | inl e => ret (errorResponse 400 e, tt)
        | inr req =>
            do! r <- try (saveGroup (CardGroup.mk (CardGroup.ID group) (gq_Name req) (gq_Description req)));
            match r with
            | Err _ => ret (errorResponse 500 "failed to update card group", tt)
            | Panic p => mres (Panic p)
            | Ok _ => ret (Response.mk 200 None [("id", VStr (CardGroup.ID group))] None, tt)
            end
        end) tt
  end.

(** Members first, then the group, in one transaction. *)
Definition deleteGroupTx (rawID : string) : AM unit :=
  match castUUID rawID with
  | None => merr (Errorf "invalid input syntax for type uuid" [])
  | Some id =>
      do! _ <- apiStatement (fun a => (Ok tt, set_ap_members (filter (fun m => fst m <> id) (ap_members a)) a));
      do! hit <- apiStatement (fun a => (Ok (bool_decide (is_Some (ap_groups a !! id))), set_ap_groups (delete id (ap_groups a)) a));
      if hit : bool then ret tt else merr ErrRecordNotFound
  end.

Definition DeleteCardGroup (id : string) : AM Response.t :=
  withID parse id (fun _ =>
    do! r <- try (transaction (deleteGroupTx id));
    match r with
    | Err e => ret (if bool_decide (e = ErrRecordNotFound) then errorResponse 404 "card group not found"
                    else errorResponse 500 "failed to delete card group")
    | Panic p => mres (Panic p)
    | Ok _ => ret (message 200 "card group deleted")
    end).

(** [a.db.Create(&member)] *)
Definition createMember (groupID cardID : string) : AM unit :=
  apiStatement (fun a =>
    if bool_decide ((groupID, cardID) ∈ ap_members a) then (Err duplicateKey, a)
    else if bool_decide (is_Some (ap_groups a !! groupID) /\ is_Some (cards (cardsDb a) !! cardID))
    then (Ok tt, set_ap_members (ap_members a ++ [(groupID, cardID)]) a)
    else (Err foreignKey, a)).

(** Ids that do not parse and rows that cannot be created are skipped. *)
Fixpoint addMembers (groupID : string) (ids : list string) (added : Z) : AM Z :=
  match ids with
  | [] => ret added
  | s :: ids =>
      match parse s with
      | None => addMembers groupID ids added
      | Some cardID =>
          do! r <- try (createMember groupID cardID);
          match r with
          | Err _ => addMembers groupID ids added
          | Panic p => mres (Panic p)
          | Ok _ => addMembers groupID ids (added + 1)
          end
      end
  end.

Definition AddCardGroupMembers (id : string) (body : string + list string) : AM (Response.t * unit) :=
  match parse id with
  | None => badID tt
  | Some groupID =>
      withGroup groupID "failed to find card group" (fun _ =>
        match body with
        | inl e => ret (errorResponse 400 e, tt)
        | inr ids =>
            do! added <- addMembers groupID ids 0;
            ret (Response.mk 200 None [("message", VStr "members added"); ("added", VInt added)] None, tt)
        end) tt
  end.

(** A failed DELETE affects no rows. *)
Definition deleteMember (groupID cardID : string) : AM Z :=
  do! r <- try (apiStatement (fun a =>
    (Ok (if bool_decide ((groupID, cardID) ∈ ap_members a) then 1 else 0),
     set_ap_members (filter (fun m => m <> (groupID, cardID)) (ap_members a)) a)));
  ret (match r with Ok n => n | _ => 0 end).

Fixpoint removeMembers (groupID : string) (ids : list string) (removed : Z) : AM Z :=
  match ids with
  | [] => ret removed
  | s :: ids =>
      match parse s with
      | None => removeMembers groupID ids removed
      | Some cardID => do! n <- deleteMember groupID cardID; removeMembers groupID ids (removed + n)
      end
  end.

Definition RemoveCardGroupMembers (id : string) (body : string + list string) : AM Response.t :=
  withID parse id (fun groupID =>
    match body with
    | inl e => ret (errorResponse 400 e)
    | inr ids =>
        do! removed <- removeMembers groupID ids 0;
        ret (Response.mk 200 None [("message", VStr "members removed"); ("removed", VInt removed)] None)
    end).
End Groups.
