(* ===== verification/Profiles.v ===== *)
(** * internal/controlplane/api_profiles.go

    Profiles and the applications they hold.  The name of a profile is unique, an
    application is unique by its profile and TAR; a profile that a card uses and an
    application that a campaign command uses cannot be deleted.  A command
    row carries the application joined to it, so that a change of an application
    shows in the commands that use it.  The 16-bit fields of the requests are
    in range by the type of the Go struct.  ORDER BY created_at is not
    modelled: lists come in the order of the ids. *)

From S2P Require Import Prelude Effects Models Pipeline Store HexUtil StateWriter Sql QueryStore Executor CampaignControl Api Cards.

(** ** Requests *)

Record CreateApplicationRequest := mkCreateApplicationRequest {
  ca_Name : string;
  ca_TAR : string;
  ca_KIcAlgo : string;
  ca_KIcMode : string;
  ca_KIcKeysetID : option Z;
  ca_KIdAlgo : string;
  ca_KIdMode : string;
  ca_KIdKeysetID : option Z;
  ca_CertificationMode : string;
  ca_Ciphered : option bool;
  ca_CounterMode : string;
  ca_PORMode : string;
  ca_PORProtocol : string;
  ca_PORCiphered : option bool;
  ca_PORCertMode : string
}.

Record CreateProfileRequest := mkCreateProfileRequest {
  npr_Name : string;
  npr_MaxConcatSMS : option Z;
  npr_BufferSize : option Z;
  npr_PID : option Z;
  npr_DCS : option Z;
  npr_SecurityBytesType : string;
  npr_Applications : list CreateApplicationRequest
}.

Record UpdateProfileRequest := mkUpdateProfileRequest {
  upr_Name : option string;
  upr_MaxConcatSMS : option Z;
  upr_BufferSize : option Z;
  upr_PID : option Z;
  upr_DCS : option Z;
  upr_SecurityBytesType : option string
}.

Record UpdateApplicationRequest := mkUpdateApplicationRequest {
  ua_Name : option string;
  ua_TAR : option string;
  ua_KIcAlgo : option string;
  ua_KIcMode : option string;
  ua_KIcKeysetID : option Z;
  ua_KIdAlgo : option string;
  ua_KIdMode : option string;
  ua_KIdKeysetID : option Z;
  ua_CertificationMode : option string;
  ua_Ciphered : option bool;
  ua_CounterMode : option string;
  ua_PORMode : option string;
  ua_PORProtocol : option string;
  ua_PORCiphered : option bool;
  ua_PORCertMode : option string
}.

(** ** The tables profiles and applications *)

Definition stillReferenced : goerr := Errorf "update or delete on table violates foreign key constraint" [].

Definition profilesOf (a : Api) : gmap string Profile.t := profiles_tbl (cardsDb a).
Definition putProfiles (t : gmap string Profile.t) (a : Api) : Api :=
  set_ap_sys (set_db (set_profiles_tbl (fun _ => t) (cardsDb a)) (cp_sys (ap_ctl a))) a.

(** UNIQUE (name), among the other profiles. *)
Definition profileNameTaken (id name : string) (t : gmap string Profile.t) : Prop :=
  Exists (fun kv => fst kv <> id /\ Profile.Name (snd kv) = name) (map_to_list t).
#[global] Instance profileNameTaken_dec id name t : Decision (profileNameTaken id name t).
Proof. unfold profileNameTaken. apply _. Defined.

(** UNIQUE (profile_id, tar) *)
Definition sameTAR (x y : Application.t) : Prop :=
  Application.ProfileID x = Application.ProfileID y /\ Application.TAR x = Application.TAR y.
#[global] Instance sameTAR_dec x y : Decision (sameTAR x y).
Proof. unfold sameTAR. apply _. Defined.
Definition tarTaken (id : string) (app : Application.t) (t : gmap string Application.t) : Prop :=
  Exists (fun kv => fst kv <> id /\ sameTAR app (snd kv)) (map_to_list t).
#[global] Instance tarTaken_dec id app t : Decision (tarTaken id app t).
Proof. unfold tarTaken. apply _. Defined.

(** INT columns *)
Definition profileInRange (p : Profile.t) : bool := int4 (Profile.MaxConcatSMS p) && int4 (Profile.BufferSize p).

(** [tx.Create(&profile)], zero values of columns with a default replaced. *)
Definition gormProfile (id : string) (p : Profile.t) : Profile.t := {|
  Profile.ID := id;
  Profile.Name := Profile.Name p;
  Profile.MaxConcatSMS := gormDefault 0 7 (Profile.MaxConcatSMS p);
  Profile.BufferSize := gormDefault 0 180 (Profile.BufferSize p);
  Profile.PID := Profile.PID p;
  Profile.DCS := Profile.DCS p;
  Profile.SecurityBytesType := gormDefault "" "WITH_LENGTHS_AND_UDHL" (Profile.SecurityBytesType p) |}.

Definition createProfileRow (p : Profile.t) : AM Profile.t :=
  do! id <- newUUID;
  let p := gormProfile id p in
  apiStatement (fun a =>
    if negb (profileInRange p) then (Err outOfRange, a)
    else if bool_decide (is_Some (profilesOf a !! id)) || bool_decide (profileNameTaken id (Profile.Name p) (profilesOf a))
    then (Err duplicateKey, a)
    else (Ok p, putProfiles (<[id := p]> (profilesOf a)) a)).

(** [tx.Create(app)] *)
Definition gormApplication (id : string) (x : Application.t) : Application.t := {|
  Application.ID := id;
  Application.ProfileID := Application.ProfileID x;
  Application.Name := Application.Name x;
  Application.TAR := Application.TAR x;
  Application.KIcAlgo := gormDefault "" "DES" (Application.KIcAlgo x);
  Application.KIcMode := gormDefault "" "TRIPLE_DES_CBC_2_KEYS" (Application.KIcMode x);
  Application.KIcKeysetID := gormDefault 0 1 (Application.KIcKeysetID x);
  Application.KIdAlgo := gormDefault "" "DES" (Application.KIdAlgo x);
  Application.KIdMode := gormDefault "" "TRIPLE_DES_CBC_2_KEYS" (Application.KIdMode x);
  Application.KIdKeysetID := gormDefault 0 1 (Application.KIdKeysetID x);
  Application.CertificationMode := gormDefault "" "CC" (Application.CertificationMode x);
  Application.Ciphered := gormDefault false true (Application.Ciphered x);
  Application.CounterMode := gormDefault "" "COUNTER_REPLAY_OR_CHECK" (Application.CounterMode x);
  Application.PORMode := gormDefault "" "REPLY_ALWAYS" (Application.PORMode x);
  Application.PORProtocol := gormDefault "" "SMS_SUBMIT" (Application.PORProtocol x);
  Application.PORCiphered := Application.PORCiphered x;
  Application.PORCertMode := gormDefault "" "NO_SECURITY" (Application.PORCertMode x) |}.

Definition createApplicationRow (app : Application.t) : AM Application.t :=
  do! id <- newUUID;
  let app := gormApplication id app in
  apiStatement (fun a =>
    if bool_decide (is_Some (ap_apps a !! id)) || bool_decide (tarTaken id app (ap_apps a)) then (Err duplicateKey, a)
    else if negb (bool_decide (is_Some (profilesOf a !! Application.ProfileID app))) then (Err foreignKey, a)
    else (Ok app, set_ap_apps (<[id := app]> (ap_apps a)) a)).

(** Whether a campaign command uses an application that satisfies [P]. *)
Definition commandUses (P : Application.t -> Prop) (a : Api) : Prop :=
  Exists (fun cmd => exists app, ap_apps a !! CampaignCommand.ApplicationID cmd = Some app /\ P app) (campaign_commands (cardsDb a)).
#[global] Instance found_dec {A} (o : option A) (P : A -> Prop) `{!forall x, Decision (P x)} : Decision (exists x, o = Some x /\ P x).
Proof.
  refine (match o with Some x => cast_if (decide (P x)) | None => right _ end); [by eauto | naive_solver | naive_solver].
Defined.
#[global] Instance commandUses_dec P `{!forall x, Decision (P x)} a : Decision (commandUses P a).
Proof. unfold commandUses. apply _. Defined.

(** [DELETE FROM applications WHERE ...]: the rows affected. *)
Definition deleteApplications (P : Application.t -> Prop) `{!forall x, Decision (P x)} : AM Z :=
  apiStatement (fun a =>
    if bool_decide (commandUses P a) then (Err stillReferenced, a)
    else (Ok (Z.of_nat (size (filter (fun kv => P (snd kv)) (ap_apps a)))),
          set_ap_apps (filter (fun kv => ~ P (snd kv)) (ap_apps a)) a)).

(** [DELETE FROM profiles WHERE id = ?], with the cascade to applications. *)
Definition deleteProfileRow (id : string) : AM Z :=
  apiStatement (fun a =>
    match profilesOf a !! id with
    | None => (Ok 0, a)
    | Some _ =>
        if bool_decide (map_Forall (fun _ c => Card.ProfileID c <> id) (cards (cardsDb a)) /\
                        ~ commandUses (fun x => Application.ProfileID x = id) a)
        then (Ok 1, set_ap_apps (filter (fun kv => Application.ProfileID (snd kv) <> id) (ap_apps a))
                      (putProfiles (delete id (profilesOf a)) a))
        else (Err stillReferenced, a)
    end).

Definition applyProfile (u : UpdateProfileRequest) (p : Profile.t) : Profile.t := {|
  Profile.ID := Profile.ID p;
  Profile.Name := default (Profile.Name p) (upr_Name u);
  Profile.MaxConcatSMS := default (Profile.MaxConcatSMS p) (upr_MaxConcatSMS u);
  Profile.BufferSize := default (Profile.BufferSize p) (upr_BufferSize u);
  Profile.PID := default (Profile.PID p) (upr_PID u);
  Profile.DCS := default (Profile.DCS p) (upr_DCS u);
  Profile.SecurityBytesType := default (Profile.SecurityBytesType p) (upr_SecurityBytesType u) |}.

(** [a.db.Model(&profile).Updates(updates)]: no row is no error. *)
Definition updateProfileRow (id : string) (u : UpdateProfileRequest) : AM unit :=
  apiStatement (fun a =>
    match profilesOf a !! id with
    | None => (Ok tt, a)
    | Some p =>
        let p := applyProfile u p in
        if negb (profileInRange p) then (Err outOfRange, a)
        else if bool_decide (profileNameTaken id (Profile.Name p) (profilesOf a)) then (Err duplicateKey, a)
        else (Ok tt, putProfiles (<[id := p]> (profilesOf a)) a)
    end).

(** The columns an update of an application changes: the request, its TAR decoded. *)
Record applicationUpdates := mkApplicationUpdates { au_request : UpdateApplicationRequest; au_tar : option (list Z) }.

Definition applyApplication (u : applicationUpdates) (x : Application.t) : Application.t :=
  let req := au_request u in {|
  Application.ID := Application.ID x;
  Application.ProfileID := Application.ProfileID x;
  Application.Name := default (Application.Name x) (ua_Name req);
  Application.TAR := default (Application.TAR x) (au_tar u);
  Application.KIcAlgo := default (Application.KIcAlgo x) (ua_KIcAlgo req);
  Application.KIcMode := default (Application.KIcMode x) (ua_KIcMode req);
  Application.KIcKeysetID := default (Application.KIcKeysetID x) (ua_KIcKeysetID req);
  Application.KIdAlgo := default (Application.KIdAlgo x) (ua_KIdAlgo req);
  Application.KIdMode := default (Application.KIdMode x) (ua_KIdMode req);
  Application.KIdKeysetID := default (Application.KIdKeysetID x) (ua_KIdKeysetID req);
  Application.CertificationMode := default (Application.CertificationMode x) (ua_CertificationMode req);
  Application.Ciphered := default (Application.Ciphered x) (ua_Ciphered req);
  Application.CounterMode := default (Application.CounterMode x) (ua_CounterMode req);
  Application.PORMode := default (Application.PORMode x) (ua_PORMode req);
  Application.PORProtocol := default (Application.PORProtocol x) (ua_PORProtocol req);
  Application.PORCiphered := default (Application.PORCiphered x) (ua_PORCiphered req);
  Application.PORCertMode := default (Application.PORCertMode x) (ua_PORCertMode req) |}.

(** The row, and the commands joined to it. *)
Definition rejoin (id : string) (app : Application.t) (cmd : CampaignCommand.t) : CampaignCommand.t :=
  if bool_decide (CampaignCommand.ApplicationID cmd = id) then
    CampaignCommand.mk (CampaignCommand.CampaignID cmd) (CampaignCommand.Sequence cmd) (CampaignCommand.ApplicationID cmd)
      (CampaignCommand.Script cmd) (CampaignCommand.ExpectResponse cmd) app
  else cmd.

Definition putApplication (id : string) (app : Application.t) (a : Api) : Api :=
  set_ap_apps (<[id := app]> (ap_apps a))
    (set_ap_sys (set_db (set_campaign_commands (fun t => rejoin id app <$> t) (cardsDb a)) (cp_sys (ap_ctl a))) a).

Definition updateApplicationRow (id : string) (u : applicationUpdates) : AM unit :=
  apiStatement (fun a =>
    match ap_apps a !! id with
    | None => (Ok tt, a)
    | Some x =>
        let x := applyApplication u x in
        if bool_decide (tarTaken id x (ap_apps a)) then (Err duplicateKey, a)
        else (Ok tt, putApplication id x a)
    end).

(** ** Handlers *)

(** [if req.F != "" { ... } else { the default }] *)
Definition orText (dflt v : string) : string := if bool_decide (v = "") then dflt else v.

Definition buildApplicationFromRequest (profileID : string) (req : CreateApplicationRequest) : res Application.t :=
  match Decode (ca_TAR req) with
  | Panic p => Panic p
  | Err _ => Err (Errorf "invalid TAR hex value" [])
  | Ok tarBytes =>
      if negb (zlen tarBytes =? 3) then Err (Errorf "TAR must be exactly 3 bytes (6 hex characters)" [])
      else Ok {|
        Application.ID := nilUUID;
        Application.ProfileID := profileID;
        Application.Name := ca_Name req;
        Application.TAR := tarBytes;
        Application.KIcAlgo := orText "DES" (ca_KIcAlgo req);
        Application.KIcMode := orText "TRIPLE_DES_CBC_2_KEYS" (ca_KIcMode req);
        Application.KIcKeysetID := default 1 (ca_KIcKeysetID req);
        Application.KIdAlgo := orText "DES" (ca_KIdAlgo req);
        Application.KIdMode := orText "TRIPLE_DES_CBC_2_KEYS" (ca_KIdMode req);
        Application.KIdKeysetID := default 1 (ca_KIdKeysetID req);
        Application.CertificationMode := orText "CC" (ca_CertificationMode req);
        Application.Ciphered := default true (ca_Ciphered req);
        Application.CounterMode := orText "COUNTER_REPLAY_OR_CHECK" (ca_CounterMode req);
        Application.PORMode := orText "REPLY_ALWAYS" (ca_PORMode req);
        Application.PORProtocol := orText "SMS_SUBMIT" (ca_PORProtocol req);
        Application.PORCiphered := default false (ca_PORCiphered req);
        Application.PORCertMode := orText "NO_SECURITY" (ca_PORCertMode req) |}
  end.

(** A profile with its applications: the "data" of the responses. *)
Definition profileData : Type := Profile.t * list Application.t.

Definition applicationsOf (profileID : string) (a : Api) : list Application.t :=
  filter (fun x => Application.ProfileID x = profileID) (snd <$> map_to_list (ap_apps a)).

(** [Preload("Applications").First(&profile, ...)] whose error is dropped. *)
Definition reloadProfile (profile : Profile.t) : AM profileData :=
  do! found <- try (do! o <- query (fun d => profiles_tbl d !! Profile.ID profile); first o);
  match found with
  | Ok profile =>
      do! apps <- try (readApi (applicationsOf (Profile.ID profile)));
      ret (profile, match apps with Ok l => l | _ => [] end)
  | _ => ret (profile, [])
  end.

Fixpoint createApplications (profileID : string) (reqs : list CreateApplicationRequest) : AM unit :=
  match reqs with
  | [] => ret tt
  | req :: reqs =>
      do! app <- mres (buildApplicationFromRequest profileID req);
      do! _ <- createApplicationRow app;
      createApplications profileID reqs
  end.

Definition newProfile (req : CreateProfileRequest) : Profile.t := {|
  Profile.ID := nilUUID;
  Profile.Name := npr_Name req;
  Profile.MaxConcatSMS := default 7 (npr_MaxConcatSMS req);
  Profile.BufferSize := default 180 (npr_BufferSize req);
  Profile.PID := default 0 (npr_PID req);
  Profile.DCS := default 0 (npr_DCS req);
  Profile.SecurityBytesType := orText "WITH_LENGTHS_AND_UDHL" (npr_SecurityBytesType req) |}.

Definition createProfileTx (req : CreateProfileRequest) : AM Profile.t :=
  do! profile <- createProfileRow (newProfile req);
  do! _ <- createApplications (Profile.ID profile) (npr_Applications req);
  ret profile.

Definition ok_ (code : Z) (fields : list (string * value)) : Response.t := Response.mk code None fields None.

Definition CreateProfile (body : string + CreateProfileRequest) : AM (Response.t * option profileData) :=
  match body with
  | inl e => ret (errorResponse 400 e, None)
  | inr req =>
      do! r <- try (transaction (createProfileTx req));
      match r with
      | Err _ => ret (errorResponse 500 "failed to create profile", None)
      | Panic p => mres (Panic p)
      | Ok profile => do! data <- reloadProfile profile; ret (ok_ 201 [], Some data)
      end
  end.

Section ProfileHandlers.
Context (parse castUUID : string -> option string).

(** [WHERE ... = ?] with a text of the request on any table. *)
Definition readRow {A} (raw : string) (f : string -> Api -> A) : AM A :=
  match castUUID raw with
  | None => merr (Errorf "invalid input syntax for type uuid" [])
  | Some id => readApi (f id)
  end.

(** [Count(&n)] whose error is dropped: n stays 0. *)
Definition countOf (raw : string) (f : string -> Api -> nat) : AM Z :=
  do! r <- try (readRow raw f);
  ret (match r with Ok n => Z.of_nat n | _ => 0 end).

Definition cardCount (profileID : string) (a : Api) : nat :=
  size (filter (fun kv => Card.ProfileID (snd kv) = profileID) (cards (cardsDb a))).

(** [parseUUID(c, param)] *)
Definition withParam {A} (name raw : string) (k : AM (Response.t * option A)) : AM (Response.t * option A) :=
  match parse raw with
  | None => ret (errorResponse 400 ("invalid UUID: " +:+ name), None)
  | Some _ => k
  end.

(** Load a row or answer 404 or 500. *)
Definition withRow {A B} (m : AM B) (notFound failure : string) (k : B -> AM (Response.t * option A)) : AM (Response.t * option A) :=
  do! r <- try m;
  match r with
  | Err e => ret (if bool_decide (e = ErrRecordNotFound) then errorResponse 404 notFound else errorResponse 500 failure, None)
  | Panic p => mres (Panic p)
  | Ok row => k row
  end.

(** [c.ShouldBindJSON(&req)] *)
Definition bound {A B} (body : string + B) (k : B -> AM (Response.t * option A)) : AM (Response.t * option A) :=
  match body with inl e => ret (errorResponse 400 e, None) | inr req => k req end.

Definition firstProfile (raw : string) : AM Profile.t :=
  do! o <- readRow raw (fun id a => profilesOf a !! id); first o.

Definition GetProfile (id : string) : AM (Response.t * option profileData) :=
  withParam "id" id
    (withRow (do! profile <- firstProfile id; do! apps <- readApi (applicationsOf (Profile.ID profile)); ret (profile, apps))
       "profile not found" "failed to get profile" (fun data =>
       do! n <- countOf id cardCount;
       ret (ok_ 200 [("card_count", VInt n)], Some data))).

Definition noProfileUpdates (u : UpdateProfileRequest) : bool :=
  match u with mkUpdateProfileRequest None None None None None None => true | _ => false end.

Definition UpdateProfile (id : string) (body : string + UpdateProfileRequest) : AM (Response.t * option profileData) :=
  withParam "id" id
    (withRow (firstProfile id) "profile not found" "failed to find profile" (fun profile =>
     bound body (fun updates =>
       if noProfileUpdates updates then ret (errorResponse 400 "no fields to update", None)
       else
         do! r <- try (updateProfileRow (Profile.ID profile) updates);
         match r with
         | Err _ => ret (errorResponse 500 "failed to update profile", None)
         | Panic p => mres (Panic p)
         | Ok _ => do! data <- reloadProfile (applyProfile updates profile); ret (ok_ 200 [], Some data)
         end))).

(** Applications first, then the profile. *)
Definition deleteProfileTx (raw : string) : AM unit :=
  match castUUID raw with
  | None => merr (Errorf "invalid input syntax for type uuid" [])
  | Some id =>
      do! _ <- deleteApplications (fun x => Application.ProfileID x = id);
      do! rowsAffected <- deleteProfileRow id;
      if rowsAffected =? 0 then merr ErrRecordNotFound else ret tt
  end.

Definition DeleteProfile (id : string) : AM Response.t :=
  withID parse id (fun _ =>
    do! n <- countOf id cardCount;
    if 0 <? n then ret (errorResponse 409 "cannot delete profile with associated cards")
    else
      do! r <- try (transaction (deleteProfileTx id));
      match r with
      | Err e => ret (if bool_decide (e = ErrRecordNotFound) then errorResponse 404 "profile not found"
                      else errorResponse 500 "failed to delete profile")
      | Panic p => mres (Panic p)
      | Ok _ => ret (message 200 "profile deleted")
      end).

Definition CreateApplication (id : string) (body : string + CreateApplicationRequest) : AM (Response.t * option Application.t) :=
  match parse id with
  | None => ret (errorResponse 400 "invalid UUID: id", None)
  | Some profileID =>
      withRow (do! o <- query (fun d => profiles_tbl d !! profileID); first o) "profile not found" "failed to find profile" (fun _ =>
      bound body (fun req =>
        match buildApplicationFromRequest profileID req with
        | Err e => ret (errorResponse 400 (Error e), None)
        | Panic p => mres (Panic p)
        | Ok app =>
            do! r <- try (createApplicationRow app);
            match r with
            | Err _ => ret (errorResponse 500 "failed to create application", None)
            | Panic p => mres (Panic p)
            | Ok app => ret (ok_ 201 [], Some app)
            end
        end))
  end.

(** [First(&app, "id = ? AND profile_id = ?", ...)] *)
Definition firstApplication (rawApp rawProfile : string) : AM Application.t :=
  match castUUID rawApp, castUUID rawProfile with
  | Some appID, Some profileID =>
      do! o <- readApi (fun a => match ap_apps a !! appID with
                                 | Some x => if bool_decide (Application.ProfileID x = profileID) then Some x else None
                                 | None => None
                                 end);
      first o
  | _, _ => merr (Errorf "invalid input syntax for type uuid" [])
  end.

(** The TAR of an update must be three bytes. *)
Definition tarUpdate (v : option string) : Response.t + option (list Z) :=
  match v with
  | None => inr None
  | Some s =>
      match Decode s with
      | Ok tarBytes => if zlen tarBytes =? 3 then inr (Some tarBytes) else inl (errorResponse 400 "invalid TAR value (must be 3 bytes)")
      | _ => inl (errorResponse 400 "invalid TAR value (must be 3 bytes)")
      end
  end.

Definition noApplicationUpdates (u : UpdateApplicationRequest) : bool :=
  match u with
  | mkUpdateApplicationRequest None None None None None None None None None None None None None None None => true
  | _ => false
  end.

Definition UpdateApplication (id appId : string) (body : string + UpdateApplicationRequest) : AM (Response.t * option Application.t) :=
  withParam "id" id (withParam "appId" appId
    (withRow (firstApplication appId id) "application not found" "failed to find application" (fun app =>
     bound body (fun req =>
       match tarUpdate (ua_TAR req) with
       | inl response => ret (response, None)
       | inr tar =>
           if noApplicationUpdates req then ret (errorResponse 400 "no fields to update", None)
           else
             let updates := mkApplicationUpdates req tar in
             do! r <- try (updateApplicationRow (Application.ID app) updates);
             match r with
             | Err _ => ret (errorResponse 500 "failed to update application", None)
             | Panic p => mres (Panic p)
             | Ok _ =>
                 do! found <- try (do! o <- readRow appId (fun id a => ap_apps a !! id); first o);
                 ret (ok_ 200 [], Some (match found with Ok x => x | _ => applyApplication updates app end))
             end
       end)))).

Definition deleteApplicationRow (rawApp rawProfile : string) : AM Z :=
  match castUUID rawApp, castUUID rawProfile with
  | Some appID, Some profileID => deleteApplications (fun x => Application.ID x = appID /\ Application.ProfileID x = profileID)
  | _, _ => merr (Errorf "invalid input syntax for type uuid" [])
  end.

Definition DeleteApplication (id appId : string) : AM (Response.t * option unit) :=
  withParam "id" id (withParam "appId" appId
    (do! r <- try (deleteApplicationRow appId id);
     match r with
     | Err _ => ret (errorResponse 500 "failed to delete application", None)
     | Panic p => mres (Panic p)
     | Ok rowsAffected =>
         if rowsAffected =? 0 then ret (errorResponse 404 "application not found", None)
         else ret (message 200 "application deleted", None)
     end)).
End ProfileHandlers.
