(* ===== verification/Assets.v ===== *)
(** * internal/controlplane/api_scripts.go and api_caps.go

    Scripts and CAP files: what campaigns refer to.  Both handlers of deletion look for a campaign
    that refers to the row, and drop the error of that count; the database itself
    lets the row go and sets the reference of the campaign to NULL.  The upload is
    given by what gin and io.ReadAll make of it; [unzip] is archive/zip on the bytes of a
    file, [sha256] the hex digest of crypto/sha256. *)

From S2P Require Import Prelude Effects Models Pipeline Store HexUtil GlobalPlatform StateWriter Sql QueryStore Executor CampaignControl Api Cards Profiles.

(** ** Scripts *)

Record CreateScriptRequest := mkCreateScriptRequest {
  cs_Name : string;
  cs_Description : option string;
  cs_TargetTAR : string;
  cs_Commands : string
}.

Record UpdateScriptRequest := mkUpdateScriptRequest {
  us_Name : option string;
  us_Description : option string;
  us_TargetTAR : option string;
  us_Commands : option string
}.

(** [strings.Split(s, "\n")] *)
Fixpoint splitLines (s : string) : list string :=
  match s with
  | EmptyString => [""]
  | String c s =>
      if bool_decide (Ascii.N_of_ascii c = 10%N) then "" :: splitLines s
      else match splitLines s with line :: rest => String c line :: rest | [] => [String c ""] end
  end.

Definition countCommands (commands : string) : Z :=
  if bool_decide (commands = "") then 0
  else foldl (fun count line => if bool_decide (TrimSpace line = "") then count else count + 1) 0 (splitLines commands).

(** [a.db.Create(&script)] *)
Definition createScriptRow (s : string -> Script.t) : AM Script.t :=
  do! id <- newUUID;
  apiStatement (fun a =>
    if bool_decide (is_Some (ap_scripts a !! id)) then (Err duplicateKey, a)
    else (Ok (s id), set_ap_scripts (<[id := s id]> (ap_scripts a)) a)).

Definition CreateScript (body : string + CreateScriptRequest) : AM (Response.t * option Script.t) :=
  match body with
  | inl e => ret (errorResponse 400 e, None)
  | inr req =>
      do! r <- try (createScriptRow (fun id => {|
        Script.ID := id; Script.Name := cs_Name req; Script.Description := cs_Description req;
        Script.TargetTAR := cs_TargetTAR req; Script.Commands := cs_Commands req;
        Script.CommandCount := countCommands (cs_Commands req) |}));
      match r with
      | Err _ => ret (errorResponse 500 "failed to create script", None)
      | Panic p => mres (Panic p)
      | Ok script => ret (ok_ 201 [], Some script)
      end
  end.

Definition applyScript (u : UpdateScriptRequest) (s : Script.t) : Script.t := {|
  Script.ID := Script.ID s;
  Script.Name := default (Script.Name s) (us_Name u);
  Script.Description := match us_Description u with Some d => Some d | None => Script.Description s end;
  Script.TargetTAR := default (Script.TargetTAR s) (us_TargetTAR u);
  Script.Commands := default (Script.Commands s) (us_Commands u);
  Script.CommandCount := match us_Commands u with Some c => countCommands c | None => Script.CommandCount s end |}.

Definition noScriptUpdates (u : UpdateScriptRequest) : bool :=
  match u with mkUpdateScriptRequest None None None None => true | _ => false end.

(** [a.db.Model(&script).Updates(updates)]: no row is no error. *)
Definition updateScriptRow (id : string) (u : UpdateScriptRequest) : AM unit :=
  apiStatement (fun a => (Ok tt, set_ap_scripts (alter (applyScript u) id (ap_scripts a)) a)).

(** ** Deleting what campaigns refer to *)

(** ON DELETE SET NULL *)
Definition unset (id : string) (o : option string) : option string := if bool_decide (o = Some id) then None else o.
Definition forgetScript (id : string) (c : Campaign.t) : Campaign.t :=
  Campaign.mk (Campaign.ID c) (Campaign.Status c) (Campaign.MaxRetries c) (Campaign.ThrottleSMSPerSec c)
    (Campaign.MaxConcatOverride c) (Campaign.StartedAt c) (Campaign.CompletedAt c) (Campaign.CAPFileID c) (unset id (Campaign.ScriptID c)) (Campaign.Name c).
Definition forgetCAPFile (id : string) (c : Campaign.t) : Campaign.t :=
  Campaign.mk (Campaign.ID c) (Campaign.Status c) (Campaign.MaxRetries c) (Campaign.ThrottleSMSPerSec c)
    (Campaign.MaxConcatOverride c) (Campaign.StartedAt c) (Campaign.CompletedAt c) (unset id (Campaign.CAPFileID c)) (Campaign.ScriptID c) (Campaign.Name c).

Definition mapCampaigns (f : Campaign.t -> Campaign.t) (a : Api) : Api :=
  set_ap_sys (set_db (set_campaigns (fmap f) (cardsDb a)) (cp_sys (ap_ctl a))) a.

Definition rowsOf {A} (o : option A) : Z := match o with Some _ => 1 | None => 0 end.

Definition deleteScriptRow (id : string) : AM Z :=
  apiStatement (fun a => (Ok (rowsOf (ap_scripts a !! id)),
    set_ap_scripts (delete id (ap_scripts a)) (mapCampaigns (forgetScript id) a))).

Definition deleteCAPFileRow (id : string) : AM Z :=
  apiStatement (fun a => (Ok (rowsOf (ap_caps a !! id)),
    set_ap_caps (delete id (ap_caps a)) (mapCampaigns (forgetCAPFile id) a))).

(** [Model(&db.Campaign{}).Where("... = ?", id).Count(&campaignCount)] *)
Definition campaignsWith (ref : Campaign.t -> option string) (id : string) (a : Api) : nat :=
  size (filter (fun kv => ref (snd kv) = Some id) (campaigns (cardsDb a))).

Section AssetHandlers.
Context (parse castUUID : string -> option string).
Context (unzip : list Z -> res (list zip_entry)) (sha256 : list Z -> string).

Definition firstScript (raw : string) : AM Script.t :=
  do! o <- readRow castUUID raw (fun id a => ap_scripts a !! id); first o.

Definition GetScript (id : string) : AM (Response.t * option Script.t) :=
  withParam parse "id" id
    (withRow (firstScript id) "script not found" "failed to get script" (fun script => ret (ok_ 200 [], Some script))).

Definition UpdateScript (id : string) (body : string + UpdateScriptRequest) : AM (Response.t * option Script.t) :=
  withParam parse "id" id
    (withRow (firstScript id) "script not found" "failed to find script" (fun script =>
     bound body (fun updates =>
       if noScriptUpdates updates then ret (errorResponse 400 "no fields to update", None)
       else
         do! r <- try (updateScriptRow (Script.ID script) updates);
         match r with
         | Err _ => ret (errorResponse 500 "failed to update script", None)
         | Panic p => mres (Panic p)
         | Ok _ =>
             do! found <- try (firstScript id);
             ret (ok_ 200 [], Some (match found with Ok s => s | _ => applyScript updates script end))
         end))).

(** The two deletions. *)
Definition guardedDelete (id : string) (ref : Campaign.t -> option string) (deleteRow : string -> AM Z)
    (conflict failure missing done_ : string) : AM Response.t :=
  withID parse id (fun _ =>
    do! campaignCount <- countOf castUUID id (campaignsWith ref);
    if 0 <? campaignCount then ret (errorResponse 409 conflict)
    else
      do! r <- try (match castUUID id with
                    | None => merr (Errorf "invalid input syntax for type uuid" [])
                    | Some id => deleteRow id
                    end);
      match r with
      | Err _ => ret (errorResponse 500 failure)
      | Panic p => mres (Panic p)
      | Ok rowsAffected => if rowsAffected =? 0 then ret (errorResponse 404 missing) else ret (message 200 done_)
      end).

Definition DeleteScript (id : string) : AM Response.t :=
  guardedDelete id Campaign.ScriptID deleteScriptRow "cannot delete script referenced by campaigns"
    "failed to delete script" "script not found" "script deleted".

Definition DeleteCAPFile (id : string) : AM Response.t :=
  guardedDelete id Campaign.CAPFileID deleteCAPFileRow "cannot delete CAP file referenced by campaigns"
    "failed to delete CAP file" "CAP file not found" "CAP file deleted".

(** ** CAP files *)

Definition maxCAPSize : Z := 10 * 1024 * 1024.

(** [a.db.Create(&capRecord)] *)
Definition createCAPFileRow (c : string -> CAPFile.t) : AM CAPFile.t :=
  do! id <- newUUID;
  apiStatement (fun a =>
    if bool_decide (is_Some (ap_caps a !! id)) then (Err duplicateKey, a)
    else (Ok (c id), set_ap_caps (<[id := c id]> (ap_caps a)) a)).

(** [upload] is the file name and the bytes of the form file, or the error of reading them;
    [None] is a request without a file.  [io.LimitReader] stops one byte behind the limit. *)
Definition UploadCAPFile (upload : option (string * res (list Z))) : AM (Response.t * option CAPFile.t) :=
  match upload with
  | None => ret (errorResponse 400 "file is required", None)
  | Some (_, Err _) => ret (errorResponse 500 "failed to read uploaded file", None)
  | Some (_, Panic p) => mres (Panic p)
  | Some (filename, Ok content) =>
      let fileData := take (Z.to_nat (maxCAPSize + 1)) content in
      if maxCAPSize <? zlen fileData then ret (errorResponse 413 "CAP file exceeds 10 MB size limit", None)
      else
        match ParseCAPFile (unzip fileData) filename with
        | Err e => ret (errorResponse 400 ("failed to parse CAP file: " +:+ Error e), None)
        | Panic p => mres (Panic p)
        | Ok parsed =>
            do! r <- try (createCAPFileRow (fun id => {|
              CAPFile.ID := id; CAPFile.Filename := filename; CAPFile.AID := Encode (AID parsed); CAPFile.FileData := fileData;
              CAPFile.FileSize := zlen fileData; CAPFile.SHA256Hash := sha256 fileData;
              CAPFile.LoadFileHex := Encode (LoadFile parsed); CAPFile.Sections := SectionSizes parsed |}));
            match r with
            | Err _ => ret (errorResponse 500 "failed to store CAP file", None)
            | Panic p => mres (Panic p)
            | Ok capRecord => ret (ok_ 201 [], Some capRecord)
            end
        end
  end.

Definition firstCAPFile (raw : string) : AM CAPFile.t :=
  do! o <- readRow castUUID raw (fun id a => ap_caps a !! id); first o.

Definition GetCAPFile (id : string) : AM (Response.t * option CAPFile.t) :=
  withParam parse "id" id
    (withRow (firstCAPFile id) "CAP file not found" "failed to get CAP file" (fun capFile => ret (ok_ 200 [], Some capFile))).

(** *** The preview of the commands that load a CAP file *)

Fixpoint labelled (blocks : list (list Z)) : list (string * list Z) :=
  match blocks with
  | [] => []
  | [block] => [("LOAD_BLOCK_LAST", block)]
  | block :: blocks => ("LOAD_BLOCK", block) :: labelled blocks
  end.

Definition blockSize (maxBlockSize : string) : Z :=
  if bool_decide (maxBlockSize = "") then 0xD8 else let p := parseInt maxBlockSize in if 0 <? p then p else 0xD8.

Definition previewAPDUs (loadFileData aidBytes : list Z) (maxBlockSize : Z) : res (list (string * string)) :=
  let! isdAID := MustDecode "A000000003000000" in
  let installForLoad := BuildInstallForLoadAPDU aidBytes isdAID in
  let! loadBlocks := BuildLoadBlockAPDUs loadFileData maxBlockSize in
  let! deleteAPDU := BuildDeleteAPDU aidBytes true in
  Ok ((fun p => (fst p, Encode (snd p))) <$>
      ("INSTALL_FOR_LOAD", installForLoad) :: labelled loadBlocks ++ [("DELETE", deleteAPDU)]).

(** [max_block_size] of the query string. *)
Definition PreviewCAPAPDUs (id maxBlockSize : string) : AM (Response.t * option (list (string * string))) :=
  withParam parse "id" id
    (withRow (firstCAPFile id) "CAP file not found" "failed to get CAP file" (fun capFile =>
     match Decode (CAPFile.LoadFileHex capFile) with
     | Err _ => ret (errorResponse 500 "failed to decode load file", None)
     | Panic p => mres (Panic p)
     | Ok loadFileData =>
         match Decode (CAPFile.AID capFile) with
         | Err _ => ret (errorResponse 500 "failed to decode AID", None)
         | Panic p => mres (Panic p)
         | Ok aidBytes =>
             do! apdus <- mres (previewAPDUs loadFileData aidBytes (blockSize maxBlockSize));
             ret (ok_ 200 [("aid", VStr (CAPFile.AID capFile)); ("max_block_size", VInt (blockSize maxBlockSize));
                           ("total_apdus", VInt (zlen apdus))], Some apdus)
         end
     end)).
End AssetHandlers.
