(* ===== verification/ApiScenario.v ===== *)
(** * Requests to a small control plane

    The tables of [ControlScenario] with an application and a group of two cards,
    and the requests with which the witnesses of the API's theorems work. *)

From S2P Require Import Prelude Effects Models Pipeline Store StateWriter Sql QueryStore Executor CampaignControl ControlScenario HexUtil GlobalPlatform Api Cards CardGroups Profiles Assets.

Module ApiScenario.
Import ControlScenario.

Definition api (d : Database) (shards : list CampaignShard.t) : Api := {|
  ap_ctl := control d shards;
  ap_apps := {[ "app-1" := application ]};
  ap_groups := {[ "group-1" := CardGroup.mk "group-1" "pilot" None ]};
  ap_members := [("group-1", "card-1"); ("group-1", "card-3")];
  ap_scripts := ∅;
  ap_caps := ∅;
  ap_stats := ∅ |}.

Definition fresh : Api := api (database "pending" [] ∅) [].

(** A campaign for card-2 and the group, with one explicit command. *)
Definition newCampaign : CreateCampaignRequest := {|
  rq_Name := "campaign"; rq_CampaignType := "custom_apdu"; rq_Type := ""; rq_CardIDs := ["card-2"; "card-1"]; rq_ProfileID := "";
  rq_ProfileIDs := []; rq_CardGroupID := "group-1"; rq_CAPFileID := ""; rq_ScriptID := "";
  rq_MaxRetries := 0; rq_ThrottleSMSPerSec := 0; rq_MaxConcatOverride := 0; rq_ScheduledAt := "";
  rq_Commands := [mkCommandRequest "app-1" "A0A40000" 0 false]; rq_StartImmediately := false;
  rq_LoadFileAID := ""; rq_ModuleAID := ""; rq_AppAID := ""; rq_InstallPrivileges := ""; rq_STKParams := "";
  rq_DeleteAID := ""; rq_DeleteRelated := false; rq_ScriptHex := ""; rq_ApplicationID := "" |}.

(** A file with a new card, a known card, a bad key and a short line. *)
Definition csvHeader : list string := ["ICCID"; "imsi"; "msisdn"; "profile_name"; "enc_key"; "auth_key"].
Definition csvRows : list (res (list string)) :=
  [Ok ["iccid-9"; "imsi-9"; "32470000009"; "default"; "0102"; "0304"];
   Ok ["iccid-card-1"; "imsi-8"; "32470000008"; "default"; "0102"; "0304"];
   Ok ["iccid-7"; "imsi-7"; "32470000007"; "default"; "zz"; "0304"];
   Ok ["iccid-6"; "imsi-6"; "32470000006"; "default"; ""; "0304"]].

Definition noTime (_ : string) : option Z := None.
Definition create : res Response.t * Api := CreateCampaign parse noTime getenv true true true (inr newCampaign) fresh.
Definition import : res (Response.t * list string) * Api := ImportCards parse false [] (Some (Ok csvHeader :: csvRows)) fresh.

(** A profile with one application, a script, and an archive with two sections. *)
Definition newApp (tar : string) (ciphered : option bool) : CreateApplicationRequest := {|
  ca_Name := "RFM"; ca_TAR := tar; ca_KIcAlgo := ""; ca_KIcMode := ""; ca_KIcKeysetID := None; ca_KIdAlgo := "AES"; ca_KIdMode := "";
  ca_KIdKeysetID := Some 2; ca_CertificationMode := ""; ca_Ciphered := ciphered; ca_CounterMode := ""; ca_PORMode := "";
  ca_PORProtocol := ""; ca_PORCiphered := None; ca_PORCertMode := "" |}.
Definition newProfile (name : string) (apps : list CreateApplicationRequest) : CreateProfileRequest := {|
  npr_Name := name; npr_MaxConcatSMS := None; npr_BufferSize := Some 0; npr_PID := None; npr_DCS := Some 4;
  npr_SecurityBytesType := ""; npr_Applications := apps |}.
Definition script : CreateScriptRequest := mkCreateScriptRequest "read" None "B00010" "A0A40000".

Definition header : list Z := [1; 0; 10; 0xDE; 0xCA; 0xFF; 0xED; 1; 2; 4; 0; 1; 2; 0xA0; 0xA1].
Definition unzip (data : list Z) : res (list zip_entry) :=
  match data with
  | [] => Err (Errorf "zip: not a valid zip file" [])
  | _ => Ok [Build_zip_entry "a/Applet.cap" (Ok tt) (Ok data); Build_zip_entry "a/Header.cap" (Ok tt) (Ok header)]
  end.
Definition sha256 (data : list Z) : string := EncodeToString [zlen data mod 256].

End ApiScenario.
