(* ===== verification/Router.v ===== *)
(** * The router: api.go

    SetupRouter registers the handlers under their patterns in two groups behind [apiKeyAuth] and the websocket behind a token of the
    query.  Which route a request takes is gin's affair: [dispatch] with [DispatchLaws].  CORS headers and tracing are left out. *)

From S2P Require Import Prelude Effects Models Pipeline Store HexUtil StateWriter Sql QueryStore Executor CampaignControl Api.

Inductive guard := ByHeader | ByToken.
Record route := mkRoute { rt_method : string; rt_pattern : string; rt_guard : guard; rt_handler : string }.
#[global] Instance guard_eq_dec : EqDecision guard.
Proof. solve_decision. Defined.
#[global] Instance route_eq_dec : EqDecision route.
Proof. solve_decision. Defined.

Definition routes : list route :=
  [
   mkRoute "GET" "/api/v1/profiles" ByHeader "ListProfiles";
   mkRoute "POST" "/api/v1/profiles" ByHeader "CreateProfile";
   mkRoute "GET" "/api/v1/profiles/:id" ByHeader "GetProfile";
   mkRoute "PUT" "/api/v1/profiles/:id" ByHeader "UpdateProfile";
   mkRoute "DELETE" "/api/v1/profiles/:id" ByHeader "DeleteProfile";
   mkRoute "POST" "/api/v1/profiles/:id/applications" ByHeader "CreateApplication";
   mkRoute "PUT" "/api/v1/profiles/:id/applications/:appId" ByHeader "UpdateApplication";
   mkRoute "DELETE" "/api/v1/profiles/:id/applications/:appId" ByHeader "DeleteApplication";
   mkRoute "GET" "/api/v1/cards" ByHeader "ListCards";
   mkRoute "POST" "/api/v1/cards" ByHeader "CreateCard";
   mkRoute "GET" "/api/v1/cards/:id" ByHeader "GetCard";
   mkRoute "PUT" "/api/v1/cards/:id" ByHeader "UpdateCard";
   mkRoute "DELETE" "/api/v1/cards/:id" ByHeader "DeleteCard";
   mkRoute "GET" "/api/v1/cards/:id/counters" ByHeader "GetCardCounters";
   mkRoute "POST" "/api/v1/cards/import" ByHeader "ImportCards";
   mkRoute "GET" "/api/v1/cards/export" ByHeader "ExportCards";
   mkRoute "GET" "/api/v1/card-groups" ByHeader "ListCardGroups";
   mkRoute "POST" "/api/v1/card-groups" ByHeader "CreateCardGroup";
   mkRoute "GET" "/api/v1/card-groups/:id" ByHeader "GetCardGroup";
   mkRoute "PUT" "/api/v1/card-groups/:id" ByHeader "UpdateCardGroup";
   mkRoute "DELETE" "/api/v1/card-groups/:id" ByHeader "DeleteCardGroup";
   mkRoute "POST" "/api/v1/card-groups/:id/members" ByHeader "AddCardGroupMembers";
   mkRoute "DELETE" "/api/v1/card-groups/:id/members" ByHeader "RemoveCardGroupMembers";
   mkRoute "GET" "/api/v1/campaigns" ByHeader "ListCampaigns";
   mkRoute "POST" "/api/v1/campaigns" ByHeader "CreateCampaign";
   mkRoute "GET" "/api/v1/campaigns/:id" ByHeader "GetCampaign";
   mkRoute "POST" "/api/v1/campaigns/:id/start" ByHeader "StartCampaign";
   mkRoute "POST" "/api/v1/campaigns/:id/pause" ByHeader "PauseCampaign";
   mkRoute "POST" "/api/v1/campaigns/:id/resume" ByHeader "ResumeCampaign";
   mkRoute "POST" "/api/v1/campaigns/:id/abort" ByHeader "AbortCampaign";
   mkRoute "POST" "/api/v1/campaigns/:id/retry-failed" ByHeader "RetryFailedCards";
   mkRoute "GET" "/api/v1/caps" ByHeader "ListCAPFiles";
   mkRoute "POST" "/api/v1/caps/upload" ByHeader "UploadCAPFile";
   mkRoute "GET" "/api/v1/caps/:id" ByHeader "GetCAPFile";
   mkRoute "DELETE" "/api/v1/caps/:id" ByHeader "DeleteCAPFile";
   mkRoute "GET" "/api/v1/caps/:id/apdu-preview" ByHeader "PreviewCAPAPDUs";
   mkRoute "GET" "/api/v1/scripts" ByHeader "ListScripts";
   mkRoute "POST" "/api/v1/scripts" ByHeader "CreateScript";
   mkRoute "GET" "/api/v1/scripts/:id" ByHeader "GetScript";
   mkRoute "PUT" "/api/v1/scripts/:id" ByHeader "UpdateScript";
   mkRoute "DELETE" "/api/v1/scripts/:id" ByHeader "DeleteScript";
   mkRoute "GET" "/api/v1/dashboard/kpis" ByHeader "GetDashboardKPIs";
   mkRoute "GET" "/api/v1/dashboard/activity" ByHeader "GetRecentActivity";
   mkRoute "GET" "/api/v1/dashboard/sms-throughput" ByHeader "GetSMSThroughput";
   mkRoute "GET" "/api/v1/monitoring/health" ByHeader "GetSystemHealth";
   mkRoute "GET" "/api/v1/monitoring/messages" ByHeader "ListMessages";
   mkRoute "GET" "/api/v1/monitoring/messages/:id" ByHeader "GetMessage";
   mkRoute "GET" "/api/v1/monitoring/errors" ByHeader "GetErrorSummary";
   mkRoute "GET" "/api/v1/debug/card/:id" ByHeader "GetDebugCard";
   mkRoute "GET" "/api/v1/debug/campaign/:id" ByHeader "GetDebugCampaign";
   mkRoute "GET" "/api/v1/debug/message/:id" ByHeader "GetDebugMessage";
   mkRoute "GET" "/api/v1/debug/queues" ByHeader "GetDebugQueues";
   mkRoute "GET" "/api/v1/debug/stuck" ByHeader "GetDebugStuck";
   mkRoute "GET" "/api/v1/settings" ByHeader "GetSettings";
   mkRoute "PUT" "/api/v1/settings" ByHeader "UpdateSettings";
   mkRoute "GET" "/debug/pprof/" ByHeader "pprof.Index";
   mkRoute "GET" "/debug/pprof/cmdline" ByHeader "pprof.Cmdline";
   mkRoute "GET" "/debug/pprof/profile" ByHeader "pprof.Profile";
   mkRoute "POST" "/debug/pprof/symbol" ByHeader "pprof.Symbol";
   mkRoute "GET" "/debug/pprof/symbol" ByHeader "pprof.Symbol";
   mkRoute "GET" "/debug/pprof/trace" ByHeader "pprof.Trace";
   mkRoute "GET" "/debug/pprof/allocs" ByHeader "pprof.allocs";
   mkRoute "GET" "/debug/pprof/block" ByHeader "pprof.block";
   mkRoute "GET" "/debug/pprof/goroutine" ByHeader "pprof.goroutine";
   mkRoute "GET" "/debug/pprof/heap" ByHeader "pprof.heap";
   mkRoute "GET" "/debug/pprof/mutex" ByHeader "pprof.mutex";
   mkRoute "GET" "/debug/pprof/threadcreate" ByHeader "pprof.threadcreate";
   mkRoute "GET" "/ws" ByToken "HandleWebSocket"].

(** A request: method, path, the Authorization header and the token parameter. *)
Record httpRequest := mkHttpRequest { hr_method : string; hr_path : string; hr_authorization : string; hr_token : string }.

(** What becomes of it: no route, refused with 401, or a handler runs. *)
Inductive outcome := NoRoute | Unauthorized | Runs (handler : string).

(** [subtle.ConstantTimeCompare] of the token of the websocket. *)
Definition tokenAuth (apiKey token : string) : bool := bool_decide (apiKey = "") || bool_decide (token = apiKey).

(** A pattern without parameters. *)
Definition isStatic (pattern : string) : bool := bool_decide (Ascii.ascii_of_N 58 ∉ String.list_ascii_of_string pattern).

Section Router.
(** gin: the route a method and a path take. *)
Context (dispatch : list route -> string -> string -> option route).

Class DispatchLaws : Prop := {
  dispatch_registered rs m p r : dispatch rs m p = Some r -> r ∈ rs /\ rt_method r = m;
  dispatch_static rs r : NoDup ((fun r => (rt_method r, rt_pattern r)) <$> rs) -> r ∈ rs -> isStatic (rt_pattern r) = true ->
    dispatch rs (rt_method r) (rt_pattern r) = Some r
}.

Definition ServeHTTP (apiKey : string) (q : httpRequest) : outcome :=
  match dispatch routes (hr_method q) (hr_path q) with
  | None => NoRoute
  | Some r =>
      let ok := match rt_guard r with ByHeader => apiKeyAuth apiKey (hr_authorization q) | ByToken => tokenAuth apiKey (hr_token q) end in
      if ok then Runs (rt_handler r) else Unauthorized
  end.

Lemma cutPrefix_spec pre s t : cutPrefix pre s = Some t <-> s = pre +:+ t.
Proof.
  revert s. induction pre as [|a pre IH]; intros s; cbn [cutPrefix].
  - change ("" +:+ t) with t. split; [by intros [= ->] | by intros ->].
  - change (String a pre +:+ t) with (String a (pre +:+ t)). destruct s as [|b s]; [done|]. case_bool_decide as Hab.
    + subst b. rewrite IH. split; [by intros -> | by intros [= ->]].
    + split; [done|]. intros [= E _]. congruence.
Qed.

Lemma apiKeyAuth_spec apiKey auth : apiKey <> "" -> apiKeyAuth apiKey auth = true <-> auth = "Bearer " +:+ apiKey.
Proof.
  intros Hk. unfold apiKeyAuth. rewrite bool_decide_false by done. rewrite <- cutPrefix_spec.
  destruct (cutPrefix "Bearer " auth) as [t|].
  - rewrite (bool_decide_true (is_Some (Some t))) by eauto. cbn [negb orb default]. rewrite negb_involutive, bool_decide_eq_true.
    change (t = apiKey <-> Some t = Some apiKey). split; congruence.
  - rewrite (bool_decide_false (is_Some None)) by (by intros []). by split.
Qed.

(** Every pair of method and pattern is registered once, and only the websocket is behind the token. *)
Lemma routes_distinct : NoDup ((fun r => (rt_method r, rt_pattern r)) <$> routes).
Proof. apply (bool_decide_unpack _). vm_compute. exact I. Qed.
Lemma token_routes r : r ∈ routes -> rt_guard r = ByToken -> rt_handler r = "HandleWebSocket".
Proof.
  intros Hr. assert (H : Forall (fun r => rt_guard r = ByToken -> rt_handler r = "HandleWebSocket") routes) by (repeat constructor; done).
  rewrite Forall_forall in H. by apply H.
Qed.

End Router.

Module RouterScenario.
(** Routes by their literal pattern. *)
Definition exact (rs : list route) (m p : string) : option route :=
  snd <$> list_find (fun r => (rt_method r, rt_pattern r) = (m, p)) rs.

Lemma exact_laws : DispatchLaws exact.
Proof.
  split.
  - intros rs m p r. unfold exact. destruct (list_find _ rs) as [[i x]|] eqn:E; [|done]. intros [= ->].
    apply list_find_Some in E as (Hi & Hk & _). injection Hk as <- _. split; [by eapply list_elem_of_lookup_2 | done].
  - intros rs r Hnd Hr _. unfold exact. destruct (list_find _ rs) as [[i x]|] eqn:E.
    + apply list_find_Some in E as (Hi & Hk & _). cbn. f_equal. apply list_elem_of_lookup in Hr as [j Hj].
      assert (i = j) as ->; [|congruence]. eapply (NoDup_lookup _ i j (rt_method r, rt_pattern r) Hnd); rewrite list_lookup_fmap.
      * rewrite Hi. cbn. by rewrite Hk.
      * by rewrite Hj.
    + apply list_find_None in E. rewrite Forall_forall in E. by destruct (E r Hr).
Qed.
End RouterScenario.

