(* ===== verification/Lists.v ===== *)
(** * Listing and exporting

    ListCards, ListCardGroups and ExportCards of api_cards.go, ListProfiles, ListScripts and ListCAPFiles.
    The tables do not carry created_at: [newest] is ORDER BY created_at DESC on rows, the database's
    order of equal times included; [fold] is its lower case.  Pages are cut by
    OFFSET and LIMIT; gorm leaves out an offset that is not positive. *)

From S2P Require Import Prelude Effects Models Pipeline Store HexUtil StateWriter Sql QueryStore Executor CampaignControl ControlScenario Api Search Cards CardGroups Profiles Assets ApiScenario.

(** [Offset(offset).Limit(pageSize)] *)
Definition pageOf {A} (offset pageSize : Z) (rows : list A) : list A :=
  take (Z.to_nat pageSize) (if 0 <? offset then drop (Z.to_nat offset) rows else rows).

Definition paginatedResponse (total page pageSize : Z) : Response.t :=
  ok_ 200 [("total", VInt total); ("page", VInt page); ("page_size", VInt pageSize); ("total_pages", VInt (totalPages total pageSize))].

(** [Preload]: one more statement, unless there is nothing to load it for. *)
Definition preload {A} (rows : list A) : AM unit :=
  match rows with [] => ret tt | _ => readApi (fun _ => tt) end.

Section Lists.
Context (castUUID : string -> option string) (fold : string -> string).
Context (newest : forall {A}, list A -> list A).
Arguments newest {_} _.

(** ** Cards *)

(** The conditions of a query on cards, absent when the parameter is. *)
Record cardQuery := mkCardQuery { cq_search : string; cq_profile : option string; cq_status : string; cq_group : option string }.

Definition selects (a : Api) (q : cardQuery) (c : Card.t) : bool :=
  (bool_decide (cq_search q = "") ||
   ilike fold (Card.ICCID c) (prefixPattern (cq_search q)) || ilike fold (Card.IMSI c) (prefixPattern (cq_search q)) ||
   ilike fold (Card.MSISDN c) (prefixPattern (cq_search q))) &&
  match cq_profile q with None => true | Some p => bool_decide (Card.ProfileID c = p) end &&
  (bool_decide (cq_status q = "") || bool_decide (Card.Status c = cq_status q)) &&
  match cq_group q with None => true | Some g => bool_decide ((g, Card.ID c) ∈ ap_members a) end.

Definition selected (q : cardQuery) (a : Api) : list Card.t :=
  newest (filter (fun c => selects a q c = true) (snd <$> map_to_list (cards (cardsDb a)))).

(** A uuid parameter: [None] is what the database cannot cast. *)
Definition castParam (v : string) : option (option string) :=
  if bool_decide (v = "") then Some None else Some <$> castUUID v.

Definition cardQueryOf (search : string) (query : string -> string) : option cardQuery :=
  match castParam (query "profile_id"), castParam (query "group_id") with
  | Some p, Some g => Some (mkCardQuery search p (query "status") g)
  | _, _ => None
  end.

(** A statement of the query: an uncastable parameter fails it. *)
Definition runQuery {A} (q : option cardQuery) (f : cardQuery -> Api -> A) : AM A :=
  match q with
  | None => merr (Errorf "invalid input syntax for type uuid" [])
  | Some q => readApi (f q)
  end.

Definition ListCards (query : string -> string) : AM (Response.t * list Card.t) :=
  let '(page, pageSize, offset) := paginationParams query in
  let q := cardQueryOf (query "q") query in
  do! total <- try (runQuery q (fun q a => zlen (selected q a)));
  match total with
  | Err _ => ret (errorResponse 500 "failed to count cards", [])
  | Panic p => mres (Panic p)
  | Ok total =>
      do! cards <- try (do! rows <- runQuery q (fun q a => pageOf offset pageSize (selected q a)); do! _ <- preload rows; ret rows);
      match cards with
      | Err _ => ret (errorResponse 500 "failed to list cards", [])
      | Panic p => mres (Panic p)
      | Ok cards => ret (paginatedResponse total page pageSize, cards)
      end
  end.

(** ** Groups, profiles, scripts, CAP files *)

Definition memberCount (a : Api) (g : CardGroup.t) : Z := zlen (filter (fun m => fst m = CardGroup.ID g) (ap_members a)).

(** The error of the second count is dropped. *)
Definition ListCardGroups (query : string -> string) : AM (Response.t * list (CardGroup.t * Z)) :=
  let '(page, pageSize, offset) := paginationParams query in
  do! groups <- try (readApi (fun a => (fun g => (g, memberCount a g)) <$> pageOf offset pageSize (newest (snd <$> map_to_list (ap_groups a)))));
  match groups with
  | Err _ => ret (errorResponse 500 "failed to list card groups", [])
  | Panic p => mres (Panic p)
  | Ok groups =>
      do! total <- try (readApi (fun a => Z.of_nat (size (ap_groups a))));
      ret (paginatedResponse (match total with Ok n => n | _ => 0 end) page pageSize, groups)
  end.

(** The count of the cards of each profile, errors dropped. *)
Fixpoint countEach (rows : list Profile.t) : AM (list (Profile.t * Z)) :=
  match rows with
  | [] => ret []
  | p :: rows =>
      do! n <- try (readApi (cardCount (Profile.ID p)));
      do! rest <- countEach rows;
      ret ((p, match n with Ok n => Z.of_nat n | _ => 0 end) :: rest)
  end.

Definition withApplications (a : Api) (pn : Profile.t * Z) : profileData * Z * Z :=
  let apps := applicationsOf (Profile.ID (fst pn)) a in ((fst pn, apps), snd pn, zlen apps).

(** Each profile with its applications, the count of its cards and of its applications. *)
Definition ListProfiles (query : string -> string) : AM (Response.t * list (profileData * Z * Z)) :=
  do! r <- try (do! rows <- readApi (fun a => newest (filter (fun p => matches fold (query "search") (Profile.Name p) = true)
                                                       (snd <$> map_to_list (profilesOf a))));
                do! _ <- preload rows;
                do! a <- gets (fun a => a);
                ret (a, rows));
  match r with
  | Err _ => ret (errorResponse 500 "failed to list profiles", [])
  | Panic p => mres (Panic p)
  | Ok (a, rows) => do! counted <- countEach rows; ret (ok_ 200 [], withApplications a <$> counted)
  end.

Definition ListScripts (query : string -> string) : AM (Response.t * list Script.t) :=
  do! r <- try (readApi (fun a => newest (filter (fun s => matches fold (query "search") (Script.Name s) = true)
                                            (snd <$> map_to_list (ap_scripts a)))));
  match r with
  | Err _ => ret (errorResponse 500 "failed to list scripts", [])
  | Panic p => mres (Panic p)
  | Ok scripts => ret (ok_ 200 [], scripts)
  end.

Definition ListCAPFiles : AM (Response.t * list CAPFile.t) :=
  do! r <- try (readApi (fun a => newest (snd <$> map_to_list (ap_caps a))));
  match r with
  | Err _ => ret (errorResponse 500 "failed to list CAP files", [])
  | Panic p => mres (Panic p)
  | Ok caps => ret (ok_ 200 [], caps)
  end.

(** ** ExportCards *)

Definition exportHeader : list string := ["iccid"; "imsi"; "msisdn"; "profile_name"; "status"; "created_at"].

(** A row of the file; [created] is the formatted time of a card. *)
Definition exportRow (created : Card.t -> string) (a : Api) (c : Card.t) : list string :=
  [Card.ICCID c; Card.IMSI c; Card.MSISDN c; match profilesOf a !! Card.ProfileID c with Some p => Profile.Name p | None => "" end;
   Card.Status c; created c].

(** The callback's batches up to the first statement that fails: the rows written by then. *)
Fixpoint exportBatches (row : Card.t -> list string) (batches : list (list Card.t)) : AM (list (list string)) :=
  match batches with
  | [] => ret []
  | batch :: batches =>
      do! r <- try (do! _ <- readApi (fun _ => tt); preload batch);
      match r with
      | Err _ => ret []
      | Panic p => mres (Panic p)
      | Ok _ => do! rest <- exportBatches row batches; ret ((row <$> batch) ++ rest)
      end
  end.

(** [findInBatches n rows] are the batches that gorm's FindInBatches(&batch, n, .) hands to its callback when
    [rows] are the result of the query; its error is dropped. *)
Definition ExportCards (findInBatches : nat -> list Card.t -> list (list Card.t)) (created : Card.t -> string) (query : string -> string)
    : AM (list (list string)) :=
  match cardQueryOf "" query with
  | None => ret [exportHeader]
  | Some q =>
      do! a <- gets (fun a => a);
      do! rows <- exportBatches (exportRow created a) (findInBatches 500%nat (selected q a));
      ret (exportHeader :: rows)
  end.
End Lists.
