(* ===== verification/Views.v ===== *)
(** * Reading handlers: cards and campaigns

    The read-only handlers of the control plane look at the tables of the API, at message_history, at
    card_counters and at a cache of their own.  [Views] holds them all, and the lifts run a query of
    one store on it.  Here are GetCard and GetCardCounters of api_cards.go and ListCampaigns of
    api_campaigns.go; dashboard, monitoring and debugging follow in their own files.

    A quotient of counts, a [float64] in the source, is kept exact as a [ratio]. *)

From S2P Require Import Prelude Effects Models Pipeline Store HexUtil StateWriter Sql QueryStore Executor CampaignControl ControlScenario BatchPreload CardKeyStore MessageHistory Api Search Cards CardGroups Profiles Assets ApiScenario Lists.

(** Numerator and denominator; a zero denominator stands for the value 0 of the untaken branch. *)
Record ratio := mkRatio { ra_num : Z; ra_den : Z }.

(** ** State *)

(** dashboardKPI of api_dashboard.go. *)
Module KPI.
Record t := mk {
  TotalCards : Z; ActiveCards : Z; InactiveCards : Z; BlockedCards : Z;
  TotalCampaigns : Z; RunningCampaigns : Z; CompletedCampaigns : Z; FailedCampaigns : Z;
  TotalMessages : Z; MTMessages : Z; MOMessages : Z; DeliveredMessages : Z; UndeliveredMessages : Z;
  TotalCAPFiles : Z; TotalScripts : Z; RefreshedAt : Z; MessagesToday : Z
}.
End KPI.

Record Views := mkViews {
  vw_api : Api;
  vw_history : Table;                 (** message_history *)
  vw_caches : caches;                 (** card_counters *)
  vw_kpi : option (KPI.t * Z)         (** kpiCached and kpiCachedUntil, once they are set *)
}.

Definition sysOf (v : Views) : Sys := cp_sys (ap_ctl (vw_api v)).
Definition set_vw_api a v := mkViews a (vw_history v) (vw_caches v) (vw_kpi v).
Definition set_vw_kpi k v := mkViews (vw_api v) (vw_history v) (vw_caches v) k.

#[global] Instance Views_sys : HasSys Views := {| sys := sysOf; set_sys y v := set_vw_api (set_ap_sys y (vw_api v)) v |}.

Abbreviation VM := (M Views).

Definition on_api {A} (m : AM A) : VM A :=
  fun v => let '(r, a) := m (vw_api v) in (r, set_vw_api a v).
Definition on_query {A} (m : M Sys A) : VM A := on_api (on_ctl (on_sys m)).
Definition on_history {A} (m : HM A) : VM A :=
  fun v => let '(r, (y, t)) := m (sysOf v, vw_history v) in
           (r, mkViews (set_ap_sys y (vw_api v)) t (vw_caches v) (vw_kpi v)).
Definition on_counters {A} (m : M (Sys * caches) A) : VM A :=
  fun v => let '(r, (y, c)) := m (sysOf v, vw_caches v) in
           (r, mkViews (set_ap_sys y (vw_api v)) (vw_history v) c (vw_kpi v)).

(** ** Answers *)

Definition answer {A} (fields : list (string * value)) (a : A) : VM (Response.t * option A) := ret (ok_ 200 fields, Some a).
Definition refuse {A} (code : Z) (text : string) : VM (Response.t * option A) := ret (errorResponse code text, None).

(** [if err != nil { errorResponse(c, 500, text); return }] *)
Definition orFail {A B} (text : string) (m : VM B) (k : B -> VM (Response.t * option A)) : VM (Response.t * option A) :=
  do! r <- try m;
  match r with
  | Err _ => refuse 500 text
  | Panic p => mres (Panic p)
  | Ok b => k b
  end.

(** The same, with 404 for a missing row. *)
Definition orMissing {A B} (missing text : string) (m : VM B) (k : B -> VM (Response.t * option A)) : VM (Response.t * option A) :=
  do! r <- try m;
  match r with
  | Err e => if bool_decide (e = ErrRecordNotFound) then refuse 404 missing else refuse 500 text
  | Panic p => mres (Panic p)
  | Ok b => k b
  end.

(** A read whose error is dropped. *)
Definition dropped {A} (dflt : A) (m : VM A) : VM A :=
  do! r <- try m;
  match r with Ok a => ret a | Panic p => mres (Panic p) | Err _ => ret dflt end.

(** A call of a method of [a.query], an interface that may be nil. *)
Definition queried {A} (query_ : bool) (m : VM A) : VM A :=
  if query_ then m else mres (Panic "invalid memory address or nil pointer dereference").

Section Views.
Context (parse castUUID : string -> option string) (fold : string -> string).
Context (newest : forall {A}, list A -> list A).
Arguments newest {_} _.
Context (counterRead query_ : bool).

(** [parseUUID(c, "id")]; [id] is the text of the request, [uuid] the value [uuid.MustParse] gives. *)
Definition withUUID {A} (id : string) (k : string -> VM (Response.t * option A)) : VM (Response.t * option A) :=
  match parse id with
  | None => refuse 400 "invalid UUID: id"
  | Some uuid => k uuid
  end.

(** [First(&card, "id = ?", id)] *)
Definition firstCard (raw : string) : AM Card.t := do! o <- readRow castUUID raw (fun id a => cards (cardsDb a) !! id); first o.

(** [Preload("Profile").First(&card, "id = ?", id)] *)
Definition cardWithProfile (raw : string) : AM Card.t :=
  do! card <- firstCard raw; do! _ <- preload [card]; ret card.

(** ** api_cards.go *)

(** The card, its counters unless they could not be read, its last messages. *)
Record cardDetail := mkCardDetail {
  cd_card : Card.t; cd_counters : list CardCounterRecord.t; cd_messages : list MessageRecord.t; cd_degraded : bool
}.

Definition GetCard (id : string) : VM (Response.t * option cardDetail) :=
  withUUID id (fun _ =>
  orMissing "card not found" "failed to get card" (on_api (cardWithProfile id)) (fun card =>
  do! counters <- (if counterRead then try (on_counters (GetCountersByCard parse id)) else ret (Ok []));
  orFail "failed to get card messages" (queried query_ (on_history (ListCardMessages (Card.ID card) 10))) (fun recentMessages =>
  answer [] (mkCardDetail card (match counters with Ok l => l | _ => [] end) recentMessages
               (match counters with Err _ => true | _ => false end))))).

(** counterResponse *)
Record counterItem := mkCounterItem { ci_card : string; ci_application : string; ci_name : string; ci_value : Z }.

(** [Select("id, name").Where("id IN ?", appIDs).Find(&apps)], the error dropped; the names by id. *)
Definition appNames (appIDs : list string) : VM (gmap string string) :=
  match appIDs with
  | [] => ret ∅
  | _ => dropped ∅ (on_api (readApi (fun a => Application.Name <$> filter (fun kv => fst kv ∈ appIDs) (ap_apps a))))
  end.

Definition GetCardCounters (id : string) : VM (Response.t * option (list counterItem)) :=
  withUUID id (fun _ =>
  orMissing "card not found" "failed to find card" (on_api (firstCard id)) (fun _ =>
  if negb counterRead then answer [] []
  else
    orFail "failed to get card counters" (on_counters (GetCountersByCard parse id)) (fun counters =>
    do! names <- appNames (CardCounterRecord.ApplicationID <$> counters);
    answer [] ((fun ctr => mkCounterItem (CardCounterRecord.CardID ctr) (CardCounterRecord.ApplicationID ctr)
                             (default "" (names !! CardCounterRecord.ApplicationID ctr)) (CardCounterRecord.CounterValue ctr)) <$> counters)))).

(** ** api_campaigns.go: ListCampaigns *)

Definition listed (status search : string) (a : Api) : list Campaign.t :=
  newest (filter (fun c => (bool_decide (status = "") || bool_decide (Campaign.Status c = status)) && matches fold search (Campaign.Name c) = true)
            (snd <$> map_to_list (campaigns (cardsDb a)))).

(** campaignResponse *)
Record campaignItem := mkCampaignItem { cm_campaign : Campaign.t; cm_total : Z; cm_success : Z; cm_failed : Z; cm_progress : ratio }.

Definition campaignItemOf (statsMap : gmap string CampaignStats.t) (camp : Campaign.t) : campaignItem :=
  let s := default CampaignStats.zero (statsMap !! Campaign.ID camp) in
  mkCampaignItem camp (CampaignStats.Total s) (CampaignStats.Completed s) (CampaignStats.Failed s)
    (if 0 <? CampaignStats.Total s
     then mkRatio ((CampaignStats.Completed s + CampaignStats.Failed s + CampaignStats.Skipped s) * 100) (CampaignStats.Total s)
     else mkRatio 0 0).

Definition ListCampaigns (query : string -> string) : VM (Response.t * option (list campaignItem)) :=
  let '(page, pageSize, offset) := paginationParams query in
  let rows := listed (query "status") (query "search") in
  orFail "failed to count campaigns" (on_api (readApi (fun a => zlen (rows a)))) (fun total =>
  orFail "failed to list campaigns" (on_api (readApi (fun a => pageOf offset pageSize (rows a)))) (fun campaigns =>
  let campaignIDs := Campaign.ID <$> campaigns in
  orFail "failed to load campaign stats"
    (if query_ && negb (bool_decide (campaignIDs = [])) then on_query (CampaignStatsBatch campaignIDs) else ret ∅) (fun statsMap =>
  ret (paginatedResponse total page pageSize, Some (campaignItemOf statsMap <$> campaigns))))).
End Views.
