(* ===== verification/Dashboard.v ===== *)
(** * The dashboard: api_dashboard.go

    GetDashboardKPIs with the computation behind it, whose result is kept for two seconds and
    whose failed counts are 0, GetRecentActivity and GetSMSThroughput, with MinuteThroughput of
    query_store.go. *)

From S2P Require Import Prelude Effects Models Pipeline Store HexUtil StateWriter Sql QueryStore Executor CampaignControl ControlScenario BatchPreload CardKeyStore MessageHistory Api Search Cards CardGroups Profiles Assets ApiScenario Lists Views.

(** ** Counts of the tables *)

Definition countCards (P : string -> bool) (a : Api) : Z :=
  zlen (filter (fun c => P (Card.Status c) = true) (snd <$> map_to_list (cards (cardsDb a)))).
Definition countCampaigns (P : string -> bool) (a : Api) : Z :=
  zlen (filter (fun c => P (Campaign.Status c) = true) (snd <$> map_to_list (campaigns (cardsDb a)))).

Definition anyStatus (_ : string) : bool := true.
Definition hasStatus (st s : string) : bool := bool_decide (s = st).
Definition closedStatuses (s : string) : bool := bool_decide (s ∈ ["completed"; "completed_with_errors"]).

(** [Count(&n)] whose error is dropped: [n] keeps its zero. *)
Definition counted (f : Api -> Z) : VM Z := dropped 0 (on_api (readApi f)).

(** [now.Truncate(24 * time.Hour)] *)
Definition startOfDay (t : Z) : Z := t - t mod oneDay.

Definition noMetrics : MessageMetrics.t := MessageMetrics.mk 0 0 0 0 0.
Definition twoSeconds : Z := 2 * 1000000000.

Section Dashboard.
Context (parse : string -> option string) (query_ : bool).

(** [MessageMetrics(ctx, since)], an error logged. *)
Definition metricsSince (t0 : Z) : VM MessageMetrics.t := dropped noMetrics (queried query_ (on_history (messageMetrics t0 None))).

(** The counts, in the order of the statements. *)
Definition refreshKPIs (now_ : Z) : VM KPI.t :=
  do! totalCards <- counted (countCards anyStatus);
  do! activeCards <- counted (countCards (hasStatus "active"));
  do! inactiveCards <- counted (countCards (hasStatus "inactive"));
  do! blockedCards <- counted (countCards (hasStatus "blocked"));
  do! totalCampaigns <- counted (countCampaigns anyStatus);
  do! runningCampaigns <- counted (countCampaigns (hasStatus "running"));
  do! completedCampaigns <- counted (countCampaigns closedStatuses);
  do! failedCampaigns <- counted (countCampaigns (hasStatus "failed"));
  do! metrics <- metricsSince (now_ - oneDay);
  do! todayMetrics <- metricsSince (startOfDay now_);
  do! totalCAPFiles <- counted (fun a => Z.of_nat (size (ap_caps a)));
  do! totalScripts <- counted (fun a => Z.of_nat (size (ap_scripts a)));
  ret (KPI.mk totalCards activeCards inactiveCards blockedCards
         totalCampaigns runningCampaigns completedCampaigns failedCampaigns
         (MessageMetrics.Total metrics) (MessageMetrics.MT metrics) (MessageMetrics.MO metrics)
         (MessageMetrics.Delivered metrics) (MessageMetrics.Undelivered metrics)
         totalCAPFiles totalScripts now_ (MessageMetrics.MT todayMetrics)).

Definition computeKPIsFromTables : VM KPI.t :=
  do! now_ <- now;
  do! cached <- gets vw_kpi;
  match (match cached with Some (kpi, until_) => if now_ <? until_ then Some kpi else None | None => None end) with
  | Some kpi => ret kpi
  | None =>
      do! kpi <- refreshKPIs now_;
      do! _ <- modify (set_vw_kpi (Some (kpi, now_ + twoSeconds)));
      ret kpi
  end.

(** The figures, the rate of success in percent and campaigns_by_status.pending. *)
Record dashboard := mkDashboard { dash_kpi : KPI.t; dash_rate : ratio; dash_pending : Z }.

Definition dashboardOf (kpi : KPI.t) : dashboard :=
  mkDashboard kpi
    (if 0 <? KPI.MTMessages kpi then mkRatio (KPI.DeliveredMessages kpi * 100) (KPI.MTMessages kpi) else mkRatio 0 0)
    (KPI.TotalCampaigns kpi - KPI.RunningCampaigns kpi - KPI.CompletedCampaigns kpi - KPI.FailedCampaigns kpi).

Definition GetDashboardKPIs : VM (Response.t * option dashboard) :=
  do! kpi <- computeKPIsFromTables; answer [] (dashboardOf kpi).

(** ** GetRecentActivity *)

Record activityEntry := mkActivity {
  act_ID : string; act_CampaignID : option string; act_CardID : string; act_MSISDN : string; act_ICCID : string;
  act_Direction : string; act_Status : string; act_DLRStatus : option string; act_PORStatusCode : option Z;
  act_CreatedAt : Z; act_UpdatedAt : Z
}.

(** A card that is not in the table has the zero [db.Card]. *)
Definition activityOf (cardByID : gmap string Card.t) (m : MessageRecord.t) : activityEntry :=
  let card := cardByID !! MessageRecord.CardID m in
  mkActivity (MessageRecord.ID m) (MessageRecord.CampaignID m) (MessageRecord.CardID m)
    (default "" (Card.MSISDN <$> card)) (default "" (Card.ICCID <$> card)) (MessageRecord.Direction m) (MessageRecord.Status m)
    (MessageRecord.DLRStatus m) (MessageRecord.PORStatusCode m) (MessageRecord.CreatedAt m) (MessageRecord.UpdatedAt m).

(** The distinct ids of the messages in the order of their first message: the loop over [seen]. *)
Fixpoint distinctIDs (seen : list string) (l : list string) : list string :=
  match l with
  | [] => []
  | id :: l => if bool_decide (id ∈ seen) then distinctIDs seen l else id :: distinctIDs (id :: seen) l
  end.

(** [Where("id IN ?", cardIDs)], as a map by id. *)
Definition cardsByID (cardIDs : list string) : VM (gmap string Card.t) :=
  match cardIDs with
  | [] => ret ∅
  | _ => on_api (readApi (fun a => filter (fun kv => fst kv ∈ cardIDs) (cards (cardsDb a))))
  end.

Definition GetRecentActivity : VM (Response.t * option (list activityEntry)) :=
  orFail "failed to get recent activity" (queried query_ (on_history (RecentActivity 50))) (fun messages =>
  orFail "failed to get recent activity" (cardsByID (distinctIDs [] (MessageRecord.CardID <$> messages))) (fun cardByID =>
  answer [] (activityOf cardByID <$> messages))).

(** ** GetSMSThroughput *)

(** ThroughputPoint with the [float64] quotients. *)
Record rate := mkRate { rt_Timestamp : Z; rt_Sent : ratio; rt_Delivered : ratio; rt_Failed : ratio }.

Definition rateOf (den : Z) (p : ThroughputPoint.t) : rate :=
  mkRate (ThroughputPoint.Timestamp p) (mkRatio (ThroughputPoint.Sent p) den) (mkRatio (ThroughputPoint.Delivered p) den)
    (mkRatio (ThroughputPoint.Failed p) den).

Definition oneMinute : Z := 60 * 1000000000.

Definition MinuteThroughput : HM (list rate) :=
  do! now_ <- now;
  do! points <- throughput (now_ - oneHour) None oneMinute;
  ret (rateOf 60 <$> points).

Definition GetSMSThroughput (query : string -> string) : VM (Response.t * option (list rate)) :=
  let text := "failed to get SMS throughput" in
  if bool_decide (query "campaign_id" = "") then orFail text (queried query_ (on_history MinuteThroughput)) (answer [])
  else
    match parse (query "campaign_id") with
    | None => refuse 400 "invalid campaign_id"
    | Some id =>
        do! now_ <- now;
        orFail text (queried query_ (on_history (CampaignThroughput id (now_ - oneDay)))) (fun points => answer [] (rateOf 1 <$> points))
    end.
End Dashboard.
