(* ===== verification/Monitoring.v ===== *)
(** * Monitoring: api_monitoring.go

    GetSystemHealth, ListMessages, GetMessage, GetErrorSummary, GetSettings and UpdateSettings.
    [parseTime] is [time.Parse(time.RFC3339, .)].  GetErrorSummary ranges over a Go map and sorts with the
    unstable sort.Slice: [byFailures] is the resulting order, [failuresOrder] what is documented of it. *)

From S2P Require Import Prelude Effects Models Pipeline Store HexUtil StateWriter Sql QueryStore Executor CampaignControl ControlScenario BatchPreload CardKeyStore MessageHistory Api Search Cards CardGroups Profiles Assets ApiScenario Lists Views.

(** ** GetSystemHealth *)

Record health := mkHealth { hl_status : string; hl_timestamp : Z; hl_database : string; hl_latency : ratio }.

(** [a.db.DB()] and [sqlDB.Ping()], each of which may fail. *)
Definition connect : VM unit := on_query (query (fun _ => tt)).
Definition ping : VM unit := on_query (query (fun _ => tt)).

(** The second ping is timed and its error dropped; latency in microseconds over 1000. *)
Definition GetSystemHealth : VM (Response.t * option health) :=
  do! connected <- try (do! _ <- connect; ping);
  let up := is_ok connected in
  do! latency <- (if up then
                    do! start <- now; do! _ <- ignore ping; do! end_ <- now;
                    ret (mkRatio (Z.quot (end_ - start) 1000) 1000)
                  else ret (mkRatio 0 0));
  do! at_ <- now;
  ret (ok_ (if up then 200 else 503) [],
       Some (mkHealth (if up then "healthy" else "degraded") at_ (if up then "up" else "down") latency)).

(** ** ListMessages *)

(** A parameter with its alias. *)
Definition aliased (query : string -> string) (name alias : string) : string :=
  if bool_decide (query name = "") then query alias else query name.

Definition withCard (id : string) (f : MessageFilter.t) : MessageFilter.t :=
  MessageFilter.mk (MessageFilter.CampaignID f) (Some id) (MessageFilter.Direction f) (MessageFilter.Status f)
    (MessageFilter.From f) (MessageFilter.To f) (MessageFilter.Page f) (MessageFilter.PageSize f).
Definition withCampaign (id : string) (f : MessageFilter.t) : MessageFilter.t :=
  MessageFilter.mk (Some id) (MessageFilter.CardID f) (MessageFilter.Direction f) (MessageFilter.Status f)
    (MessageFilter.From f) (MessageFilter.To f) (MessageFilter.Page f) (MessageFilter.PageSize f).
Definition withWindow (from to_ : option Z) (f : MessageFilter.t) : MessageFilter.t :=
  MessageFilter.mk (MessageFilter.CampaignID f) (MessageFilter.CardID f) (MessageFilter.Direction f) (MessageFilter.Status f)
    (default (MessageFilter.From f) from) (default (MessageFilter.To f) to_) (MessageFilter.Page f) (MessageFilter.PageSize f).

(** The struct's fields are evaluated in order: the clock is read twice. *)
Definition scyllaMessageFilterFromRequest (query : string -> string) (page pageSize : Z) : VM MessageFilter.t :=
  do! from <- now;
  do! to_ <- now;
  ret (MessageFilter.mk None None (query "direction") (query "status") (from - oneDay) to_ page pageSize).

(** [First(&card, "msisdn = ?", msisdn)]: the first by id. *)
Definition cardOfMSISDN (msisdn : string) (a : Api) : option Card.t :=
  head (omap (fun id => cards (cardsDb a) !! id)
          (sortedIDs (fst <$> filter (fun kv => Card.MSISDN (snd kv) = msisdn) (map_to_list (cards (cardsDb a)))))).

Section Monitoring.
Context (parse : string -> option string) (parseTime : string -> option Z) (query_ : bool).

(** [time.Parse], an error ignored. *)
Definition timeParam (s : string) : option Z := if bool_decide (s = "") then None else parseTime s.

(** The filter with the card of the msisdn: [inl] is the response already given. *)
Definition filterByMSISDN (msisdn : string) (page pageSize : Z) (f : MessageFilter.t) : VM (Response.t + MessageFilter.t) :=
  if bool_decide (msisdn = "") then ret (inr f)
  else
    do! r <- try (on_api (do! o <- readApi (cardOfMSISDN msisdn); first o));
    match r with
    | Ok card => ret (inr (withCard (Card.ID card) f))
    | Err e => ret (inl (if bool_decide (e = ErrRecordNotFound) then paginatedResponse 0 page pageSize
                         else errorResponse 500 "failed to resolve msisdn"))
    | Panic p => mres (Panic p)
    end.

Definition filterByCampaign (campaignID : string) (f : MessageFilter.t) : Response.t + MessageFilter.t :=
  if bool_decide (campaignID = "") then inr f
  else match parse campaignID with
       | None => inl (errorResponse 400 "invalid campaign_id")
       | Some id => inr (withCampaign id f)
       end.

(** What follows the msisdn parameter. *)
Definition listFiltered (query : string -> string) (page pageSize : Z) (filter : MessageFilter.t) : VM (Response.t * list MessageRecord.t) :=
  match filterByCampaign (query "campaign_id") filter with
  | inl response => ret (response, [])
  | inr filter =>
      let filter := withWindow (timeParam (aliased query "from" "date_from")) (timeParam (aliased query "to" "date_to")) filter in
      do! r <- try (queried query_ (on_history (MessageHistory.ListMessages filter)));
      match r with
      | Err _ => ret (errorResponse 500 "failed to list messages", [])
      | Panic p => mres (Panic p)
      | Ok (messages, total) => ret (paginatedResponse total page pageSize, messages)
      end
  end.

Definition ListMessages (query : string -> string) : VM (Response.t * list MessageRecord.t) :=
  let '(page, pageSize, _) := paginationParams query in
  do! filter <- scyllaMessageFilterFromRequest query page pageSize;
  do! r <- filterByMSISDN (query "msisdn") page pageSize filter;
  match r with
  | inl response => ret (response, [])
  | inr filter => listFiltered query page pageSize filter
  end.

(** ** GetMessage *)

Record messageDetail := mkMessageDetail {
  md_message : MessageRecord.t; md_card : Card.t; md_campaign : option Campaign.t;
  md_raw : option string; md_secured : option string; md_por : option string
}.

(** A hex field is left out when there is no payload. *)
Definition payloadHex (payload : list Z) : option string :=
  if 0 <? zlen payload then Some (Encode payload) else None.

(** The campaign of a message; what cannot be loaded is left out. *)
Definition campaignOf (m : MessageRecord.t) : VM (option Campaign.t) :=
  match MessageRecord.CampaignID m with
  | None => ret None
  | Some id => dropped None (on_api (readApi (fun a => campaigns (cardsDb a) !! id)))
  end.

Definition GetMessage (id : string) : VM (Response.t * option messageDetail) :=
  withUUID parse id (fun msgID =>
  orFail "failed to get message" (queried query_ (on_history (MessageHistory.GetMessage msgID))) (fun o =>
  match o with
  | None => refuse 404 "message not found"
  | Some msg =>
      orFail "failed to get message card" (on_api (do! o <- readApi (fun a => cards (cardsDb a) !! MessageRecord.CardID msg); first o)) (fun card =>
      do! campaign <- campaignOf msg;
      answer [] (mkMessageDetail msg card campaign (payloadHex (MessageRecord.RawPayload msg))
                   (payloadHex (MessageRecord.SecuredPayload msg)) (payloadHex (MessageRecord.PORData msg))))
  end)).

(** ** GetErrorSummary *)

Record campaignErrorCount := mkErrorCount { ec_campaign : string; ec_name : string; ec_failed : Z }.

Definition moreFailures (a b : campaignErrorCount) : Prop := ec_failed b <= ec_failed a.

Class failuresOrder (byFailures : list campaignErrorCount -> list campaignErrorCount) : Prop := {
  failures_perm l : byFailures l ≡ₚ l;
  failures_sorted l : StronglySorted moreFailures (byFailures l)
}.

Record errorReport := mkErrorReport {
  er_status : list ErrorCount.t; er_dlr : list ErrorCount.t; er_por : list ErrorCount.t; er_campaigns : list campaignErrorCount
}.

Context (byFailures : list campaignErrorCount -> list campaignErrorCount).

(** The campaigns with failed cards, most failures first, twenty at most. *)
Definition campaignErrors (names : gmap string string) (statsByCampaign : gmap string CampaignStats.t) : list campaignErrorCount :=
  let failing := filter (fun e => ec_failed e <> 0)
    ((fun kv => mkErrorCount (fst kv) (default "" (names !! fst kv)) (CampaignStats.Failed (snd kv))) <$> map_to_list statsByCampaign) in
  take 20 (byFailures failing).

Definition summaryFor (campaignID : option string) : VM (Response.t * option errorReport) :=
  let text := "failed to get error summary" in
  do! now_ <- now;
  orFail text (queried query_ (on_history (errorSummary (now_ - oneDay) campaignID))) (fun '(statusCounts, dlrCounts, porCounts) =>
  orFail text (on_api (readApi (fun a => Campaign.Name <$> campaigns (cardsDb a)))) (fun all =>
  let names := match campaignID with None => all | Some id => filter (fun kv => fst kv = id) all end in
  orFail text (on_query (CampaignStatsBatch (fst <$> map_to_list names))) (fun statsByCampaign =>
  answer [] (mkErrorReport statusCounts dlrCounts porCounts (campaignErrors names statsByCampaign))))).

(** [since] is taken from the clock before the parameter is parsed. *)
Definition GetErrorSummary (query : string -> string) : VM (Response.t * option errorReport) :=
  if bool_decide (query "campaign_id" = "") then summaryFor None
  else match parse (query "campaign_id") with
       | None => do! _ <- now; refuse 400 "invalid campaign_id"
       | Some id => summaryFor (Some id)
       end.
End Monitoring.

(** ** Settings *)

Inductive setting := SStr (s : string) | SInt (z : Z) | SBool (b : bool) | SList (l : list string).
Abbreviation settings := (list (string * list (string * setting))).

Definition platformSettings : settings :=
  [("sms_gateway", [("type", SStr "smpp"); ("host", SStr ""); ("port", SInt 2775); ("enabled", SBool true)]);
   ("kafka", [("brokers", SList []); ("enabled", SBool true)]);
   ("ota", [("default_max_retries", SInt 3); ("default_max_concat_sms", SInt 7); ("default_buffer_size", SInt 180)])].

Definition GetSettings : VM (Response.t * option settings) := answer [] platformSettings.

(** [body] is the decoded object or the error of ShouldBindJSON. *)
Definition UpdateSettings {A} (body : goerr + A) : VM (Response.t * option A) :=
  match body with
  | inl e => refuse 400 (Error e)
  | inr new => answer [("message", VStr "settings updated")] new
  end.
