(* ===== verification/Debug.v ===== *)
(** * Debugging: api_debug.go

    GetDebugCard, GetDebugCampaign, GetDebugMessage, GetDebugQueues and GetDebugStuck, with ChannelDepths of
    pipeline/bus.go.  The tables do not carry campaigns.updated_at nor campaign_targets.created_at: the first is
    left out of the answers, [newest] is the order of the second.  Queries without ORDER BY are read in the order of the
    table. *)

From S2P Require Import Prelude Effects Models Pipeline Store HexUtil StateWriter Sql QueryStore Executor CampaignControl ControlScenario BatchPreload CardKeyStore MessageHistory Api Search Cards CardGroups Profiles Assets ApiScenario Lists Views.

(** ** pipeline/bus.go: ChannelDepths *)

(** What is queued in the channels of the bus. *)
Record Channels := mkChannels {
  ch_Activate : list effect; ch_SendSMS : list effect; ch_DLR : list effect;
  ch_MO : list effect; ch_MessageLog : list effect; ch_CardState : list effect
}.

Definition ChannelDepths (b : Channels) : list (string * Z) :=
  [("activate", zlen (ch_Activate b)); ("send_sms", zlen (ch_SendSMS b)); ("dlr", zlen (ch_DLR b));
   ("mo", zlen (ch_MO b)); ("message_log", zlen (ch_MessageLog b)); ("card_state", zlen (ch_CardState b))].

(** ** Shards by campaign and status *)

Definition shardsOf (a : Api) : list CampaignShard.t := cp_shards (ap_ctl a).

Definition inGroup (k : string * string) (s : CampaignShard.t) : Prop := (CampaignShard.CampaignID s, CampaignShard.Status s) = k.
#[global] Instance inGroup_dec k s : Decision (inGroup k s).
Proof. unfold inGroup. apply _. Defined.

(** MIN of a column over the rows of a group. *)
Definition minimum (l : list Z) : option Z :=
  match l with [] => None | x :: l => Some (foldl Z.min x l) end.

Record shardRow := mkShardRow { sr_campaign : string; sr_status : string; sr_count : Z; sr_oldest : option Z }.

(** [SELECT campaign_id, status, COUNT( * ), MIN(created_at) ... GROUP BY campaign_id, status] *)
Definition groupShards (l : list CampaignShard.t) : list shardRow :=
  (fun k => let rows := filter (inGroup k) l in
            mkShardRow (fst k) (snd k) (zlen rows) (minimum (CampaignShard.CreatedAt <$> rows)))
    <$> remove_dups ((fun s => (CampaignShard.CampaignID s, CampaignShard.Status s)) <$> l).

(** The loop that fills [shards]. *)
Definition byStatus (rows : list shardRow) : gmap string (Z * option Z) :=
  foldl (fun m r => <[sr_status r := (sr_count r, sr_oldest r)]> m) ∅ rows.

(** The loop that fills [shardsByCampaign]; a campaign without an entry has the nil map. *)
Definition byCampaign (rows : list shardRow) : gmap string (gmap string (Z * option Z)) :=
  foldl (fun m r => <[sr_campaign r := <[sr_status r := (sr_count r, sr_oldest r)]> (default ∅ (m !! sr_campaign r))]> m) ∅ rows.

(** ** Stale work *)

Definition fiveMinutes : Z := 5 * 60 * 1000000000.

(** Every card of the campaign has reached an end. *)
Definition finished (s : CampaignStats.t) : bool :=
  (0 <? CampaignStats.Total s) && (CampaignStats.Pending s =? 0) && (CampaignStats.InProgress s =? 0) &&
  (CampaignStats.Completed s + CampaignStats.Failed s + CampaignStats.Skipped s =? CampaignStats.Total s).

Definition olderBy (col : CampaignShard.t -> Z) (a b : CampaignShard.t) : Prop := col a <= col b.
#[global] Instance olderBy_dec col a b : Decision (olderBy col a b).
Proof. unfold olderBy. apply _. Defined.

(** [WHERE status = ? AND col < ? ORDER BY col ASC LIMIT 100] *)
Definition staleShards (status : string) (col : CampaignShard.t -> Z) (cutoff : Z) (a : Api) : list CampaignShard.t :=
  take 100 (merge_sort (olderBy col)
    (filter (fun s => CampaignShard.Status s = status /\ col s < cutoff) (shardsOf a))).

Section Debug.
Context (parse : string -> option string) (newest : forall {A}, list A -> list A).
Arguments newest {_} _.
Context (counterRead query_ : bool) (channelStats : option Channels).

(** ** GetDebugCard *)

Record debugCard := mkDebugCard {
  dc_card : Card.t; dc_counters : list CardCounterRecord.t; dc_state : option CardStateRecord.t;
  dc_messages : list MessageRecord.t; dc_targets : list CampaignTarget.t
}.

Definition GetDebugCard (id : string) : VM (Response.t * option debugCard) :=
  withUUID parse id (fun cardID =>
  orMissing "card not found" "failed to load card"
    (on_api (do! o <- readApi (fun a => cards (cardsDb a) !! cardID); do! card <- first o; do! _ <- preload [card]; ret card)) (fun card =>
  orFail "failed to load card counters" (if counterRead then on_counters (GetCountersByCard parse cardID) else ret []) (fun counters =>
  orFail "failed to load card state" (queried query_ (on_query (QueryStore_GetCardState cardID))) (fun state =>
  orFail "failed to load card messages" (queried query_ (on_history (ListCardMessages cardID 50))) (fun messages =>
  orFail "failed to load card targets"
    (on_api (readApi (fun a => take 20 (newest (filter (fun t => CampaignTarget.CardID t = cardID) (cp_targets (ap_ctl a))))))) (fun targets =>
  answer [] (mkDebugCard card counters state messages targets))))))).

(** ** GetDebugCampaign *)

Record debugCampaign := mkDebugCampaign {
  dg_campaign : Campaign.t; dg_commands : list CampaignCommand.t; dg_stats : CampaignStats.t; dg_targets : Z;
  dg_shards : gmap string Z; dg_sample : list CampaignCardView.t; dg_failed : list string
}.

(** [Preload("CampaignCommands").First(&campaign, "id = ?", campaignID)] *)
Definition campaignWithCommands (campaignID : string) : AM (Campaign.t * list CampaignCommand.t) :=
  do! o <- readApi (fun a => campaigns (cardsDb a) !! campaignID);
  do! campaign <- first o;
  do! cmds <- readApi (fun a => filter (fun c => CampaignCommand.CampaignID c = campaignID) (campaign_commands (cardsDb a)));
  ret (campaign, cmds).

Definition GetDebugCampaign (id : string) : VM (Response.t * option debugCampaign) :=
  withUUID parse id (fun campaignID =>
  orMissing "campaign not found" "failed to load campaign" (on_api (campaignWithCommands campaignID)) (fun '(campaign, cmds) =>
  orFail "failed to load campaign stats" (queried query_ (on_query (QueryStore_CampaignStats campaignID))) (fun stats =>
  orFail "failed to load campaign cards" (queried query_ (on_query (ListCampaignCards campaignID ""))) (fun cards =>
  orFail "failed to load failed cards" (queried query_ (on_query (ListFailedCardIDs campaignID))) (fun failedCardIDs =>
  orFail "failed to load shard summary"
    (on_api (readApi (fun a => groupShards (filter (fun s => CampaignShard.CampaignID s = campaignID) (shardsOf a))))) (fun shardRows =>
  orFail "failed to load target count"
    (on_api (readApi (fun a => zlen (filter (fun t => CampaignTarget.CampaignID t = campaignID) (cp_targets (ap_ctl a)))))) (fun targetCount =>
  answer [] (mkDebugCampaign campaign cmds stats targetCount (fst <$> byStatus shardRows) (take 50 cards) failedCardIDs)))))))).

(** ** GetDebugMessage *)

Definition GetDebugMessage (id : string) : VM (Response.t * option (MessageRecord.t * list MessageRecord.t)) :=
  withUUID parse id (fun msgID =>
  orFail "failed to load message" (queried query_ (on_history (MessageHistory.GetMessage msgID))) (fun o =>
  match o with
  | None => refuse 404 "message not found"
  | Some msg =>
      orFail "failed to load message chain" (queried query_ (on_history (ListCardMessages (MessageRecord.CardID msg) 50))) (fun messages =>
      answer [] (msg, messages))
  end)).

(** ** GetDebugQueues *)

Record queueItem := mkQueueItem { qi_campaign : Campaign.t; qi_stats : CampaignStats.t; qi_shards : gmap string (Z * option Z) }.

Definition queueItemOf (statsByCampaign : gmap string CampaignStats.t) (shards : gmap string (gmap string (Z * option Z)))
    (campaign : Campaign.t) : queueItem :=
  mkQueueItem campaign (default CampaignStats.zero (statsByCampaign !! Campaign.ID campaign))
    (default ∅ (shards !! Campaign.ID campaign)).

Definition GetDebugQueues : VM (Response.t * option (list queueItem * option (list (string * Z)))) :=
  orFail "failed to load campaigns" (on_api (readApi (fun a => snd <$> map_to_list (campaigns (cardsDb a))))) (fun campaigns =>
  orFail "failed to load campaign stats" (queried query_ (on_query (CampaignStatsBatch (Campaign.ID <$> campaigns)))) (fun statsByCampaign =>
  orFail "failed to load shard queues" (on_api (readApi (fun a => groupShards (shardsOf a)))) (fun shardRows =>
  answer [] (queueItemOf statsByCampaign (byCampaign shardRows) <$> campaigns, ChannelDepths <$> channelStats)))).

(** ** GetDebugStuck *)

Record stuck := mkStuck {
  sk_running : list (Campaign.t * CampaignStats.t); sk_publishing : list CampaignShard.t; sk_pending : list CampaignShard.t
}.

Definition staleRunning (statsByCampaign : gmap string CampaignStats.t) (running : list Campaign.t) : list (Campaign.t * CampaignStats.t) :=
  filter (fun p => finished (snd p) = true)
    ((fun c => (c, default CampaignStats.zero (statsByCampaign !! Campaign.ID c))) <$> running).

Definition GetDebugStuck : VM (Response.t * option stuck) :=
  do! now_ <- now;
  let cutoff := now_ - fiveMinutes in
  orFail "failed to load running campaigns"
    (on_api (readApi (fun a => filter (fun c => Campaign.Status c = "running") (snd <$> map_to_list (campaigns (cardsDb a)))))) (fun running =>
  orFail "failed to load running campaign stats" (queried query_ (on_query (CampaignStatsBatch (Campaign.ID <$> running)))) (fun statsByCampaign =>
  orFail "failed to load stale publishing shards"
    (on_api (readApi (staleShards "publishing" CampaignShard.UpdatedAt cutoff))) (fun stalePublishing =>
  orFail "failed to load stale pending shards"
    (on_api (readApi (staleShards "pending" CampaignShard.CreatedAt cutoff))) (fun stalePending =>
  answer [] (mkStuck (staleRunning statsByCampaign running) stalePublishing stalePending))))).
End Debug.
