(* ===== verification/Integrity.v ===== *)
(** * Integrity of the control plane's tables

    The handlers of the HTTP API share the tables of the database.  [integrity]
    collects what the rest of the system relies on -- keys and unique columns,
    references between tables, every campaign has a command -- and the theorem
    is that no sequence of requests, whatever the environment answers, breaks
    it.  [holds] is the invariant calculus: a computation that is entered with the
    invariant leaves it intact, also when it returns early or panics. *)

From S2P Require Import Prelude Effects Models Pipeline Store HexUtil StateWriter Sql QueryStore Executor CampaignControl CardKeyStore Api Cards CardGroups Profiles Assets.

(** ** The invariant *)

Definition targetKey (t : CampaignTarget.t) : string * string := (CampaignTarget.CampaignID t, CampaignTarget.CardID t).

(** The CAP file and the script of a campaign exist. *)
Definition refersTo (t : Tables) (capFileID scriptID : option string) : Prop :=
  (forall id, capFileID = Some id -> is_Some (tb_caps t !! id)) /\ (forall id, scriptID = Some id -> is_Some (tb_scripts t !! id)).

#[global] Instance refersTo_dec t capFileID scriptID : Decision (refersTo t capFileID scriptID).
Proof. unfold refersTo. apply _. Defined.

(** A command carries the application it refers to. *)
Record sound (t : Tables) : Prop := {
  it_cards : map_Forall (fun id c => Card.ID c = id /\ Card.Status c ∈ cardStatuses /\ profileKnown (tb_db t) c) (cards (tb_db t));
  it_identity : forall i j a b, cards (tb_db t) !! i = Some a -> cards (tb_db t) !! j = Some b -> sameIdentity a b -> i = j;
  it_campaigns : map_Forall (fun id c => Campaign.ID c = id) (campaigns (tb_db t));
  it_commands : NoDup (commandKey <$> campaign_commands (tb_db t));
  it_commands_ref : Forall (fun cmd => is_Some (campaigns (tb_db t) !! CampaignCommand.CampaignID cmd) /\
                              tb_apps t !! CampaignCommand.ApplicationID cmd = Some (CampaignCommand.Application cmd)) (campaign_commands (tb_db t));
  it_targets : NoDup (targetKey <$> tb_targets t);
  it_targets_ref : Forall (fun g => is_Some (campaigns (tb_db t) !! CampaignTarget.CampaignID g) /\
                              is_Some (cards (tb_db t) !! CampaignTarget.CardID g)) (tb_targets t);
  it_shards : shardsUnique (tb_shards t);
  it_groups : map_Forall (fun id g => CardGroup.ID g = id) (tb_groups t);
  it_names : forall i j a b, tb_groups t !! i = Some a -> tb_groups t !! j = Some b -> CardGroup.Name a = CardGroup.Name b -> i = j;
  it_members : NoDup (tb_members t);
  it_members_ref : Forall (fun m => is_Some (tb_groups t !! fst m) /\ is_Some (cards (tb_db t) !! snd m)) (tb_members t);
  it_profiles : map_Forall (fun id p => Profile.ID p = id) (profiles_tbl (tb_db t));
  it_profile_names : forall i j a b, profiles_tbl (tb_db t) !! i = Some a -> profiles_tbl (tb_db t) !! j = Some b ->
                       Profile.Name a = Profile.Name b -> i = j;
  it_apps : map_Forall (fun id x => Application.ID x = id /\ is_Some (profiles_tbl (tb_db t) !! Application.ProfileID x) /\
                          zlen (Application.TAR x) = 3) (tb_apps t);
  it_tars : forall i j x y, tb_apps t !! i = Some x -> tb_apps t !! j = Some y -> sameTAR x y -> i = j;
  it_assets : map_Forall (fun _ c => refersTo t (Campaign.CAPFileID c) (Campaign.ScriptID c)) (campaigns (tb_db t));
  it_scripts : map_Forall (fun id x => Script.ID x = id /\ Script.CommandCount x = countCommands (Script.Commands x)) (tb_scripts t);
  it_caps : map_Forall (fun id x => CAPFile.ID x = id /\ CAPFile.FileSize x = zlen (CAPFile.FileData x) /\ CAPFile.FileSize x <= maxCAPSize) (tb_caps t)
}.

(** Every campaign has a command to run. *)
Definition commanded (d : Database) : Prop :=
  forall id, is_Some (campaigns d !! id) -> exists cmd, cmd ∈ campaign_commands d /\ CampaignCommand.CampaignID cmd = id.

Definition integrity (t : Tables) : Prop := sound t /\ commanded (tb_db t).

(** ** Invariants of computations *)

Definition holds {S A} (P : S -> Prop) (m : M S A) : Prop := forall s, P s -> P (snd (m s)).

Section Holds.
Context {S : Type} (P : S -> Prop).

Lemma holds_ret {A} (a : A) : holds P (ret a).
Proof. by intros s. Qed.
Lemma holds_err {A} e : holds P (merr e : M S A).
Proof. by intros s. Qed.
Lemma holds_res {A} (r : res A) : holds P (mres r).
Proof. by intros s. Qed.
Lemma holds_gets {A} (f : S -> A) : holds P (gets f).
Proof. by intros s. Qed.
Lemma holds_first {A} (o : option A) : holds P (first o).
Proof. intros s. by destruct o. Qed.
Lemma holds_modify f : (forall s, P s -> P (f s)) -> holds P (modify f).
Proof. intros H s. apply H. Qed.
Lemma holds_bind {A B} (m : M S A) (k : A -> M S B) : holds P m -> (forall a, holds P (k a)) -> holds P (bindM m k).
Proof.
  intros Hm Hk s Hs. unfold bindM. specialize (Hm s Hs). destruct (m s) as [[a|e|p] s1]; [by apply Hk | done | done].
Qed.
Lemma holds_wrap {A} fmt (m : M S A) : holds P m -> holds P (mwrap fmt m).
Proof. intros Hm s Hs. unfold mwrap. specialize (Hm s Hs). by destruct (m s). Qed.
Lemma holds_try {A} (m : M S A) : holds P m -> holds P (try m).
Proof. intros Hm s Hs. unfold try. specialize (Hm s Hs). by destruct (m s) as [[] ]. Qed.
Lemma holds_ignore {A} (m : M S A) : holds P m -> holds P (ignore m).
Proof. intros Hm. apply holds_bind; [by apply holds_try | intros; apply holds_ret]. Qed.
Lemma holds_when b (m : M S unit) : holds P m -> holds P (mwhen b m).
Proof. intros Hm. destruct b; [done | apply holds_ret]. Qed.
End Holds.

(** Changes of the database that no reference or unique column sees. *)
Definition campaignRefs (c : Campaign.t) := (Campaign.ID c, Campaign.CAPFileID c, Campaign.ScriptID c).
Definition sameRefs (d d' : Database) : Prop :=
  cards d' = cards d /\ profiles_tbl d' = profiles_tbl d /\ campaign_commands d' = campaign_commands d /\
  forall id, campaignRefs <$> campaigns d' !! id = campaignRefs <$> campaigns d !! id.
#[export] Instance sameRefs_refl : Reflexive sameRefs.
Proof. by repeat split. Qed.

Lemma sameRefs_known d d' id : sameRefs d d' -> is_Some (campaigns d' !! id) <-> is_Some (campaigns d !! id).
Proof. intros (_ & _ & _ & H). by rewrite <- (fmap_is_Some campaignRefs), H, fmap_is_Some. Qed.

Lemma sameRefs_alter f c d : (forall x, campaignRefs (f x) = campaignRefs x) -> sameRefs d (set_campaigns (alter f c) d).
Proof.
  intros Hf. repeat split. intros id. cbn. destruct (decide (id = c)) as [->|Hne]; [|by rewrite lookup_alter_ne].
  rewrite lookup_alter_eq. destruct (campaigns d !! c); cbn; [by rewrite Hf | done].
Qed.

Class Respects {S} `{!HasSys S} (P : S -> Prop) : Prop :=
  respects s y : sameRefs (db (sys s)) (db y) -> P s -> P (set_sys y s).
Class RollsBack {S} `{!Transactional S} (P : S -> Prop) : Prop :=
  rolls_back s s' : P s -> P (restore (snapshot s) s').

Section Statements.
Context {S : Type} `{!HasSys S} (P : S -> Prop) `{!Respects P}.

Lemma holds_ask {A} (f : Sys -> nat -> A) : holds P (ask f : M S A).
Proof. intros s Hs. by apply respects. Qed.
Lemma holds_query {A} (f : Database -> A) : holds P (query f : M S A).
Proof. apply holds_bind; [apply holds_ask|]. intros [] s; done. Qed.
Lemma holds_exec f : (forall d, sameRefs d (f d)) -> holds P (exec f : M S unit).
Proof.
  intros Hf. apply holds_bind; [apply holds_ask|]. intros [e|]; [apply holds_err|]. apply holds_modify. intros s Hs.
  apply respects; [apply Hf | done].
Qed.
Lemma holds_insertRows rows : holds P (insertRows rows : M S Z).
Proof.
  apply holds_bind; [apply holds_query|]. intros t. destruct (bool_decide _); [|apply holds_err].
  apply holds_bind; [|intros; apply holds_ret]. apply holds_modify. intros s Hs. by apply respects.
Qed.
End Statements.

Lemma holds_transaction {S A} `{!Transactional S} (P : S -> Prop) `{!Respects P, !RollsBack P} (body : M S A) :
  holds P body -> holds P (transaction body).
Proof.
  intros Hb. apply holds_bind; [by apply holds_ask|]. intros [e|]; [apply holds_err|].
  intros s Hs. unfold bindM, gets. specialize (Hb s Hs). destruct (body s) as [[a|e|p] s1]; cbn [finish snd] in *;
    unfold bindM, ask, modify, mres, merr, ret; [|by apply rolls_back..].
  destruct (sys_fault _ _); cbn [snd]; [by apply rolls_back | by apply respects].
Qed.

(** It is enough that a body that returns normally leaves the invariant. *)
Lemma holds_commit {S A} `{!Transactional S} (P : S -> Prop) `{!Respects P, !RollsBack P} (body : M S A) :
  (forall s a s', P s -> body s = (Ok a, s') -> P s') -> holds P (transaction body).
Proof.
  intros Hb. apply holds_bind; [by apply holds_ask|]. intros [e|]; [apply holds_err|].
  intros s Hs. unfold bindM, gets. destruct (body s) as [[a|e|p] s1] eqn:E; cbn [finish snd] in *;
    unfold bindM, ask, modify, mres, merr, ret; [|by apply rolls_back..].
  destruct (sys_fault _ _); cbn [snd]; [by apply rolls_back | apply respects; [done | by eapply Hb]].
Qed.

(** Go through a computation statement by statement. *)
Create HintDb holds.
#[export] Hint Resolve holds_ret holds_err holds_res holds_gets holds_first holds_ask holds_query holds_insertRows : holds.
Ltac holds_step :=
  match goal with
  | |- holds _ (bindM _ _) => apply holds_bind; [|intros ?]
  | |- holds _ (mwrap _ _) => apply holds_wrap
  | |- holds _ (try _) => apply holds_try
  | |- holds _ (ignore _) => apply holds_ignore
  | |- holds _ (mwhen _ _) => apply holds_when
  | |- holds _ (transaction _) => first [solve [auto with nocore] | apply holds_transaction; [apply _..|]]
  | |- holds _ (exec _) => apply holds_exec; [apply _ | intros ?; first [by repeat split | by apply sameRefs_alter]]
  | |- holds _ (match ?x with _ => _ end) => destruct x
  | |- holds _ (now) => apply holds_ask; apply _
  | |- holds _ (newUUID) => apply holds_ask; apply _
  | _ => solve [eauto with holds typeclass_instances]
  end.
Ltac holds_auto := repeat holds_step.

(** ** The invariant at the levels of the state *)

Definition with_db (d : Database) (t : Tables) : Tables :=
  mkTables d (tb_shards t) (tb_targets t) (tb_apps t) (tb_groups t) (tb_members t) (tb_scripts t) (tb_caps t).

Lemma integrity_refs d t : sameRefs (tb_db t) d -> integrity t -> integrity (with_db d t).
Proof.
  intros Hd [[H1 H2 H3 H5 H6 H7 H8 H9 H10 H11 H12 H13 H14 H15 H16 H17 H18 H19 H20] H4].
  assert (Hcamp : forall id, is_Some (campaigns d !! id) <-> is_Some (campaigns (tb_db t) !! id)) by (intros; by apply sameRefs_known).
  destruct Hd as (Hc & Hp & Hm & Hid). split; [split; cbn; rewrite ?Hc, ?Hm; try done|].
  - intros id c Hl. destruct (H1 id c Hl) as (? & ? & ?). split_and!; [done..|]. unfold profileKnown. by rewrite Hp.
  - intros id c Hl. pose proof (Hid id) as E. rewrite Hl in E. destruct (campaigns (tb_db t) !! id) as [c'|] eqn:E'; [|done].
    cbn in E. injection E as -> _ _. by apply H3.
  - eapply Forall_impl; [exact H6|]. intros cmd [? ?]. by rewrite Hcamp.
  - eapply Forall_impl; [exact H8|]. intros g [? ?]. by rewrite Hcamp.
  - by rewrite Hp.
  - by rewrite Hp.
  - by rewrite Hp.
  - intros id c Hl. pose proof (Hid id) as E. rewrite Hl in E. destruct (campaigns (tb_db t) !! id) as [c'|] eqn:E'; [|done].
    cbn in E. injection E as _ -> ->. exact (H18 id c' E').
  - intros id. cbn. rewrite Hcamp, Hm. apply H4.
Qed.

Definition api_ok (a : Api) : Prop := integrity (tablesOf a).

(** The same at a state that shows the database only, and at the campaign service. *)
Definition db_ok (t : Tables) {S} `{!HasSys S} (s : S) : Prop := integrity (with_db (db (sys s)) t).
Definition with_ctl (s : Control) (t : Tables) : Tables :=
  mkTables (db (cp_sys s)) (cp_shards s) (cp_targets s) (tb_apps t) (tb_groups t) (tb_members t) (tb_scripts t) (tb_caps t).
Definition ctl_ok (t : Tables) (s : Control) : Prop := integrity (with_ctl s t).

#[export] Instance api_respects : Respects api_ok.
Proof. intros a y Hr H. exact (integrity_refs (db y) (tablesOf a) Hr H). Qed.
#[export] Instance api_rolls_back : RollsBack api_ok.
Proof. intros a a' H. exact H. Qed.
#[export] Instance ctl_respects t : Respects (ctl_ok t).
Proof. intros s y Hr H. exact (integrity_refs (db y) (with_ctl s t) Hr H). Qed.
#[export] Instance ctl_rolls_back t : RollsBack (ctl_ok t).
Proof. intros s s' H. exact H. Qed.
#[export] Instance db_respects_sys t : Respects (db_ok t : Sys -> Prop).
Proof. intros s y Hr H. exact (integrity_refs (db y) (with_db _ t) Hr H). Qed.
#[export] Instance db_respects_pair t {X} : Respects (db_ok t : Sys * X -> Prop).
Proof. intros s y Hr H. exact (integrity_refs (db y) (with_db _ t) Hr H). Qed.
#[export] Instance db_rolls_back t : RollsBack (db_ok t : Sys -> Prop).
Proof. intros s s' H. exact H. Qed.

Lemma holds_on_sys t {A} (m : M Sys A) :
  (forall t, holds (db_ok t) m) -> holds (ctl_ok t) (on_sys m).
Proof.
  intros Hm s Hs. unfold on_sys. specialize (Hm (with_ctl s t) (cp_sys s) Hs).
  by destruct (m (cp_sys s)).
Qed.

Lemma holds_on_store t {A} (m : M (Sys * Coordination.t) A) :
  (forall t, holds (db_ok t) m) -> holds (ctl_ok t) (on_store m).
Proof.
  intros Hm s Hs. unfold on_store.
  specialize (Hm (with_ctl s t) (cp_sys s, cp_store s) Hs).
  by destruct (m (cp_sys s, cp_store s)) as [r [y st]].
Qed.

Lemma holds_on_ctl {A} (m : C A) :
  (forall t, holds (ctl_ok t) m) -> holds api_ok (on_ctl m).
Proof.
  intros Hm a Ha. unfold on_ctl. specialize (Hm (tablesOf a) (ap_ctl a) Ha).
  by destruct (m (ap_ctl a)).
Qed.

(** ** The stores *)

Section Stores.
Context (t : Tables).

Lemma holds_initialize c cs step at_ : holds (db_ok t) (InitializeCampaign c cs step at_).
Proof.
  unfold InitializeCampaign, initializeTx. destruct cs as [|x cs]; holds_auto.
  generalize (chunks initBatchSize (x :: cs)). intros pieces. induction pieces; cbn [insertInitial]; holds_auto.
Qed.
Lemma holds_reset c cs step at_ : holds (db_ok t) (ResetFailedCards c cs step at_).
Proof. unfold ResetFailedCards, resetTx. holds_auto. Qed.
Lemma holds_abort c at_ : holds (db_ok t) (QueryStore_AbortCampaign c at_).
Proof. unfold QueryStore_AbortCampaign, abortTx. holds_auto. Qed.
Lemma holds_listCards c f : holds (db_ok t) (ListCampaignCards c f).
Proof. unfold ListCampaignCards. holds_auto. Qed.
Lemma holds_listFailed c : holds (db_ok t) (ListFailedCardIDs c).
Proof. unfold ListFailedCardIDs. holds_auto. Qed.
Lemma holds_stats c : holds (db_ok t) (QueryStore_CampaignStats c).
Proof. unfold QueryStore_CampaignStats. holds_auto. Qed.
Lemma holds_setStatus c st : holds (db_ok t) (Coordination.SetCampaignStatus c st).
Proof. unfold Coordination.SetCampaignStatus, Coordination.storeStatus, Coordination.upd. holds_auto. by apply holds_modify. Qed.
Lemma holds_cacheCommands c cmds : holds (db_ok t) (Coordination.CacheCampaignCommands c cmds).
Proof. by apply holds_modify. Qed.
End Stores.
#[export] Hint Resolve holds_initialize holds_reset holds_abort holds_listCards holds_listFailed holds_stats
  holds_setStatus holds_cacheCommands : holds.

(** ** The campaign service *)

Section Service.
Context (t : Tables).
Notation ok := (ctl_ok t).
Context (getenv : string -> string) (redis query_ wsHub : bool).

Lemma holds_readTable {A} (f : Control -> A) : holds ok (readTable f).
Proof. unfold readTable. holds_auto. Qed.
Hint Resolve holds_readTable : holds.

Lemma holds_newShards s table : ok s -> shardsUnique table -> ok (set_cp_shards table s).
Proof. intros [[] ?] Ht. split; [by split | done]. Qed.

Lemma holds_createShard sh : holds ok (createShard sh).
Proof.
  apply holds_bind; [eauto with holds typeclass_instances|]. intros [e|]; [apply holds_err|]. intros s Hs. unfold bindM, gets. case_bool_decide; [|done]. by apply holds_newShards.
Qed.

Lemma holds_createShards shs : holds ok (createShards shs).
Proof.
  apply holds_bind; [eauto with holds typeclass_instances|]. intros [e|]; [apply holds_err|]. intros s Hs. unfold bindM, gets. case_bool_decide; [|done]. by apply holds_newShards.
Qed.
Hint Resolve holds_createShard holds_createShards : holds.

Lemma holds_createInBatches pieces : holds ok (createInBatches pieces).
Proof. induction pieces; cbn [createInBatches]; holds_auto. Qed.

Lemma holds_forEach {A} c size (fn : list string -> A -> C A) acc :
  (forall b a, holds ok (fn b a)) -> holds ok (forEachCampaignTargetBatch getenv c size fn acc).
Proof.
  intros Hfn. unfold forEachCampaignTargetBatch. apply holds_bind; [apply holds_gets|]. intros fuel. generalize (@None string).
  revert acc. induction fuel as [|fuel IH]; intros acc l; cbn [targetLoop]; holds_auto.
Qed.

Lemma holds_activationEvents c step at_ l : holds ok (activationEvents c step at_ l).
Proof. induction l; cbn [activationEvents]; holds_auto. Qed.
Lemma holds_resumeEvents c step at_ l : holds ok (resumeEvents c step at_ l).
Proof. induction l; cbn [resumeEvents]; holds_auto. Qed.
Lemma holds_shardsFrom c q pieces : holds ok (shardsFrom c q pieces).
Proof. revert q. induction pieces; intros q; cbn [shardsFrom]; holds_auto. Qed.
Lemma holds_startBatch c step at_ b a : holds ok (startBatch c step at_ b a).
Proof. unfold startBatch. holds_auto. apply holds_activationEvents. Qed.
Hint Resolve holds_createInBatches holds_activationEvents holds_resumeEvents holds_shardsFrom holds_startBatch : holds.

Lemma holds_service {A} (m : M Sys A) : (forall t, holds (db_ok t) m) -> holds ok (on_sys m).
Proof. apply holds_on_sys. Qed.
Hint Resolve holds_service : holds.

Lemma holds_tellStatus c st : holds ok (tellStatus redis c st).
Proof. unfold tellStatus. holds_auto. apply holds_on_store. intros. apply holds_setStatus. Qed.
Lemma holds_cacheForWorkers c cmds : holds ok (cacheForWorkers redis c cmds).
Proof. unfold cacheForWorkers. holds_auto. apply holds_on_store. intros. apply holds_cacheCommands. Qed.
Lemma holds_tellHub c data : holds ok (tellHub wsHub c data).
Proof. unfold tellHub. holds_auto. by apply holds_modify. Qed.
Hint Resolve holds_tellStatus holds_cacheForWorkers holds_tellHub : holds.

Lemma holds_StartCampaign c : holds ok (StartCampaign getenv redis query_ wsHub c).
Proof.
  unfold StartCampaign, pendingShardCount, startTx. holds_auto.
  - apply holds_forEach. intros. unfold initializeBatch. holds_auto.
  - apply holds_forEach. eauto with holds.
Qed.

Lemma holds_PauseCampaign c : holds ok (PauseCampaign redis wsHub c).
Proof.
  unfold PauseCampaign, updateStatusWhere. holds_auto. apply holds_exec; [apply _|].
  intros d. apply sameRefs_alter. intros x. by destruct (bool_decide _).
Qed.

Lemma holds_ResumeCampaign c : holds ok (ResumeCampaign getenv redis query_ wsHub c).
Proof. unfold ResumeCampaign, resumeTx. holds_auto. Qed.

Lemma holds_AbortCampaign c : holds ok (AbortCampaign redis query_ wsHub c).
Proof. unfold AbortCampaign. holds_auto. Qed.
End Service.
#[export] Hint Resolve holds_StartCampaign holds_PauseCampaign holds_ResumeCampaign holds_AbortCampaign : holds.

Lemma insert_known {A} id (x : A) (m : gmap string A) j : is_Some (m !! j) -> is_Some (<[id := x]> m !! j).
Proof. rewrite lookup_insert_is_Some'. tauto. Qed.

(** ** Campaign handlers *)

Lemma holds_orElse {A} (P : Api -> Prop) (m : AM (Response.t + A)) k :
  holds P m -> (forall a, holds P (k a)) -> holds P (orElse m k).
Proof. intros Hm Hk. apply holds_bind; [done|]. intros [r|a]; [apply holds_ret | apply Hk]. Qed.

Lemma holds_readApi {A} (f : Api -> A) : holds api_ok (readApi f).
Proof. unfold readApi. holds_auto. Qed.
#[export] Hint Resolve holds_readApi holds_on_ctl holds_on_sys : holds.

Ltac api_step :=
  match goal with
  | |- holds _ (orElse _ _) => apply holds_orElse; [|intros ?]
  | _ => holds_step
  end.
Ltac api_auto := repeat api_step.

Lemma holds_apiStatement {A} (f : Api -> res A * Api) : (forall a, api_ok a -> api_ok (snd (f a))) -> holds api_ok (apiStatement f).
Proof. intros Hf. apply holds_bind; [apply holds_ask; apply _|]. intros [e|]; [apply holds_err | exact Hf]. Qed.

Section Campaigns.
Context (parse castUUID : string -> option string) (parseTime : string -> option Z).
Context (getenv : string -> string) (redis query_ wsHub : bool).

Lemma holds_queryRow {A} id (f : string -> Database -> A) : holds api_ok (queryRow castUUID id f).
Proof. unfold queryRow. api_auto. Qed.
Hint Resolve holds_queryRow : holds.

Lemma holds_API_StartCampaign id : holds api_ok (API_StartCampaign parse getenv redis query_ wsHub id).
Proof. unfold API_StartCampaign, withID. api_auto. Qed.
Lemma holds_API_PauseCampaign id : holds api_ok (API_PauseCampaign parse redis wsHub id).
Proof. unfold API_PauseCampaign, withID, report. api_auto. Qed.
Lemma holds_API_ResumeCampaign id : holds api_ok (API_ResumeCampaign parse getenv redis query_ wsHub id).
Proof. unfold API_ResumeCampaign, withID, report. api_auto. Qed.
Lemma holds_API_AbortCampaign id : holds api_ok (API_AbortCampaign parse redis query_ wsHub id).
Proof. unfold API_AbortCampaign, withID, report. api_auto. Qed.
Lemma holds_RetryFailedCards id : holds api_ok (RetryFailedCards parse query_ id).
Proof. unfold RetryFailedCards, withID, resetFailed. api_auto. Qed.

Lemma holds_getCached key st b : holds api_ok (getCachedCampaignStats parse query_ key st b).
Proof. unfold getCachedCampaignStats, loadCardList. api_auto. by apply holds_modify. Qed.
Hint Resolve holds_getCached : holds.

Lemma holds_GetCampaign id q : holds api_ok (GetCampaign parse castUUID query_ id q).
Proof. unfold GetCampaign, campaignDetail, readCardsOfPage. api_auto. Qed.

Lemma holds_lookupApp app msg : holds api_ok (lookupApp parse app msg).
Proof. unfold lookupApp. api_auto. Qed.
Lemma holds_commandsFor type req : holds api_ok (commandsFor parse type req).
Proof. unfold commandsFor. api_auto. apply holds_lookupApp. Qed.
Lemma holds_parseList l msg : holds api_ok (parseList parse l msg).
Proof. induction l; cbn [parseList]; api_auto. Qed.
Lemma holds_afterCreate start c n : holds api_ok (afterCreate getenv redis query_ wsHub start c n).
Proof. unfold afterCreate, reload. api_auto. Qed.

(** ** Creating a campaign

    Inside the transaction the new campaign has no command yet: [sound] is kept by
    every statement, and a committed transaction has created a command. *)

Definition api_sound (a : Api) : Prop := sound (tablesOf a).

Lemma sound_tick n a : api_sound a -> api_sound (set_ap_sys (set_tick n (cp_sys (ap_ctl a))) a).
Proof. done. Qed.

Lemma sound_ask {A} (f : Sys -> nat -> A) : holds api_sound (ask f).
Proof. by intros a Ha. Qed.
Lemma sound_query {A} (f : Database -> A) : holds api_sound (query f).
Proof. apply holds_bind; [apply sound_ask|]. intros [] a Ha; done. Qed.
Lemma sound_readApi {A} (f : Api -> A) : holds api_sound (readApi f).
Proof. apply holds_bind; [apply sound_ask|]. intros [] a Ha; done. Qed.

Lemma sound_createCampaignRow c : holds api_sound (createCampaignRow c).
Proof.
  unfold createCampaignRow. destruct (int4 _ && _ && _); [|apply holds_err].
  apply holds_bind; [apply sound_query|]. intros []; [apply holds_err|].
  intros a Ha. unfold bindM, gets. case_bool_decide as Hknown; [|done]. destruct Ha. split; cbn in *; try done.
  - by apply map_Forall_insert_2.
  - eapply Forall_impl; [done|]. cbn. intros ? [? ?]. split; [by apply insert_known | done].
  - eapply Forall_impl; [done|]. cbn. intros ? [? ?]. split; [by apply insert_known | done].
  - by apply map_Forall_insert_2.
Qed.

(** Rows for campaigns that exist. *)
Definition hasCampaign (id : string) (a : Api) : Prop := is_Some (campaigns (db (cp_sys (ap_ctl a))) !! id).

Lemma sound_createCommand id app script cmd :
  holds (fun a => api_sound a /\ hasCampaign id a) (createCommand id app script cmd).
Proof.
  unfold createCommand. intros a [Ha Hid]. unfold bindM, readApi, bindM, ask, gets.
  destruct (sys_fault _ _); [done|]. cbn. destruct (ap_apps a !! app) as [x|] eqn:Eapp; [|done].
  destruct (negb _); [done|]. case_bool_decide as Hkey; [done|]. cbn. split; [|done].
  destruct Ha. split; cbn in *; try done.
  - rewrite fmap_app. apply NoDup_app. split_and!; [done | | apply NoDup_singleton].
    intros k Hk ->%list_elem_of_singleton. done.
  - apply Forall_app. split; [done|]. apply Forall_singleton. cbn. by rewrite Eapp.
Qed.

Lemma sound_createCommands id cmds : holds (fun a => api_sound a /\ hasCampaign id a) (createCommands parse id cmds).
Proof.
  induction cmds as [|cmd cmds IH]; cbn [createCommands]; [apply holds_ret|].
  destruct (parse _); [|apply holds_err].
  apply holds_bind; [apply holds_res|]. intros script. apply holds_bind; [apply sound_createCommand | intros; apply IH].
Qed.

(** ON CONFLICT DO NOTHING keeps the primary key. *)
Lemma insertTargets_keys id l cs : NoDup (targetKey <$> l) -> NoDup (targetKey <$> insertTargets id cs l).
Proof.
  unfold insertTargets. revert l. induction cs as [|c cs IH]; intros l Hl; cbn; [done|]. apply IH.
  unfold insertTarget. case_bool_decide as Hk; [done|]. rewrite fmap_app. apply NoDup_app.
  split_and!; [done | | apply NoDup_singleton]. intros k Hk' ->%list_elem_of_singleton. done.
Qed.

Lemma insertTargets_elem id l cs g :
  g ∈ insertTargets id cs l <-> g ∈ l \/ exists c, g = CampaignTarget.mk id c /\ c ∈ cs.
Proof.
  clear parse castUUID parseTime getenv redis query_ wsHub.
  unfold insertTargets. revert l. induction cs as [|c cs IH]; intros l; cbn; [set_solver|]. rewrite IH.
  unfold insertTarget. case_bool_decide as Hk; [|set_solver].
  apply list_elem_of_fmap in Hk as (t & Hk & Ht). assert (t = CampaignTarget.mk id c) as ->.
  { destruct t. cbn in Hk. by simplify_eq. }
  set_solver.
Qed.

Definition known (a : Api) (c : string) : Prop := is_Some (cards (db (cp_sys (ap_ctl a))) !! c).

Lemma profileCards_known ps a c : c ∈ profileCards ps (db (cp_sys (ap_ctl a))) -> known a c.
Proof.
  unfold profileCards. intros ([id card] & -> & Hin)%list_elem_of_fmap. apply list_elem_of_filter in Hin as [_ Hin].
  apply elem_of_map_to_list in Hin. by exists card.
Qed.

Lemma groupCards_known g a c : c ∈ groupCards g a -> known a c.
Proof. unfold groupCards. intros (m & -> & Hin)%list_elem_of_fmap. by apply list_elem_of_filter in Hin as [[_ ?] _]. Qed.

Lemma sound_insertTargets id cs a :
  api_sound a -> hasCampaign id a -> (forall c, c ∈ cs -> known a c) ->
  api_sound (set_ap_ctl (set_cp_targets (insertTargets id cs (cp_targets (ap_ctl a))) (ap_ctl a)) a).
Proof.
  intros [] Hid Hcs. split; cbn in *; try done; [by apply insertTargets_keys|].
  apply Forall_forall. intros g [Hg|(c & -> & Hc)]%insertTargets_elem.
  - exact (proj1 (Forall_forall _ _) it_targets_ref0 g Hg).
  - split; [done | by apply Hcs].
Qed.

Lemma sound_selectTargets id select :
  (forall a c, c ∈ select a -> known a c) -> holds (fun a => api_sound a /\ hasCampaign id a) (selectTargets id select).
Proof.
  intros Hsel. apply holds_bind; [by intros a Ha|]. intros [e|]; [apply holds_err|]. apply holds_modify.
  intros a [Ha Hid]. split; [|done]. apply sound_insertTargets; eauto.
Qed.

Lemma sound_createTargets id pieces : holds (fun a => api_sound a /\ hasCampaign id a) (createTargets id pieces).
Proof.
  induction pieces as [|chunk pieces IH]; cbn [createTargets]; [apply holds_ret|].
  apply holds_bind; [|intros; apply IH]. apply holds_bind; [by intros a Ha|]. intros [e|]; [apply holds_err|].
  intros a [Ha Hid]. unfold bindM, gets. case_bool_decide as Hall; [|done]. split; [|done].
  apply sound_insertTargets; [done..|]. by apply Forall_forall.
Qed.

(** ** What a committed creation leaves *)

Abbreviation dbOf a := (db (cp_sys (ap_ctl a))).
Abbreviation targetsOf a := (cp_targets (ap_ctl a)).

(** A command row stores a command of the request. *)
Definition storesCommand (id : string) (cmd : CommandRequest) (row : CampaignCommand.t) : Prop :=
  CampaignCommand.CampaignID row = id /\ CampaignCommand.Sequence row = cr_Sequence cmd /\
  parse (cr_ApplicationID cmd) = Some (CampaignCommand.ApplicationID row) /\
  Decode (cr_Script cmd) = Ok (CampaignCommand.Script row) /\ CampaignCommand.ExpectResponse row = true.

(** Everything but the targets. *)
Definition offTargets (a : Api) :=
  (dbOf a, cp_store (ap_ctl a), cp_shards (ap_ctl a), cp_sent (ap_ctl a), ap_apps a, ap_groups a, ap_members a, ap_stats a).

Lemma createCommand_inv id app script cmd a a' :
  createCommand id app script cmd a = (Ok tt, a') ->
  exists row, CampaignCommand.CampaignID row = id /\ CampaignCommand.Sequence row = cr_Sequence cmd /\
    CampaignCommand.ApplicationID row = app /\ CampaignCommand.Script row = script /\ CampaignCommand.ExpectResponse row = true /\
    dbOf a' = set_campaign_commands (fun t => t ++ [row]) (dbOf a) /\
    targetsOf a' = targetsOf a /\ ap_members a' = ap_members a.
Proof.
  unfold createCommand, readApi, bindM, ask, gets. destruct (sys_fault _ _); [done|]. cbn.
  destruct (ap_apps a !! app) as [x|]; [|done]. destruct (negb _); [done|]. case_bool_decide; [done|].
  unfold modify. intros [= <-]. cbn.
  exists (CampaignCommand.mk id (cr_Sequence cmd) app script (gormDefault false true (cr_ExpectResponse cmd)) x).
  split_and!; [done..| |done|done|done]. cbn. by destruct (cr_ExpectResponse cmd).
Qed.

Lemma createCommands_inv id cmds a a' :
  createCommands parse id cmds a = (Ok tt, a') ->
  exists rows, Forall2 (storesCommand id) cmds rows /\
    dbOf a' = set_campaign_commands (fun t => t ++ rows) (dbOf a) /\
    targetsOf a' = targetsOf a /\ ap_members a' = ap_members a.
Proof.
  revert a. induction cmds as [|cmd cmds IH]; intros a; cbn [createCommands].
  - intros [= <-]. exists []. split_and!; [done| |done..]. unfold set_campaign_commands.
    rewrite app_nil_r. by destruct (dbOf a).
  - destruct (parse _) as [app|] eqn:Hp; [|done]. intros H.
    apply bind_inv in H as (script & a1 & H1 & H). destruct (Decode _) as [b| |] eqn:Hd; [|done..].
    injection H1 as <- <-. apply bind_inv in H as ([] & a1 & H1 & H).
    apply createCommand_inv in H1 as (row & E1 & E2 & E3 & E4 & E5 & Hdb & Ht & Hm).
    apply IH in H as (rows & Hrows & Hdb' & Ht' & Hm'). exists (row :: rows). split_and!; [|..|congruence|congruence].
    + constructor; [|done]. split_and!; [done | done | by rewrite Hp, E3 | by rewrite Hd, E4 | done].
    + rewrite Hdb', Hdb. unfold set_campaign_commands. cbn [campaign_commands]. by rewrite <- app_assoc.
Qed.

Lemma createTargets_inv id pieces a a' :
  createTargets id pieces a = (Ok tt, a') ->
  dbOf a' = dbOf a /\ ap_members a' = ap_members a /\ targetsOf a' = insertTargets id (concat pieces) (targetsOf a).
Proof.
  revert a. induction pieces as [|chunk pieces IH]; intros a; cbn [createTargets]; [by intros [= <-]|].
  intros H. apply bind_inv in H as ([] & a1 & H1 & H). apply IH in H as (Hdb & Hm & Ht).
  unfold createTargetRows, bindM, ask, gets in H1. destruct (sys_fault _ _); [done|]. case_bool_decide; [|done].
  injection H1 as <-. cbn in *. split_and!; [done..|]. rewrite Ht. unfold insertTargets.
  by rewrite fmap_app, foldl_app.
Qed.

Lemma selectTargets_inv id select a a' :
  selectTargets id select a = (Ok tt, a') ->
  dbOf a' = dbOf a /\ ap_members a' = ap_members a /\
  exists n, targetsOf a' = insertTargets id (select (set_ap_sys (set_tick n (cp_sys (ap_ctl a))) a)) (targetsOf a).
Proof.
  unfold selectTargets, bindM, ask. destruct (sys_fault _ _); [done|]. intros [= <-]. cbn. split_and!; [done..|]. by eexists.
Qed.
(** The cards a request asks for. *)
Definition wanted (a : Api) (cs profiles : list string) (group : option string) (c : string) : Prop :=
  c ∈ cs \/ (profiles <> [] /\ c ∈ profileCards profiles (dbOf a)) \/ (exists g, group = Some g /\ c ∈ groupCards g a).

Record creates (campaign : string -> Campaign.t) (cmds : list CommandRequest) (cs profiles : list string) (group : option string)
    (id : string) (n : Z) (a a' : Api) : Prop := {
  cr_new : campaigns (dbOf a) !! id = None;
  cr_campaigns : campaigns (dbOf a') = <[id := campaign id]> (campaigns (dbOf a));
  cr_commands : exists rows, Forall2 (storesCommand id) cmds rows /\ campaign_commands (dbOf a') = campaign_commands (dbOf a) ++ rows;
  cr_cards : cards (dbOf a') = cards (dbOf a);
  cr_targets : forall g, g ∈ targetsOf a' <-> g ∈ targetsOf a \/ exists c, g = CampaignTarget.mk id c /\ wanted a cs profiles group c;
  cr_count : n = zlen (filter (fun g => CampaignTarget.CampaignID g = id) (targetsOf a')) /\ 0 < n
}.

Lemma createCampaignRow_inv c a a' :
  createCampaignRow c a = (Ok tt, a') ->
  campaigns (dbOf a) !! Campaign.ID c = None /\ dbOf a' = set_campaigns <[Campaign.ID c := c]> (dbOf a) /\
  targetsOf a' = targetsOf a /\ ap_members a' = ap_members a.
Proof.
  unfold createCampaignRow. destruct (_ && _ && _); [|done]. unfold query, bindM, ask, gets.
  destruct (sys_fault _ _); [done|]. cbn. case_bool_decide as Hc; [done|]. case_bool_decide; [|done]. intros [= <-]. cbn.
  by apply eq_None_not_Some in Hc.
Qed.

Lemma profileCards_ext ps d d' : cards d' = cards d -> profileCards ps d' = profileCards ps d.
Proof. intros H. unfold profileCards. by rewrite H. Qed.
Lemma groupCards_ext g a a' : cards (dbOf a') = cards (dbOf a) -> ap_members a' = ap_members a -> groupCards g a' = groupCards g a.
Proof. intros Hc Hm. unfold groupCards. rewrite Hm. f_equal. apply filter_ext_in. intros m _. by rewrite Hc. Qed.

Lemma selectProfiles_inv id profiles d a a' :
  (match profiles with [] => ret tt | _ => selectTargets id (fun a => profileCards profiles (dbOf a)) end) a = (Ok tt, a') ->
  cards (dbOf a) = cards d ->
  dbOf a' = dbOf a /\ ap_members a' = ap_members a /\
  forall g, g ∈ targetsOf a' <-> g ∈ targetsOf a \/ exists c, g = CampaignTarget.mk id c /\ profiles <> [] /\ c ∈ profileCards profiles d.
Proof.
  clear parse castUUID parseTime getenv redis query_ wsHub.
  intros H Hc. destruct profiles as [|p ps]; [injection H as <-; set_solver|].
  apply selectTargets_inv in H as (? & ? & k & ->). split_and!; [done..|]. intros g. rewrite insertTargets_elem. cbn.
  setoid_rewrite (profileCards_ext _ _ (dbOf a) Hc). set_solver.
Qed.

Lemma selectGroup_inv id group a0 a a' :
  (match group with None => ret tt | Some g => selectTargets id (groupCards g) end) a = (Ok tt, a') ->
  cards (dbOf a) = cards (dbOf a0) -> ap_members a = ap_members a0 ->
  dbOf a' = dbOf a /\
  forall g, g ∈ targetsOf a' <-> g ∈ targetsOf a \/ exists c, g = CampaignTarget.mk id c /\ exists q, group = Some q /\ c ∈ groupCards q a0.
Proof.
  clear parse castUUID parseTime getenv redis query_ wsHub.
  intros H Hc Hm. destruct group as [q|]; [|injection H as <-; set_solver].
  apply selectTargets_inv in H as (? & ? & k & ->). split_and!; [done..|]. intros g. rewrite insertTargets_elem.
  rewrite (groupCards_ext q a0) by done. set_solver.
Qed.

Lemma createTx_inv campaign cmds cs profiles group a id n a' :
  (forall id, Campaign.ID (campaign id) = id) -> createTx parse campaign cmds cs profiles group a = (Ok (id, n), a') -> creates campaign cmds cs profiles group id n a a'.
Proof.
  clear castUUID parseTime getenv redis query_ wsHub.
  unfold createTx. intros Hid H. apply bind_inv in H as (x & a0 & H0 & H). injection H0 as <- <-.
  set (id' := sys_uuid _ _) in H. set (a0 := set_ap_sys _ a) in H.
  apply bind_inv in H as ([] & a1 & H1 & H). apply createCampaignRow_inv in H1 as (Hnew & Hdb1 & Ht1 & Hm1).
  rewrite Hid in Hnew, Hdb1.
  apply bind_inv in H as ([] & a2 & H2 & H). apply createCommands_inv in H2 as (rows & Hrows & Hdb2 & Ht2 & Hm2).
  apply bind_inv in H as ([] & a3 & H3 & H). apply createTargets_inv in H3 as (Hdb3 & Hm3 & Ht3).
  rewrite concat_chunks in Ht3 by lia.
  assert (Hcards : cards (dbOf a3) = cards (dbOf a)) by (by rewrite Hdb3, Hdb2, Hdb1).
  apply bind_inv in H as ([] & a4 & H4 & H). apply (selectProfiles_inv _ _ (dbOf a)) in H4 as (Hdb4 & Hm4 & Ht4); [|done].
  apply bind_inv in H as ([] & a5 & H5 & H).
  apply (selectGroup_inv _ _ a) in H5 as (Hdb5 & Ht5); [| by rewrite Hdb4 | by rewrite Hm4, Hm3, Hm2, Hm1].
  unfold bindM, readApi, bindM, ask, gets in H. destruct (sys_fault _ _); [done|]. cbn in H.
  destruct (_ =? 0) eqn:E0; [done|]. injection H as <- <- <-.
  split; cbn; rewrite ?Hdb5, ?Hdb4, ?Hdb3, ?Hdb2, ?Hdb1; try done; [by exists rows| |].
  - intros g. rewrite Ht5, Ht4, Ht3, insertTargets_elem, Ht2, Ht1. unfold wanted. naive_solver.
  - split; [done|]. unfold zlen in *. lia.
Qed.

Lemma createTx_ok campaign cmds cs profiles group a id n a' :
  (forall id, Campaign.ID (campaign id) = id) -> cmds <> [] -> api_ok a -> createTx parse campaign cmds cs profiles group a = (Ok (id, n), a') -> api_ok a'.
Proof.
  clear castUUID parseTime getenv redis query_ wsHub.
  intros Hids Hne [Hs Hc] H. split.
  - assert (Hsound : holds api_sound (createTx parse campaign cmds cs profiles group)).
    { apply holds_bind; [by intros ? ?|]. intros id'. intros s0 Hs0. unfold bindM at 1.
      pose proof (sound_createCampaignRow (campaign id') s0 Hs0) as Hrow.
      destruct (createCampaignRow (campaign id') s0) as [[[]|e|p] s1] eqn:E; [|done..]. apply createCampaignRow_inv in E as (_ & Hdb & _).
      assert (Hid : hasCampaign id' s1) by (unfold hasCampaign; rewrite Hdb; cbn; by rewrite Hids, lookup_insert_eq).
      apply (holds_bind (fun a => api_sound a /\ hasCampaign id' a)) with (s := s1); [..|done]; [apply sound_createCommands|].
      intros _. apply holds_bind; [apply sound_createTargets|]. intros _.
      apply holds_bind; [destruct profiles; [apply holds_ret | apply sound_selectTargets; eauto using profileCards_known]|]. intros _.
      apply holds_bind; [destruct group; [apply sound_selectTargets; eauto using groupCards_known | apply holds_ret]|]. intros _.
      apply holds_bind; [apply holds_bind; [by intros ? ?|]; intros [] ? ?; done|]. intros k.
      destruct (k =? 0); [apply holds_err | apply holds_ret]. }
    specialize (Hsound a Hs). by rewrite H in Hsound.
  - apply createTx_inv in H as [? Hcamps (rows & Hrows & Hcmds) _ _ _]; [|done]. intros j. cbn. rewrite Hcamps, Hcmds.
    intros [<-|[_ Hj]]%lookup_insert_is_Some.
    + destruct Hrows as [|cmd row cmds' rows' Hrow]; [done|]. exists row. split; [set_solver | by destruct Hrow].
    + destruct (Hc j Hj) as (cmd & ? & ?). exists cmd. set_solver.
Qed.
Lemma commandsFor_some type req a cmds a' : commandsFor parse type req a = (Ok (inr cmds), a') -> cmds <> [].
Proof.
  unfold commandsFor. destruct (rq_Commands req); [|by intros [= <-]].
  destruct (bool_decide _); [done|]. intros H. apply bind_inv in H as ([r|[]] & a1 & _ & H); [done|]. by injection H as <-.
Qed.

(** Binding the commands remembers that there are some. *)
Lemma holds_commands type req (k : list CommandRequest -> AM Response.t) :
  (forall cmds, cmds <> [] -> holds api_ok (k cmds)) -> holds api_ok (orElse (commandsFor parse type req) k).
Proof.
  intros Hk a Ha. pose proof (holds_commandsFor type req a Ha) as H. unfold orElse, bindM.
  destruct (commandsFor parse type req a) as [[[r|cmds]|e|p] a1] eqn:E; [done| |done..].
  apply Hk; [by eapply commandsFor_some | done].
Qed.

Lemma holds_CreateCampaign body : holds api_ok (CreateCampaign parse parseTime getenv redis query_ wsHub body).
Proof.
  destruct body as [e|req]; cbn [CreateCampaign]; [apply holds_ret|].
  apply holds_orElse; [apply holds_ret|]. intros _. apply holds_orElse; [apply holds_ret|]. intros _.
  apply holds_commands. intros cmds Hcmds. unfold require, parseOptional, parseTargets.
  pose proof holds_parseList as Hl. pose proof holds_lookupApp as Happ. pose proof holds_afterCreate as Haft.
  assert (Htx : forall cap script cs ps g,
    holds api_ok (transaction (createTx parse (fun id => newCampaign id req cap script) cmds cs ps g))).
  { intros. apply holds_commit; [apply _..|]. intros s [id n] s' Hs. by apply createTx_ok. }
  api_auto.
Qed.
End Campaigns.
