(* ===== verification/ListProps.v ===== *)
(** * What listing and exporting promise

    The pages of a listing add up to it; an export is complete below one batch, and not
    beyond, because the batches go by the primary key and the rows by their age. *)

From S2P Require Import Prelude Effects Models Pipeline Store HexUtil StateWriter StateWriterProps Sql QueryStore Executor CampaignControl ControlScenario CardKeyStore Api Search Cards CardGroups Profiles Assets ApiScenario Lists Integrity.

Section ListProps.
Context (castUUID : string -> option string) (fold : string -> string).
Context (newest : forall A, list A -> list A).

(** No statement of the run fails. *)
Definition faultfree (a : Api) : Prop := forall n, sys_fault (cp_sys (ap_ctl a)) n = None.

Lemma readApi_run {A} (f : Api -> A) a :
  faultfree a -> exists n, readApi f a = (Ok (f (set_ap_sys (set_tick n (cp_sys (ap_ctl a))) a)), set_ap_sys (set_tick n (cp_sys (ap_ctl a))) a).
Proof. intros Hf. unfold readApi, bindM, ask. cbn. rewrite Hf. by eexists. Qed.

Lemma faultfree_tick n a : faultfree a -> faultfree (set_ap_sys (set_tick n (cp_sys (ap_ctl a))) a).
Proof. done. Qed.

Lemma preload_run {A} (rows : list A) a :
  faultfree a -> exists n, preload rows a = (Ok tt, set_ap_sys (set_tick n (cp_sys (ap_ctl a))) a).
Proof.
  intros Hf. destruct rows; [|by apply (readApi_run (fun _ => tt))]. exists (tick (cp_sys (ap_ctl a))).
  by destruct a as [[[] ? ? ? ?] ? ? ? ? ? ?].
Qed.

Lemma ListCards_run query q a :
  faultfree a -> cardQueryOf castUUID (query "q") query = Some q ->
  let '(page, pageSize, offset) := paginationParams query in
  exists a', ListCards castUUID fold newest query a =
    (Ok (paginatedResponse (zlen (selected fold newest q a)) page pageSize, pageOf offset pageSize (selected fold newest q a)), a').
Proof.
  intros Hf Hq. destruct (paginationParams query) as [[page pageSize] offset] eqn:Ep. unfold ListCards. rewrite Ep, Hq. cbn [runQuery].
  destruct (readApi_run (fun a => zlen (selected fold newest q a)) a Hf) as (n & H1).
  unfold bindM at 1, try at 1. rewrite H1. clear H1. set (a1 := set_ap_sys _ a).
  assert (Hf1 : faultfree a1) by (by apply faultfree_tick).
  change (selected fold newest q a1) with (selected fold newest q a).
  destruct (readApi_run (fun a => pageOf offset pageSize (selected fold newest q a)) a1 Hf1) as (m & H2).
  unfold bindM at 1, try at 1, bindM at 1. rewrite H2. clear H2. set (a2 := set_ap_sys _ a1).
  change (selected fold newest q a2) with (selected fold newest q a).
  destruct (preload_run (pageOf offset pageSize (selected fold newest q a)) a2) as (k & H3); [by apply faultfree_tick|].
  unfold bindM. rewrite H3. by eexists.
Qed.

End ListProps.

(** ** Exporting *)

(** gorm's FindInBatches: each query after the first asks for primary keys above the last one of
    the batch before, in the order of the query; a short batch is the last. *)
Definition beyond (last : option string) (c : Card.t) : Prop :=
  match last with None => True | Some id => id_lt id (Card.ID c) end.
#[global] Instance beyond_dec last c : Decision (beyond last c).
Proof. destruct last; apply _. Defined.

Fixpoint keysetBatches (fuel : nat) (n : nat) (rows : list Card.t) (last_ : option string) : list (list Card.t) :=
  match fuel with
  | O => []
  | S fuel =>
      let batch := take n (filter (beyond last_) rows) in
      match last batch with
      | None => []
      | Some c => batch :: if bool_decide (length batch < n)%nat then [] else keysetBatches fuel n rows (Some (Card.ID c))
      end
  end.

(** What the callback of ExportCards is given. *)
Class KeysetBatches (findInBatches : nat -> list Card.t -> list (list Card.t)) : Prop :=
  find_in_batches n rows : (0 < n)%nat -> findInBatches n rows = keysetBatches (S (length rows)) n rows None.

Lemma beyond_none (rows : list Card.t) : filter (beyond None) rows = rows.
Proof. by apply filter_all. Qed.

Lemma keyset_elem fuel n rows last_ batch c : batch ∈ keysetBatches fuel n rows last_ -> c ∈ batch -> c ∈ rows.
Proof.
  revert last_. induction fuel as [|fuel IH]; intros last_; cbn [keysetBatches]; [by intros ?%not_elem_of_nil|].
  destruct (last _) as [x|]; [|by intros ?%not_elem_of_nil]. intros [->|Hin]%elem_of_cons Hc.
  - eapply elem_of_take in Hc as (i & Hc & _). apply list_elem_of_lookup_2, list_elem_of_filter in Hc. by destruct Hc.
  - destruct (bool_decide _); [by apply not_elem_of_nil in Hin | by eapply IH].
Qed.

Lemma keyset_beyond fuel n rows last_ batch c :
  batch ∈ keysetBatches fuel n rows last_ -> c ∈ batch -> beyond last_ c.
Proof.
  revert last_. induction fuel as [|fuel IH]; intros last_; cbn [keysetBatches]; [by intros ?%not_elem_of_nil|].
  destruct (last _) as [x|] eqn:El; [|by intros ?%not_elem_of_nil].
  assert (Hfirst : forall y, y ∈ take n (filter (beyond last_) rows) -> beyond last_ y).
  { intros y Hy. eapply elem_of_take in Hy as (i & Hy & _). apply list_elem_of_lookup_2, list_elem_of_filter in Hy. by destruct Hy. }
  intros [->|Hin]%elem_of_cons Hc; [by apply Hfirst|].
  destruct (bool_decide _); [by apply not_elem_of_nil in Hin|]. specialize (IH _ Hin Hc). cbn in IH.
  assert (Hx : beyond last_ x) by (apply Hfirst; by apply last_Some_elem_of).
  destruct last_; [|done]. cbn in *. by eapply id_lt_trans.
Qed.

(** A batch that is not full is everything. *)
Lemma keyset_short n rows : (length rows < n)%nat -> concat (keysetBatches (S (length rows)) n rows None) = rows.
Proof.
  intros Hn. cbn [keysetBatches]. rewrite beyond_none, take_ge by lia. destruct (last rows) eqn:El; [|by apply last_None in El as ->].
  rewrite bool_decide_true by done. cbn. apply app_nil_r.
Qed.

Lemma keyset_long n rows c x :
  (0 < n)%nat -> rows !! (n - 1)%nat = Some x -> c ∉ take n rows -> id_lt (Card.ID c) (Card.ID x) ->
  forall batch, batch ∈ keysetBatches (S (length rows)) n rows None -> c ∉ batch.
Proof.
  intros Hn Hx Hc Hlt batch. cbn [keysetBatches]. rewrite beyond_none.
  assert (Hlen : length (take n rows) = n) by (rewrite length_take; apply lookup_lt_Some in Hx; lia).
  assert (Hlast : last (take n rows) = Some x).
  { rewrite last_lookup, Hlen, lookup_take_lt by lia. by rewrite <- Hx; f_equal; lia. }
  rewrite Hlast, bool_decide_false by lia. intros [->|Hin]%elem_of_cons; [done|]. intros Hcb.
  pose proof (keyset_beyond _ _ _ _ _ _ Hin Hcb) as Hb. cbn in Hb. destruct (id_lt_irrefl (Card.ID c)). by eapply id_lt_trans.
Qed.

Section ExportFile.
Context (castUUID : string -> option string) (fold : string -> string).
Context (newest : forall A, list A -> list A).
Context (findInBatches : nat -> list Card.t -> list (list Card.t)) `{!KeysetBatches findInBatches}.

Lemma exportBatches_run row batches a :
  faultfree a -> exists a', exportBatches row batches a = (Ok (row <$> concat batches), a').
Proof.
  revert a. induction batches as [|batch batches IH]; intros a Hf; cbn [exportBatches]; [by eexists|].
  destruct (readApi_run (fun _ => tt) a Hf) as (n & H1). unfold bindM at 1, try at 1, bindM at 1. rewrite H1.
  set (a1 := set_ap_sys _ a). destruct (preload_run batch a1) as (k & H2); [by apply faultfree_tick|]. rewrite H2.
  set (a2 := set_ap_sys _ a1). destruct (IH a2) as (a' & H3); [by apply (faultfree_tick k a1), faultfree_tick|].
  unfold bindM. rewrite H3. exists a'. unfold ret. by rewrite concat_cons, fmap_app.
Qed.

(** An export is complete below one batch and loses cards beyond.  With fewer than 500 selected cards and no failing
    statement, the file lists exactly the selected cards, newest first.  With 500 or more, every card that comes
    behind the first 500 and whose id is below the id of the 500th is missing: the next batch starts after that
    id, but the rows are ordered by age. *)
Theorem export_loses_cards created query q a :
  faultfree a -> map_Forall (fun id c => Card.ID c = id) (cards (cardsDb a)) -> (forall A l, newest A l ≡ₚ l) ->
  cardQueryOf castUUID "" query = Some q ->
  exists written a', ExportCards castUUID fold newest findInBatches created query a =
      (Ok (exportHeader :: (exportRow created a <$> written)), a') /\
    ((length (selected fold newest q a) < 500)%nat -> written = selected fold newest q a) /\
    (forall x c, selected fold newest q a !! 499%nat = Some x -> c ∈ drop 500 (selected fold newest q a) ->
       id_lt (Card.ID c) (Card.ID x) -> c ∉ written).
Proof.
  intros Hf Hids Hperm Hq. unfold ExportCards. rewrite Hq. unfold bindM at 1, gets.
  rewrite find_in_batches by lia. set (rows := selected fold newest q a). set (batches := keysetBatches _ 500%nat rows None).
  destruct (exportBatches_run (exportRow created a) batches a Hf) as (a' & H). unfold bindM. rewrite H.
  exists (concat batches), a'. split; [reflexivity|]. split; [intros Hl; unfold batches; by rewrite keyset_short|].
  assert (Hrows : NoDup rows).
  { unfold rows, selected. rewrite Hperm. apply NoDup_filter, (NoDup_fmap_1 Card.ID). rewrite <- list_fmap_compose.
    erewrite list_fmap_ext; [apply (NoDup_fst_map_to_list (cards (cardsDb a)))|]. intros i [k z] Hz. cbn.
    apply list_elem_of_lookup_2, elem_of_map_to_list in Hz. exact (Hids k z Hz). }
  intros x c Hx Hc Hlt (batch & Hbatch%list_elem_of_In & Hcb%list_elem_of_In)%list_elem_of_In%in_concat.
  eapply (keyset_long 500); [lia | exact Hx | | exact Hlt | exact Hbatch | exact Hcb].
  intros Ht. rewrite <- (take_drop 500 rows) in Hrows. apply NoDup_app in Hrows as (_ & Hno & _). by apply (Hno c).
Qed.
End ExportFile.

(** *** Witnesses *)

Module ListWitness.
Import ControlScenario.
Definition query (page : string) (key : string) : string :=
  if bool_decide (key = "page") then page else if bool_decide (key = "per_page") then "2" else "".
Definition pages (k : nat) : string -> string := query (if bool_decide (k = 0%nat) then "1" else "2").
Definition all : cardQuery := mkCardQuery "" None "" None.
Definition newest (A : Type) (l : list A) : list A := l.
Definition fold (s : string) : string := s.

Definition gormBatches (n : nat) (rows : list Card.t) : list (list Card.t) := keysetBatches (S (length rows)) n rows None.
#[global] Instance gormBatches_keyset : KeysetBatches gormBatches.
Proof. done. Qed.
Definition created (c : Card.t) : string := "2024-01-01T00:00:00Z".
Definition export := ExportCards parse fold newest gormBatches created (query "").
End ListWitness.


(** A batch of two loses the oldest of three cards, the one with the smallest id. *)
Lemma export_loses_cards_witness :
  (exists written a', ListWitness.export ApiScenario.fresh =
      (Ok (exportHeader :: (exportRow ListWitness.created ApiScenario.fresh <$> written)), a') /\ length written = 3%nat) /\
  (let card id := ControlScenario.card id id in
   concat (ListWitness.gormBatches 2 [card "2"; card "3"; card "1"]) = [card "2"; card "3"]).
Proof.
  split; [|by vm_compute].
  destruct (export_loses_cards ControlScenario.parse ListWitness.fold ListWitness.newest ListWitness.gormBatches
              ListWitness.created (ListWitness.query "") ListWitness.all ApiScenario.fresh) as (written & a' & H & Hall & _).
  - done.
  - apply (bool_decide_unpack _). by vm_compute.
  - done.
  - by vm_compute.
  - exists written, a'. split; [exact H|]. rewrite Hall; [by vm_compute|]. apply Nat.ltb_lt. by vm_compute.
Defined.
