(* ===== verification/ProfileRequests.v ===== *)
(** * Profiles, applications, scripts and CAP files keep the integrity of the tables *)

From S2P Require Import Prelude Effects Models Pipeline Store HexUtil GlobalPlatform StateWriter Sql QueryStore Executor CampaignControl CardKeyStore Api Cards CardGroups Profiles Assets Integrity.

(** ** Statements *)

Lemma profileNameTaken_other id name t j p :
  ~ profileNameTaken id name t -> t !! j = Some p -> j <> id -> Profile.Name p <> name.
Proof. intros Hn Hj Hne E. apply Hn, Exists_exists. exists (j, p). split; [by apply elem_of_map_to_list | by split]. Qed.

Lemma tarTaken_other id x t j y : ~ tarTaken id x t -> t !! j = Some y -> j <> id -> ~ sameTAR x y.
Proof. intros Hn Hj Hne E. apply Hn, Exists_exists. exists (j, y). split; [by apply elem_of_map_to_list | by split]. Qed.

Lemma sameTAR_sym x y : sameTAR x y -> sameTAR y x.
Proof. by intros [? ?]. Qed.

(** A column that is unique in a table stays so when a row is put that no other row conflicts with. *)
Lemma unique_insert {A} (R : A -> A -> Prop) (m : gmap string A) k x :
  (forall a b, R a b -> R b a) -> (forall i j a b, m !! i = Some a -> m !! j = Some b -> R a b -> i = j) ->
  (forall j b, m !! j = Some b -> j <> k -> ~ R x b) ->
  forall i j a b, <[k := x]> m !! i = Some a -> <[k := x]> m !! j = Some b -> R a b -> i = j.
Proof.
  intros Hsym Hu Hn i j a b Hi Hj HR. destruct (decide (i = j)) as [|Hij]; [done|]. exfalso.
  apply lookup_insert_Some in Hi as [[<- <-]|[? Hi]], Hj as [[<- <-]|[? Hj]]; try done.
  - by apply (Hn j b).
  - by apply (Hn i a); auto.
  - destruct Hij. by eapply Hu.
Qed.

Lemma ok_putProfile id p a :
  api_ok a -> Profile.ID p = id -> ~ profileNameTaken id (Profile.Name p) (profilesOf a) ->
  api_ok (putProfiles (<[id := p]> (profilesOf a)) a).
Proof.
  intros [[] ?] Hid Hn. split; [|done]. split; cbn in *; try done.
  - intros i c Hc. destruct (it_cards i c Hc) as (? & ? & ?). split_and!; [done..|]. unfold profileKnown in *. by apply insert_known.
  - by apply map_Forall_insert_2.
  - apply (unique_insert (fun x y => Profile.Name x = Profile.Name y)); [done | done |].
    intros j b Hj Hne E. by apply (profileNameTaken_other _ _ _ j b Hn).
  - intros i x Hx. destruct (it_apps i x Hx) as (? & ? & ?). split_and!; [done | by apply insert_known | done].
Qed.

(** Applications that are gone were used by no command. *)
Lemma ok_fewerApps (P : Application.t -> Prop) t a :
  api_ok a -> ~ commandUses P a -> (forall i x, t !! i = Some x <-> ap_apps a !! i = Some x /\ ~ P x) -> api_ok (set_ap_apps t a).
Proof.
  intros [[] ?] Hu Ht. split; [|done]. split; cbn in *; try done.
  - apply Forall_forall. intros cmd Hin. destruct (proj1 (Forall_forall _ _) it_commands_ref cmd Hin) as [? Happ].
    split; [done|]. apply Ht. split; [done|]. intros HP. apply Hu, Exists_exists. eauto.
  - intros i x [Hx _]%Ht. by apply it_apps.
  - intros i j x y [Hi _]%Ht [Hj _]%Ht. by apply it_tars.
Qed.

Lemma ok_dropProfile id a :
  api_ok a -> map_Forall (fun _ c => Card.ProfileID c <> id) (cards (cardsDb a)) ->
  map_Forall (fun _ x => Application.ProfileID x <> id) (ap_apps a) -> api_ok (putProfiles (delete id (profilesOf a)) a).
Proof.
  intros [[] ?] Hcards Happs. split; [|done]. split; cbn in *; try done.
  - intros i c Hc. destruct (it_cards i c Hc) as (? & ? & ?). split_and!; [done..|]. unfold profileKnown in *. cbn.
    rewrite lookup_delete_ne; [done|]. intros E. by apply (Hcards i c Hc).
  - by apply map_Forall_delete.
  - intros i j x y [_ Hi]%lookup_delete_Some [_ Hj]%lookup_delete_Some. by apply it_profile_names.
  - intros i x Hx. destruct (it_apps i x Hx) as (? & ? & ?). split_and!; [done | | done].
    rewrite lookup_delete_ne; [done|]. intros E. by apply (Happs i x Hx).
Qed.

Lemma holds_createProfileRow p : holds api_ok (createProfileRow p).
Proof.
  unfold createProfileRow. api_auto. apply holds_apiStatement. intros a' Ha. destruct (negb _); [done|].
  destruct (bool_decide (is_Some _)); [done|]. cbn. case_bool_decide; [done|]. by apply ok_putProfile.
Qed.

Lemma ok_createApp id x a :
  api_ok a -> ap_apps a !! id = None -> Application.ID x = id -> zlen (Application.TAR x) = 3 ->
  ~ tarTaken id x (ap_apps a) -> is_Some (profilesOf a !! Application.ProfileID x) ->
  api_ok (set_ap_apps (<[id := x]> (ap_apps a)) a).
Proof.
  intros [[] ?] Hnew Hid Htar Hn Hp. split; [|done]. split; cbn in *; try done.
  - eapply Forall_impl; [done|]. cbn. intros cmd [? Happ]. split; [done|]. rewrite lookup_insert_ne; [done|]. congruence.
  - apply map_Forall_insert_2; done.
  - apply (unique_insert sameTAR); [apply sameTAR_sym | done |]. intros j b Hj Hne. by eapply tarTaken_other.
Qed.

Lemma build_tar profileID req x : buildApplicationFromRequest profileID req = Ok x -> zlen (Application.TAR x) = 3.
Proof.
  unfold buildApplicationFromRequest. destruct (Decode _) as [b| |]; [|done..]. destruct (zlen b =? 3) eqn:E; [|done].
  intros [= <-]. cbn. lia.
Qed.

Lemma holds_createApplicationRow x : zlen (Application.TAR x) = 3 -> holds api_ok (createApplicationRow x).
Proof.
  intros Htar. unfold createApplicationRow. api_auto. apply holds_apiStatement. intros a' Ha.
  case_bool_decide as Hnew; [done|]. apply eq_None_not_Some in Hnew. cbn. case_bool_decide; [done|]. case_bool_decide; [|done]. by apply ok_createApp.
Qed.

Lemma holds_createApplications id reqs : holds api_ok (createApplications id reqs).
Proof.
  induction reqs as [|req reqs IH]; cbn [createApplications]; [apply holds_ret|].
  destruct (buildApplicationFromRequest id req) as [x| |] eqn:E; [|by intros a..].
  assert (H : holds api_ok (bindM (createApplicationRow x) (fun _ => createApplications id reqs))); [|exact H].
  apply holds_bind; [|intros _; exact IH]. eapply holds_createApplicationRow, build_tar, E.
Qed.

Lemma holds_updateProfileRow id u : holds api_ok (updateProfileRow id u).
Proof.
  apply holds_apiStatement. intros a Ha. destruct (profilesOf a !! id) as [p|] eqn:Ep; [|done]. cbv zeta.
  destruct (negb _); [done|]. case_bool_decide; [done|]. apply ok_putProfile; [done| |done].
  destruct Ha as [[] _]. exact (it_profiles id p Ep).
Qed.

Lemma holds_deleteApplications (P : Application.t -> Prop) `{!forall x, Decision (P x)} : holds api_ok (deleteApplications P).
Proof.
  apply holds_apiStatement. intros a Ha. case_bool_decide; [done|].
  apply (ok_fewerApps P); [done..|]. intros i x. by rewrite map_lookup_filter_Some.
Qed.

Lemma holds_deleteProfileRow id : holds api_ok (deleteProfileRow id).
Proof.
  apply holds_apiStatement. intros a Ha. destruct (profilesOf a !! id); [|done]. case_bool_decide as Hf; [|done].
  destruct Hf as [Hc Hu]. cbn [snd].
  assert (Ht : forall i x, filter (fun kv => Application.ProfileID (snd kv) <> id) (ap_apps a) !! i = Some x <->
                 ap_apps a !! i = Some x /\ Application.ProfileID x <> id) by (intros i x; by rewrite map_lookup_filter_Some).
  revert Ht. generalize (filter (fun kv : string * Application.t => Application.ProfileID kv.2 <> id) (ap_apps a)). intros apps Ht.
  apply (ok_dropProfile id (set_ap_apps apps a)); [|done|].
  - by apply (ok_fewerApps (fun x => Application.ProfileID x = id)).
  - by intros i x [_ Hx]%Ht.
Qed.

(** The commands joined to an application follow its row. *)
Lemma rejoin_key id x (l : list CampaignCommand.t) : commandKey <$> (rejoin id x <$> l) = commandKey <$> l.
Proof. rewrite <- list_fmap_compose. apply list_fmap_ext. intros i c _. unfold compose, rejoin. by case_bool_decide. Qed.

Lemma ok_putApplication id x a :
  api_ok a -> is_Some (ap_apps a !! id) -> Application.ID x = id -> zlen (Application.TAR x) = 3 ->
  ~ tarTaken id x (ap_apps a) -> is_Some (profilesOf a !! Application.ProfileID x) -> api_ok (putApplication id x a).
Proof.
  intros [[] Hcmd] Hold Hid Htar Hn Hp. split; [split; cbn in *; try done|].
  - by rewrite rejoin_key.
  - apply Forall_fmap. eapply Forall_impl; [done|]. cbn. intros cmd [? Happ]. unfold rejoin. case_bool_decide as E; cbn.
    + by rewrite E, lookup_insert_eq.
    + by rewrite lookup_insert_ne by done.
  - apply map_Forall_insert_2; done.
  - apply (unique_insert sameTAR); [apply sameTAR_sym | done |]. intros j b Hj Hne. by eapply tarTaken_other.
  - intros j Hj. destruct (Hcmd j Hj) as (cmd & Hin & E). exists (rejoin id x cmd). split; [by apply list_elem_of_fmap_2|].
    unfold rejoin. by case_bool_decide.
Qed.

Lemma holds_updateApplicationRow id u :
  (forall t, au_tar u = Some t -> zlen t = 3) -> holds api_ok (updateApplicationRow id u).
Proof.
  intros Ht. apply holds_apiStatement. intros a Ha. destruct (ap_apps a !! id) as [x|] eqn:Ex; [|done]. cbv zeta.
  case_bool_decide; [done|]. assert (Hx : Application.ID x = id /\ is_Some (profilesOf a !! Application.ProfileID x) /\ zlen (Application.TAR x) = 3).
  { destruct Ha as [[] _]. exact (it_apps id x Ex). }
  destruct Hx as (? & ? & ?). apply ok_putApplication; [done|done|done| |done|done].
  cbn. destruct (au_tar u) as [t|]; [by apply Ht | done].
Qed.

(** ** Scripts and CAP files *)

Lemma ok_putScript s a :
  api_ok a -> Script.CommandCount s = countCommands (Script.Commands s) ->
  api_ok (set_ap_scripts (<[Script.ID s := s]> (ap_scripts a)) a).
Proof.
  intros [[] ?] Hn. split; [|done]. split; cbn in *; try done.
  - intros i c Hc. destruct (it_assets i c Hc) as [? Hs]. split; [done|]. intros j Hj. cbn. apply insert_known, Hs, Hj.
  - by apply map_Forall_insert_2.
Qed.

Lemma ok_putCAPFile c a :
  api_ok a -> CAPFile.FileSize c = zlen (CAPFile.FileData c) -> CAPFile.FileSize c <= maxCAPSize ->
  api_ok (set_ap_caps (<[CAPFile.ID c := c]> (ap_caps a)) a).
Proof.
  intros [[] ?] Hn Hle. split; [|done]. split; cbn in *; try done.
  - intros i x Hx. destruct (it_assets i x Hx) as [Hs ?]. split; [|done]. intros j Hj. cbn. apply insert_known, Hs, Hj.
  - by apply map_Forall_insert_2.
Qed.

(** Campaigns changed in their references only, towards rows that remain. *)
Lemma integrity_references (f : Campaign.t -> Campaign.t) t scripts caps :
  integrity t -> (forall c, Campaign.ID (f c) = Campaign.ID c) ->
  (forall c, refersTo t (Campaign.CAPFileID c) (Campaign.ScriptID c) ->
     (forall i, Campaign.CAPFileID (f c) = Some i -> is_Some (caps !! i)) /\ (forall i, Campaign.ScriptID (f c) = Some i -> is_Some (scripts !! i))) ->
  map_Forall (fun id x => Script.ID x = id /\ Script.CommandCount x = countCommands (Script.Commands x)) scripts ->
  map_Forall (fun id x => CAPFile.ID x = id /\ CAPFile.FileSize x = zlen (CAPFile.FileData x) /\ CAPFile.FileSize x <= maxCAPSize) caps ->
  integrity (mkTables (set_campaigns (fmap f) (tb_db t)) (tb_shards t) (tb_targets t) (tb_apps t) (tb_groups t) (tb_members t) scripts caps).
Proof.
  intros [[] Hcmd] Hid Hrefs Hs Hc.
  assert (Hk : forall j, is_Some ((f <$> campaigns (tb_db t)) !! j) <-> is_Some (campaigns (tb_db t) !! j)).
  { intros j. by rewrite lookup_fmap, fmap_is_Some. }
  split; [split; cbn in *; try done|].
  - intros i c. rewrite lookup_fmap. intros (c0 & H0 & ->)%fmap_Some. rewrite Hid. exact (it_campaigns i c0 H0).
  - eapply Forall_impl; [done|]. cbn. intros ? [? ?]. by rewrite Hk.
  - eapply Forall_impl; [done|]. cbn. intros ? [? ?]. by rewrite Hk.
  - intros i c. rewrite lookup_fmap. intros (c0 & H0 & ->)%fmap_Some. apply Hrefs. exact (it_assets i c0 H0).
  - intros j. cbn. rewrite Hk. apply Hcmd.
Qed.

Lemma unset_other {A} id (o : option string) (m : gmap string A) :
  (forall i, o = Some i -> is_Some (m !! i)) -> forall i, unset id o = Some i -> is_Some (delete id m !! i).
Proof.
  unfold unset. intros H i. case_bool_decide as E; [done|]. intros ->. rewrite lookup_delete_ne; [by apply H|]. congruence.
Qed.

Lemma ok_dropScript id a :
  api_ok a -> api_ok (set_ap_scripts (delete id (ap_scripts a)) (mapCampaigns (forgetScript id) a)).
Proof.
  intros Ha. apply (integrity_references (forgetScript id) (tablesOf a)); [done | done | | by apply map_Forall_delete; destruct Ha as [[] _] |
    by destruct Ha as [[] _]].
  intros c [Hc Hs]. split; [exact Hc | by apply unset_other].
Qed.

Lemma ok_dropCAPFile id a :
  api_ok a -> api_ok (set_ap_caps (delete id (ap_caps a)) (mapCampaigns (forgetCAPFile id) a)).
Proof.
  intros Ha. apply (integrity_references (forgetCAPFile id) (tablesOf a)); [done | done | | by destruct Ha as [[] _] |
    by apply map_Forall_delete; destruct Ha as [[] _]].
  intros c [Hc Hs]. split; [by apply unset_other | exact Hs].
Qed.

Lemma holds_updateScriptRow id u : holds api_ok (updateScriptRow id u).
Proof.
  apply holds_apiStatement. intros a Ha. cbn. destruct (ap_scripts a !! id) as [s|] eqn:Es.
  - assert (Hs : Script.ID s = id /\ Script.CommandCount s = countCommands (Script.Commands s)) by (destruct Ha as [[] _]; by apply it_scripts).
    destruct Hs as [<- Hn]. rewrite (alter_alt_Some _ _ _ _ Es).
    apply (ok_putScript (applyScript u s) a); [done|]. cbn. by destruct (us_Commands u).
  - rewrite alter_id' by done. by destruct a.
Qed.

(** ** Handlers *)

#[export] Hint Resolve holds_createProfileRow holds_createApplications holds_updateProfileRow holds_deleteApplications
  holds_deleteProfileRow holds_updateScriptRow : holds.

Lemma holds_readRow {A} castUUID raw (f : string -> Api -> A) : holds api_ok (readRow castUUID raw f).
Proof. unfold readRow. api_auto. Qed.
Lemma holds_countOf castUUID raw f : holds api_ok (countOf castUUID raw f).
Proof. unfold countOf, readRow. api_auto. Qed.
Lemma holds_reloadProfile p : holds api_ok (reloadProfile p).
Proof. unfold reloadProfile. api_auto. Qed.
#[export] Hint Resolve holds_readRow holds_countOf holds_reloadProfile : holds.

Section ProfileRequests.
Context (parse castUUID : string -> option string).

Lemma holds_CreateProfile body : holds api_ok (CreateProfile body).
Proof. unfold CreateProfile, createProfileTx. api_auto. Qed.
Lemma holds_GetProfile id : holds api_ok (GetProfile parse castUUID id).
Proof. unfold GetProfile, withParam, withRow, firstProfile. api_auto. Qed.
Lemma holds_UpdateProfile id body : holds api_ok (UpdateProfile parse castUUID id body).
Proof. unfold UpdateProfile, withParam, withRow, firstProfile, bound. api_auto. Qed.
Lemma holds_DeleteProfile id : holds api_ok (DeleteProfile parse castUUID id).
Proof. unfold DeleteProfile, deleteProfileTx, withID. api_auto. Qed.

Lemma holds_CreateApplication id body : holds api_ok (CreateApplication parse id body).
Proof.
  unfold CreateApplication, withRow, bound. destruct (parse id) as [profileID|]; [|apply holds_ret].
  apply holds_bind; [api_auto|]. intros []; [|api_auto..]. destruct body as [e|req]; [apply holds_ret|].
  destruct (buildApplicationFromRequest profileID req) as [x| |] eqn:E; [|api_auto..]. apply build_tar in E.
  pose proof (holds_createApplicationRow x E). api_auto.
Qed.

Lemma tarUpdate_length v t : tarUpdate v = inr (Some t) -> zlen t = 3.
Proof.
  unfold tarUpdate. destruct v as [s|]; [|done]. destruct (Decode s) as [b| |]; [|done..].
  destruct (zlen b =? 3) eqn:E; [|done]. intros [= <-]. lia.
Qed.

Lemma holds_UpdateApplication id appId body : holds api_ok (UpdateApplication parse castUUID id appId body).
Proof.
  unfold UpdateApplication, withParam, withRow, firstApplication, bound. destruct (parse id), (parse appId); [|api_auto..].
  apply holds_bind; [api_auto|]. intros [app| |]; [|api_auto..]. destruct body as [e|req]; [apply holds_ret|].
  destruct (tarUpdate (ua_TAR req)) as [r|tar] eqn:E; [apply holds_ret|].
  assert (Hu : holds api_ok (updateApplicationRow (Application.ID app) (mkApplicationUpdates req tar))).
  { apply holds_updateApplicationRow. cbn. intros t ->. by eapply tarUpdate_length. }
  api_auto.
Qed.

Lemma holds_DeleteApplication id appId : holds api_ok (DeleteApplication parse castUUID id appId).
Proof. unfold DeleteApplication, withParam, deleteApplicationRow. api_auto. Qed.
End ProfileRequests.

Section AssetRequests.
Context (parse castUUID : string -> option string).
Context (unzip : list Z -> res (list zip_entry)) (sha256 : list Z -> string).

Lemma holds_createScriptRow f :
  (forall id, Script.ID (f id) = id /\ Script.CommandCount (f id) = countCommands (Script.Commands (f id))) -> holds api_ok (createScriptRow f).
Proof.
  intros Hf. apply holds_bind; [apply holds_ask; apply _|]. intros id. apply holds_apiStatement. intros a Ha.
  case_bool_decide; [done|]. destruct (Hf id) as [Hid Hn]. cbn. rewrite <- Hid at 1. by apply ok_putScript.
Qed.

Lemma holds_CreateScript body : holds api_ok (CreateScript body).
Proof.
  unfold CreateScript. destruct body as [e|req]; [apply holds_ret|]. apply holds_bind; [|intros r; api_auto].
  by apply holds_try, holds_createScriptRow.
Qed.
Lemma holds_GetScript id : holds api_ok (GetScript parse castUUID id).
Proof. unfold GetScript, withParam, withRow, firstScript. api_auto. Qed.
Lemma holds_UpdateScript id body : holds api_ok (UpdateScript parse castUUID id body).
Proof. unfold UpdateScript, withParam, withRow, firstScript, bound. api_auto. Qed.

Lemma holds_guardedDelete id ref deleteRow t1 t2 t3 t4 :
  (forall i, holds api_ok (deleteRow i)) -> holds api_ok (guardedDelete parse castUUID id ref deleteRow t1 t2 t3 t4).
Proof. intros H. unfold guardedDelete, withID. api_auto. Qed.
Lemma holds_DeleteScript id : holds api_ok (DeleteScript parse castUUID id).
Proof. apply holds_guardedDelete. intros i. apply holds_apiStatement. intros a Ha. by apply ok_dropScript. Qed.
Lemma holds_DeleteCAPFile id : holds api_ok (DeleteCAPFile parse castUUID id).
Proof. apply holds_guardedDelete. intros i. apply holds_apiStatement. intros a Ha. by apply ok_dropCAPFile. Qed.

Lemma holds_createCAPFileRow f :
  (forall id, CAPFile.ID (f id) = id /\ CAPFile.FileSize (f id) = zlen (CAPFile.FileData (f id)) /\ CAPFile.FileSize (f id) <= maxCAPSize) ->
  holds api_ok (createCAPFileRow f).
Proof.
  intros Hf. apply holds_bind; [apply holds_ask; apply _|]. intros id. apply holds_apiStatement. intros a Ha.
  case_bool_decide; [done|]. destruct (Hf id) as (Hid & Hn & Hle). cbn. rewrite <- Hid at 1. by apply ok_putCAPFile.
Qed.

Lemma holds_UploadCAPFile upload : holds api_ok (UploadCAPFile unzip sha256 upload).
Proof.
  unfold UploadCAPFile. destruct upload as [[filename [content| |]]|]; [|apply holds_ret|by intros a|apply holds_ret]. cbv zeta.
  destruct (maxCAPSize <? _) eqn:E; [apply holds_ret|]. destruct (ParseCAPFile _ _); [|apply holds_ret|by intros a].
  apply holds_bind; [|intros r; api_auto]. apply holds_try, holds_createCAPFileRow. intros id. cbn. split_and!; [done..|lia].
Qed.
Lemma holds_GetCAPFile id : holds api_ok (GetCAPFile parse castUUID id).
Proof. unfold GetCAPFile, withParam, withRow, firstCAPFile. api_auto. Qed.
Lemma holds_PreviewCAPAPDUs id size : holds api_ok (PreviewCAPAPDUs parse castUUID id size).
Proof. unfold PreviewCAPAPDUs, withParam, withRow, firstCAPFile. api_auto. Qed.
End AssetRequests.
