(* ===== verification/ProfileProps.v ===== *)
(** * What the handlers of profiles, scripts and CAP files promise

    Creating and deleting a profile are all or nothing; a preview of a CAP file shows
    the commands that load exactly the uploaded file; deleting a script or a CAP file is
    refused while a campaign refers to it. *)

From S2P Require Import Prelude Effects Models Pipeline Store HexUtil GlobalPlatform StateWriter Sql QueryStore Executor CampaignControl ControlScenario CardKeyStore Api Cards CardGroups Profiles Assets ApiScenario Integrity ProfileRequests.

(** A statement that returned normally: the environment was asked once. *)
Lemma apiStatement_inv {A} (f : Api -> res A * Api) a x a' :
  apiStatement f a = (Ok x, a') -> exists n, f (set_ap_sys (set_tick n (cp_sys (ap_ctl a))) a) = (Ok x, a').
Proof. unfold apiStatement, bindM, ask. destruct (sys_fault _ _); [done|]. cbn. intros H. by eexists. Qed.

Lemma readApi_inv {A} (f : Api -> A) a x a' : readApi f a = (Ok x, a') -> tablesOf a' = tablesOf a.
Proof. unfold readApi, bindM, ask. destruct (sys_fault _ _); [done|]. by intros [= _ <-]. Qed.

(** Computations that leave the tables alone. *)
Definition reads {A} (m : AM A) : Prop := forall a, tablesOf (snd (m a)) = tablesOf a.

Lemma reads_ret {A} (x : A) : reads (ret x).
Proof. done. Qed.
Lemma reads_res {A} (r : res A) : reads (mres r).
Proof. done. Qed.
Lemma reads_bind {A B} (m : AM A) (k : A -> AM B) : reads m -> (forall x, reads (k x)) -> reads (bindM m k).
Proof. intros Hm Hk a. unfold bindM. specialize (Hm a). destruct (m a) as [[x|e|p] a1]; cbn in *; [by rewrite Hk | done | done]. Qed.
Lemma reads_try {A} (m : AM A) : reads m -> reads (try m).
Proof. intros Hm a. unfold try. specialize (Hm a). by destruct (m a) as [[] ]. Qed.
Lemma reads_ask {A} (f : Sys -> nat -> A) : reads (ask f : AM A).
Proof. done. Qed.
Lemma reads_readApi {A} (f : Api -> A) : reads (readApi f).
Proof. apply reads_bind; [apply reads_ask|]. by intros []. Qed.
Lemma reads_query {A} (f : Database -> A) : reads (query f : AM A).
Proof. apply reads_bind; [apply reads_ask|]. by intros []. Qed.
Lemma reads_first {A} (o : option A) : reads (first o).
Proof. intros a. by destruct o. Qed.
Create HintDb reads.
#[export] Hint Resolve reads_ret reads_res reads_ask reads_readApi reads_query reads_first : reads.
Ltac reads_auto :=
  repeat match goal with
  | |- reads (bindM _ _) => apply reads_bind; [|intros ?]
  | |- reads (try _) => apply reads_try
  | |- reads (match ?x with _ => _ end) => destruct x
  | _ => solve [eauto with reads | done]
  end.

Lemma reads_inv {A} (m : AM A) a r a' : reads m -> m a = (r, a') -> tablesOf a' = tablesOf a.
Proof. intros Hm E. specialize (Hm a). by rewrite E in Hm. Qed.

Lemma reads_countOf castUUID raw f : reads (countOf castUUID raw f).
Proof. unfold countOf, readRow. reads_auto. Qed.
Lemma reads_reloadProfile p : reads (reloadProfile p).
Proof. unfold reloadProfile. reads_auto. Qed.

(** ** Creating a profile *)

Definition putRow (m : gmap string Application.t) (x : Application.t) : gmap string Application.t := <[Application.ID x := x]> m.

(** A row stores an application request. *)
Definition storesApplication (profileID : string) (req : CreateApplicationRequest) (row : Application.t) : Prop :=
  exists x, buildApplicationFromRequest profileID req = Ok x /\ row = gormApplication (Application.ID row) x.

(** Rows one after the other, each under a fresh id. *)
Fixpoint addedRows (m : gmap string Application.t) (rows : list Application.t) : Prop :=
  match rows with
  | [] => True
  | x :: rows => m !! Application.ID x = None /\ addedRows (putRow m x) rows
  end.

(** Everything but the applications. *)
Definition offApps (a : Api) : Tables := tablesOf (set_ap_apps ∅ a).

Lemma createApplications_inv id reqs a a' :
  createApplications id reqs a = (Ok tt, a') ->
  exists rows, Forall2 (storesApplication id) reqs rows /\ addedRows (ap_apps a) rows /\
    ap_apps a' = foldl putRow (ap_apps a) rows /\ offApps a' = offApps a.
Proof.
  revert a. induction reqs as [|req reqs IH]; intros a; cbn [createApplications]; [intros [= <-]; by exists []|].
  intros H. apply bind_inv in H as (x & a1 & H1 & H). destruct (buildApplicationFromRequest id req) as [y| |] eqn:E; [|done..].
  injection H1 as <- <-. apply bind_inv in H as (row & a1 & H1 & H). apply IH in H as (rows & Hf & Hadd & Happs & Hoff).
  unfold createApplicationRow in H1. apply bind_inv in H1 as (k & a0 & H0 & H1). injection H0 as <- <-.
  set (k := sys_uuid _ _) in *. apply apiStatement_inv in H1 as (n & H1). cbn in H1.
  case_bool_decide as Hnew; [done|]. cbn in H1. case_bool_decide; [done|]. cbn in H1. case_bool_decide; [|done]. injection H1 as <- <-.
  apply eq_None_not_Some in Hnew. exists (gormApplication k y :: rows). split_and!; [|by split|by rewrite Happs|by rewrite Hoff].
  constructor; [by exists y | done].
Qed.

Record createsProfile (req : CreateProfileRequest) (a a' : Api) : Prop := {
  np_row : exists id rows,
    profilesOf a !! id = None /\ profilesOf a' = <[id := gormProfile id (newProfile req)]> (profilesOf a) /\
    ~ profileNameTaken id (npr_Name req) (profilesOf a) /\
    Forall2 (storesApplication id) (npr_Applications req) rows /\ addedRows (ap_apps a) rows /\
    ap_apps a' = foldl putRow (ap_apps a) rows;
  np_rest : with_db empty_db (offApps a') = with_db empty_db (offApps a) /\
    set_profiles_tbl (fun _ => ∅) (cardsDb a') = set_profiles_tbl (fun _ => ∅) (cardsDb a)
}.

Lemma createProfileTx_inv req a p a' : createProfileTx req a = (Ok p, a') -> createsProfile req a a'.
Proof.
  unfold createProfileTx. intros H. apply bind_inv in H as (p1 & a1 & H1 & H). apply bind_inv in H as ([] & a2 & H2 & H).
  injection H as <- <-. unfold createProfileRow in H1. apply bind_inv in H1 as (k & a0 & H0 & H1). injection H0 as <- <-.
  set (k := sys_uuid _ _) in *. apply apiStatement_inv in H1 as (n & H1). cbn in H1. destruct (negb _); [done|].
  case_bool_decide as Hnew; [done|]. cbn in H1. case_bool_decide as Hname; [done|]. injection H1 as <- <-.
  apply createApplications_inv in H2 as (rows & Hf & Hadd & Happs & Hoff). apply eq_None_not_Some in Hnew. cbn in *.
  injection Hoff as Hdb Hsh Htg Hg Hm Hs Hc. split; cbn.
  - exists k, rows. split_and!; [exact Hnew | | exact Hname | exact Hf | exact Hadd | exact Happs].
    unfold profilesOf, cardsDb. by rewrite Hdb.
  - unfold offApps, with_db, tablesOf, cardsDb. cbn. rewrite Hdb, Hsh, Htg, Hg, Hm, Hs, Hc. done.
Qed.

Lemma createsProfile_ext req a a1 a' a1' :
  tablesOf a1 = tablesOf a -> tablesOf a1' = tablesOf a' -> createsProfile req a a' -> createsProfile req a1 a1'.
Proof.
  intros Ht Ht' [Hrow [Hr1 Hr2]]. injection Ht as Hdb Hsh Htg Hap Hg Hm Hs Hc. injection Ht' as Hdb' Hsh' Htg' Hap' Hg' Hm' Hs' Hc'.
  split; unfold profilesOf, offApps, with_db, tablesOf, cardsDb in *; cbn in *; rewrite ?Hdb, ?Hdb', ?Hap, ?Hap'; [done|].
  split; [|done]. rewrite Hsh, Htg, Hg, Hm, Hs, Hc, Hsh', Htg', Hg', Hm', Hs', Hc'. done.
Qed.

(** C12: creating a profile is all or nothing.  An answer other than 201 left every table as it was; a 201 means that a
    profile with a fresh id and a name no other profile has exists with the requested settings, with one
    application per requested one, each under a fresh id with a TAR of three bytes -- and each of
    them ciphered, also the ones whose request says "ciphered": false, since the insert replaces the zero
    value by the default of the column. *)
Theorem create_profile_exact req a r data a' :
  CreateProfile (inr req) a = (Ok (r, data), a') ->
  (Response.Code r <> 201 /\ data = None /\ tablesOf a' = tablesOf a) \/
  (Response.Code r = 201 /\ createsProfile req a a' /\
   exists rows, ap_apps a' = foldl putRow (ap_apps a) rows /\ length rows = length (npr_Applications req) /\
     Forall (fun row => Application.Ciphered row = true /\ zlen (Application.TAR row) = 3) rows).
Proof.
  cbn [CreateProfile]. intros H. apply bind_inv in H as (t & a1 & H1 & H). unfold try in H1.
  destruct (transaction _ a) as [[p|e|p] a2] eqn:E; [injection H1 as <- <-..|done].
  - right. apply bind_inv in H as (d & a3 & H3 & H). injection H as <- _ <-. split; [done|].
    apply (reads_inv _ _ _ _ (reads_reloadProfile p)) in H3.
    apply transaction_inv in E as (a0 & k1 & k2 & Hrun & ->). apply createProfileTx_inv in Hrun.
    assert (Hc : createsProfile req a a3) by (by eapply createsProfile_ext; [.. | exact Hrun]). split; [done|].
    destruct (np_row _ _ _ Hc) as (id & rows & _ & _ & _ & Hf & _ & Happs). exists rows. split_and!; [done | by rewrite (Forall2_length _ _ _ Hf) |].
    clear -Hf. induction Hf as [|req1 row reqs rows (x & Hx & ->) _ IH]; constructor; [|done].
    split; [cbn; by destruct (Application.Ciphered x) | cbn; by eapply build_tar].
  - left. pose proof (transaction_atomic _ _ _ _ E eq_refl) as Hs. by injection H as <- <- <-.
Qed.

Module CreateProfileWitness.
Definition req : CreateProfileRequest := ApiScenario.newProfile "second" [ApiScenario.newApp "B00001" (Some false); ApiScenario.newApp "b00002" None].
Definition run := CreateProfile (inr req) ApiScenario.fresh.
End CreateProfileWitness.

Lemma create_profile_exact_witness :
  exists r data a', CreateProfileWitness.run = (Ok (r, Some data), a') /\ Response.Code r = 201 /\
    Profile.BufferSize (fst data) = 180 /\ length (snd data) = 2%nat /\
    (Forall (fun row => Application.Ciphered row = true) (snd data)) /\
    createsProfile CreateProfileWitness.req ApiScenario.fresh a'.
Proof.
  pose (r := match fst CreateProfileWitness.run with Ok (r, _) => r | _ => ok_ 0 [] end).
  pose (d := match fst CreateProfileWitness.run with Ok (_, Some d) => d | _ => (newProfile CreateProfileWitness.req, []) end).
  assert (E : CreateProfileWitness.run = (Ok (r, Some d), snd CreateProfileWitness.run)) by (by vm_compute).
  exists r, d, (snd CreateProfileWitness.run). split; [exact E|]. split; [by vm_compute|]. split; [by vm_compute|]. split; [by vm_compute|].
  split; [apply (bool_decide_unpack _); by vm_compute|].
  destruct (create_profile_exact CreateProfileWitness.req ApiScenario.fresh r (Some d) _ E) as [[H _]|[_ [H _]]]; [|exact H].
  destruct H. by vm_compute.
Defined.

(** ** Deleting a profile *)

Section Delete.
Context (parse castUUID : string -> option string).

(** Nothing refers to the profile. *)
Definition unreferenced (id : string) (a : Api) : Prop :=
  map_Forall (fun _ c => Card.ProfileID c <> id) (cards (cardsDb a)) /\ ~ commandUses (fun x => Application.ProfileID x = id) a.

Record deletesProfile (id : string) (a a' : Api) : Prop := {
  dp_known : is_Some (profilesOf a !! id);
  dp_free : unreferenced id a;
  dp_profiles : profilesOf a' = delete id (profilesOf a);
  dp_apps : forall i x, ap_apps a' !! i = Some x <-> ap_apps a !! i = Some x /\ Application.ProfileID x <> id;
  dp_rest : set_profiles_tbl (fun _ => ∅) (cardsDb a') = set_profiles_tbl (fun _ => ∅) (cardsDb a)
}.

Lemma deleteProfileTx_inv raw id a a' :
  castUUID raw = Some id -> deleteProfileTx castUUID raw a = (Ok tt, a') -> deletesProfile id a a'.
Proof.
  intros Hid. unfold deleteProfileTx. rewrite Hid. intros H. apply bind_inv in H as (n1 & a1 & H1 & H).
  apply apiStatement_inv in H1 as (k & H1). case_bool_decide as Hu; [done|]. injection H1 as _ <-.
  apply bind_inv in H as (n2 & a2 & H2 & H). apply apiStatement_inv in H2 as (k2 & H2).
  change (profilesOf (set_ap_sys _ _)) with (profilesOf a) in H2.
  destruct (profilesOf a !! id) eqn:Ep; [|by injection H2 as <- <-].
  case_bool_decide as Hf; [|done]. injection H2 as <- <-. injection H as <-. destruct Hf as [Hc _].
  split; [by eexists | by split | done | | done]. intros i x. cbn. rewrite !map_lookup_filter_Some. cbn. tauto.
Qed.

Lemma deletesProfile_ext id a a1 a' a1' :
  tablesOf a1 = tablesOf a -> tablesOf a1' = tablesOf a' -> deletesProfile id a a' -> deletesProfile id a1 a1'.
Proof.
  intros Ht Ht' [Hk [Hf1 Hf2] Hp Ha Hr]. injection Ht as Hdb _ _ Hap _ _ _ _. injection Ht' as Hdb' _ _ Hap' _ _ _ _.
  split; unfold unreferenced, commandUses, profilesOf, cardsDb in *; rewrite ?Hdb, ?Hdb', ?Hap, ?Hap'; done.
Qed.

(** C36: deleting a profile is safe.  An answer other than 200 left every table as it was; a 200 means that the profile
    existed, that no card had it and no campaign command used one of its applications -- also when the count of
    its cards, whose error the handler drops, failed -- and that exactly the profile and its applications
    are gone. *)
Theorem delete_profile_exact raw id a r a' :
  castUUID raw = Some id -> DeleteProfile parse castUUID raw a = (Ok r, a') ->
  (Response.Code r <> 200 /\ tablesOf a' = tablesOf a) \/ (Response.Code r = 200 /\ deletesProfile id a a').
Proof.
  intros Hid. unfold DeleteProfile, withID. destruct (parse raw); [|intros [= <- <-]; by left]. intros H.
  apply bind_inv in H as (n & a1 & H1 & H). apply (reads_inv _ _ _ _ (reads_countOf _ _ _)) in H1.
  destruct (0 <? n); [injection H as <- <-; by left|]. apply bind_inv in H as (t & a2 & H2 & H). unfold try in H2.
  destruct (transaction _ a1) as [[[]|e|p] a3] eqn:E; [injection H2 as <- <-..|done].
  - right. injection H as <- <-. split; [done|]. apply transaction_inv in E as (a0 & k1 & k2 & Hrun & ->).
    apply (deleteProfileTx_inv _ _ _ _ Hid) in Hrun. by eapply deletesProfile_ext; [.. | exact Hrun].
  - left. pose proof (transaction_atomic _ _ _ _ E eq_refl) as Hs. cbn in Hs. injection H as <- <-. split; [by case_bool_decide | congruence].
Qed.

(** ** Deleting scripts and CAP files *)

Lemma campaignsWith_pos ref id a k c : campaigns (cardsDb a) !! k = Some c -> ref c = Some id -> (0 < campaignsWith ref id a)%nat.
Proof.
  intros Hk Hr. unfold campaignsWith. apply Nat.neq_0_lt_0. intros E. apply map_size_empty_iff in E.
  by apply (map_filter_empty_not_lookup _ _ k c E).
Qed.

Lemma guard_refuses id raw ref deleteRow t1 t2 t3 t4 a k c :
  parse raw = Some id -> castUUID raw = Some id -> campaigns (cardsDb a) !! k = Some c -> ref c = Some id ->
  sys_fault (cp_sys (ap_ctl a)) (tick (cp_sys (ap_ctl a))) = None ->
  fst (guardedDelete parse castUUID raw ref deleteRow t1 t2 t3 t4 a) = Ok (errorResponse 409 t1) /\
  tablesOf (snd (guardedDelete parse castUUID raw ref deleteRow t1 t2 t3 t4 a)) = tablesOf a.
Proof.
  intros Hp Hc Hk Hr Hf. unfold guardedDelete, withID, countOf, readRow, readApi. rewrite Hp, Hc.
  unfold bindM, try, bindM, ask, gets, ret. cbn. rewrite Hf. cbn.
  pose proof (campaignsWith_pos ref id a k c Hk Hr) as Hn.
  match goal with |- context [campaignsWith ref id ?b] => change (campaignsWith ref id b) with (campaignsWith ref id a) end.
  destruct (0 <? Z.of_nat (campaignsWith ref id a)) eqn:E; [done | lia].
Qed.

(** The guard on deletion is only as good as its count.  While a campaign refers to a script, deleting the
    script is answered with 409 and changes nothing, as long as the count of the campaigns succeeds; when the count
    fails and the DELETE does not, the script is deleted with a 200 and the campaign silently loses its
    reference. *)
Theorem script_guard_needs_count raw id a k c s :
  parse raw = Some id -> castUUID raw = Some id ->
  campaigns (cardsDb a) !! k = Some c -> Campaign.ScriptID c = Some id -> ap_scripts a !! id = Some s ->
  let faults n := sys_fault (cp_sys (ap_ctl a)) (tick (cp_sys (ap_ctl a)) + n) in
  let run := DeleteScript parse castUUID raw a in
  (faults 0%nat = None -> fst run = Ok (errorResponse 409 "cannot delete script referenced by campaigns") /\
     tablesOf (snd run) = tablesOf a) /\
  (is_Some (faults 0%nat) -> faults 1%nat = None ->
     fst run = Ok (message 200 "script deleted") /\ ap_scripts (snd run) !! id = None /\
     Campaign.ScriptID <$> campaigns (cardsDb (snd run)) !! k = Some None).
Proof.
  intros Hp Hc Hk Hr Hs faults run. unfold faults. rewrite Nat.add_0_r. split.
  - intros Hf. by eapply guard_refuses.
  - intros [e He] Hf. unfold run, DeleteScript, guardedDelete, withID, countOf, readRow, readApi. rewrite Hp, Hc.
    unfold bindM, try, bindM, ask, gets, ret, merr, mres. cbn. rewrite He. cbn.
    unfold deleteScriptRow, apiStatement, bindM, ask. cbn. rewrite Nat.add_1_r in Hf. rewrite Hf. cbn. rewrite Hs. cbn.
    split_and!; [done | apply lookup_delete_eq |]. rewrite lookup_fmap. unfold cardsDb in Hk. cbn in Hk. rewrite Hk. cbn. unfold unset. by rewrite Hr, bool_decide_true.
Qed.
End Delete.

Module DeleteProfileWitness.
Definition a : Api := snd CreateProfileWitness.run.
Definition id : string := match fst CreateProfileWitness.run with Ok (_, Some d) => Profile.ID (fst d) | _ => "" end.
Definition parse (s : string) : option string := if bool_decide (s = id) then Some s else ControlScenario.parse s.
Definition run := DeleteProfile parse parse id a.
End DeleteProfileWitness.

Lemma delete_profile_exact_witness :
  exists r, fst DeleteProfileWitness.run = Ok r /\ Response.Code r = 200 /\
    deletesProfile DeleteProfileWitness.id DeleteProfileWitness.a (snd DeleteProfileWitness.run) /\
    size (ap_apps DeleteProfileWitness.a) = 3%nat /\ size (ap_apps (snd DeleteProfileWitness.run)) = 1%nat.
Proof.
  exists (message 200 "profile deleted"). split; [by vm_compute|]. split; [done|]. split; [|by vm_compute].
  destruct (delete_profile_exact DeleteProfileWitness.parse DeleteProfileWitness.parse DeleteProfileWitness.id DeleteProfileWitness.id
              DeleteProfileWitness.a (message 200 "profile deleted") (snd DeleteProfileWitness.run)) as [[H _]|[_ H]];
    [by vm_compute | | by destruct H | exact H].
  apply injective_projections; by vm_compute.
Defined.

Module DeleteScriptWitness.
Definition script : Script.t := Script.mk "script-1" "read" None "B00010" "A0A40000" 1.
Definition c : Campaign.t := Campaign.mk "camp-1" "pending" 3 None None None None None (Some "script-1") "".
Definition at_ (fault : nat -> option goerr) : Api :=
  let a := ApiScenario.fresh in let y := cp_sys (ap_ctl a) in
  set_ap_scripts {[ "script-1" := script ]}
    (set_ap_sys {| sys_now := sys_now y; sys_uuid := sys_uuid y; sys_rand := sys_rand y; sys_fault := fault; sys_ctx := sys_ctx y;
                   sys_full := sys_full y; sys_allow := sys_allow y; tick := 0;
                   db := set_campaigns <["camp-1" := c]> (db y) |} a).
Definition parse (s : string) : option string := Some s.
Definition flaky : Api := at_ (fun n => if Nat.eqb n 0 then Some (Errorf "connection reset" []) else None).
End DeleteScriptWitness.

Lemma script_guard_needs_count_witness :
  fst (DeleteScript DeleteScriptWitness.parse DeleteScriptWitness.parse "script-1" DeleteScriptWitness.flaky) = Ok (message 200 "script deleted") /\
  Campaign.ScriptID <$> campaigns (cardsDb (snd (DeleteScript DeleteScriptWitness.parse DeleteScriptWitness.parse "script-1" DeleteScriptWitness.flaky))) !! "camp-1"
    = Some None.
Proof.
  destruct (script_guard_needs_count DeleteScriptWitness.parse DeleteScriptWitness.parse "script-1" "script-1" DeleteScriptWitness.flaky
              "camp-1" DeleteScriptWitness.c DeleteScriptWitness.script) as [_ H]; [by vm_compute..|].
  destruct H as (H1 & _ & H2); [by vm_compute; eexists | by vm_compute | split; [exact H1 | exact H2]].
Defined.
