(* ===== verification/CapProps.v ===== *)
(** * From an uploaded CAP file to the commands that load it *)

From S2P Require Import Prelude Effects Models Pipeline Store HexUtil GlobalPlatform StateWriter Sql QueryStore Executor CampaignControl ControlScenario Api Cards Profiles Assets ApiScenario.

(** ** What ParseCAPFile returns are bytes *)

Definition entryBytes (e : zip_entry) : Prop := forall b, ReadAll e = Ok b -> bytes_ok b.

Lemma readSections_bytes entries m m' :
  Forall entryBytes entries -> map_Forall (fun _ b => bytes_ok b) m -> readSections entries m = Ok m' -> map_Forall (fun _ b => bytes_ok b) m'.
Proof.
  revert m. induction entries as [|e entries IH]; intros m He Hm; cbn [readSections]; [by intros [= <-]|].
  apply Forall_cons in He as [He1 He]. destruct (negb _); [by apply IH|].
  destruct (Open e) as [[]| |]; [|done..]. cbn [rbind]. destruct (ReadAll e) as [b| |] eqn:E; [|done..]. cbn [rbind].
  apply IH; [done|]. apply map_Forall_insert_2; [exact (He1 b E) | done].
Qed.

Lemma ExtractAID_bytes c aid : map_Forall (fun _ b => bytes_ok b) (Sections c) -> ExtractAID c = Ok aid -> bytes_ok aid.
Proof.
  intros Hs. unfold ExtractAID. destruct (Sections c !! "Header") as [h|] eqn:Eh; [|intros [= <-]; constructor].
  specialize (Hs _ _ Eh). cbn in Hs. cbv zeta.
  destruct (_ <? _); [intros [= <-]; constructor|]. destruct (_ <=? _); [intros [= <-]; constructor|].
  destruct (index h _) as [n| |]; [|done..]. cbn [rbind]. destruct (_ <? _); [intros [= <-]; constructor|].
  destruct (slice h _ _) as [b| |] eqn:E; [|done..]. intros [= <-]. apply bytes_ok_copy; [apply bytes_ok_replicate; by split|].
  unfold slice in E. destruct (_ && _ && _); [|done]. injection E as <-. auto with go.
Qed.

Lemma AssembleLoadFile_bytes c keys : map_Forall (fun _ b => bytes_ok b) (Sections c) -> bytes_ok (AssembleLoadFile c keys).
Proof.
  intros Hs. unfold AssembleLoadFile, bytes_ok. apply Forall_concat, Forall_fmap, Forall_true. intros name. cbn.
  destruct (Sections c !! name) as [b|] eqn:E; cbn; [by apply (Hs name b E) | constructor].
Qed.

Lemma ParseCAPFile_bytes archive filename c :
  (forall entries, archive = Ok entries -> Forall entryBytes entries) -> ParseCAPFile archive filename = Ok c ->
  bytes_ok (AID c) /\ bytes_ok (LoadFile c).
Proof.
  intros Ha. unfold ParseCAPFile. destruct archive as [entries| |]; [|done..]. cbn [rwrap rbind].
  destruct (readSections entries ∅) as [m| |] eqn:Em; [|done..]. cbn [rbind].
  apply readSections_bytes in Em; [|by apply Ha | done]. destruct (bool_decide _); [done|]. cbv zeta.
  destruct (ExtractAID _) as [aid| |] eqn:Ea; [|done..]. intros [= <-]. cbn [AID LoadFile]. split.
  - by apply ExtractAID_bytes in Ea.
  - by apply AssembleLoadFile_bytes.
Qed.

(** ** The preview *)

Lemma labelled_blocks blocks : snd <$> labelled blocks = blocks.
Proof. induction blocks as [|b [|b' blocks] IH]; [done | done |]. cbn in *. by rewrite IH. Qed.

Lemma blockSize_pos v : 0 < blockSize v.
Proof. unfold blockSize. case_bool_decide; [done|]. cbv zeta. destruct (0 <? parseInt v) eqn:E; [lia | done]. Qed.

(** The commands of the preview, in bytes. *)
Definition isdAID : list Z := [0xA0; 0x00; 0x00; 0x00; 0x03; 0x00; 0x00; 0x00].
Definition deleteCommand (aid : list Z) : list Z := [0x80; 0xE4; 0x00; 0x80; u8 (zlen aid + 2); 0x4F; u8 (zlen aid)] ++ aid.
Definition commandsOfPreview (loadFile aid : list Z) (max : Z) : list (list Z) :=
  BuildInstallForLoadAPDU aid isdAID :: load_apdus 0 (chunks (Z.to_nat max) loadFile) ++ [deleteCommand aid].

Lemma previewAPDUs_eq loadFile aid max :
  0 < max ->
  previewAPDUs loadFile aid max =
    if decide (aid = []) then Panic "AID must not be empty"
    else Ok ((fun p => (fst p, Encode (snd p))) <$>
             ("INSTALL_FOR_LOAD", BuildInstallForLoadAPDU aid isdAID) ::
             labelled (load_apdus 0 (chunks (Z.to_nat max) loadFile)) ++ [("DELETE", deleteCommand aid)]).
Proof.
  intros Hmax. unfold previewAPDUs. assert (E : MustDecode "A000000003000000" = Ok isdAID) by (by vm_compute). rewrite E. cbn [rbind].
  rewrite load_blocks_eq by done. cbn [rbind]. unfold BuildDeleteAPDU. destruct aid as [|x aid]; [done|].
  rewrite decide_False by done. set (l := x :: aid). assert (Hl : zlen l =? 0 = false) by (apply Z.eqb_neq; unfold l; rewrite zlen_cons; pose proof (zlen_nonneg aid); lia).
  rewrite Hl. cbn [rbind]. unfold deleteCommand. replace (zlen ([79; u8 (zlen l)] ++ l)) with (zlen l + 2); [done|]. rewrite zlen_app, Z.add_comm. done.
Qed.

Lemma snd_encoded install blocks delete_ :
  snd <$> ((fun p : string * list Z => (fst p, Encode (snd p))) <$> ("INSTALL_FOR_LOAD", install) :: labelled blocks ++ [("DELETE", delete_)])
  = Encode <$> install :: blocks ++ [delete_].
Proof.
  rewrite <- list_fmap_compose. rewrite <- (labelled_blocks blocks) at 2.
  change ([delete_]) with (snd <$> [("DELETE", delete_)]). rewrite <- fmap_app.
  change (install :: ?l) with (snd ("INSTALL_FOR_LOAD", install) :: l). by rewrite <- fmap_cons, <- list_fmap_compose.
Qed.

Section Preview.
Context (parse castUUID : string -> option string).
Context (unzip : list Z -> res (list zip_entry)) (sha256 : list Z -> string).

Lemma upload_inv filename content a r cap a' :
  UploadCAPFile unzip sha256 (Some (filename, Ok content)) a = (Ok (r, Some cap), a') ->
  zlen content <= maxCAPSize /\ Response.Code r = 201 /\
  (exists parsed, ParseCAPFile (unzip content) filename = Ok parsed /\ CAPFile.AID cap = Encode (AID parsed) /\
     CAPFile.LoadFileHex cap = Encode (LoadFile parsed)) /\
  CAPFile.FileData cap = content /\ ap_caps a' !! CAPFile.ID cap = Some cap /\
  sys_fault (cp_sys (ap_ctl a')) = sys_fault (cp_sys (ap_ctl a)).
Proof.
  unfold UploadCAPFile. cbv zeta. destruct (maxCAPSize <? _) eqn:Esz; [done|].
  assert (Hc : zlen content <= maxCAPSize /\ take (Z.to_nat (maxCAPSize + 1)) content = content).
  { unfold zlen in *. rewrite length_take in Esz. apply Z.ltb_ge in Esz. remember maxCAPSize as m eqn:Em.
    assert (0 <= m) by (subst; done). split; [lia|]. apply take_ge. lia. }
  destruct Hc as [Hle ->]. destruct (ParseCAPFile _ _) as [parsed| |]; [|done..]. intros H.
  apply bind_inv in H as (t & a1 & H1 & H). unfold try, createCAPFileRow, apiStatement in H1. unfold bindM, newUUID, ask in H1. cbn in H1.
  destruct (sys_fault _ _); [by injection H1 as <- <-|]. case_bool_decide; [by injection H1 as <- <-|].
  injection H1 as <- <-. injection H as <- <- <-. cbn. split_and!; [done | done | by exists parsed | done | | done].
  by rewrite lookup_insert_eq.
Qed.

End Preview.

Module CapWitness.
Definition up := UploadCAPFile ApiScenario.unzip ApiScenario.sha256 (Some ("applet.cap", Ok [1; 2; 3])) ApiScenario.fresh.
Definition cap : CAPFile.t := match fst up with Ok (_, Some c) => c | _ => CAPFile.mk "" "" "" [] 0 "" "" ∅ end.
Definition parse (s : string) : option string := Some s.
Definition preview := fst (PreviewCAPAPDUs parse parse (CAPFile.ID cap) "8" (snd up)).
End CapWitness.

