(* ===== verification/Requests.v ===== *)
(** * Requests keep the integrity of the tables

    The handlers of cards and groups, and the theorem for sequences of
    requests of all kinds. *)

From S2P Require Import Prelude Effects Models Pipeline Store HexUtil GlobalPlatform StateWriter Sql QueryStore Executor CampaignControl ControlScenario CardKeyStore Api Cards CardGroups Profiles Assets ApiScenario Integrity ProfileRequests.

(** ** Cards *)

Lemma sameIdentity_sym a b : sameIdentity a b -> sameIdentity b a.
Proof. unfold sameIdentity. naive_solver. Qed.

(** A row that no other row conflicts with. *)
Lemma integrity_put_card t id c :
  integrity t -> Card.ID c = id -> Card.Status c ∈ cardStatuses -> profileKnown (tb_db t) c ->
  (forall j b, cards (tb_db t) !! j = Some b -> j <> id -> ~ sameIdentity c b) ->
  integrity (with_db (set_cards (fun _ => <[id := c]> (cards (tb_db t))) (tb_db t)) t).
Proof.
  intros [[] ?] Hid Hst Hp Hne. split; [|done]. split; cbn; try done.
  - apply map_Forall_insert_2; [done|]. done.
  - intros i j x y Hi Hj Hsame. destruct (decide (i = j)) as [|Hij]; [done|]. exfalso.
    apply lookup_insert_Some in Hi as [[<- <-]|[? Hi]], Hj as [[<- <-]|[? Hj]]; try done.
    + by apply (Hne j y).
    + apply (Hne i x); [done..|]. by apply sameIdentity_sym.
    + destruct Hij. by eapply it_identity.
  - eapply Forall_impl; [exact it_targets_ref|]. cbn. intros g [? ?]. split; [done | by apply insert_known].
  - eapply Forall_impl; [exact it_members_ref|]. cbn. intros m [? ?]. split; [done | by apply insert_known].
Qed.

Lemma ok_putCard a id c :
  api_ok a -> Card.ID c = id -> Card.Status c ∈ cardStatuses -> profileKnown (cardsDb a) c ->
  (forall j b, cards (cardsDb a) !! j = Some b -> j <> id -> ~ sameIdentity c b) ->
  api_ok (putCards (<[id := c]> (cards (cardsDb a))) a).
Proof. apply (integrity_put_card (tablesOf a)). Qed.

Lemma conflicts_none t c j b : ~ conflicts t c -> t !! j = Some b -> ~ sameIdentity c b.
Proof.
  intros Hc Hj Hs. apply Hc. right. apply Exists_exists. exists (j, b). split; [by apply elem_of_map_to_list | done].
Qed.

Lemma holds_createCardRow c : holds api_ok (createCardRow c).
Proof.
  apply holds_bind; [apply holds_ask; apply _|]. intros [e|]; [apply holds_err|]. intros a Ha. unfold bindM, gets.
  case_bool_decide; [|done]. cbn. case_bool_decide as Hc; [done|]. case_bool_decide; [|done]. cbn.
  apply ok_putCard; [done..|]. intros j b Hj _. by eapply conflicts_none.
Qed.

Lemma holds_updateCardRow id u : holds api_ok (updateCardRow id u).
Proof.
  apply holds_bind; [apply holds_ask; apply _|]. intros [e|]; [apply holds_err|]. intros a Ha. unfold bindM, gets.
  destruct (cards (cardsDb a) !! id) as [c|] eqn:Hc; [|done]. case_bool_decide; [|done]. cbn.
  case_bool_decide as Hex; [done|]. case_bool_decide; [|done]. cbn.
  apply ok_putCard; [done| |done..|].
  - destruct Ha as [[] _]. by destruct (it_cards id c Hc).
  - intros j b Hj Hne Hs. apply Hex, Exists_exists. exists (j, b). split; [|done].
    apply elem_of_map_to_list. by rewrite lookup_delete_ne.
Qed.

(** Keys are no part of an identity. *)
Lemma holds_setKeys t e k kek id : holds (db_ok t) (exec (set_cards (alter (setKeys e k kek) id)) : M Sys unit).
Proof.
  apply holds_bind; [apply holds_ask; apply _|]. intros [er|]; [apply holds_err|]. apply holds_modify. intros y [[] ?].
  assert (Hk : forall j, is_Some (cards (db y) !! j) -> is_Some (alter (setKeys e k kek) id (cards (db y)) !! j)).
  { intros j. rewrite lookup_alter_is_Some. done. }
  assert (Hl : forall j c, alter (setKeys e k kek) id (cards (db y)) !! j = Some c ->
    exists c0, cards (db y) !! j = Some c0 /\ Card.ID c = Card.ID c0 /\ Card.Status c = Card.Status c0 /\
      Card.ProfileID c = Card.ProfileID c0 /\ forall b, sameIdentity c b <-> sameIdentity c0 b).
  { intros j c [(<- & c0 & Hc & ->)|[_ Hc]]%lookup_alter_Some; eexists; by split_and!. }
  split; [|done]. split; cbn in *; try done.
  - intros j c (c0 & H0 & H1 & H2 & H3 & _)%Hl. destruct (it_cards j c0 H0) as (? & ? & ?).
    split_and!; [congruence..|]. unfold profileKnown. rewrite H3. done.
  - intros i j x z (x0 & Hi & _ & _ & _ & Hx)%Hl (z0 & Hj & _ & _ & _ & Hz)%Hl Hsame.
    apply (it_identity i j x0 z0); [done..|]. by apply Hx, sameIdentity_sym, Hz, sameIdentity_sym.
  - eapply Forall_impl; [done|]. cbn. intros ? [? ?]. eauto.
  - eapply Forall_impl; [done|]. cbn. intros ? [? ?]. eauto.
Qed.
#[export] Hint Resolve holds_createCardRow holds_updateCardRow holds_setKeys : holds.

(** Deleting a card takes its targets and memberships along. *)
Lemma ok_dropCard id a : api_ok a -> api_ok (dropCard id a).
Proof.
  intros [[] ?]. assert (Hd : forall j, j <> id -> is_Some (cards (cardsDb a) !! j) -> is_Some (delete id (cards (cardsDb a)) !! j)).
  { intros j Hj. by rewrite lookup_delete_ne. }
  split; [|done]. split; cbn in *; try done.
  - by apply map_Forall_delete.
  - intros i j x y [_ Hi]%lookup_delete_Some [_ Hj]%lookup_delete_Some. by apply it_identity.
  - eapply sublist_NoDup; [exact it_targets | apply fmap_sublist, sublist_filter].
  - apply Forall_forall. intros g [Hg Hin]%list_elem_of_filter.
    destruct (proj1 (Forall_forall _ _) it_targets_ref g Hin). auto.
  - by apply NoDup_filter.
  - apply Forall_forall. intros m [Hm Hin]%list_elem_of_filter.
    destruct (proj1 (Forall_forall _ _) it_members_ref m Hin). auto.
Qed.

Lemma holds_rollback t : integrity t -> holds api_ok (rollback t).
Proof. intros Ht. apply holds_modify. intros a _. by destruct t. Qed.

(** A computation that may roll back to the tables it started from. *)
Lemma holds_saved {A} (k : Tables -> AM A) : (forall t, integrity t -> holds api_ok (k t)) -> holds api_ok (bindM (gets tablesOf) k).
Proof. intros Hk a Ha. by apply Hk. Qed.

Lemma holds_commit_to saved : integrity saved -> holds api_ok (commit saved).
Proof. intros. unfold commit. api_auto. by apply holds_rollback. Qed.
#[export] Hint Resolve holds_rollback holds_commit_to : holds.

Section CardRequests.
Context (parse castUUID : string -> option string) (cardKeys : bool).

Lemma holds_WriteCardKeys t id e k kek p m : holds (db_ok t) (WriteCardKeys parse id e k kek p m).
Proof. unfold WriteCardKeys, parseCardID. holds_auto; eauto with holds. Qed.
Lemma holds_DeleteCardKeys t id : holds (db_ok t) (DeleteCardKeys parse id).
Proof. unfold DeleteCardKeys, parseCardID. holds_auto; eauto with holds. Qed.
Lemma holds_WriteCardKeysBatch t l : holds (db_ok t) (WriteCardKeysBatch parse l).
Proof.
  unfold WriteCardKeysBatch. destruct l as [|x l]; holds_auto. generalize (x :: l). intros l'.
  induction l'; cbn [writeRecords]; unfold parseCardID; holds_auto; eauto with holds.
Qed.
Hint Resolve holds_WriteCardKeys holds_DeleteCardKeys holds_WriteCardKeysBatch : holds.

Lemma holds_storeCard card : holds api_ok (storeCard parse cardKeys card).
Proof.
  unfold storeCard. apply holds_bind; [apply holds_ask; apply _|]. intros begin. apply holds_saved. intros saved Hs.
  unfold inTx, syncKeys. api_auto.
Qed.

Lemma holds_CreateCard body : holds api_ok (CreateCard parse cardKeys body).
Proof. pose proof holds_storeCard. unfold CreateCard, withProfile, decodeKey. api_auto. Qed.

Lemma holds_storeUpdate raw id u : holds api_ok (storeUpdate castUUID raw id u).
Proof.
  unfold storeUpdate. apply holds_bind; [apply holds_ask; apply _|]. intros begin. apply holds_saved. intros saved Hs.
  pose proof (fun A => @holds_queryRow castUUID A). unfold inTx. api_auto.
Qed.

Lemma holds_UpdateCard id body : holds api_ok (UpdateCard parse castUUID id body).
Proof.
  pose proof holds_storeUpdate. pose proof (fun A => @holds_queryRow castUUID A).
  unfold UpdateCard, withID, cardUpdatesOf, optionally, parseProfile, decodeKey. api_auto.
Qed.

(** Rows inserted one after the other, conflicts left out. *)
Lemma insertCard_ids m ids rows x : x ∈ ids -> x ∈ snd (foldl insertCard (m, ids) rows).
Proof.
  clear parse castUUID cardKeys.
  revert m ids. induction rows as [|c rows IH]; intros m ids Hx; [done|]. cbn. case_bool_decide; [by apply IH|].
  apply IH. set_solver.
Qed.

Lemma integrity_insertCards T d rows m ids :
  integrity (with_db (set_cards (fun _ => m) d) T) ->
  Forall (fun c => Card.Status c ∈ cardStatuses) rows ->
  Forall (fun c => Card.ID c ∈ snd (foldl insertCard (m, ids) rows) -> profileKnown d c) rows ->
  integrity (with_db (set_cards (fun _ => fst (foldl insertCard (m, ids) rows)) d) T).
Proof.
  clear parse castUUID cardKeys.
  revert m ids. induction rows as [|c rows IH]; intros m ids Hm Hst Hp; [done|].
  apply Forall_cons in Hst as [Hc Hst]. apply Forall_cons in Hp as [Hpc Hp]. cbn in *.
  destruct (bool_decide (conflicts m c)) eqn:E; [by apply IH|]. apply bool_decide_eq_false in E.
  apply IH; [|done..].
  apply (integrity_put_card (with_db (set_cards (fun _ => m) d) T) (Card.ID c) c); [done..| |].
  - apply Hpc, insertCard_ids. set_solver.
  - intros j b Hj _. by eapply conflicts_none.
Qed.

Lemma holds_insertFromTemp temp : holds api_ok (insertFromTemp temp).
Proof.
  apply holds_bind; [apply holds_ask; apply _|]. intros [e|]; [apply holds_err|]. intros a Ha. unfold bindM at 1, gets.
  destruct (insertCards _ _) as [m ids] eqn:E. case_bool_decide; [|done]. cbn. case_bool_decide as Hp; [|done]. cbn.
  pose proof (integrity_insertCards (tablesOf a) (cardsDb a) temp (cards (cardsDb a)) []) as H'.
  fold (insertCards (cards (cardsDb a)) temp) in H'. rewrite E in H'. apply H'; [|done..].
  destruct Ha as [[] ?]. split; [by split | done].
Qed.
Hint Resolve holds_insertFromTemp : holds.

Lemma holds_assignIDs batch : holds api_ok (assignIDs batch).
Proof. induction batch; cbn [assignIDs]; api_auto. Qed.

Lemma holds_flushBatch st : holds api_ok (flushBatch parse cardKeys st).
Proof. pose proof holds_assignIDs. unfold flushBatch, BulkInsertCards, truncate, syncBatch. api_auto. Qed.

Lemma holds_columns m record cols : holds api_ok (columns m record cols).
Proof. induction cols; cbn [columns]; unfold column; api_auto. Qed.

Lemma holds_importRows m st rows : holds api_ok (importRows parse cardKeys m st rows).
Proof.
  pose proof holds_flushBatch. pose proof holds_columns. revert st. induction rows; intros st; cbn [importRows]; [done|].
  unfold importRow, importFields, pushCard, resolveProfile. api_auto.
Qed.

Lemma holds_ImportCards temp reads : holds api_ok (ImportCards parse cardKeys temp reads).
Proof. pose proof holds_importRows. unfold ImportCards. api_auto. Qed.

Lemma holds_DeleteCard id : holds api_ok (DeleteCard parse castUUID cardKeys id).
Proof. unfold DeleteCard, withID, deleteCardRow. api_auto. apply holds_modify, ok_dropCard. Qed.
End CardRequests.

(** ** Groups *)

Lemma ok_putGroup a g :
  api_ok a -> ~ nameTaken (CardGroup.ID g) (CardGroup.Name g) (ap_groups a) ->
  api_ok (set_ap_groups (<[CardGroup.ID g := g]> (ap_groups a)) a).
Proof.
  intros [[] ?] Hn. split; [|done]. split; cbn in *; try done.
  - by apply map_Forall_insert_2.
  - assert (Hother : forall j h, ap_groups a !! j = Some h -> CardGroup.ID g <> j -> CardGroup.Name h <> CardGroup.Name g).
    { intros j h Hj Hne E. apply Hn, Exists_exists. exists (j, h). split; [by apply elem_of_map_to_list | by split]. }
    intros i j x y Hi Hj E. destruct (decide (i = j)) as [|Hij]; [done|]. exfalso.
    apply lookup_insert_Some in Hi as [[<- <-]|[? Hi]], Hj as [[<- <-]|[? Hj]]; try done.
    + by apply (Hother j y).
    + by apply (Hother i x).
    + destruct Hij. by eapply it_names.
  - eapply Forall_impl; [exact it_members_ref|]. cbn. intros m [? ?]. split; [by apply insert_known | done].
Qed.

Lemma holds_createGroup g : holds api_ok (createGroup g).
Proof.
  apply holds_apiStatement. intros a Ha. destruct (bool_decide (is_Some _)); [done|]. cbn.
  case_bool_decide; [done|]. by apply ok_putGroup.
Qed.
Lemma holds_saveGroup g : holds api_ok (saveGroup g).
Proof. apply holds_apiStatement. intros a Ha. case_bool_decide; [done|]. by apply ok_putGroup. Qed.

(** Fewer members, as long as those of a deleted group are gone. *)
Lemma ok_filterMembers (P : string * string -> Prop) `{!forall m, Decision (P m)} a :
  api_ok a -> api_ok (set_ap_members (filter P (ap_members a)) a).
Proof.
  intros [[] ?]. split; [|done]. split; cbn in *; try done; [by apply NoDup_filter|].
  apply Forall_forall. intros m [_ Hin]%list_elem_of_filter. exact (proj1 (Forall_forall _ _) it_members_ref m Hin).
Qed.

Lemma ok_dropGroup id a :
  api_ok a -> Forall (fun m => fst m <> id) (ap_members a) -> api_ok (set_ap_groups (delete id (ap_groups a)) a).
Proof.
  intros [[] ?] Hm. split; [|done]. split; cbn in *; try done.
  - by apply map_Forall_delete.
  - intros i j x y [_ Hi]%lookup_delete_Some [_ Hj]%lookup_delete_Some. by apply it_names.
  - apply Forall_forall. intros m Hin. destruct (proj1 (Forall_forall _ _) it_members_ref m Hin) as [? ?].
    split; [|done]. rewrite lookup_delete_ne; [done|]. intros E. by apply (proj1 (Forall_forall _ _) Hm m Hin).
Qed.

Lemma ok_createMember groupID cardID : holds api_ok (createMember groupID cardID).
Proof.
  apply holds_apiStatement. intros a Ha. case_bool_decide as Hdup; [done|]. case_bool_decide as Hk; [|done].
  destruct Ha as [[] ?]. split; [|done]. split; cbn in *; try done.
  - apply NoDup_app. split_and!; [done | | apply NoDup_singleton]. intros m Hm ->%list_elem_of_singleton. done.
  - apply Forall_app. split; [done | by apply Forall_singleton].
Qed.

Section GroupRequests.
Context (parse castUUID : string -> option string).

Lemma holds_CreateCardGroup body : holds api_ok (CreateCardGroup body).
Proof. pose proof holds_createGroup. unfold CreateCardGroup. api_auto. Qed.

Lemma holds_withGroup {A} id msg (k : CardGroup.t -> AM (Response.t * A)) none :
  (forall g, holds api_ok (k g)) -> holds api_ok (withGroup castUUID id msg k none).
Proof. intros Hk. unfold withGroup, firstGroup. api_auto. Qed.

Lemma holds_GetCardGroup id : holds api_ok (GetCardGroup parse castUUID id).
Proof. unfold GetCardGroup, badID. api_auto. apply holds_withGroup. intros g. api_auto. Qed.

Lemma holds_UpdateCardGroup id body : holds api_ok (UpdateCardGroup parse castUUID id body).
Proof.
  pose proof holds_saveGroup. unfold UpdateCardGroup, badID. api_auto. apply holds_withGroup. intros g. api_auto.
Qed.

(** The members are deleted before the group. *)
Lemma holds_DeleteCardGroup id : holds api_ok (DeleteCardGroup parse castUUID id).
Proof.
  assert (Htx : holds api_ok (transaction (deleteGroupTx castUUID id))).
  { apply holds_transaction; [apply _..|]. unfold deleteGroupTx. destruct (castUUID id) as [g|]; [|apply holds_err].
    intros a Ha. unfold apiStatement, bindM, ask, ret. cbn. destruct (sys_fault _ _); [done|]. cbn.
    destruct (sys_fault _ _); [by apply (ok_filterMembers _ a)|]. cbn.
    set (a1 := set_ap_members _ _).
    assert (H1 : api_ok a1) by (by apply (ok_filterMembers _ a)).
    assert (Hgone : Forall (fun m => fst m <> g) (ap_members a1)) by (apply Forall_forall; by intros m [? _]%list_elem_of_filter).
    destruct (bool_decide _); by apply (ok_dropGroup g a1). }
  unfold DeleteCardGroup, withID. api_auto.
Qed.

Lemma holds_addMembers g ids n : holds api_ok (addMembers parse g ids n).
Proof. pose proof ok_createMember. revert n. induction ids; intros n; cbn [addMembers]; api_auto. Qed.
Lemma holds_AddCardGroupMembers id body : holds api_ok (AddCardGroupMembers parse castUUID id body).
Proof.
  pose proof holds_addMembers. unfold AddCardGroupMembers, badID. api_auto. apply holds_withGroup. intros g. api_auto.
Qed.

Lemma holds_removeMembers g ids n : holds api_ok (removeMembers parse g ids n).
Proof.
  revert n. induction ids; intros n; cbn [removeMembers]; unfold deleteMember; api_auto.
  apply holds_apiStatement. intros a0 Ha. by apply ok_filterMembers.
Qed.
Lemma holds_RemoveCardGroupMembers id body : holds api_ok (RemoveCardGroupMembers parse id body).
Proof. pose proof holds_removeMembers. unfold RemoveCardGroupMembers, withID. api_auto. Qed.
End GroupRequests.

(** ** Requests *)

Inductive request :=
| ReqCreateCampaign (body : string + CreateCampaignRequest)
| ReqGetCampaign (id : string) (query : string -> string)
| ReqStart (id : string)
| ReqPause (id : string)
| ReqResume (id : string)
| ReqAbort (id : string)
| ReqRetry (id : string)
| ReqCreateCard (body : string + CreateCardRequest)
| ReqUpdateCard (id : string) (body : string + UpdateCardRequest)
| ReqDeleteCard (id : string)
| ReqImport (temp : list Card.t) (reads : option (list (res (list string))))
| ReqCreateGroup (body : string + CardGroupRequest)
| ReqGetGroup (id : string)
| ReqUpdateGroup (id : string) (body : string + CardGroupRequest)
| ReqDeleteGroup (id : string)
| ReqAddMembers (id : string) (body : string + list string)
| ReqRemoveMembers (id : string) (body : string + list string)
| ReqCreateProfile (body : string + CreateProfileRequest)
| ReqGetProfile (id : string)
| ReqUpdateProfile (id : string) (body : string + UpdateProfileRequest)
| ReqDeleteProfile (id : string)
| ReqCreateApplication (id : string) (body : string + CreateApplicationRequest)
| ReqUpdateApplication (id appId : string) (body : string + UpdateApplicationRequest)
| ReqDeleteApplication (id appId : string)
| ReqCreateScript (body : string + CreateScriptRequest)
| ReqGetScript (id : string)
| ReqUpdateScript (id : string) (body : string + UpdateScriptRequest)
| ReqDeleteScript (id : string)
| ReqUploadCAP (upload : option (string * res (list Z)))
| ReqGetCAP (id : string)
| ReqDeleteCAP (id : string)
| ReqPreviewCAP (id maxBlockSize : string).

Section Serve.
Context (parse castUUID : string -> option string) (parseTime : string -> option Z).
Context (getenv : string -> string) (unzip : list Z -> res (list zip_entry)) (sha256 : list Z -> string).
Context (redis query_ wsHub cardKeys : bool).

Definition serve (r : request) (a : Api) : Api :=
  match r with
  | ReqCreateCampaign body => snd (CreateCampaign parse parseTime getenv redis query_ wsHub body a)
  | ReqGetCampaign id q => snd (GetCampaign parse castUUID query_ id q a)
  | ReqStart id => snd (API_StartCampaign parse getenv redis query_ wsHub id a)
  | ReqPause id => snd (API_PauseCampaign parse redis wsHub id a)
  | ReqResume id => snd (API_ResumeCampaign parse getenv redis query_ wsHub id a)
  | ReqAbort id => snd (API_AbortCampaign parse redis query_ wsHub id a)
  | ReqRetry id => snd (RetryFailedCards parse query_ id a)
  | ReqCreateCard body => snd (CreateCard parse cardKeys body a)
  | ReqUpdateCard id body => snd (UpdateCard parse castUUID id body a)
  | ReqDeleteCard id => snd (DeleteCard parse castUUID cardKeys id a)
  | ReqImport temp reads => snd (ImportCards parse cardKeys temp reads a)
  | ReqCreateGroup body => snd (CreateCardGroup body a)
  | ReqGetGroup id => snd (GetCardGroup parse castUUID id a)
  | ReqUpdateGroup id body => snd (UpdateCardGroup parse castUUID id body a)
  | ReqDeleteGroup id => snd (DeleteCardGroup parse castUUID id a)
  | ReqAddMembers id body => snd (AddCardGroupMembers parse castUUID id body a)
  | ReqRemoveMembers id body => snd (RemoveCardGroupMembers parse id body a)
  | ReqCreateProfile body => snd (CreateProfile body a)
  | ReqGetProfile id => snd (GetProfile parse castUUID id a)
  | ReqUpdateProfile id body => snd (UpdateProfile parse castUUID id body a)
  | ReqDeleteProfile id => snd (DeleteProfile parse castUUID id a)
  | ReqCreateApplication id body => snd (CreateApplication parse id body a)
  | ReqUpdateApplication id appId body => snd (UpdateApplication parse castUUID id appId body a)
  | ReqDeleteApplication id appId => snd (DeleteApplication parse castUUID id appId a)
  | ReqCreateScript body => snd (CreateScript body a)
  | ReqGetScript id => snd (GetScript parse castUUID id a)
  | ReqUpdateScript id body => snd (UpdateScript parse castUUID id body a)
  | ReqDeleteScript id => snd (DeleteScript parse castUUID id a)
  | ReqUploadCAP upload => snd (UploadCAPFile unzip sha256 upload a)
  | ReqGetCAP id => snd (GetCAPFile parse castUUID id a)
  | ReqDeleteCAP id => snd (DeleteCAPFile parse castUUID id a)
  | ReqPreviewCAP id size => snd (PreviewCAPAPDUs parse castUUID id size a)
  end.

Lemma serve_ok r a : api_ok a -> api_ok (serve r a).
Proof.
  destruct r; [apply holds_CreateCampaign | apply holds_GetCampaign | apply holds_API_StartCampaign | apply holds_API_PauseCampaign |
    apply holds_API_ResumeCampaign | apply holds_API_AbortCampaign | apply holds_RetryFailedCards | apply holds_CreateCard |
    apply holds_UpdateCard | apply holds_DeleteCard | apply holds_ImportCards | apply holds_CreateCardGroup | apply holds_GetCardGroup |
    apply holds_UpdateCardGroup | apply holds_DeleteCardGroup | apply holds_AddCardGroupMembers | apply holds_RemoveCardGroupMembers |
    apply holds_CreateProfile | apply holds_GetProfile | apply holds_UpdateProfile | apply holds_DeleteProfile |
    apply holds_CreateApplication | apply holds_UpdateApplication | apply holds_DeleteApplication | apply holds_CreateScript |
    apply holds_GetScript | apply holds_UpdateScript | apply holds_DeleteScript | apply holds_UploadCAPFile | apply holds_GetCAPFile |
    apply holds_DeleteCAPFile | apply holds_PreviewCAPAPDUs].
Qed.

(** C1: whatever requests the control plane serves, and however the database fails or a handler panics, the
    tables keep their integrity: cards are unique by ICCID, IMSI and MSISDN, have a known profile and an
    allowed status; targets, commands and memberships refer to rows that exist, and so do the CAP file and the
    script of a campaign; a command carries the application it refers to; applications have a known profile
    and a TAR of three bytes that is unique in it; profiles, shards and groups keep their unique keys; the
    command count of a script and the size of a CAP file are those of their content; and every
    campaign has a command. *)
Theorem requests_keep_integrity rs a :
  integrity (tablesOf a) -> integrity (tablesOf (foldl (fun a r => serve r a) a rs)).
Proof. intros Ha. revert a Ha. induction rs as [|r rs IH]; intros a Ha; [done|]. apply IH. by apply serve_ok. Qed.
End Serve.

(** *** Witness: the tables of [ApiScenario] are sound, and stay so through a series of requests. *)

Module IntegrityWitness.
Import ApiScenario.

Ltac computed := apply (bool_decide_unpack _); by vm_compute.

(** A unique column, decided on the rows. *)
Ltac unique_column R m :=
  let H := fresh in
  assert (H : map_Forall (fun i a => map_Forall (fun j b => R a b -> i = j) m) m) by computed;
  intros i j a b Ha Hb; exact (H i a Ha j b Hb).

Lemma fresh_sound : sound (tablesOf fresh).
Proof.
  split; try computed.
  - unique_column sameIdentity (cards (cardsDb fresh)).
  - unique_column (fun a b => CardGroup.Name a = CardGroup.Name b) (ap_groups fresh).
  - unique_column (fun a b => Profile.Name a = Profile.Name b) (profilesOf fresh).
  - unique_column sameTAR (ap_apps fresh).
Qed.

Lemma fresh_integrity : integrity (tablesOf fresh).
Proof.
  split; [exact fresh_sound|]. intros id [c Hc].
  assert (H : map_Forall (fun id _ => Exists (fun cmd => CampaignCommand.CampaignID cmd = id) (campaign_commands (cardsDb fresh)))
                (campaigns (cardsDb fresh))) by computed.
  destruct (proj1 (Exists_exists _ _) (H id c Hc)) as (cmd & Hin & Heq). by exists cmd.
Qed.

Definition requests : list request :=
  [ReqCreateCampaign (inr newCampaign); ReqStart "camp-1"; ReqAbort "camp-1"; ReqDeleteCard "card-3";
   ReqImport [] (Some (Ok csvHeader :: csvRows)); ReqDeleteGroup "group-1";
   ReqCreateProfile (inr (newProfile "second" [newApp "B00001" None])); ReqCreateProfile (inr (newProfile "third" [newApp "B0" None]));
   ReqCreateApplication "profile-1" (inr (newApp "B00010" None)); ReqDeleteApplication "profile-1" "app-1"; ReqDeleteProfile "profile-1";
   ReqUpdateProfile "profile-1" (inr (mkUpdateProfileRequest (Some "second") None None None None None));
   ReqCreateScript (inr script); ReqUploadCAP (Some ("applet.cap", Ok [1; 2; 3]))].
Definition after : Api :=
  foldl (fun a r => serve ControlScenario.parse ControlScenario.parse noTime ControlScenario.getenv unzip sha256 true true true false r a)
    fresh requests.
End IntegrityWitness.

Lemma requests_keep_integrity_witness :
  integrity (tablesOf IntegrityWitness.after) /\
  size (campaigns (cardsDb IntegrityWitness.after)) = 3%nat /\ size (cards (cardsDb IntegrityWitness.after)) = 3%nat /\
  length (cp_shards (ap_ctl IntegrityWitness.after)) = 2%nat /\ ap_members IntegrityWitness.after = [] /\
  size (profilesOf IntegrityWitness.after) = 2%nat /\ size (ap_apps IntegrityWitness.after) = 2%nat /\
  size (ap_scripts IntegrityWitness.after) = 1%nat /\ size (ap_caps IntegrityWitness.after) = 1%nat.
Proof.
  split; [|by vm_compute].
  apply (requests_keep_integrity ControlScenario.parse ControlScenario.parse ApiScenario.noTime ControlScenario.getenv
           ApiScenario.unzip ApiScenario.sha256 true true true false IntegrityWitness.requests ApiScenario.fresh).
  exact IntegrityWitness.fresh_integrity.
Defined.
