(* ===== verification/ApiProps.v ===== *)
(** * What the campaign handlers do

    Pages of a campaign's cards, what creating a campaign leaves in the
    tables, and why a campaign whose failed cards were reset cannot be started
    again. *)

From S2P Require Import Prelude Effects Models Pipeline Store HexUtil StateWriter Sql QueryStore Executor CampaignControl ControlScenario CampaignProps Api Cards CardGroups ApiScenario Integrity.

(** ** Pages *)

Lemma parseIntFrom_range n s : -2 ^ 63 <= n < 2 ^ 63 -> -2 ^ 63 <= parseIntFrom n s < 2 ^ 63.
Proof.
  revert n. induction s as [|c s IH]; intros n Hn; cbn [parseIntFrom]; [done|].
  destruct (digit_of c); [apply IH, i64_range | lia].
Qed.

Lemma pageParam_range v : 1 <= pageParam v < 2 ^ 63.
Proof.
  unfold pageParam, parseInt. pose proof (parseIntFrom_range 0 (String.list_ascii_of_string v) ltac:(lia)).
  case_bool_decide; [lia|]. cbv zeta. destruct (0 <? _) eqn:E; lia.
Qed.

Lemma sizeParam_range v n : 1 <= n <= 100 -> 1 <= sizeParam v n <= 100.
Proof. unfold sizeParam. case_bool_decide; [lia|]. cbv zeta. destruct (_ && _) eqn:E; lia. Qed.

Lemma pagination_bounds q page size offset :
  paginationParams q = (page, size, offset) -> 1 <= page < 2 ^ 63 /\ 1 <= size <= 100 /\ offset = i64 ((page - 1) * size).
Proof.
  unfold paginationParams. cbv zeta. intros [= <- <- <-]. pose proof (pageParam_range (q "page")). split; [done|].
  split; [by apply sizeParam_range, sizeParam_range|]. by rewrite (i64_small (_ - 1)) by lia.
Qed.

(** The number of pages is the quotient rounded up. *)
Lemma totalPages_ceil n size : 0 <= n -> 0 < size -> totalPages n size = (n + size - 1) `div` size.
Proof.
  intros Hn Hs. unfold totalPages. rewrite Z.quot_div_nonneg, Z.rem_mod_nonneg by lia.
  pose proof (Z.div_mod n size ltac:(lia)). pose proof (Z.mod_pos_bound n size ltac:(lia)).
  destruct (n `mod` size =? 0) eqn:E.
  - apply (Z.div_unique_pos _ _ _ (size - 1)); lia.
  - apply (Z.div_unique_pos _ _ _ (n `mod` size - 1)); lia.
Qed.

(** The campaign view returns exactly the requested page -- cards [(page-1)*size, page*size) cut to the list --
    and the number of pages rounded up, except that a page number whose offset overflows 64 bits into the
    negative makes the handler panic instead of returning an empty page. *)
Theorem campaign_page_exact q cards page size offset :
  paginationParams q = (page, size, offset) -> zlen cards < 2 ^ 62 ->
  campaignPage q cards =
    if offset <? 0 then Panic "slice bounds out of range"
    else Ok (take (Z.to_nat size) (drop (Z.to_nat offset) cards), (zlen cards + size - 1) `div` size).
Proof.
  intros Hq Hlen. unfold campaignPage. rewrite Hq. destruct (pagination_bounds q page size offset Hq) as (Hp & Hs & Ho).
  assert (Hn : 0 <= zlen cards) by (unfold zlen; lia). rewrite totalPages_ceil by lia.
  assert (Hoff : offset < 2 ^ 63) by (rewrite Ho; apply i64_range).
  destruct (zlen cards <? offset) eqn:E1; cbn [rbind].
  - replace (offset <? 0) with false by lia. rewrite i64_small by lia. replace (zlen cards <? zlen cards + size) with true by lia.
    rewrite slice_ok by lia. rewrite Z.sub_diag.
    by rewrite (drop_ge cards (Z.to_nat offset)), take_nil by (unfold zlen in *; lia).
  - destruct (offset <? 0) eqn:E0.
    + unfold slice. by replace (0 <=? offset) with false by lia.
    + rewrite i64_small by lia. destruct (zlen cards <? offset + size) eqn:E2.
      * rewrite slice_ok by lia. rewrite !take_ge; [done|..]; rewrite length_drop; unfold zlen in *; lia.
      * rewrite slice_ok by lia. by replace (offset + size - offset) with size by lia.
Qed.

(** ** Creating a campaign *)

(** Validation reads tables and changes none; what it answers is no success. *)
Definition validates {A} (m : AM (Response.t + A)) : Prop :=
  forall a r a', m a = (r, a') -> tablesOf a' = tablesOf a /\
    match r with Ok (inl resp) => Response.Code resp <> 201 | _ => True end.

Lemma validates_ret {A} (x : Response.t + A) :
  match x with inl resp => Response.Code resp <> 201 | _ => True end -> validates (ret x).
Proof. intros Hx a r a' [= <- <-]. by split. Qed.

Lemma validates_bind {A B} (m : AM (Response.t + A)) (f : Response.t + A -> Response.t + B) :
  validates m -> (forall x, match x with inl resp => Response.Code resp <> 201 | _ => True end ->
                            match f x with inl resp => Response.Code resp <> 201 | _ => True end) ->
  validates (do! x <- m; ret (f x)).
Proof.
  intros Hm Hf a r a'. unfold bindM. destruct (m a) as [[x|e|p] a1] eqn:E; intros [= <- <-];
    destruct (Hm a _ _ E) as [Ht Hr]; split; try done. by apply Hf.
Qed.

Lemma orElse_inv {A} (m : AM (Response.t + A)) k a r a' :
  validates m -> orElse m k a = (Ok r, a') ->
  (Response.Code r <> 201 /\ tablesOf a' = tablesOf a) \/
  exists x a1, m a = (Ok (inr x), a1) /\ tablesOf a1 = tablesOf a /\ k x a1 = (Ok r, a').
Proof.
  intros Hm. unfold orElse, bindM. destruct (m a) as [[[resp|x]|e|p] a1] eqn:E; [..|done|done]; destruct (Hm a _ _ E) as [Ht Hr].
  - intros [= <- <-]. by left.
  - intros H. right. eauto 10.
Qed.

Section Create.
Context (parse castUUID : string -> option string) (parseTime : string -> option Z).
Context (getenv : string -> string) (redis query_ wsHub : bool).

Lemma validates_parseOptional s msg : validates (parseOptional parse s msg).
Proof. apply validates_ret. destruct (bool_decide _); [done|]. by destruct (parse s). Qed.

Lemma validates_require b resp : Response.Code resp <> 201 -> validates (require b resp).
Proof. intros. apply validates_ret. by destruct b. Qed.

Lemma validates_parseList l msg : validates (parseList parse l msg).
Proof.
  induction l as [|s l IH]; cbn [parseList]; [by apply validates_ret|]. destruct (parse s); [|by apply validates_ret].
  apply validates_bind; [done|]. by intros [].
Qed.

Lemma validates_lookupApp app msg : validates (lookupApp parse app msg).
Proof.
  unfold lookupApp. destruct (parse app) as [id|]; [|by apply validates_ret].
  intros a r a'. unfold bindM, try, readApi, bindM, ask, gets, first. destruct (sys_fault _ _); cbn.
  - intros [= <- <-]. split; [done|]. by case_bool_decide.
  - destruct (ap_apps a !! id); cbn; intros [= <- <-]; split; try done; by case_bool_decide.
Qed.

Lemma validates_application app msg :
  validates (if bool_decide (app = "") then ret (inr tt) else lookupApp parse app msg).
Proof. destruct (bool_decide _); [by apply validates_ret | apply validates_lookupApp]. Qed.

Lemma validates_commandsFor type req : validates (commandsFor parse type req).
Proof.
  unfold commandsFor. destruct (rq_Commands req); [|by apply validates_ret].
  destruct (bool_decide _); [by apply validates_ret|].
  apply (validates_bind _ (fun r => match r with inl e => inl e | inr _ => _ end)); [apply validates_lookupApp|]. by intros [].
Qed.

(** The commands of a request that passes validation. *)
Definition campaignType (req : CreateCampaignRequest) : string :=
  if bool_decide (rq_CampaignType req = "") then rq_Type req else rq_CampaignType req.

Definition requestedCommands (req : CreateCampaignRequest) : list CommandRequest :=
  match rq_Commands req with
  | [] => [mkCommandRequest (rq_ApplicationID req) (placeholderScript (campaignType req) req) 1 true]
  | cmds => cmds
  end.

Lemma commandsFor_inv req a cmds a' :
  commandsFor parse (campaignType req) req a = (Ok (inr cmds), a') -> cmds = requestedCommands req.
Proof.
  unfold commandsFor, requestedCommands. destruct (rq_Commands req); [|by intros [= <-]].
  destruct (bool_decide _); [done|]. intros H. apply bind_inv in H as ([e|[]] & a1 & _ & H); [done|]. by injection H as <-.
Qed.

(** The ids a list of the request stands for. *)
Lemma parseList_inv l msg a ids a' : parseList parse l msg a = (Ok (inr ids), a') -> mapM parse l = Some ids.
Proof.
  revert a ids. induction l as [|s l IH]; intros a ids; cbn [parseList]; [by intros [= <-]|].
  destruct (parse s) as [id|] eqn:E; [|done]. intros H. apply bind_inv in H as ([e|ids'] & a1 & H1 & H); [done|].
  injection H as <- <-. apply IH in H1. cbn. by rewrite E, H1.
Qed.

Definition parsedOptional (s : string) (o : option string) : Prop :=
  if decide (s = "") then o = None else is_Some o /\ parse s = o.

Lemma parseOptional_inv s msg a o a' : parseOptional parse s msg a = (Ok (inr o), a') -> parsedOptional s o.
Proof.
  unfold parseOptional, parsedOptional, ret. case_bool_decide.
  - intros [= <-]. by rewrite decide_True.
  - rewrite decide_False by done. destruct (parse s) as [id|]; [|done]. intros [= <-]. eauto.
Qed.

Lemma creates_ext campaign cmds cs ps g id n a a1 a' a1' :
  tablesOf a1 = tablesOf a -> tablesOf a1' = tablesOf a' ->
  creates parse campaign cmds cs ps g id n a a' -> creates parse campaign cmds cs ps g id n a1 a1'.
Proof.
  intros Ht Ht'. injection Ht as Hdb _ Htg _ _ Hm _ _. injection Ht' as Hdb' _ Htg' _ _ _ _ _. intros [].
  assert (Hg : forall q, groupCards q a1 = groupCards q a) by (intros; apply groupCards_ext; congruence).
  split; rewrite ?Hdb, ?Hdb', ?Htg'; try done.
  intros t. rewrite cr_targets, Htg. unfold wanted. rewrite Hdb. by setoid_rewrite Hg.
Qed.

Lemma reload_inv c a c' a' : reload c a = (Ok c', a') -> tablesOf a' = tablesOf a.
Proof.
  unfold reload, bindM, try, query, bindM, ask, gets, first. destruct (sys_fault _ _); cbn; [by intros [= _ <-]|].
  destruct (campaigns _ !! _); cbn; by intros [= _ <-].
Qed.

(** What a successful answer to [req] means for the tables. *)
Definition creation (req : CreateCampaignRequest) (r : Response.t) (a a' : Api) : Prop :=
  exists cardIDs profile more group cap script id n,
    mapM parse (rq_CardIDs req) = Some cardIDs /\ parsedOptional (rq_ProfileID req) profile /\
    mapM parse (rq_ProfileIDs req) = Some more /\ parsedOptional (rq_CardGroupID req) group /\
    parsedOptional (rq_CAPFileID req) cap /\ parsedOptional (rq_ScriptID req) script /\
    creates parse (fun id => newCampaign id req cap script) (requestedCommands req) (dedup cardIDs) (dedup (option_list profile ++ more)) group id n a a' /\
    Response.Fields r = [("card_count", VInt n)].

(** The transaction and what follows it. *)
Lemma transaction_exact req campaign cs ps g a r a' :
  rq_StartImmediately req = false -> (forall id, Campaign.ID (campaign id) = id) ->
  (do! t <- try (transaction (createTx parse campaign (requestedCommands req) cs ps g));
   match t with
   | Err e => ret (if contains (Error e) "do not belong to the application's profile" || contains (Error e) "no target cards specified"
                   then errorResponse 400 (Error e) else errorResponse 500 "failed to create campaign")
   | Panic p => mres (Panic p)
   | Ok (campaignID, targetCount) => afterCreate getenv redis query_ wsHub (rq_StartImmediately req) (campaign campaignID) targetCount
   end) a = (Ok r, a') ->
  (Response.Code r <> 201 /\ tablesOf a' = tablesOf a) \/
  (Response.Code r = 201 /\ exists id n, creates parse campaign (requestedCommands req) cs ps g id n a a' /\ Response.Fields r = [("card_count", VInt n)]).
Proof.
  intros Hns Hid H. apply bind_inv in H as (t & a1 & H1 & H). unfold try in H1.
  destruct (transaction _ a) as [[[id n]|e|p] a2] eqn:E; [injection H1 as <- <-..|done].
  - right. apply transaction_inv in E as (a0 & k1 & k2 & Hrun & ->). apply createTx_inv in Hrun; [|done].
    unfold afterCreate in H. rewrite Hns in H. apply bind_inv in H as (c & a3 & Hc & H). apply reload_inv in Hc. injection H as <- <-.
    split; [done|]. exists id, n. split; [|done]. by eapply creates_ext; [.. | exact Hrun].
  - left. pose proof (transaction_atomic _ _ _ _ E eq_refl) as Hs. injection H as <- <-. split; [|exact Hs]. by destruct (_ || _).
Qed.

(** Past one more check. *)
Ltac next H a0 H0 Ht0 lem :=
  apply orElse_inv in H as [[? ?]|(? & a0 & H0 & Ht0 & H)]; [left; split; [done | congruence] | | lem].

End Create.

(** ** Starting again *)

Section Restart.
Context (getenv : string -> string) (redis query_ wsHub : bool) (c : string).

(** The campaign has been started before: its first shard exists. *)
Definition startedBefore (s : Control) : Prop := (c, 1) ∈ shardKey <$> cp_shards s.

Lemma started_frame c' s s' : frame c' s s' -> startedBefore s -> startedBefore s'.
Proof. intros (_ & _ & new & E & _) H. unfold startedBefore in *. rewrite E, fmap_app. set_solver. Qed.

Lemma createShard_fails sh s : shardKey sh = (c, 1) -> startedBefore s -> is_ok (fst (createShard sh s)) = false.
Proof.
  intros Hk Hs. unfold createShard, bindM, ask, gets. destruct (sys_fault _ _); [done|]. case_bool_decide as Hu; [|done].
  destruct Hu as [_ Hu]. rewrite fmap_app in Hu. apply NoDup_app in Hu as (_ & Hu & _).
  destruct (Hu (c, 1) Hs). cbn. rewrite Hk. set_solver.
Qed.

(** The shards of a start are numbered from one. *)
Lemma startBatch_fails step at_ batch n s : startedBefore s -> is_ok (fst (startBatch c step at_ batch (n, 1) s)) = false.
Proof.
  intros Hs. destruct (startBatch c step at_ batch (n, 1) s) as [[r|e|p] s'] eqn:E; [|done..]. exfalso.
  unfold startBatch in E. apply bind_inv in E as (events & s1 & H1 & E).
  pose proof (keeps_activationEvents c step at_ batch s) as Hk. rewrite H1 in Hk. apply (keeps_frame c) in Hk.
  apply bind_inv in E as (id & s2 & H2 & E). injection H2 as <- <-. apply bind_inv in E as (at' & s3 & H3 & E). injection H3 as <- <-.
  apply bind_inv in E as ([] & s4 & H4 & E). apply wrap_inv in H4.
  match type of H4 with createShard ?sh ?s = _ => pose proof (createShard_fails sh s eq_refl) as Hf end.
  rewrite H4 in Hf. cbn in Hf. unfold startedBefore in *. cbn in *. apply (started_frame _ _ _ Hk) in Hs. by specialize (Hf Hs).
Qed.

Lemma startTx_fails step at_ s : startedBefore s -> is_ok (fst (startTx getenv c step at_ s)) = false.
Proof.
  intros Hs. destruct (startTx getenv c step at_ s) as [[r|e|p] s'] eqn:E; [|done..]. exfalso.
  unfold startTx in E. apply bind_inv in E as ([] & s1 & H1 & E).
  pose proof (frame_exec (startedCampaign at_) c s) as Hk. rewrite H1 in Hk. apply (started_frame _ _ _ Hk) in Hs.
  apply bind_inv in E as (acc & s2 & H2 & E). unfold forEachCampaignTargetBatch in H2.
  apply bind_inv in H2 as (fuel & s3 & H3 & H2). injection H3 as <- <-. cbn [targetLoop] in H2.
  apply bind_inv in H2 as (page & s4 & H4 & H2). unfold readTable, bindM, ask, gets in H4.
  destruct (sys_fault _ _); [done|]. injection H4 as <- <-.
  destruct (targetPage _ _ _ _) as [|x l]; [injection H2 as <- <-; by cbn in E|].
  apply bind_inv in H2 as (acc1 & s5 & H5 & H2).
  match type of H5 with startBatch _ _ _ _ _ ?s = _ => pose proof (startBatch_fails step at_ (x :: l) 0 s Hs) as Hf end.
  rewrite H5 in Hf. done.
Qed.

Lemma start_fails s : startedBefore s -> is_ok (fst (StartCampaign getenv redis query_ wsHub c s)) = false.
Proof.
  intros Hs. destruct (StartCampaign getenv redis query_ wsHub c s) as [[r|e|p] s'] eqn:E; [|done..]. exfalso.
  unfold StartCampaign in E. apply bind_inv in E as (n & s1 & H1 & E).
  pose proof (keeps_pendingCount s) as Hk. rewrite H1 in Hk. apply (keeps_frame c), (fun H => started_frame _ _ _ H Hs) in Hk. clear Hs.
  destruct (_ <? _); [done|]. apply bind_inv in E as ([campaign cmds] & s2 & H2 & E).
  pose proof (keeps_wrap_load ("load campaign " +:+ c +:+ ": %w") (loadCampaign c) s1) as Hk2. rewrite H2 in Hk2.
  apply (keeps_frame c), (fun H => started_frame _ _ _ H Hk) in Hk2.
  destruct (negb _); [done|]. destruct cmds as [|cmd cmds]; [done|].
  apply bind_inv in E as (at_ & s3 & H3 & E). injection H3 as <- <-. set (s3 := set_cp_sys _ s2) in E.
  assert (Hs3 : startedBefore s3) by exact Hk2.
  apply bind_inv in E as ([] & s4 & H4 & E).
  pose proof (keeps_cache redis c (cmd :: cmds) s3) as Hk4. rewrite H4 in Hk4.
  apply (keeps_frame c), (fun H => started_frame _ _ _ H Hs3) in Hk4.
  apply bind_inv in E as ([] & s5 & H5 & E).
  assert (Hk5 : startedBefore s5).
  { apply (started_frame c s4); [|done]. apply keeps_frame. destruct query_; [|by injection H5 as <-]. cbn [mwhen] in H5.
    pose proof (preserves_forEach keeps (fun _ _ H => H) getenv c (campaignShardSize getenv)
      (initializeBatch c (CampaignCommand.Sequence cmd) (sys_now (cp_sys s2) (tick (cp_sys s2)))) tt (fun b a => keeps_initialize _ _ _ b a) s4) as Hp.
    by rewrite H5 in Hp. }
  apply bind_inv in E as (pending & s6 & H6 & _). apply wrap_inv in H6.
  apply transaction_inv in H6 as (s7 & k1 & k2 & Hrun & _).
  match type of Hrun with startTx _ _ ?step ?t ?s = _ => pose proof (startTx_fails step t s Hk5) as Hf end.
  rewrite Hrun in Hf. done.
Qed.

(** A campaign that was started once cannot be started again: its shards are numbered from one as before, the
    unique key on (campaign, sequence) refuses the first of them, and the transaction rolls back.  So after
    RetryFailedCards, which sets a finished campaign back to pending so that it can be restarted, every start
    is answered with an error and the cards it reset are never activated. *)
Theorem restart_always_fails parse id a r a' :
  parse id = Some c -> startedBefore (ap_ctl a) ->
  API_StartCampaign parse getenv redis query_ wsHub id a = (r, a') ->
  forall resp, r = Ok resp -> Response.Code resp <> 200 /\ is_Some (Response.ErrorText resp).
Proof.
  intros Hp Hs H resp ->. unfold API_StartCampaign, withID in H. rewrite Hp in H. pose proof (start_fails _ Hs) as Hf.
  unfold bindM, try, on_ctl in H. destruct (StartCampaign _ _ _ _ _ _) as [[[]|e|p] s1]; [done| |done].
  injection H as <- <-. cbn. split; [by destruct (contains _ _) | done].
Qed.
End Restart.

(** *** Witnesses *)

Module PageWitness.
Definition query (page size key : string) : string :=
  if bool_decide (key = "page") then page else if bool_decide (key = "per_page") then size else "".
Definition view (card : string) : CampaignCardView.t :=
  CampaignCardView.mk card "completed" 1 0 "" "" 0.
Definition views : list CampaignCardView.t := view <$> ["card-1"; "card-2"; "card-3"; "card-4"; "card-5"].
End PageWitness.

Lemma campaign_page_exact_witness :
  campaignPage (PageWitness.query "2" "2") PageWitness.views = Ok ([PageWitness.view "card-3"; PageWitness.view "card-4"], 3) /\
  campaignPage (PageWitness.query "9223372036854775807" "20") PageWitness.views = Panic "slice bounds out of range".
Proof.
  split.
  - apply (campaign_page_exact (PageWitness.query "2" "2") PageWitness.views 2 2 2); by vm_compute.
  - apply (campaign_page_exact (PageWitness.query "9223372036854775807" "20") PageWitness.views 9223372036854775807 20 (-40)); by vm_compute.
Defined.


(** Camp-1 failed once and was set back to pending. *)
Module RestartWitness.
Definition a : Api :=
  ApiScenario.api (ControlScenario.database "pending" [ControlScenario.row "card-1" "pending" 1 3] ∅)
    [ControlScenario.shard "s-1" "published" 1 []].
Definition run : res Response.t * Api :=
  API_StartCampaign ControlScenario.parse ControlScenario.getenv true false true "camp-1" a.
End RestartWitness.

Lemma restart_always_fails_witness :
  exists resp, fst RestartWitness.run = Ok resp /\ Response.Code resp <> 200 /\ is_Some (Response.ErrorText resp).
Proof.
  pose (resp := match fst RestartWitness.run with Ok r => r | _ => Response.mk 0 None [] None end).
  assert (E : fst RestartWitness.run = Ok resp) by (by vm_compute).
  exists resp. split; [exact E|].
  refine (restart_always_fails ControlScenario.getenv true false true "camp-1" ControlScenario.parse "camp-1" RestartWitness.a
            _ _ eq_refl _ (surjective_pairing _) resp E).
  by left.
Defined.
