(* ===== verification/ImportProps.v ===== *)
(** * What an import of cards reports

    Every data row of the uploaded file is counted once, as created, skipped or
    failed, and the number of created cards is the growth of the table, whatever
    the environment answers and whatever the temporary table held before. *)

From S2P Require Import Prelude Effects Models Pipeline Store HexUtil StateWriter Sql QueryStore Executor CampaignControl ControlScenario CardKeyStore Api Cards CardGroups ApiScenario Integrity Requests.

(** The number of cards, at the levels of the state. *)
Definition count_ok (n : nat) (a : Api) : Prop := size (cards (cardsDb a)) = n.
Definition count_db (n : nat) (y : Sys) : Prop := size (cards (db y)) = n.
#[local] Instance count_respects n : Respects (count_ok n).
Proof. intros a y (Hc & _) H. unfold count_ok, cardsDb in *. cbn. by rewrite Hc. Qed.
#[local] Instance count_db_respects n : Respects (count_db n).
Proof. intros s y (Hc & _) H. unfold count_db in *. cbn. by rewrite Hc. Qed.
#[local] Instance count_db_rolls_back n : RollsBack (count_db n).
Proof. intros s s' H. exact H. Qed.

Lemma count_on_sys n {A} (m : M Sys A) : (forall k, holds (count_db k) m) -> holds (count_ok n) (on_ctl (on_sys m)).
Proof. intros Hm a Ha. unfold on_ctl, on_sys. specialize (Hm n (cp_sys (ap_ctl a)) Ha). by destruct (m (cp_sys (ap_ctl a))). Qed.

Section CardImport.
Context (parse : string -> option string) (cardKeys : bool).

Lemma count_WriteCardKeysBatch n l : holds (count_db n) (WriteCardKeysBatch parse l).
Proof.
  unfold WriteCardKeysBatch. destruct l as [|x l]; holds_auto. generalize (x :: l). intros l'.
  induction l' as [|r l' IH]; cbn [writeRecords]; unfold parseCardID; holds_auto.
  apply holds_bind; [apply holds_ask; apply _|]. intros [er|]; [apply holds_err|]. apply holds_modify. intros y Hy.
  unfold count_db in *. cbn. rewrite <- Hy, <- !size_dom. by rewrite dom_alter_L.
Qed.

Lemma count_syncBatch n ids batch : holds (count_ok n) (syncBatch parse cardKeys ids batch).
Proof. unfold syncBatch. holds_auto; apply count_on_sys; intros; apply count_WriteCardKeysBatch. Qed.

Lemma count_assignIDs n batch : holds (count_ok n) (assignIDs batch).
Proof. induction batch; cbn [assignIDs]; holds_auto. Qed.

Lemma assignIDs_length batch a batch' a' : assignIDs batch a = (Ok batch', a') -> length batch' = length batch.
Proof.
  revert a batch'. induction batch as [|c batch IH]; intros a batch'; cbn [assignIDs]; [by intros [= <-]|].
  intros H. apply bind_inv in H as (c' & a1 & _ & H). apply bind_inv in H as (l & a2 & H2 & H). injection H as <- <-.
  apply IH in H2. cbn. lia.
Qed.

(** Each id returned is a new row. *)
Lemma insertCards_size m ids rows :
  (size (fst (foldl insertCard (m, ids) rows)) + length ids = size m + length (snd (foldl insertCard (m, ids) rows)))%nat.
Proof.
  clear parse cardKeys.
  revert m ids. induction rows as [|c rows IH]; intros m ids; cbn; [lia|]. case_bool_decide as Hc; [apply IH|].
  specialize (IH (<[Card.ID c := c]> m) (ids ++ [Card.ID c])). rewrite length_app in IH. cbn in IH.
  rewrite map_size_insert_None in IH; [lia|]. apply eq_None_not_Some. intros Hs. apply Hc. by left.
Qed.

(** [grows k a a']: the table has [k] cards more. *)
Definition grows (k : Z) (a a' : Api) : Prop := Z.of_nat (size (cards (cardsDb a'))) = Z.of_nat (size (cards (cardsDb a))) + k.

Lemma quiet_run {A} (m : AM A) a r a' : (forall n, holds (count_ok n) m) -> m a = (r, a') -> grows 0 a a'.
Proof.
  intros Hm H. specialize (Hm _ a eq_refl). rewrite H in Hm. unfold count_ok in Hm. cbn in Hm. unfold grows. lia.
Qed.

Lemma insertFromTemp_inv temp a ids a' : insertFromTemp temp a = (Ok ids, a') -> grows (zlen ids) a a'.
Proof.
  unfold insertFromTemp, bindM, ask, gets. destruct (sys_fault _ _); [done|].
  destruct (insertCards _ _) as [m ids0] eqn:E. destruct (negb _); [done|]. destruct (negb _); [done|]. intros [= <- <-].
  unfold insertCards in E. pose proof (insertCards_size (cards (cardsDb a)) [] temp) as H. cbn in E. unfold cardsDb in *. cbn in *.
  rewrite E in H. cbn in H. unfold grows, zlen, cardsDb. cbn. lia.
Qed.

Lemma count_trans j k a a1 a' : grows j a a1 -> grows k a1 a' -> grows (j + k) a a'.
Proof. unfold grows. lia. Qed.

Lemma BulkInsertCards_inv temp batch a result batch' temp' a' :
  BulkInsertCards temp batch a = (Ok (result, batch', temp'), a') ->
  bi_Inserted result + bi_Skipped result = zlen batch /\ grows (bi_Inserted result) a a'.
Proof.
  unfold BulkInsertCards. destruct batch as [|c batch]; [intros [= <- <- <- <-]; split; [done | unfold grows; cbn; lia]|].
  intros H. apply bind_inv in H as (l & a1 & H1 & H). pose proof (assignIDs_length _ _ _ _ H1) as Hlen.
  apply quiet_run in H1; [|intros; apply count_assignIDs].
  apply bind_inv in H as (f1 & a2 & H2 & H). apply quiet_run in H2; [|intros; apply holds_ask, _]. destruct f1; [done|].
  apply bind_inv in H as (f2 & a3 & H3 & H). apply quiet_run in H3; [|intros; apply holds_ask, _].
  destruct f2. { apply bind_inv in H as (? & ? & _ & H). done. }
  apply bind_inv in H as (r & a4 & H4 & H). unfold try in H4.
  destruct (insertFromTemp _ a3) as [[ids|e|p] a5] eqn:E; [|injection H4 as <- <-; by apply bind_inv in H as (? & ? & _ & H) | done].
  injection H4 as <- <-. apply insertFromTemp_inv in E.
  apply bind_inv in H as (t & a6 & H6 & H). apply quiet_run in H6; [|intros; unfold truncate; holds_auto].
  injection H as <- <- <- <-. cbn. split; [unfold zlen; lia|]. unfold grows in *. lia.
Qed.

(** ** Rows *)

(** Rows accounted for so far. *)
Definition accounted (st : Import) : Z := im_created st + im_skipped st + im_errors st + zlen (im_batch st).

Definition advances (k : Z) (st st' : Import) (a a' : Api) : Prop :=
  accounted st' = accounted st + k /\ grows (im_created st' - im_created st) a a'.

Lemma flushBatch_inv st a st' a' :
  flushBatch parse cardKeys st a = (Ok st', a') -> advances 0 st st' a a' /\ im_batch st' = [].
Proof.
  unfold flushBatch. destruct (im_batch st) as [|c l] eqn:Eb.
  - intros [= <- <-]. split; [|done]. split; [lia|]. unfold grows. lia.
  - intros H. apply bind_inv in H as ([[result batch] temp] & a1 & H1 & H). apply BulkInsertCards_inv in H1 as [H1 Hg].
    apply bind_inv in H as ([] & a2 & H2 & H). apply quiet_run in H2; [|intros; apply count_syncBatch].
    injection H as <- <-. split; [|done]. unfold advances, accounted.
    cbn [im_created im_skipped im_errors im_batch]. rewrite Eb, zlen_nil. split; [lia|].
    unfold grows in *. lia.
Qed.

Lemma pushCard_inv st c a st' a' : pushCard parse cardKeys st c a = (Ok st', a') -> advances 1 st st' a a'.
Proof.
  unfold pushCard. destruct (batchSize <=? _).
  - intros [[H1 H2] _]%flushBatch_inv. split; [|done]. rewrite H1. unfold accounted. cbn [im_created im_skipped im_errors im_batch]. rewrite zlen_app, zlen_cons, zlen_nil. lia.
  - intros [= <- <-]. unfold advances, accounted, grows. cbn [im_created im_skipped im_errors im_batch]. rewrite zlen_app, zlen_cons, zlen_nil. lia.
Qed.

Lemma importFields_inv st fields a st' a' :
  length fields = 6%nat -> importFields parse cardKeys st fields a = (Ok st', a') -> advances 1 st st' a a'.
Proof.
  intros Hf. unfold importFields. destruct (bool_decide _).
  { intros [= <- <-]. unfold advances, accounted, grows. cbn. lia. }
  do 6 (destruct fields as [|? fields]; [done|]). destruct fields; [|done].
  intros H. apply bind_inv in H as ([profileID st1] & a1 & H1 & H).
  assert (Hr : grows 0 a a1 /\ match profileID with
             | None => accounted st1 = accounted st + 1 /\ im_created st1 = im_created st
             | Some _ => accounted st1 = accounted st /\ im_created st1 = im_created st end).
  { split; [eapply quiet_run; [|exact H1]; intros n; unfold resolveProfile; holds_auto|].
    unfold resolveProfile in H1. destruct (im_profiles st !! _); [by injection H1 as <- <- <-|].
    apply bind_inv in H1 as (r & a2 & _ & H1). destruct r; [injection H1 as <- <- <-; unfold accounted; cbn; lia..|done]. }
  destruct Hr as [Hg Hr]. destruct profileID as [profileID|]; [|injection H as <- <-; split; [lia | unfold grows in *; lia]].
  destruct (Decode _) as [encKey|e|p]; [|injection H as <- <-; unfold advances, accounted, grows in *; cbn; lia | done].
  destruct (Decode _) as [authKey|e|p]; [|injection H as <- <-; unfold advances, accounted, grows in *; cbn; lia | done].
  apply pushCard_inv in H as [H1' H2']. unfold advances, grows in *. lia.
Qed.

Lemma columns_length m record cols a vs a' : columns m record cols a = (Ok vs, a') -> length vs = length cols /\ a' = a.
Proof.
  revert a vs. induction cols as [|col cols IH]; intros a vs; cbn [columns]; [by intros [= <- <-]|].
  intros H. apply bind_inv in H as (v & a1 & H1 & H). apply bind_inv in H as (l & a2 & H2 & H). injection H as <- <-.
  apply IH in H2 as [H2 ->]. unfold column in H1. apply bind_inv in H1 as (x & a3 & H3 & H1). injection H1 as <- <-.
  destruct (index _ _); [|done..]. injection H3 as <- <-. cbn. by rewrite H2.
Qed.

Lemma importRow_inv m st row a st' a' : importRow parse cardKeys m st row a = (Ok st', a') -> advances 1 st st' a a'.
Proof.
  unfold importRow. destruct row as [record|e|p]; [| |done].
  - intros H. apply bind_inv in H as (fields & a1 & H1 & H). apply columns_length in H1 as [H1 ->].
    by apply importFields_inv in H.
  - intros [= <- <-]. unfold advances, accounted, grows. cbn. lia.
Qed.

Lemma importRows_inv m st rows a st' a' :
  importRows parse cardKeys m st rows a = (Ok st', a') -> advances (zlen rows) st st' a a' /\ im_batch st' = [].
Proof.
  revert st a. induction rows as [|row rows IH]; intros st a; cbn [importRows]; [apply flushBatch_inv|].
  intros H. apply bind_inv in H as (st1 & a1 & H1%importRow_inv & [H2 Hb]%IH). split; [|done].
  rewrite zlen_cons. unfold advances, grows in *. lia.
Qed.

End CardImport.

