(* ===== verification/ViewProps.v ===== *)
(** * What the reading handlers promise

    A calculus for computations that only read -- [peeks m]: whatever the environment answers, [m] does not panic and
    changes nothing but the number of questions asked -- and the theorems about the handlers of [Views], [Dashboard],
    [Monitoring] and [Debug]: they answer and change nothing, the dashboard is at most two seconds old and its figures add up, and a
    campaign that is done is not reported as stuck once the completion checker ran. *)

From S2P Require Import Prelude Effects Models Pipeline Store HexUtil StateWriter StateWriterProps Sql QueryStore Executor CampaignControl ControlScenario QueryStoreProps CampaignProps Completion BatchPreload CardKeyStore MessageHistory Api Search Cards CardGroups Profiles Assets ApiScenario Lists Views Dashboard Monitoring Debug.

(** ** Reading computations *)

Class SysLaws (S : Type) `{!HasSys S} : Prop := {
  get_set y (s : S) : sys (set_sys y s) = y;
  set_set y y' (s : S) : set_sys y' (set_sys y s) = set_sys y' s;
  set_get (s : S) : set_sys (sys s) s = s
}.

#[global] Instance laws_Sys : SysLaws Sys.
Proof. by split. Qed.
#[global] Instance laws_pair T : SysLaws (Sys * T).
Proof. split; by intros; destruct s. Qed.
#[global] Instance laws_Control : SysLaws Control.
Proof. split; by intros; destruct s. Qed.
#[global] Instance laws_Api : SysLaws Api.
Proof. split; by intros; destruct s as [[] ]. Qed.
#[global] Instance laws_Views : SysLaws Views.
Proof. split; by intros; destruct s as [[[] ] ]. Qed.

(** The state [n] questions into the run. *)
Definition at_tick {S} `{!HasSys S} (n : nat) (s : S) : S := set_sys (set_tick n (sys s)) s.
#[global] Arguments at_tick : simpl never.

Definition peeks {S A} `{!HasSys S} (m : M S A) : Prop :=
  forall s, no_panic (fst (m s)) /\ exists n, snd (m s) = at_tick n s.

Section Reads.
Context {S : Type} `{!HasSys S, !SysLaws S}.

Lemma at_tick_tick n k (s : S) : at_tick n (at_tick k s) = at_tick n s.
Proof. unfold at_tick. by rewrite set_set, get_set. Qed.
Lemma at_tick_same (s : S) : at_tick (tick (sys s)) s = s.
Proof.
  assert (E : forall y, set_tick (tick y) y = y) by (by intros []). unfold at_tick. by rewrite E, set_get.
Qed.

Lemma peeks_stay {A} (r : res A) : no_panic r -> peeks (mres r : M S A).
Proof. intros Hr s. split; [done|]. exists (tick (sys s)). by rewrite at_tick_same. Qed.
Lemma peeks_ret {A} (a : A) : peeks (ret a : M S A).
Proof. by apply (peeks_stay (Ok a)). Qed.
Lemma peeks_err {A} e : peeks (merr e : M S A).
Proof. by apply (peeks_stay (Err e)). Qed.
Lemma peeks_gets {A} (f : S -> A) : peeks (gets f).
Proof. intros s. split; [done|]. exists (tick (sys s)). by rewrite at_tick_same. Qed.
Lemma peeks_first {A} (o : option A) : peeks (first o : M S A).
Proof. destruct o; [apply peeks_ret | apply peeks_err]. Qed.
Lemma peeks_ask {A} (f : Sys -> nat -> A) : peeks (ask f : M S A).
Proof. intros s. split; [done|]. by eexists. Qed.
Lemma peeks_bind {A B} (m : M S A) (k : A -> M S B) : peeks m -> (forall a, peeks (k a)) -> peeks (bindM m k).
Proof.
  intros Hm Hk s. unfold bindM. destruct (Hm s) as [Hp (n & Hn)]. destruct (m s) as [[a|e|p] s']; cbn in *; [|by eauto|done].
  subst s'. destruct (Hk a (at_tick n s)) as [Hp' (n' & Hn')]. split; [done|]. exists n'. by rewrite Hn', at_tick_tick.
Qed.
Lemma peeks_wrap {A} fmt (m : M S A) : peeks m -> peeks (mwrap fmt m).
Proof. intros Hm s. specialize (Hm s). unfold mwrap. by destruct (m s) as [[] ]. Qed.

(** [v, err := m] with the two cases of the error. *)
Lemma peeks_try {A B} (m : M S A) (k : res A -> M S B) :
  peeks m -> (forall a, peeks (k (Ok a))) -> (forall e, peeks (k (Err e))) -> peeks (do! r <- try m; k r).
Proof.
  intros Hm Ha He s. unfold bindM, try. destruct (Hm s) as [Hp (n & Hn)]. destruct (m s) as [[a|e|p] s']; cbn in *; [| |done]; subst s'.
  - destruct (Ha a (at_tick n s)) as [Hp' (n' & Hn')]. split; [done|]. exists n'. by rewrite Hn', at_tick_tick.
  - destruct (He e (at_tick n s)) as [Hp' (n' & Hn')]. split; [done|]. exists n'. by rewrite Hn', at_tick_tick.
Qed.
Lemma peeks_tried {A} (m : M S A) : peeks m -> peeks (try m).
Proof. intros Hm s. specialize (Hm s) as [Hp Hn]. unfold try. by destruct (m s) as [[] ]. Qed.
Lemma peeks_ignore {A} (m : M S A) : peeks m -> peeks (ignore m).
Proof. intros Hm. apply (peeks_try m (fun _ => ret tt)); intros; [done | apply peeks_ret..]. Qed.
Lemma peeks_query {A} (f : Database -> A) : peeks (query f : M S A).
Proof. apply peeks_bind; [apply peeks_ask|]. intros []; [apply peeks_err | apply peeks_gets]. Qed.
End Reads.

Create HintDb peeks.
#[export] Hint Resolve peeks_ret peeks_err peeks_gets peeks_first peeks_ask peeks_bind peeks_wrap peeks_tried peeks_ignore peeks_query : peeks.
#[export] Hint Extern 0 (SysLaws _) => apply _ : peeks.

(** Steps of the calculus, through the branches of a handler. *)
Ltac peeks_step :=
  match goal with
  | |- forall x : ?A * ?B, _ => intros [? ?]
  | |- forall _, _ => intro
  | |- peeks (bindM (try _) _) => apply peeks_try
  | |- peeks (bindM _ _) => apply peeks_bind
  | |- peeks (if ?b then _ else _) => destruct b
  | |- peeks (match ?x with _ => _ end) => destruct x
  | |- peeks (now) => apply peeks_ask
  | |- _ => solve [eauto 4 with peeks]
  end.
Ltac peeks_auto := repeat peeks_step.

(** ** The lifts *)

Lemma peeks_readApi {A} (f : Api -> A) : peeks (readApi f).
Proof. unfold readApi. peeks_auto. Qed.
Lemma peeks_queryTable {A} (f : Table -> A) : peeks (queryTable f).
Proof. unfold queryTable. peeks_auto. Qed.
#[export] Hint Resolve peeks_readApi peeks_queryTable : peeks.

Lemma peeks_on_api {A} (m : AM A) : peeks m -> peeks (on_api m).
Proof.
  intros Hm v. unfold on_api. destruct (Hm (vw_api v)) as [Hp (n & Hn)]. destruct (m (vw_api v)) as [r a]. cbn in *. subst a. eauto.
Qed.
Lemma peeks_on_query {A} (m : M Sys A) : peeks m -> peeks (on_query m).
Proof.
  intros Hm. apply peeks_on_api. intros a. unfold on_ctl, on_sys. destruct (Hm (cp_sys (ap_ctl a))) as [Hp (n & Hn)].
  destruct (m (cp_sys (ap_ctl a))) as [r y]. cbn in *. subst y. eauto.
Qed.
Lemma peeks_on_history {A} (m : HM A) : peeks m -> peeks (on_history m).
Proof.
  intros Hm v. unfold on_history. destruct (Hm (sysOf v, vw_history v)) as [Hp (n & Hn)].
  destruct (m _) as [r [y t]]. cbn in *. injection Hn as -> ->. eauto.
Qed.
Lemma peeks_on_counters {A} (m : M (Sys * caches) A) : peeks m -> peeks (on_counters m).
Proof.
  intros Hm v. unfold on_counters. destruct (Hm (sysOf v, vw_caches v)) as [Hp (n & Hn)].
  destruct (m _) as [r [y t]]. cbn in *. injection Hn as -> ->. eauto.
Qed.
Lemma peeks_queried {A} (m : VM A) : peeks m -> peeks (queried true m).
Proof. done. Qed.
Lemma peeks_dropped {A} (d : A) (m : VM A) : peeks m -> peeks (dropped d m).
Proof. intros Hm. unfold dropped. peeks_auto. Qed.
Lemma peeks_preload {A} (rows : list A) : peeks (preload rows).
Proof. destruct rows; cbn; peeks_auto. Qed.
#[export] Hint Resolve peeks_on_api peeks_on_query peeks_on_history peeks_on_counters peeks_queried peeks_dropped
  peeks_preload : peeks.

(** ** Computations that return, handlers that answer *)

(** The codes the reading handlers answer with. *)
Definition codes : list Z := [200; 400; 404; 500; 503].

Definition returns {A} (m : VM A) : Prop := forall v, exists a n, m v = (Ok a, at_tick n v).
Definition serves {A} (m : VM (Response.t * A)) : Prop :=
  forall v, exists r n, m v = (Ok r, at_tick n v) /\ Response.Code (fst r) ∈ codes.

Lemma returns_ret {A} (a : A) : returns (ret a).
Proof. intros v. exists a, (tick (sys v)). by rewrite at_tick_same. Qed.
Lemma returns_ask {A} (f : Sys -> nat -> A) : returns (ask f).
Proof. intros v. by eexists _, _. Qed.
Lemma returns_try {A} (m : VM A) : peeks m -> returns (try m).
Proof. intros Hm v. destruct (Hm v) as [Hp (n & Hn)]. unfold try. destruct (m v) as [[] ]; cbn in *; subst; eauto; done. Qed.
Lemma returns_bind {A B} (m : VM A) (k : A -> VM B) : returns m -> (forall a, returns (k a)) -> returns (bindM m k).
Proof.
  intros Hm Hk v. unfold bindM. destruct (Hm v) as (a & n & ->). destruct (Hk a (at_tick n v)) as (b & n' & ->). exists b, n'. by rewrite at_tick_tick.
Qed.
Lemma returns_ignore {A} (m : VM A) : peeks m -> returns (ignore m).
Proof. intros Hm. apply returns_bind; [by apply returns_try | intros; apply returns_ret]. Qed.
Lemma returns_dropped {A} (d : A) (m : VM A) : peeks m -> returns (dropped d m).
Proof.
  intros Hm v. unfold dropped, bindM, try. destruct (Hm v) as [Hp (n & Hn)]. destruct (m v) as [[] ]; cbn in *; subst; [by eexists _, _..|done].
Qed.

Lemma serves_ret {A} (r : Response.t) (a : A) : Response.Code r ∈ codes -> serves (ret (r, a)).
Proof. intros Hr v. exists (r, a), (tick (sys v)). by rewrite at_tick_same. Qed.
Lemma serves_answer {A} fields (a : A) : serves (answer fields a).
Proof. apply serves_ret. by left. Qed.
Lemma serves_refuse {A} code text : code ∈ codes -> serves (refuse code text : VM (Response.t * option A)).
Proof. intros Hc. by apply serves_ret. Qed.
Lemma serves_bind {A B} (m : VM A) (k : A -> VM (Response.t * B)) : returns m -> (forall a, serves (k a)) -> serves (bindM m k).
Proof.
  intros Hm Hk v. unfold bindM. destruct (Hm v) as (a & n & ->). destruct (Hk a (at_tick n v)) as (b & n' & -> & Hc). exists b, n'. by rewrite at_tick_tick.
Qed.
Lemma serves_try {A B} (m : VM A) (k : res A -> VM (Response.t * B)) :
  peeks m -> (forall a, serves (k (Ok a))) -> (forall e, serves (k (Err e))) -> serves (do! r <- try m; k r).
Proof.
  intros Hm Ha He v. unfold bindM, try. destruct (Hm v) as [Hp (n & Hn)]. destruct (m v) as [[a|e|p] v']; cbn in *; [| |done]; subst v'.
  - destruct (Ha a (at_tick n v)) as (b & n' & -> & Hc). exists b, n'. by rewrite at_tick_tick.
  - destruct (He e (at_tick n v)) as (b & n' & -> & Hc). exists b, n'. by rewrite at_tick_tick.
Qed.
Lemma serves_orFail {A B} text (m : VM B) (k : B -> VM (Response.t * option A)) :
  peeks m -> (forall b, serves (k b)) -> serves (orFail text m k).
Proof. intros Hm Hk. apply serves_try; [done..|]. intros e. apply serves_refuse. unfold codes. set_solver. Qed.
Lemma serves_orMissing {A B} missing text (m : VM B) (k : B -> VM (Response.t * option A)) :
  peeks m -> (forall b, serves (k b)) -> serves (orMissing missing text m k).
Proof.
  intros Hm Hk. apply serves_try; [done..|]. intros e. destruct (bool_decide _); apply serves_refuse; unfold codes; set_solver.
Qed.
Lemma serves_withUUID {A} parse id (k : string -> VM (Response.t * option A)) :
  (forall u, serves (k u)) -> serves (withUUID parse id k).
Proof. intros Hk. unfold withUUID. destruct (parse id); [done|]. apply serves_refuse. unfold codes. set_solver. Qed.

(** The steps through a handler. *)
Ltac peeks_walk :=
  repeat match goal with
  | |- serves (orFail _ _ _) => apply serves_orFail
  | |- serves (orMissing _ _ _ _) => apply serves_orMissing
  | |- serves (withUUID _ _ _) => apply serves_withUUID
  | |- serves (answer _ _) => apply serves_answer
  | |- serves (refuse _ _) => apply serves_refuse; unfold codes; set_solver
  | |- serves (ret _) => apply serves_ret; unfold codes; cbn; set_solver
  | |- serves (bindM (try _) _) => apply serves_try
  | |- serves (bindM _ _) => apply serves_bind
  | |- serves (if ?b then _ else _) => destruct b
  | |- serves (match ?x with _ => _ end) => destruct x
  | |- returns (ret _) => apply returns_ret
  | |- returns (ask _) => apply returns_ask
  | |- returns now => apply returns_ask
  | |- returns (try _) => apply returns_try
  | |- returns (ignore _) => apply returns_ignore
  | |- returns (dropped _ _) => apply returns_dropped
  | |- returns (bindM _ _) => apply returns_bind
  | |- returns (if ?b then _ else _) => destruct b
  | |- returns (match ?x with _ => _ end) => destruct x
  | |- peeks (dropped _ _) => apply peeks_dropped
  | |- peeks (queried true _) => apply peeks_queried
  | |- peeks (on_api _) => apply peeks_on_api
  | |- peeks (on_query _) => apply peeks_on_query
  | |- peeks (on_history _) => apply peeks_on_history
  | |- peeks (on_counters _) => apply peeks_on_counters
  | |- _ => peeks_step
  end.

(** ** The queries *)

Lemma peeks_GetCountersByCard parse id : peeks (GetCountersByCard parse id).
Proof. unfold GetCountersByCard, parseCardID. peeks_auto. Qed.
Lemma peeks_CampaignStatsBatch ids : peeks (CampaignStatsBatch ids).
Proof. unfold CampaignStatsBatch. peeks_auto. Qed.
Lemma peeks_CampaignStats id : peeks (QueryStore_CampaignStats id).
Proof. unfold QueryStore_CampaignStats. peeks_auto. Qed.
Lemma peeks_ListCampaignCards id st : peeks (ListCampaignCards id st).
Proof. unfold ListCampaignCards. peeks_auto. Qed.
Lemma peeks_ListFailedCardIDs id : peeks (ListFailedCardIDs id).
Proof. unfold ListFailedCardIDs. peeks_auto. Qed.
Lemma peeks_GetCardState id : peeks (QueryStore_GetCardState id).
Proof. unfold QueryStore_GetCardState. peeks_auto. Qed.
Lemma peeks_history_GetMessage id : peeks (MessageHistory.GetMessage id).
Proof. unfold MessageHistory.GetMessage. peeks_auto. Qed.
Lemma peeks_ListCardMessages id n : peeks (ListCardMessages id n).
Proof. unfold ListCardMessages. peeks_auto. Qed.
Lemma peeks_history_ListMessages f : peeks (MessageHistory.ListMessages f).
Proof. unfold MessageHistory.ListMessages. peeks_auto. Qed.
Lemma peeks_RecentActivity n : peeks (RecentActivity n).
Proof. unfold RecentActivity. peeks_auto. Qed.
Lemma peeks_messageMetrics t0 c : peeks (messageMetrics t0 c).
Proof. unfold messageMetrics. peeks_auto. Qed.
Lemma peeks_throughput t0 c w : peeks (throughput t0 c w).
Proof. unfold throughput. peeks_auto. Qed.
Lemma peeks_errorSummary t0 c : peeks (errorSummary t0 c).
Proof. unfold errorSummary. peeks_auto. Qed.
#[export] Hint Resolve peeks_GetCountersByCard peeks_CampaignStatsBatch peeks_CampaignStats peeks_ListCampaignCards peeks_ListFailedCardIDs
  peeks_GetCardState peeks_history_GetMessage peeks_ListCardMessages peeks_history_ListMessages peeks_RecentActivity peeks_messageMetrics
  peeks_throughput peeks_errorSummary : peeks.

(** ** The handlers *)

Section Handlers.
Context (parse castUUID : string -> option string) (fold : string -> string) (parseTime : string -> option Z).
Context (newest : forall A, list A -> list A) (byFailures : list campaignErrorCount -> list campaignErrorCount).
Context (counterRead : bool) (channelStats : option Channels).

Lemma serves_GetCard id : serves (GetCard parse castUUID counterRead true id).
Proof. unfold GetCard, cardWithProfile, firstCard, readRow. peeks_walk. Qed.

Lemma serves_GetCardCounters id : serves (GetCardCounters parse castUUID counterRead id).
Proof. unfold GetCardCounters, firstCard, readRow, appNames. peeks_walk. Qed.

Lemma serves_ListCampaigns query_ query : serves (ListCampaigns fold newest query_ query).
Proof. unfold ListCampaigns. peeks_walk. Qed.

Lemma returns_refreshKPIs t : returns (refreshKPIs true t).
Proof. unfold refreshKPIs, counted, metricsSince. peeks_walk. Qed.

(** The figures kept, while they may be shown. *)
Definition keptKPI (v : Views) (t : Z) : option KPI.t :=
  match vw_kpi v with Some (kpi, until_) => if t <? until_ then Some kpi else None | None => None end.

(** The time of the next reading of the clock. *)
Definition clock (v : Views) : Z := sys_now (sysOf v) (tick (sysOf v)).

Lemma computeKPIs_cases v :
  computeKPIsFromTables true v =
    match keptKPI v (clock v), refreshKPIs true (clock v) (at_tick (S (tick (sysOf v))) v) with
    | Some kpi, _ => (Ok kpi, at_tick (S (tick (sysOf v))) v)
    | None, (Ok kpi, v2) => (Ok kpi, set_vw_kpi (Some (kpi, clock v + twoSeconds)) v2)
    | None, r => r
    end.
Proof.
  unfold computeKPIsFromTables, keptKPI. rewrite (run_bind now _ v (clock v) (at_tick (S (tick (sysOf v))) v)) by done.
  rewrite (run_bind (gets vw_kpi) _ _ (vw_kpi v) (at_tick (S (tick (sysOf v))) v)) by done.
  destruct (vw_kpi v) as [[kpi u]|]; [destruct (clock v <? u); [done|]|]; unfold bindM at 1; by destruct (refreshKPIs _ _ _) as [[] ].
Qed.

(** The dashboard may also renew the figures it keeps. *)
Lemma GetDashboardKPIs_spec v :
  exists kpi n k, GetDashboardKPIs true v = (Ok (ok_ 200 [], Some (dashboardOf kpi)), set_vw_kpi k (at_tick n v)) /\
    (k = vw_kpi v /\ keptKPI v (clock v) = Some kpi \/
     k = Some (kpi, clock v + twoSeconds) /\ keptKPI v (clock v) = None /\
     exists n', refreshKPIs true (clock v) (at_tick (S (tick (sysOf v))) v) = (Ok kpi, at_tick n' v)).
Proof.
  unfold GetDashboardKPIs, bindM. rewrite computeKPIs_cases. destruct (keptKPI v (clock v)) as [kpi|].
  { exists kpi, (S (tick (sysOf v))), (vw_kpi v). split; [by destruct v | by left]. }
  destruct (returns_refreshKPIs (clock v) (at_tick (S (tick (sysOf v))) v)) as (kpi & n & E).
  rewrite E. rewrite at_tick_tick in *. exists kpi, n, (Some (kpi, clock v + twoSeconds)). split; [done|]. right. eauto.
Qed.

Lemma serves_GetRecentActivity : serves (GetRecentActivity true).
Proof. unfold GetRecentActivity, cardsByID. peeks_walk. Qed.
Lemma serves_GetSMSThroughput query : serves (GetSMSThroughput parse true query).
Proof. unfold GetSMSThroughput, CampaignThroughput, MinuteThroughput. peeks_walk. Qed.
Lemma serves_GetSystemHealth : serves GetSystemHealth.
Proof. unfold GetSystemHealth, connect, ping. peeks_walk. Qed.
Lemma filterByMSISDN_spec msisdn page pageSize f v :
  exists x n, filterByMSISDN msisdn page pageSize f v = (Ok x, at_tick n v) /\ forall r, x = inl r -> Response.Code r ∈ codes.
Proof.
  unfold filterByMSISDN. destruct (bool_decide _).
  { exists (inr f), (tick (sys v)). by rewrite at_tick_same. }
  assert (Hr : peeks (on_api (do! o <- readApi (cardOfMSISDN msisdn); first o))) by peeks_walk.
  unfold bindM at 1, try. destruct (Hr v) as [Hp (n & Hn)]. destruct (on_api _ v) as [[c|e|p] v']; cbn in *; [| |done]; subst v'.
  - by eexists _, n.
  - eexists _, n. split; [done|]. intros r [= <-]. destruct (bool_decide _); unfold codes; cbn; set_solver.
Qed.
Lemma serves_listFiltered query page pageSize f : serves (listFiltered parse parseTime true query page pageSize f).
Proof.
  unfold listFiltered, filterByCampaign. destruct (bool_decide _); [|destruct (parse _)]; peeks_walk.
Qed.
Lemma serves_ListMessages query : serves (ListMessages parse parseTime true query).
Proof.
  unfold ListMessages, scyllaMessageFilterFromRequest. destruct (paginationParams query) as [[page pageSize] ?].
  apply serves_bind; [peeks_walk|]. intros f v. unfold bindM at 1.
  destruct (filterByMSISDN_spec (query "msisdn") page pageSize f v) as (x & n & -> & Hx). rewrite <- (at_tick_tick n n v).
  assert (Hk : serves (match x with inl response => ret (response, []) | inr f => listFiltered parse parseTime true query page pageSize f end)).
  { destruct x as [r|f']; [by apply serves_ret, Hx | apply serves_listFiltered]. }
  destruct (Hk (at_tick n v)) as (b & n' & Hb & Hc). exists b, n'. rewrite !at_tick_tick in *. by destruct x.
Qed.
Lemma serves_GetMessage id : serves (GetMessage parse true id).
Proof. unfold GetMessage, campaignOf. peeks_walk. Qed.
Lemma serves_summaryFor c : serves (summaryFor true byFailures c).
Proof. unfold summaryFor. peeks_walk. Qed.
Lemma serves_GetErrorSummary query : serves (GetErrorSummary parse true byFailures query).
Proof. unfold GetErrorSummary. peeks_walk; apply serves_summaryFor. Qed.
Lemma serves_UpdateSettings {A} (body : goerr + A) : serves (UpdateSettings body).
Proof. unfold UpdateSettings. peeks_walk. Qed.
Lemma serves_GetDebugCard id : serves (GetDebugCard parse newest counterRead true id).
Proof. unfold GetDebugCard. peeks_walk. Qed.
Lemma serves_GetDebugCampaign id : serves (GetDebugCampaign parse true id).
Proof. unfold GetDebugCampaign, campaignWithCommands. peeks_walk. Qed.
Lemma serves_GetDebugMessage id : serves (GetDebugMessage parse true id).
Proof. unfold GetDebugMessage. peeks_walk. Qed.
Lemma serves_GetDebugQueues : serves (GetDebugQueues true channelStats).
Proof. unfold GetDebugQueues. peeks_walk. Qed.
Lemma serves_GetDebugStuck : serves (GetDebugStuck true).
Proof. unfold GetDebugStuck. peeks_walk. Qed.
End Handlers.

(** ** Requests *)

Inductive ViewRequest :=
  | ReqCard (id : string) | ReqCardCounters (id : string) | ReqCampaigns (query : string -> string)
  | ReqKPIs | ReqActivity | ReqThroughput (query : string -> string)
  | ReqHealth | ReqMessages (query : string -> string) | ReqMessage (id : string) | ReqErrors (query : string -> string)
  | ReqSettings | ReqUpdateSettings (body : goerr + settings)
  | ReqDebugCard (id : string) | ReqDebugCampaign (id : string) | ReqDebugMessage (id : string) | ReqDebugQueues | ReqDebugStuck.

Section Requests.
Context (parse castUUID : string -> option string) (fold : string -> string) (parseTime : string -> option Z).
Context (newest : forall A, list A -> list A) (byFailures : list campaignErrorCount -> list campaignErrorCount).
Context (counterRead : bool) (channelStats : option Channels).

Definition status {A} (m : VM (Response.t * A)) : VM Response.t := do! r <- m; ret (fst r).

(** What a request is answered with, the data apart. *)
Definition serve (q : ViewRequest) : VM Response.t :=
  match q with
  | ReqCard id => status (GetCard parse castUUID counterRead true id)
  | ReqCardCounters id => status (GetCardCounters parse castUUID counterRead id)
  | ReqCampaigns query => status (ListCampaigns fold newest true query)
  | ReqKPIs => status (GetDashboardKPIs true)
  | ReqActivity => status (GetRecentActivity true)
  | ReqThroughput query => status (GetSMSThroughput parse true query)
  | ReqHealth => status GetSystemHealth
  | ReqMessages query => status (ListMessages parse parseTime true query)
  | ReqMessage id => status (GetMessage parse true id)
  | ReqErrors query => status (GetErrorSummary parse true byFailures query)
  | ReqSettings => status GetSettings
  | ReqUpdateSettings body => status (UpdateSettings body)
  | ReqDebugCard id => status (GetDebugCard parse newest counterRead true id)
  | ReqDebugCampaign id => status (GetDebugCampaign parse true id)
  | ReqDebugMessage id => status (GetDebugMessage parse true id)
  | ReqDebugQueues => status (GetDebugQueues true channelStats)
  | ReqDebugStuck => status (GetDebugStuck true)
  end.

Lemma serve_kpi v : exists n k r, serve ReqKPIs v = (Ok r, set_vw_kpi k (at_tick n v)) /\ Response.Code r ∈ codes.
Proof.
  destruct (GetDashboardKPIs_spec v) as (kpi & n & k & E & _). exists n, k, (ok_ 200 []). cbn [serve]. unfold status, bindM. rewrite E.
  split; [done|]. by left.
Qed.

Lemma serve_reads q v : q <> ReqKPIs -> exists n r, serve q v = (Ok r, at_tick n v) /\ Response.Code r ∈ codes.
Proof.
  assert (Hs : forall {A} (m : VM (Response.t * A)), serves m -> exists n r, status m v = (Ok r, at_tick n v) /\ Response.Code r ∈ codes).
  { intros A m Hm. destruct (Hm v) as (r & n & E & Hc). exists n, (fst r). unfold status, bindM. by rewrite E. }
  intros Hq. destruct q; cbn [serve]; try done; apply Hs; try apply serves_answer.
  all: auto using serves_GetCard, serves_GetCardCounters, serves_ListCampaigns, serves_GetRecentActivity, serves_GetSMSThroughput,
    serves_GetSystemHealth, serves_ListMessages, serves_GetMessage, serves_GetErrorSummary, serves_UpdateSettings,
    serves_GetDebugCard, serves_GetDebugCampaign, serves_GetDebugMessage, serves_GetDebugQueues, serves_GetDebugStuck.
Qed.


(** ** The age of the dashboard *)

(** A life of the control plane as the dashboard sees it: its own requests, and anything else that happens -- other handlers, the
    engine, the clock -- which does not touch the figures kept. *)
Inductive visit : Views -> Views -> Prop :=
  | visit_serve q v : visit v (snd (serve q v))
  | visit_other v v' : vw_kpi v' = vw_kpi v -> visit v v'.

Definition dated (v : Views) : Prop := forall kpi until_, vw_kpi v = Some (kpi, until_) -> until_ = KPI.RefreshedAt kpi + twoSeconds.

(** The time in the figures is the one given. *)
Lemma refreshKPIs_at t v kpi v' : refreshKPIs true t v = (Ok kpi, v') -> KPI.RefreshedAt kpi = t.
Proof. unfold refreshKPIs. intros H. do 12 apply bind_inv in H as (? & ? & _ & H). by injection H as <- _. Qed.

Lemma visit_dated v v' : visit v v' -> dated v -> dated v'.
Proof.
  intros [q v0|v0 v1 E] Hd; [|by intros kpi u; rewrite E; apply Hd].
  assert (q = ReqKPIs \/ q <> ReqKPIs) as [->|Hq] by (destruct q; auto).
  - destruct (GetDashboardKPIs_spec v0) as (kpi & n & k & E & Hk). cbn [serve]. unfold status, bindM. rewrite E. intros kpi' u. cbn.
    destruct Hk as [[-> _]|(-> & _ & n' & Hr)]; [apply Hd|]. intros [= <- <-]. by rewrite (refreshKPIs_at _ _ _ _ Hr).
  - destruct (serve_reads q v0 Hq) as (n & r & -> & _). exact Hd.
Qed.

(** C31: the dashboard is at most two seconds old.  In every life of the control plane, whatever requests are served and whatever
    fails, the figures the dashboard answers with were taken from the tables less than two seconds before the request: either
    just now, or earlier and kept. *)
Theorem dashboard_is_recent v0 v d r v' :
  vw_kpi v0 = None -> rtc visit v0 v -> GetDashboardKPIs true v = (Ok (r, Some d), v') ->
  clock v < KPI.RefreshedAt (dash_kpi d) + twoSeconds /\
  (KPI.RefreshedAt (dash_kpi d) = clock v \/ exists until_, vw_kpi v = Some (dash_kpi d, until_) /\ vw_kpi v' = vw_kpi v).
Proof.
  intros H0 Hrtc Hrun. assert (Hd : dated v).
  { assert (Hd0 : dated v0) by (by intros ? ? ?; congruence). clear -Hrtc Hd0. induction Hrtc; eauto using visit_dated. }
  destruct (GetDashboardKPIs_spec v) as (kpi & n & k & E & Hk). rewrite E in Hrun. injection Hrun as <- <- <-. cbn.
  destruct Hk as [[-> Hkept]|(-> & _ & n' & Hr)].
  - unfold keptKPI in Hkept. destruct (vw_kpi v) as [[kpi' u]|] eqn:Ek; [|done]. destruct (clock v <? u) eqn:El; [|done].
    injection Hkept as ->. apply Z.ltb_lt in El. rewrite <- (Hd _ _ Ek). split; [done|]. right. by exists u.
  - rewrite (refreshKPIs_at _ _ _ _ Hr). unfold twoSeconds. split; [lia | by left].
Qed.
End Requests.

(** ** The figures *)

Lemma counted_run f v : faultless (sysOf v) -> counted f v = (Ok (f (vw_api (at_tick (S (tick (sysOf v))) v))), at_tick (S (tick (sysOf v))) v).
Proof. intros Hf. unfold counted, dropped, bindM, try, on_api, readApi, ask, bindM. cbn. by rewrite Hf. Qed.
Lemma metricsSince_run t0 v :
  faultless (sysOf v) -> metricsSince true t0 v = (Ok (metricsOf (filter (since t0 None) (vw_history v))), at_tick (S (tick (sysOf v))) v).
Proof.
  intros Hf. unfold metricsSince, dropped, bindM, try, queried, on_history, messageMetrics, mwrap, queryTable, ask, bindM. cbn. by rewrite Hf.
Qed.

Lemma faultless_at_tick n v : faultless (sysOf v) -> faultless (sysOf (at_tick n v)).
Proof. intros H k. exact (H k). Qed.

(** The figures of the tables at time [t]. *)
Definition figures (t : Z) (v : Views) : KPI.t :=
  let a := vw_api v in
  let day := metricsOf (filter (since (t - oneDay) None) (vw_history v)) in
  KPI.mk (countCards anyStatus a) (countCards (hasStatus "active") a) (countCards (hasStatus "inactive") a) (countCards (hasStatus "blocked") a)
    (countCampaigns anyStatus a) (countCampaigns (hasStatus "running") a) (countCampaigns closedStatuses a) (countCampaigns (hasStatus "failed") a)
    (MessageMetrics.Total day) (MessageMetrics.MT day) (MessageMetrics.MO day) (MessageMetrics.Delivered day) (MessageMetrics.Undelivered day)
    (Z.of_nat (size (ap_caps a))) (Z.of_nat (size (ap_scripts a))) t
    (MessageMetrics.MT (metricsOf (filter (since (startOfDay t) None) (vw_history v)))).

Lemma refreshKPIs_run t v : faultless (sysOf v) -> exists v', refreshKPIs true t v = (Ok (figures t v), v').
Proof.
  intros Hf. unfold refreshKPIs.
  repeat (erewrite run_bind; [|first [apply counted_run | apply metricsSince_run]; exact Hf]). by eexists.
Qed.

(** Filters that split a list. *)
Lemma count_or {A} (P Q : A -> bool) l :
  (forall x, P x = true -> Q x = false) ->
  zlen (filter (fun x => P x = true) l) + zlen (filter (fun x => Q x = true) l) = zlen (filter (fun x => P x || Q x = true) l).
Proof.
  intros Hd. unfold zlen. induction l as [|x l IH]; [done|]. rewrite !filter_cons. specialize (Hd x).
  repeat case_decide; cbn; destruct (P x), (Q x); naive_solver lia.
Qed.
Lemma count_ext {A} (P Q : A -> bool) l : (forall x, x ∈ l -> P x = Q x) ->
  zlen (filter (fun x => P x = true) l) = zlen (filter (fun x => Q x = true) l).
Proof. intros H. unfold zlen. do 2 f_equal. apply filter_ext_in. intros x Hx. by rewrite H. Qed.

(** Every card has one of the three statuses. *)
Lemma cards_by_status a : map_Forall (fun _ c => Card.Status c ∈ cardStatuses) (cards (cardsDb a)) ->
  countCards (hasStatus "active") a + countCards (hasStatus "inactive") a + countCards (hasStatus "blocked") a = countCards anyStatus a.
Proof.
  intros Hs. unfold countCards.
  rewrite (count_or (fun c => hasStatus "active" (Card.Status c)) (fun c => hasStatus "inactive" (Card.Status c))),
    (count_or (fun c => hasStatus "active" (Card.Status c) || hasStatus "inactive" (Card.Status c)) (fun c => hasStatus "blocked" (Card.Status c))).
  - apply count_ext. intros c Hc. apply list_elem_of_fmap in Hc as ((id & c') & -> & Hc). apply elem_of_map_to_list in Hc. cbn.
    pose proof (Hs id c' Hc) as Hst. unfold cardStatuses in Hst. unfold hasStatus, anyStatus.
    rewrite !orb_true_iff, !bool_decide_eq_true. set_solver.
  - intros c. unfold hasStatus. rewrite orb_true_iff, !bool_decide_eq_true, bool_decide_eq_false. intros [-> | ->]; done.
  - intros c. unfold hasStatus. rewrite bool_decide_eq_true, bool_decide_eq_false. by intros ->.
Qed.

(** What the dashboard calls pending: neither running nor closed. *)
Definition neitherRunningNorClosed (s : string) : bool := bool_decide (s ∉ ["running"; "completed"; "completed_with_errors"; "failed"]).

Ltac by_status c :=
  unfold hasStatus, closedStatuses, neitherRunningNorClosed, anyStatus; generalize (Campaign.Status c); intros st;
  rewrite ?orb_true_iff, ?bool_decide_eq_true, ?bool_decide_eq_false, ?not_elem_of_cons, ?elem_of_cons, ?elem_of_nil;
  intuition (subst; try discriminate).

Lemma campaigns_by_status a :
  countCampaigns anyStatus a = countCampaigns (hasStatus "running") a + countCampaigns closedStatuses a + countCampaigns (hasStatus "failed") a
    + countCampaigns neitherRunningNorClosed a.
Proof.
  unfold countCampaigns. set (l := snd <$> _). symmetry.
  rewrite (count_or (fun c => hasStatus "running" (Campaign.Status c)) (fun c => closedStatuses (Campaign.Status c))) by (intros c; by_status c).
  rewrite (count_or (fun c => hasStatus "running" (Campaign.Status c) || closedStatuses (Campaign.Status c))
             (fun c => hasStatus "failed" (Campaign.Status c))) by (intros c; by_status c).
  rewrite (count_or (fun c => (hasStatus "running" (Campaign.Status c) || closedStatuses (Campaign.Status c)) || hasStatus "failed" (Campaign.Status c))
             (fun c => neitherRunningNorClosed (Campaign.Status c))) by (intros c; by_status c).
  apply count_ext. intros c _. unfold hasStatus, closedStatuses, neitherRunningNorClosed, anyStatus.
  repeat case_bool_decide; try done. exfalso. set_solver.
Qed.

(** Messages since a later time are fewer. *)
Lemma since_mono (P : HistoryRow.t -> Prop) `{!forall r, Decision (P r)} t0 t1 l :
  t0 <= t1 -> count P (filter (since t1 None) l) <= count P (filter (since t0 None) l).
Proof.
  intros Ht. unfold count, zlen. induction l as [|r l IH]; [done|]. rewrite !(filter_cons (since _ _)).
  destruct (decide (since t1 None r)) as [[H1 _]|]; destruct (decide (since t0 None r)) as [|H0].
  - rewrite !filter_cons. case_decide; cbn; lia.
  - destruct H0. split; [lia | by left].
  - rewrite filter_cons. case_decide; cbn; lia.
  - done.
Qed.

Lemma startOfDay_bound t : t - oneDay < startOfDay t <= t.
Proof. unfold startOfDay. pose proof (Z.mod_pos_bound t oneDay eq_refl). lia. Qed.

(** The dashboard's figures are those of the tables and add up.  When its statements succeed and no figures are kept, the answer holds
    exactly the figures of the tables at that moment; active, inactive and blocked cards are all cards; the four groups of campaigns are
    all campaigns, the group shown as pending being those neither running nor closed -- paused and aborted ones with them; and
    the messages of today are among those of the last 24 hours. *)
Theorem dashboard_figures_add_up v :
  faultless (sysOf v) -> map_Forall (fun _ c => Card.Status c ∈ cardStatuses) (cards (cardsDb (vw_api v))) -> keptKPI v (clock v) = None ->
  exists d v', GetDashboardKPIs true v = (Ok (ok_ 200 [], Some d), v') /\ dash_kpi d = figures (clock v) v /\
    KPI.ActiveCards (dash_kpi d) + KPI.InactiveCards (dash_kpi d) + KPI.BlockedCards (dash_kpi d) = KPI.TotalCards (dash_kpi d) /\
    KPI.TotalCards (dash_kpi d) = Z.of_nat (size (cards (cardsDb (vw_api v)))) /\
    dash_pending d = countCampaigns neitherRunningNorClosed (vw_api v) /\
    0 <= KPI.MessagesToday (dash_kpi d) <= KPI.MTMessages (dash_kpi d).
Proof.
  intros Hf Hs Hk. destruct (GetDashboardKPIs_spec v) as (kpi & n & k & E & Hc). exists (dashboardOf kpi). eexists. split; [exact E|]. cbn.
  destruct Hc as [[_ Hc]|(_ & _ & n' & Hr)]; [congruence|].
  destruct (refreshKPIs_run (clock v) (at_tick (S (tick (sysOf v))) v) (faultless_at_tick _ _ Hf)) as (v' & Hr'). rewrite Hr' in Hr. injection Hr as <- _.
  change (figures (clock v) (at_tick (S (tick (sysOf v))) v)) with (figures (clock v) v). split; [done|]. cbn.
  split; [by apply cards_by_status|]. split.
  { unfold countCards, zlen. by rewrite filter_all, length_fmap, length_map_to_list by done. }
  split; [rewrite (campaigns_by_status (vw_api v)); lia|]. pose proof (startOfDay_bound (clock v)). split; [apply Zle_0_nat|].
  apply since_mono. lia.
Qed.

(** ** Stuck work *)

Lemma filter_nothing {A} (P : A -> Prop) `{!forall x, Decision (P x)} (l : list A) : (forall x, x ∈ l -> ~ P x) -> filter P l = [].
Proof.
  induction l as [|x l IH]; intros Hp; [done|]. rewrite filter_cons_False by (apply Hp; by left). apply IH. intros y Hy. apply Hp. by right.
Qed.

(** A read of the tables through [orFail] in a run without faults. *)
Lemma orFail_run {A B} text (m : VM B) (k : B -> VM (Response.t * option A)) v b v' : m v = (Ok b, v') -> orFail text m k v = k b v'.
Proof. intros E. unfold orFail, bindM, try. by rewrite E. Qed.

Lemma on_readApi_run {A} (f : Api -> A) v :
  faultless (sysOf v) -> on_api (readApi f) v = (Ok (f (vw_api (at_tick (S (tick (sysOf v))) v))), at_tick (S (tick (sysOf v))) v).
Proof. intros Hf. unfold on_api, readApi, ask, bindM. cbn. by rewrite Hf. Qed.

(** The map of the batch read. *)
Definition batchOf (ids : list string) (d : Database) : gmap string CampaignStats.t :=
  foldl (fun out kv => <[fst kv := statsOfRow (snd kv)]> out) ∅ (filter (fun kv => fst kv ∈ ids) (map_to_list (campaign_stats d))).

Lemma batch_run ids v :
  faultless (sysOf v) -> exists n, on_query (CampaignStatsBatch ids) v = (Ok (batchOf ids (cardsDb (vw_api v))), at_tick n v).
Proof.
  intros Hf. destruct ids as [|id ids].
  - exists (tick (sys v)). rewrite (at_tick_same v). unfold batchOf. 
    rewrite filter_nothing by (intros; apply not_elem_of_nil). by destruct v as [[[] ] ].
  - eexists. unfold on_query, on_api, on_ctl, on_sys, CampaignStatsBatch, mwrap, query, ask, bindM. cbn -[batchOf]. by rewrite Hf.
Qed.

Lemma foldl_insert_lookup (rows : list (string * CampaignStatsRow.t)) (m : gmap string CampaignStats.t) id x :
  foldl (fun out kv => <[fst kv := statsOfRow (snd kv)]> out) m rows !! id = Some x ->
  m !! id = Some x \/ exists row, (id, row) ∈ rows /\ x = statsOfRow row.
Proof.
  revert m. induction rows as [|[k row] rows IH]; intros m H; cbn in H; [by left|].
  destruct (IH _ H) as [Hm|(row' & Hin & ->)]; [|right; exists row'; split; [by right | done]].
  apply lookup_insert_Some in Hm as [[-> <-]|[_ Hm]]; [|by left]. right. exists row. split; [by left | done].
Qed.

Lemma batch_sound ids d id x : batchOf ids d !! id = Some x -> exists row, campaign_stats d !! id = Some row /\ x = statsOfRow row.
Proof.
  intros H. apply foldl_insert_lookup in H as [H|(row & Hin & ->)]; [by rewrite lookup_empty in H|].
  exists row. split; [|done]. apply list_elem_of_filter in Hin as [_ Hin]. by apply elem_of_map_to_list.
Qed.

(** What GetDebugStuck answers when its statements succeed. *)
Lemma GetDebugStuck_run v :
  faultless (sysOf v) ->
  let running := filter (fun c => Campaign.Status c = "running") (snd <$> map_to_list (campaigns (cardsDb (vw_api v)))) in
  let cutoff := clock v - fiveMinutes in
  exists v', GetDebugStuck true v =
    (Ok (ok_ 200 [], Some (mkStuck (staleRunning (batchOf (Campaign.ID <$> running) (cardsDb (vw_api v))) running)
           (staleShards "publishing" CampaignShard.UpdatedAt cutoff (vw_api v)) (staleShards "pending" CampaignShard.CreatedAt cutoff (vw_api v)))), v').
Proof.
  intros Hf running cutoff. unfold GetDebugStuck. set (v1 := at_tick (S (tick (sysOf v))) v).
  rewrite (run_bind now _ v (clock v) v1) by done. erewrite orFail_run by (apply on_readApi_run; exact Hf).
  set (v2 := at_tick _ v1). destruct (batch_run (Campaign.ID <$> running) v2 (faultless_at_tick _ _ Hf)) as (n & Hb).
  rewrite (orFail_run _ (queried true _) _ _ _ _ Hb). erewrite orFail_run by (apply on_readApi_run; by do 3 apply faultless_at_tick).
  erewrite orFail_run by (apply on_readApi_run; by do 4 apply faultless_at_tick). by eexists.
Qed.

Lemma taken {A} n (l : list A) x : x ∈ take n l -> x ∈ l.
Proof. intros Hx. rewrite <- (take_drop n l), elem_of_app. by left. Qed.

Lemma staleShards_old st col cutoff a sh : sh ∈ staleShards st col cutoff a -> CampaignShard.Status sh = st /\ col sh < cutoff /\ sh ∈ shardsOf a.
Proof.
  intros Hin. apply taken in Hin. rewrite merge_sort_Permutation in Hin. apply list_elem_of_filter in Hin. tauto.
Qed.


(** ** Queues *)

Lemma foldl_insert_other (rows : list (string * CampaignStatsRow.t)) (m : gmap string CampaignStats.t) id :
  id ∉ rows.*1 -> foldl (fun out kv => <[fst kv := statsOfRow (snd kv)]> out) m rows !! id = m !! id.
Proof.
  revert m. induction rows as [|[k r] rows IH]; intros m Hid; [done|]. cbn in *. apply not_elem_of_cons in Hid as [Hk Hid].
  rewrite IH by done. by rewrite lookup_insert_ne.
Qed.

Lemma foldl_insert_some (rows : list (string * CampaignStatsRow.t)) (m : gmap string CampaignStats.t) id row :
  NoDup rows.*1 -> (id, row) ∈ rows -> foldl (fun out kv => <[fst kv := statsOfRow (snd kv)]> out) m rows !! id = Some (statsOfRow row).
Proof.
  revert m. induction rows as [|[k r] rows IH]; intros m Hnd Hin; [by apply not_elem_of_nil in Hin|]. cbn in *.
  apply NoDup_cons in Hnd as [Hk Hnd]. apply elem_of_cons in Hin as [[= -> ->]|Hin]; [|by apply IH].
  rewrite foldl_insert_other by done. apply lookup_insert_eq.
Qed.

(** The statistics of a campaign as the batch read has them. *)
Lemma batch_lookup ids d id :
  id ∈ ids -> batchOf ids d !! id = statsOfRow <$> campaign_stats d !! id.
Proof.
  intros Hid. destruct (campaign_stats d !! id) as [row|] eqn:E.
  - apply foldl_insert_some; [|apply list_elem_of_filter; split; [done | by apply elem_of_map_to_list]].
    eapply sublist_NoDup; [apply (NoDup_fst_map_to_list (campaign_stats d)) | apply fmap_sublist, sublist_filter].
  - cbn. destruct (batchOf ids d !! id) as [x|] eqn:Eb; [|done]. apply batch_sound in Eb as (row & Hr & _). congruence.
Qed.

(** One group of shards, if it is not empty. *)
Definition groupOf (k : string * string) (l : list CampaignShard.t) : option (Z * option Z) :=
  match filter (inGroup k) l with [] => None | rows => Some (zlen rows, minimum (CampaignShard.CreatedAt <$> rows)) end.

Definition rowKeyOf (r : shardRow) : string * string := (sr_campaign r, sr_status r).

Lemma byCampaign_lookup rows m c st :
  NoDup (rowKeyOf <$> rows) ->
  default ∅ (foldl (fun m r => <[sr_campaign r := <[sr_status r := (sr_count r, sr_oldest r)]> (default ∅ (m !! sr_campaign r))]> m) m rows !! c) !! st =
    match list_find (fun r => rowKeyOf r = (c, st)) rows with
    | Some (_, r) => Some (sr_count r, sr_oldest r)
    | None => default ∅ ((m : gmap string (gmap string (Z * option Z))) !! c) !! st
    end.
Proof.
  revert m. induction rows as [|r rows IH]; intros m Hnd; [done|]. cbn [foldl list_find fmap list_fmap] in *. apply NoDup_cons in Hnd as [Hr Hnd].
  rewrite IH by done. case_decide as Hk.
  - injection Hk as <- <-. destruct (list_find _ rows) as [[i r']|] eqn:E; cbn.
    + apply list_find_Some in E as (Hi & Hk & _). destruct Hr. unfold rowKeyOf at 1. rewrite <- Hk. by eapply list_elem_of_fmap_2, list_elem_of_lookup_2.
    + by rewrite lookup_insert_eq; cbn; rewrite lookup_insert_eq.
  - destruct (list_find _ rows) as [[i r']|] eqn:E; cbn; [done|]. destruct (decide (sr_campaign r = c)) as [<-|Hc].
    + rewrite lookup_insert_eq. cbn. unfold rowKeyOf in Hk. by rewrite lookup_insert_ne by congruence.
    + by rewrite lookup_insert_ne.
Qed.

Lemma groupShards_keys l : rowKeyOf <$> groupShards l = remove_dups ((fun s => (CampaignShard.CampaignID s, CampaignShard.Status s)) <$> l).
Proof.
  unfold groupShards. rewrite <- list_fmap_compose. induction (remove_dups _) as [|[c st] ks IH]; [done|]. cbn. by rewrite IH.
Qed.

Lemma queues_lookup l c st : default ∅ (byCampaign (groupShards l) !! c) !! st = groupOf (c, st) l.
Proof.
  unfold byCampaign. rewrite byCampaign_lookup by (rewrite groupShards_keys; apply NoDup_remove_dups). cbn.
  destruct (list_find _ (groupShards l)) as [[i r]|] eqn:E.
  - apply list_find_Some in E as (Hi & Hk & _). apply list_elem_of_lookup_2, list_elem_of_fmap in Hi as (k & -> & Hin).
    destruct k as [c' st']. injection Hk as -> ->. apply elem_of_remove_dups, list_elem_of_fmap in Hin as (s & Hs & Hin).
    cbn. unfold groupOf. assert (Hne : s ∈ filter (inGroup (c, st)) l) by (by apply list_elem_of_filter).
    destruct (filter _ l); [by apply not_elem_of_nil in Hne | done].
  - rewrite lookup_empty. cbn. rewrite lookup_empty. unfold groupOf. rewrite filter_nothing; [done|]. intros s Hs Hg.
    apply list_find_None in E. rewrite Forall_forall in E. unfold inGroup in Hg.
    assert (Hin : (c, st) ∈ rowKeyOf <$> groupShards l) by (rewrite groupShards_keys, elem_of_remove_dups, <- Hg; apply list_elem_of_fmap; by exists s).
    apply list_elem_of_fmap in Hin as (r & Hr & Hin). by apply (E r Hin).
Qed.

(** The queue report is exact.  When its statements succeed, GetDebugQueues lists every campaign once with the counters of its
    row, zero if there is none, and for each status exactly the number of its shards in that status with the oldest time of
    creation among them, no entry where there are none; the loop that nests the grouped rows loses none. *)
Theorem debug_queues_exact channelStats v :
  faultless (sysOf v) ->
  exists items v', GetDebugQueues true channelStats v = (Ok (ok_ 200 [], Some (items, ChannelDepths <$> channelStats)), v') /\
    qi_campaign <$> items = snd <$> map_to_list (campaigns (cardsDb (vw_api v))) /\
    Forall (fun it => let c := Campaign.ID (qi_campaign it) in
      qi_stats it = default CampaignStats.zero (statsOfRow <$> campaign_stats (cardsDb (vw_api v)) !! c) /\
      forall st, qi_shards it !! st = groupOf (c, st) (shardsOf (vw_api v))) items.
Proof.
  intros Hf. unfold GetDebugQueues. set (all := snd <$> map_to_list (campaigns (cardsDb (vw_api v)))).
  erewrite orFail_run by (apply on_readApi_run; exact Hf). set (v1 := at_tick _ v).
  destruct (batch_run (Campaign.ID <$> all) v1 (faultless_at_tick _ _ Hf)) as (n & Hb).
  change (snd <$> map_to_list (campaigns (cardsDb (vw_api v1)))) with all.
  rewrite (orFail_run _ (queried true _) _ _ _ _ Hb). erewrite orFail_run by (apply on_readApi_run; by do 2 apply faultless_at_tick).
  do 2 eexists. split; [reflexivity|]. change (shardsOf (vw_api (at_tick _ (at_tick n v1)))) with (shardsOf (vw_api v)).
  change (cardsDb (vw_api v1)) with (cardsDb (vw_api v)). split.
  - rewrite <- list_fmap_compose. apply list_fmap_id.
  - apply Forall_fmap, Forall_forall. intros c Hc. cbn. split; [|intros st; apply queues_lookup].
    rewrite batch_lookup; [done|]. apply list_elem_of_fmap. by exists c.
Qed.

(** ** The error summary *)

(** The error summary names the campaigns that failed most.  Whatever order the map is walked in, the campaigns of the summary have failed cards
    and come in order of their failures, twenty at most; a campaign with failed cards that is left out has
    no more failures than any that is named, and is left out only when twenty are named. *)
Theorem error_summary_names_the_worst byFailures names stats e :
  failuresOrder byFailures -> e ∈ ((fun kv => mkErrorCount (fst kv) (default "" (names !! fst kv)) (CampaignStats.Failed (snd kv))) <$> map_to_list stats) ->
  ec_failed e <> 0 ->
  let named := campaignErrors byFailures names stats in
  StronglySorted moreFailures named /\ Forall (fun x => ec_failed x <> 0) named /\ (length named <= 20)%nat /\
  (e ∈ named \/ length named = 20%nat /\ Forall (fun x => ec_failed e <= ec_failed x) named).
Proof.
  intros Ho He Hne named. set (all := filter (fun e => ec_failed e <> 0)
    ((fun kv => mkErrorCount (fst kv) (default "" (names !! fst kv)) (CampaignStats.Failed (snd kv))) <$> map_to_list stats)).
  assert (Hall : e ∈ byFailures all) by (rewrite failures_perm; by apply list_elem_of_filter).
  pose proof (failures_sorted all) as Hsort. change named with (take 20 (byFailures all)) in *. clearbody named.
  rewrite <- (take_drop 20 (byFailures all)) in Hall, Hsort. apply StronglySorted_app in Hsort as (Hcross & Hsort & _).
  split; [done|]. split.
  { apply Forall_forall. intros x Hx%taken. rewrite failures_perm in Hx. by apply list_elem_of_filter in Hx as [? _]. }
  split; [rewrite length_take; lia|]. apply elem_of_app in Hall as [Hin|Hin]; [by left|]. right. split.
  - rewrite length_take. assert (Hd : (0 < length (drop 20 (byFailures all)))%nat) by (destruct (drop _ _); [by apply not_elem_of_nil in Hin | cbn; lia]).
    rewrite length_drop in Hd. lia.
  - apply Forall_forall. intros x Hx. by apply (Hcross x e).
Qed.

(** ** Witnesses *)

Module ViewScenario.
Import ControlScenario.

(** Nothing fails; the clock goes on by a nanosecond a question, from 400 seconds. *)
Definition environment (d : Database) : Sys :=
  let y := quiet_sys d in
  {| sys_now n := 400 * 1000000000 + Z.of_nat n; sys_uuid := sys_uuid y; sys_rand := sys_rand y; sys_fault := sys_fault y;
     sys_ctx := sys_ctx y; sys_full := sys_full y; sys_allow := sys_allow y; tick := 0; db := d |}.

(** The campaign has come to its end and is still running; one shard is being published, two are published. *)
Definition before : Control :=
  set_cp_sys (environment (database "running" [row "card-1" "completed" 0 2; row "card-2" "failed" 0 2] {[ "camp-1" := stats 0 0 1 1 ]}))
    (control (database "running" [] ∅) [shard "shard-1" "publishing" 1 []; shard "shard-2" "published" 2 []; shard "shard-3" "published" 3 []]).

Definition message (id direction status : string) (dlr : option string) (at_ : Z) : HistoryRow.t :=
  HistoryRow.mk id (Some "camp-1") "card-1" direction status [] [] None None dlr None [] None at_ at_.

Definition views (ctl : Control) : Views :=
  mkViews (set_ap_ctl ctl ApiScenario.fresh)
    [message "msg-1" "MT" "delivered" (Some "DELIVRD") 0; message "msg-2" "MT" "submitted" (Some "UNDELIV") 1000; message "msg-3" "MO" "received" None 2000]
    (mkCaches {[ ("card-1", "app-1") := 4 ]} Counters.NewCounterStore [] ∅ ∅) None.

(** A state with the dashboard's figures already taken. *)
Definition looked : Views := snd (GetDashboardKPIs true (views before)).

Lemma looked_serve parse castUUID fold parseTime newest byFailures counterRead channelStats :
  looked = snd (serve parse castUUID fold parseTime newest byFailures counterRead channelStats ReqKPIs (views before)).
Proof.
  unfold looked. cbn [serve]. unfold status, bindM. destruct (GetDashboardKPIs_spec (views before)) as (kpi & n & k & E & _). by rewrite E.
Qed.

#[global] Instance moreFailures_dec a b : Decision (moreFailures a b).
Proof. unfold moreFailures. apply _. Defined.

#[global] Instance moreFailures_trans : Transitive moreFailures.
Proof. unfold moreFailures. intros a b c. lia. Qed.
#[global] Instance moreFailures_total : Total moreFailures.
Proof. unfold moreFailures. intros a b. lia. Qed.

Definition sorted (l : list campaignErrorCount) : list campaignErrorCount := merge_sort moreFailures l.
Lemma sorted_order : failuresOrder sorted.
Proof.
  split; intros l; [apply merge_sort_Permutation|]. apply (StronglySorted_merge_sort moreFailures l).
Qed.

Definition failing : gmap string CampaignStats.t :=
  {[ "camp-1" := CampaignStats.mk 9 0 0 4 5 0; "camp-2" := CampaignStats.mk 9 0 0 2 7 0; "camp-3" := CampaignStats.mk 9 0 0 9 0 0 ]}.
End ViewScenario.

Lemma dashboard_is_recent_witness :
  exists d r v', GetDashboardKPIs true ViewScenario.looked = (Ok (r, Some d), v') /\
    clock ViewScenario.looked < KPI.RefreshedAt (dash_kpi d) + twoSeconds.
Proof.
  destruct (GetDashboardKPIs_spec ViewScenario.looked) as (kpi & n & k & E & _). do 3 eexists. split; [exact E|].
  apply (dashboard_is_recent ControlScenario.parse ControlScenario.parse (fun s => s) ApiScenario.noTime (fun _ l => l) ViewScenario.sorted true None
           (ViewScenario.views ViewScenario.before) ViewScenario.looked _ (ok_ 200 []) (set_vw_kpi k (at_tick n ViewScenario.looked))).
  - reflexivity.
  - eapply rtc_l; [exact (visit_serve _ _ _ _ _ _ _ _ ReqKPIs _)|]. rewrite <- ViewScenario.looked_serve. apply rtc_refl.
  - exact E.
Defined.

Lemma dashboard_figures_add_up_witness :
  exists d v', GetDashboardKPIs true (ViewScenario.views ViewScenario.before) = (Ok (ok_ 200 [], Some d), v') /\ dash_pending d = 1.
Proof.
  destruct (dashboard_figures_add_up (ViewScenario.views ViewScenario.before)) as (d & v' & E & _ & _ & _ & Hp & _).
  - done.
  - by apply (bool_decide_unpack _); vm_compute.
  - reflexivity.
  - exists d, v'. split; [exact E|]. by rewrite Hp.
Defined.


Lemma debug_queues_exact_witness :
  exists items v', GetDebugQueues true (Some (mkChannels [] [] [] [] [] [])) (ViewScenario.views ViewScenario.before)
      = (Ok (ok_ 200 [], Some (items, Some (ChannelDepths (mkChannels [] [] [] [] [] [])))), v') /\
    qi_campaign <$> items = snd <$> map_to_list (campaigns (cardsDb (vw_api (ViewScenario.views ViewScenario.before)))) /\
    groupOf ("camp-1", "published") (shardsOf (vw_api (ViewScenario.views ViewScenario.before))) = Some (2, Some 0).
Proof.
  destruct (debug_queues_exact (Some (mkChannels [] [] [] [] [] [])) (ViewScenario.views ViewScenario.before)) as (items & v' & E & Hc & _); [done|].
  exists items, v'. split; [exact E|]. split; [exact Hc | reflexivity].
Defined.

Lemma error_summary_names_the_worst_witness :
  campaignErrors ViewScenario.sorted ∅ ViewScenario.failing = [mkErrorCount "camp-2" "" 7; mkErrorCount "camp-1" "" 5] /\
  StronglySorted moreFailures (campaignErrors ViewScenario.sorted ∅ ViewScenario.failing).
Proof.
  split; [vm_compute; reflexivity|].
  apply (error_summary_names_the_worst ViewScenario.sorted ∅ ViewScenario.failing (mkErrorCount "camp-1" "" 5)).
  - exact ViewScenario.sorted_order.
  - apply list_elem_of_fmap. exists ("camp-1", CampaignStats.mk 9 0 0 4 5 0). split; [done | by apply elem_of_map_to_list].
  - done.
Defined.

(** A count that fails is shown as zero: with the count of all campaigns failing (the fifth of the statements), the dashboard answers
    200 and shows minus one pending campaign. *)
Definition countFails : Views :=
  let y := cp_sys ViewScenario.before in
  ViewScenario.views (set_cp_sys
    {| sys_now := sys_now y; sys_uuid := sys_uuid y; sys_rand := sys_rand y;
       sys_fault n := if bool_decide (n = 5%nat) then Some (Errorf "connection reset" []) else None;
       sys_ctx := sys_ctx y; sys_full := sys_full y; sys_allow := sys_allow y; tick := 0; db := db y |} ViewScenario.before).

Lemma failed_count_shown_as_zero :
  match fst (GetDashboardKPIs true countFails) with
  | Ok (r, Some d) => Response.Code r = 200 /\ KPI.TotalCampaigns (dash_kpi d) = 0 /\ dash_pending d = -1
  | _ => False
  end.
Proof. vm_compute. auto. Qed.
